(* ===== verification/_CoqProject ===== *)
-Q . S2P
Prelude.v
Trees.v
EvmEvents.v
TraceTypes.v
Serialization.v
EventCodec.v
EvmUtils.v
CallList.v
CallTree.v
CallListSpec.v
CallListLegacy.v
CallListTypes.v
CallListSafety.v
CallListTests.v
CallTracer.v
CallTracerLoop.v
TraceJson.v
Formatters.v
RawListener.v
RawSpec.v
RpcTypes.v
RpcRequests.v
TraceCache.v
TraceCacheSpec.v
CacheSystem.v
TraceFilter.v
CacheBlockSpec.v
DebugRpc.v
DebugSpec.v
ResponseJson.v
Blocks.v
Aura.v
AuraSpec.v
AuraChain.v
AuraNode.v
ManualSeal.v
ManualSealSpec.v
ManualSealChain.v
ManualSealTests.v
Babe.v
Treasury.v
TreasuryTests.v
Bags.v
Runtime.v
RuntimeConfig.v
RuntimeWiring.v
BagsFile.v
HostInterface.v
RuntimeApi.v
TraceEndToEnd.v
TraceRpc.v
TxPool.v
EthereumApi.v
RuntimeApis.v
Fixtures.v
Genesis.v
Specs.v
Service.v
Migrations.v
BuildScripts.v
