(* ===== verification/Prelude.v ===== *)
(** * Verification of the Edgeware node

    The Edgeware node is a blockchain node with an Ethereum virtual machine.  The
    repository holds what the node adds to its framework: the tracing of Ethereum
    transactions, three consensus engines, a pallet, the runtime with its
    configuration and migrations, the genesis of its networks, and the service
    that puts a node together.  This development models these parts and proves
    them correct; the framework, the EVM, the cryptography and the operating
    system are parameters.

    ** The parts and how they interact

    Tracing is the largest part.  To trace a block the RPC layer
    (client/rpc/trace, client/rpc/debug) asks the runtime (node/runtime) to replay
    its extrinsics.  While it does, the EVM's events (primitives/rpc/
    evm-tracing-events) reach a listener of client/evm-tracing, which builds a
    flat list of calls or one log per step; a formatter turns that into the
    answer's form.  A task caches the traces of blocks for trace_filter and
    spawns a task per block, which shares a pool of permits with the debug task.

    Blocks are authored and verified by Aura (node/consensus-transition/aura), or
    sealed on command (node/consensus-transition/manual-seal) with the digests of
    Aura or Babe.  At the end of a block the treasury pallet
    (pallets/edge-treasury-reward) mints its reward.  Ethereum transactions enter
    the pool as extrinsics of the runtime and are shown by client/rpc/txpool.

    The command line (node/cli) loads a chain specification, whose genesis comes
    from the fixtures, and starts the tasks and RPC handlers (node/rpc).

    ** Files

    - Prelude.v: machine integers, panics, Rust's [Result], transition systems, the
      lemmas and tactics all files share.
    - Trees.v: trees with their pre-order and numbered maps, for specifications.
    - EvmEvents.v: primitives/rpc/evm-tracing-events/src/{lib,evm,gasometer,
      runtime}.rs.  Event types, their conversion, the class [Listener].
      EventCodec.v: their derived codec, over the class [LeafCodecs].  EvmUtils.v:
      the second copy of the types in evm_utils.rs.
    - TraceTypes.v, Serialization.v: client/evm-tracing/src/types.  TraceJson.v: the
      JSON that the derived code writes, over the classes [Unicode] and
      [EthereumSerde]; ResponseJson.v: the endpoints' answers as JSON.
    - CallList.v: client/evm-tracing/src/listeners/call_list.rs, the record
      [CallListListener] and one function per handler.  CallTree.v gives the call
      tree of an execution; CallListSpec.v, CallListLegacy.v, CallListTypes.v and
      CallListSafety.v relate the two.  CallListTests.v: the tests of the source.
    - CallTracer.v, CallTracerLoop.v, Formatters.v: client/evm-tracing/src/formatters.
    - RawListener.v, RawSpec.v: client/evm-tracing/src/listeners/raw.rs.
    - RpcTypes.v, RpcRequests.v: client/rpc-core/{types,trace,debug}, the parameters
      of requests and how they are read from JSON, over the class [RequestSerde].
    - TraceCache.v, TraceCacheSpec.v: the cache task of client/rpc/trace, as a
      transition system whose labels are the messages the task receives.
      CacheSystem.v: the task with the tracing tasks, permits and channel.
    - TraceFilter.v, CacheBlockSpec.v: [trace_filter] and the tracing of one block.
    - DebugRpc.v, DebugSpec.v: client/rpc/debug.
    - Blocks.v, Aura.v, AuraSpec.v: the Aura engine, over the class [AuraDigest].
      AuraChain.v: the chains nodes build with it, as a step relation.  AuraNode.v:
      the worker and the import queue as service.rs builds them.
    - ManualSeal.v, ManualSealSpec.v: the manual and instant seal engines.
      ManualSealChain.v: the chain they build over a client that keeps its blocks.
      ManualSealTests.v: the tests of the source and the progress of the engine, over
      the class [TestClient].
    - Babe.v: the Babe provider and verifier of manual seal, over the classes
      [BabeDigest] and [EpochChanges].
    - Treasury.v: the pallet, over the class [Currency].  TreasuryTests.v: its mock
      runtime and tests.
    - Bags.v, BagsFile.v: utils/frame/generate-bags and
      node/runtime/src/voter_bags.rs, the table and the text of the file.
    - Runtime.v, RuntimeConfig.v, RuntimeApi.v, EthereumApi.v, Migrations.v:
      node/runtime/src.  RuntimeConfig.v is over the class [EnsureOrigins].
      RuntimeWiring.v: which pallets handle what.  RuntimeApis.v: the APIs that
      forward to pallets, the benchmarks, and node/executor.
    - HostInterface.v: node/runtime-interface.
    - TraceEndToEnd.v: trace_filter from the endpoint to the runtime's replay.
      TraceRpc.v: the tracing methods from the JSON of a call to the JSON of its
      reply, over the class [JsonRpcServer].
    - TxPool.v: client/rpc/txpool and client/rpc-core/txpool, over the class [GetT].
    - Fixtures.v, Genesis.v, Specs.v: node/cli/src/{mainnet_fixtures,
      testnet_fixtures,chain_spec}.rs and [load_spec] of command.rs; Genesis.v
      also parses the options of node/cli-opt.
    - Service.v: node/cli/src/{cli,command,service}.rs, node/rpc/src/{lib,tracing}.rs.
    - BuildScripts.v: build.rs, node/runtime/build.rs and node/cli/build.rs.

    ** How code is modelled

    A struct is a record, an enum an inductive type, a function or handler a Rocq
    function with the source's name.  Code that may panic returns an [outcome], an
    error is a [result].  A [w]-bit integer is a [Z] with its overflow written out:
    a panic or a wrap-around, by the [BuildProfile].  Hashes and addresses are
    integers.  Maps are [gmap], bytes are lists of [Byte.byte].  Code outside the
    repository is a section variable; what is assumed of it is a hypothesis of the
    theorem or a law of a class, and a witness instantiates it.  Build features
    (fast-runtime, no-reaping, beresheet-runtime, evm-tracing) are booleans; the runtime's
    manifest does not declare the last one, and the theorems on tracing over the runtime
    say what happens with and without it.

    ** What the theorems show

    - Call list and callTracer: for every block of well-formed executions the
      listener records the calls of each transaction in pre-order
      ([call_list_block], and up to the type of the root [call_list_legacy_block] for
      the legacy version),
      from which callTracer rebuilds the nested calls ([call_tracer_nests]).  On
      arbitrary events no entry is overwritten unless a transaction leaves the result of a
      step to the next ([call_list_no_overwrite]), and
      every number keeps its width ([call_list_well_typed]); on arbitrary entries
      the formatter's loop ends, and when it panics is characterised
      ([call_tracer_terminates]).  The unit tests of the listener pass, for nested
      calls of every depth ([call_list_tests_pass]).
    - Formats: the events are read back from their bytes
      ([dec_enc_Event]); the JSON of an answer determines the trace
      ([trace_json_determines]) and can always be written, without a key twice; a
      request is read as what it means ([filter_request_read]); every call of the
      debug methods is replied ([debug_methods_reply]).
    - Raw traces: the logs are those of the execution ([raw_transaction]), with the
      storage specified by the accesses of the execution; no
      event order makes the listener panic ([raw_never_panics]); the flags are
      honoured ([raw_flags_and_storage]).
    - Endpoints: what debug_traceTransaction and debug_traceBlock answer for each
      tracer ([debug_transaction_calls], [debug_transaction_raw],
      [debug_block_calls]), also over the replay of the runtime
      ([debug_block_runtime]), and that the panics and bug errors are unreachable.
    - Cache and trace_filter: over every run of the cache task, counts are right
      ([cache_counts]), each request is answered once and with the traces of its
      block, unless a batch that holds the block is stopped or expires
      ([cache_answers_once]), and no event panics; together with its tracing tasks it
      always comes to rest with no task, message or request waiting and every permit free
      ([cache_liveness]).  trace_filter answers the requested slice of the matching
      traces ([trace_filter_slice]), within its limits ([trace_filter_bounded]),
      pages compose, and from the JSON of the request over the cache, the listener
      and the runtime's replay the JSON of the reply is that of the calls of the
      blocks ([trace_filter_replies]).
    - Aura: what a node authors another refuses only for its clock, an equivocation or
      the inherents ([aura_author_verify]); what it
      accepts was sealed by the slot's author ([aura_verify_sound]); in the chains
      nodes build, with authorities that may change at every block, no authority has
      more than its turns under one list ([aura_chain]); and the queue the service builds accepts
      what the worker it starts in another node authors ([node_blocks_accepted]).
    - Manual seal: the import and the answer agree, each command is answered once
      and in order, the answered blocks are on the chain ([sealed_blocks_stored]), a
      sequence of seals makes the chain grow by as many blocks ([engine_grows]), the
      tests of the source pass ([manual_seal_tests_pass]),
      mocked timestamps give consecutive slots; what is sealed with Babe's digests
      its verifier reads back ([babe_author_verify]).
    - Runtime: the powers of the council are ordered, and all but one need root or half
      of it ([governance_hierarchy]); an Ethereum transaction goes through conversion and
      pool unchanged and is dispatched as its signer
      ([ethereum_transaction_path]); what n upgrades do ([upgrades_credit]); what is
      built through the runtime's APIs executes on another node
      ([built_block_executes]); reports of offences end at staking
      ([reports_reach_staking]); minted amounts, proxy hierarchy, fees, gas.
    - Pool, bags, genesis and service: shown transactions, the committed table and
      file of thresholds ([voter_bags_generated]), a genesis with funded stakers for every
      specification, with two balances for one account on the main network
      ([load_spec_consistent]), and a node that serves what was asked
      for, and stays up unless the cache has no permits ([node_serves]).
    - Departures of the code from its intent, each as a theorem on the code as it
      is: [call_list_cost_of_first], [stale_result_overwrites], [cache_block_shifted],
      [cache_block_unfinished], [cache_early_removal], [raw_precompile_call],
      [stale_slot], [treasury_zero_interval], [babe_genesis_panics],
      [mainnet_config_twice], [upgrades_credit].

    ** Bounds and fuel

    Loops over data are structural.  Three loops have fuel: that of callTracer's
    formatter, whose rounds each shorten the vector of calls; that of
    [thresholds], whose rounds each add one of a given number of bags; and the
    chunks of [convert_memory], bounded by the length of the memory.  The fuel
    given is enough: [pop_and_push_fuel], [thresholds_loop_fuel] and
    [chunks_fuel_concat]; for the first, [call_tracer_terminates] is on the loop
    without fuel.  The steps of the cache and its tasks are bounded by the measure
    [pending] of CacheSystem.v.
    Theorems on counters assume that fewer than 2^64 (or 2^32) things were
    counted, and say so.

    ** Not modelled

    The codecs of integers, hashes and vectors, the strings of addresses and the
    upper case of letters outside ASCII, which are laws of classes; the JSON-RPC
    server, the framework's executive and the test client of manual seal, of which the
    laws that are used are stated; associated types of the pallets' configuration that
    only name a type of the framework (events, weights, codecs); the pallets' own
    migrations and checks, the dispatch of runtime calls by name and the benchmarks of
    the system pallet, which are parameters; errors of the file system; type aliases,
    trait bounds and re-exports; and node/executor/benches, which names crates that are
    not in the repository and does not build. *)

From stdpp Require Import base tactics list gmap strings pretty sorting.
From Stdlib Require Import ZArith Lia Strings.Byte.

#[global] Set Default Goal Selector "!".

(** ** Machine integers

    The node is built with and without overflow checks (the [dev] and
    [release] profiles of the workspace's Cargo.toml, which sets no
    [overflow-checks] itself).  Arithmetic on a [w]-bit unsigned integer is
    therefore relative to a profile: an overflow panics with the checks and
    wraps around without them.  Every theorem holds for both profiles unless
    it says otherwise. *)

Class BuildProfile := { overflow_checks : bool }.

Definition release : BuildProfile := {| overflow_checks := false |}.
Definition dev : BuildProfile := {| overflow_checks := true |}.

(** The result of running Rust code that may panic. *)
Inductive outcome (A : Type) : Type :=
| Ret (a : A)
| Panic.
Arguments Ret {A} a.
Arguments Panic {A}.

#[global] Instance outcome_ret : MRet outcome := λ A a, Ret a.
#[global] Instance outcome_bind : MBind outcome := λ A B k m,
  match m with Ret a => k a | Panic => Panic end.
#[global] Instance outcome_fmap : FMap outcome := λ A B f m,
  match m with Ret a => Ret (f a) | Panic => Panic end.

Definition outcome_or {A} (m : outcome A) (a : A) : A :=
  match m with Ret a => a | Panic => a end.

(** Rust's [Result]. *)
Inductive result (A E : Type) : Type :=
| Ok (a : A)
| Err (e : E).
Arguments Ok {A E} a.
Arguments Err {A E} e.

#[global] Instance result_eq_dec {A E} `{!EqDecision A, !EqDecision E} :
  EqDecision (result A E).
Proof. solve_decision. Defined.

#[global] Instance outcome_eq_dec {A} `{!EqDecision A} : EqDecision (outcome A).
Proof. solve_decision. Defined.

(** The [?] operator of Rust, on a [Result]. *)
Notation "x ←? m ; k" :=
  (match m with Ok x => k | Err e => Err e end)
  (at level 20, m at level 100, k at level 200, right associativity,
   format "x  ←?  m ;  '/' k").

Section machine_integers.
Context `{!BuildProfile}.
Local Open Scope Z_scope.

Definition add_w (w a b : Z) : outcome Z :=
  if a + b <? 2 ^ w then Ret (a + b)
  else if overflow_checks then Panic else Ret ((a + b) mod 2 ^ w).

Definition sub_w (w a b : Z) : outcome Z :=
  if b <=? a then Ret (a - b)
  else if overflow_checks then Panic else Ret ((a - b) mod 2 ^ w).

Lemma add_w_ok w a b : a + b < 2 ^ w → add_w w a b = Ret (a + b).
Proof. intros Hlt. unfold add_w. by rewrite (proj2 (Z.ltb_lt _ _) Hlt). Qed.

Lemma sub_w_ok w a b : b ≤ a → sub_w w a b = Ret (a - b).
Proof. intros Hle. unfold sub_w. by rewrite (proj2 (Z.leb_le _ _) Hle). Qed.

Lemma add_w_range w a b c :
  0 ≤ w → 0 ≤ a → 0 ≤ b → add_w w a b = Ret c → 0 ≤ c < 2 ^ w.
Proof.
  intros Hw Ha Hb. unfold add_w. pose proof (Z.pow_pos_nonneg 2 w).
  destruct (Z.ltb_spec (a + b) (2 ^ w)); [intros [= <-]; lia|].
  destruct overflow_checks; intros [= <-].
  apply Z.mod_pos_bound; lia.
Qed.

Lemma sub_w_range w a b c :
  0 ≤ w → a < 2 ^ w → 0 ≤ b → sub_w w a b = Ret c → 0 ≤ c < 2 ^ w.
Proof.
  intros Hw Ha Hb. unfold sub_w. pose proof (Z.pow_pos_nonneg 2 w).
  destruct (Z.leb_spec b a); [intros [= <-]; lia|].
  destruct overflow_checks; intros [= <-].
  apply Z.mod_pos_bound; lia.
Qed.

End machine_integers.

Abbreviation add_u32 := (add_w 32).
Abbreviation add_u64 := (add_w 64).
Abbreviation sub_u64 := (sub_w 64).

(** ** Bytes and hashes

    A [Vec<u8>] is a list of bytes.  The fixed-width hashes and integers of
    [ethereum_types] are their big-endian value. *)

Abbreviation bytes := (list Byte.byte).
Abbreviation H160 := Z (only parsing).
Abbreviation H256 := Z (only parsing).
Abbreviation U256 := Z (only parsing).

#[global] Instance byte_eq_dec : EqDecision Byte.byte := Byte.byte_eq_dec.

Definition byte_val (b : Byte.byte) : Z := Z.of_N (Byte.to_N b).

(** The bytes of a string literal, [b"..."] or [.as_bytes().to_vec()]. *)
Definition bytes_of (s : string) : bytes := String.list_byte_of_string s.

(** ** Automation shared by the components *)

Create HintDb edgeware.

(** Case analysis on the head [match] or [if] of the goal or a hypothesis. *)
Ltac case_goal :=
  repeat (case_match || case_decide); simplify_eq/=; try done.

(** Runs a computation of [outcome] in a hypothesis. *)
Lemma bind_Ret_inv {A B} (m : outcome A) (k : A → outcome B) (b : B) :
  m ≫= k = Ret b → ∃ a, m = Ret a ∧ k a = Ret b.
Proof. destruct m; [eauto|done]. Qed.

Lemma bind_Ret {A B} (a : A) (k : A → outcome B) : Ret a ≫= k = k a.
Proof. done. Qed.

Ltac run_inv :=
  repeat match goal with
  | H : _ ≫= _ = Ret _ |- _ =>
      apply bind_Ret_inv in H as (? & ? & H); cbv beta zeta in H
  | H : Ret _ = Ret _ |- _ => progress simplify_eq
  end.

(** ** Vectors *)

Abbreviation zlen l := (Z.of_nat (length l)).

(** [Vec::last_mut] followed by an update of the element. *)
Fixpoint alter_last {A} (f : A → A) (l : list A) : list A :=
  match l with
  | [] => []
  | [a] => [f a]
  | a :: l => a :: alter_last f l
  end.

(** Removes the first occurrence of an element. *)
Fixpoint list_remove_one {A} `{!EqDecision A} (a : A) (l : list A) : list A :=
  match l with
  | [] => []
  | b :: l => if decide (a = b) then l else b :: list_remove_one a l
  end.

Lemma alter_last_snoc {A} (f : A → A) (l : list A) (a : A) :
  alter_last f (l ++ [a]) = l ++ [f a].
Proof.
  induction l as [|b l IH]; [done|].
  simpl. rewrite IH. by destruct l.
Qed.

(** ** Ordered maps

    A [BTreeMap] is a finite map; its iterators go through the keys in
    ascending order. *)

Definition key_le {A} (x y : Z * A) : Prop := (x.1 ≤ y.1)%Z.
#[global] Instance key_le_dec {A} : RelDecision (@key_le A).
Proof. unfold key_le. solve_decision. Defined.

Definition btree_iter {A} (m : gmap Z A) : list (Z * A) :=
  merge_sort key_le (map_to_list m).
Definition btree_values {A} (m : gmap Z A) : list A := (btree_iter m).*2.
