(* ===== verification/Trees.v ===== *)
(** * Trees of calls and indexed maps

    Vocabulary of the specifications: rose trees with their pre-order listing,
    the map that numbers a list from a first index, and the effect of adding
    entries to the last map of a vector of maps. *)

From stdpp Require Import base tactics list gmap sorting.
From Stdlib Require Import ZArith Lia.
From S2P Require Import Prelude.
Local Open Scope Z_scope.
Set Warnings "-register-all".

(** ** Rose trees *)

Inductive rose (A : Type) : Type :=
| Rose (a : A) (l : list (rose A)).
Arguments Rose {A} a l.

Definition rose_label {A} (t : rose A) : A := match t with Rose a _ => a end.
Definition rose_children {A} (t : rose A) : list (rose A) :=
  match t with Rose _ l => l end.

Fixpoint preorder {A} (t : rose A) : list A :=
  match t with Rose a l => a :: mjoin (preorder <$> l) end.

Definition preorders {A} (l : list (rose A)) : list A := mjoin (preorder <$> l).

Section rose_induction.
Context {A : Type} (P : rose A → Prop).
Hypothesis HRose : ∀ a l, Forall P l → P (Rose a l).

Fixpoint rose_rect_Forall (t : rose A) : P t :=
  match t with
  | Rose a l =>
      HRose a l
        ((fix go l : Forall P l :=
            match l with
            | [] => Forall_nil_2 P
            | t :: l => Forall_cons_2 P t l (rose_rect_Forall t) (go l)
            end) l)
  end.
End rose_induction.

Lemma preorders_app {A} (l1 l2 : list (rose A)) :
  preorders (l1 ++ l2) = preorders l1 ++ preorders l2.
Proof. unfold preorders. by rewrite fmap_app, join_app. Qed.

Lemma preorder_Rose {A} (a : A) l : preorder (Rose a l) = a :: preorders l.
Proof. done. Qed.

(** ** Maps that number a list *)

Fixpoint index_map {A} (n : Z) (l : list A) : gmap Z A :=
  match l with
  | [] => ∅
  | a :: l => <[n:=a]> (index_map (n + 1) l)
  end.

Lemma index_map_lookup {A} n (l : list A) k :
  index_map n l !! k = if decide (n ≤ k) then l !! Z.to_nat (k - n) else None.
Proof.
  revert n. induction l as [|a l IH]; intros n; simpl.
  - rewrite lookup_empty. by case_decide.
  - destruct (decide (k = n)) as [->|Hne].
    + rewrite lookup_insert, decide_True, decide_True by lia.
      by replace (n - n) with 0 by lia.
    + rewrite lookup_insert_ne, IH by done.
      repeat case_decide; try lia; [|done].
      by replace (Z.to_nat (k - n)) with (S (Z.to_nat (k - (n + 1)))) by lia.
Qed.

Lemma index_map_app {A} n (l1 l2 : list A) :
  index_map n (l1 ++ l2) = index_map n l1 ∪ index_map (n + zlen l1) l2.
Proof.
  revert n. induction l1 as [|a l1 IH]; intros n; simpl.
  - by rewrite (left_id_L ∅ (∪)), Z.add_0_r.
  - rewrite IH, insert_union_l. f_equal. f_equal. lia.
Qed.

Lemma index_map_below {A} n (l : list A) k : k < n → index_map n l !! k = None.
Proof. intros. rewrite index_map_lookup, decide_False by lia. done. Qed.

Lemma index_map_disjoint {A} n (l1 l2 : list A) :
  index_map n l1 ##ₘ index_map (n + zlen l1) l2.
Proof.
  apply map_disjoint_spec. intros k a b. rewrite !index_map_lookup.
  repeat case_decide; try done. intros Ha _.
  apply lookup_lt_Some in Ha. lia.
Qed.

(** Numbering and reading back in key order is the identity. *)
Lemma index_map_to_list {A} n (l : list A) :
  map_to_list (index_map n l) ≡ₚ zip (seqZ n (zlen l)) l.
Proof.
  revert n. induction l as [|a l IH]; intros n; simpl.
  - by rewrite map_to_list_empty.
  - rewrite map_to_list_insert by (apply index_map_below; lia).
    rewrite seqZ_cons by lia. simpl.
    replace (Z.pred (Z.of_nat (S (length l)))) with (Z.of_nat (length l)) by lia.
    by rewrite IH, <-Z.add_1_r.
Qed.

#[global] Instance key_le_trans {A} : Transitive (@key_le A).
Proof. intros ???. unfold key_le. lia. Qed.
#[global] Instance key_le_total {A} : Total (@key_le A).
Proof. intros ??. unfold key_le. lia. Qed.

Lemma zip_seqZ_sorted {A} n (l : list A) :
  StronglySorted key_le (zip (seqZ n (zlen l)) l).
Proof.
  revert n. induction l as [|a l IH]; intros n; simpl.
  { destruct (seqZ n (Z.of_nat 0)); constructor. }
  rewrite seqZ_cons by lia. simpl.
  replace (Z.pred (Z.of_nat (S (length l)))) with (Z.of_nat (length l)) by lia.
  constructor; [apply IH|].
  apply Forall_forall. intros [k b] Hin. unfold key_le. simpl.
  apply elem_of_zip_l, elem_of_seqZ in Hin. lia.
Qed.

Lemma key_le_unique {A} (l1 l2 : list (Z * A)) :
  NoDup l1.*1 → StronglySorted key_le l1 → StronglySorted key_le l2 → l1 ≡ₚ l2 → l1 = l2.
Proof.
  intros Hnd H1 H2 Hp. apply (StronglySorted_unique_strong key_le); [|done..].
  intros [k a] [k' b] Ha Hb. unfold key_le. simpl. intros.
  assert (k = k') as -> by lia. f_equal.
  rewrite <-Hp in Hb.
  apply list_elem_of_lookup in Ha as [i Hi], Hb as [j Hj].
  assert (i = j) as ->.
  { eapply NoDup_lookup; [exact Hnd|..]; rewrite list_lookup_fmap;
      [rewrite Hi|rewrite Hj]; done. }
  congruence.
Qed.

Lemma btree_iter_index_map {A} n (l : list A) :
  btree_iter (index_map n l) = zip (seqZ n (zlen l)) l.
Proof.
  symmetry. apply key_le_unique.
  - rewrite fst_zip; [apply NoDup_seqZ|]. rewrite length_seqZ. lia.
  - apply zip_seqZ_sorted.
  - apply StronglySorted_merge_sort; apply _.
  - unfold btree_iter. by rewrite merge_sort_Permutation, index_map_to_list.
Qed.

Lemma btree_values_index_map {A} n (l : list A) : btree_values (index_map n l) = l.
Proof.
  unfold btree_values. rewrite btree_iter_index_map, snd_zip; [done|].
  rewrite length_seqZ. lia.
Qed.

(** ** Adding entries to the last map of a vector of maps *)

Definition add_map {A} (m : gmap Z A) (E : list (gmap Z A)) : list (gmap Z A) :=
  match E with
  | [] => if bool_decide (m = ∅) then [] else [m]
  | _ => alter_last (λ M, m ∪ M) E
  end.

Lemma add_map_snoc {A} (m : gmap Z A) E M : add_map m (E ++ [M]) = E ++ [m ∪ M].
Proof. unfold add_map. destruct E; [done|]. apply (alter_last_snoc _ (_ :: _)). Qed.

Lemma add_map_nil {A} (m : gmap Z A) : m ≠ ∅ → add_map m [] = [m].
Proof. intros. simpl. by rewrite bool_decide_eq_false_2. Qed.

Lemma add_map_empty {A} (E : list (gmap Z A)) : add_map ∅ E = E.
Proof.
  destruct E as [|M E _] using rev_ind; [done|].
  by rewrite add_map_snoc, (left_id_L ∅ (∪)).
Qed.

Lemma map_positive_r {A} (m1 m2 : gmap Z A) : m1 ∪ m2 = ∅ → m2 = ∅.
Proof.
  intros Hm. apply map_empty. intros k. apply (f_equal (.!! k)) in Hm.
  rewrite lookup_empty, lookup_union_None in Hm. tauto.
Qed.

Lemma add_map_add {A} (m1 m2 : gmap Z A) E :
  add_map m1 (add_map m2 E) = add_map (m1 ∪ m2) E.
Proof.
  destruct E as [|M E _] using rev_ind.
  - destruct (decide (m2 = ∅)) as [->|Hne].
    + by rewrite add_map_empty, (right_id_L ∅ (∪)).
    + rewrite add_map_nil by done. change [m2] with ([] ++ [m2]). rewrite add_map_snoc. simpl app.
      symmetry. apply add_map_nil. intros H. by apply map_positive_r in H.
  - by rewrite !add_map_snoc, (assoc_L (∪)).
Qed.
