(* ===== verification/EvmEvents.v ===== *)
(** * The tracing events: primitives/rpc/evm-tracing-events

    The events a tracing runtime sends to the client (gasometer.rs, evm.rs,
    runtime.rs, lib.rs) and their construction from the events of the [evm]
    crate.  The [evm] crate itself is not part of the repository: its types
    appear with the constructors and fields the repository's code matches on,
    and nothing else is assumed about them. *)

From stdpp Require Import base tactics list gmap strings pretty.
From Stdlib Require Import ZArith Lia Strings.Byte.
From S2P Require Import Prelude.
Local Open Scope Z_scope.

(** ** Types of the [evm] crate used by the events *)

(** [ExitSucceed]: only [Returned] is told apart. *)
Inductive ExitSucceed :=
| Returned
| OtherSucceed (tag : Z).

(** [ExitError]: the variants [error_message] names, [Other] with its message,
    and the variants its wildcard covers. *)
Inductive ExitError :=
| StackUnderflow
| StackOverflow
| InvalidJump
| InvalidRange
| DesignatedInvalid
| CallTooDeep
| CreateCollision
| CreateContractLimit
| OutOfOffset
| OutOfGas
| OutOfFund
| OtherError (msg : bytes)
| UnnamedError (tag : Z).

Inductive ExitReason :=
| Succeed (s : ExitSucceed)
| Error (e : ExitError)
| Revert (tag : Z)
| Fatal (tag : Z).

(** The machine state a step event of the [evm] crate refers to. *)
Record EvmStack := { stack_data : list H256; stack_limit : Z }.
Record EvmMemory := { memory_data : bytes; memory_effective_len : U256; memory_limit : Z }.

(** ** gasometer.rs *)

Record Snapshot := mkSnapshot {
  gas_limit : Z;
  memory_gas : Z;
  used_gas : Z;
  refunded_gas : Z;
}.

Definition Snapshot_default : Snapshot :=
  {| gas_limit := 0; memory_gas := 0; used_gas := 0; refunded_gas := 0 |}.

(** [Snapshot::gas]: [self.gas_limit - self.used_gas - self.memory_gas]. *)
Definition Snapshot_gas `{!BuildProfile} (s : Snapshot) : outcome Z :=
  r ← sub_u64 (gas_limit s) (used_gas s);
  sub_u64 r (memory_gas s).

(** [From<Option<evm_gasometer::Snapshot>>]. *)
Definition Snapshot_from (i : option Snapshot) : Snapshot :=
  match i with
  | Some i => {| gas_limit := gas_limit i; memory_gas := memory_gas i;
                 used_gas := used_gas i; refunded_gas := refunded_gas i |}
  | None => Snapshot_default
  end.

Inductive GasometerEvent :=
| RecordCost (cost : Z) (snapshot : Snapshot)
| RecordRefund (refund : Z) (snapshot : Snapshot)
| RecordStipend (stipend : Z) (snapshot : Snapshot)
| RecordDynamicCost (gas_cost memory_gas gas_refund : Z) (snapshot : Snapshot)
| RecordTransaction (cost : Z) (snapshot : Snapshot).

(** The events of the [evm_gasometer] crate, with an optional snapshot. *)
Inductive GasometerTracingEvent :=
| GRecordCost (cost : Z) (snapshot : option Snapshot)
| GRecordRefund (refund : Z) (snapshot : option Snapshot)
| GRecordStipend (stipend : Z) (snapshot : option Snapshot)
| GRecordDynamicCost (gas_cost memory_gas gas_refund : Z) (snapshot : option Snapshot)
| GRecordTransaction (cost : Z) (snapshot : option Snapshot).

(** [From<evm_gasometer::tracing::Event> for GasometerEvent]. *)
Definition GasometerEvent_from (i : GasometerTracingEvent) : GasometerEvent :=
  match i with
  | GRecordCost cost snapshot => RecordCost cost (Snapshot_from snapshot)
  | GRecordRefund refund snapshot => RecordRefund refund (Snapshot_from snapshot)
  | GRecordStipend stipend snapshot => RecordStipend stipend (Snapshot_from snapshot)
  | GRecordDynamicCost gas_cost memory_gas gas_refund snapshot =>
      RecordDynamicCost gas_cost memory_gas gas_refund (Snapshot_from snapshot)
  | GRecordTransaction cost snapshot => RecordTransaction cost (Snapshot_from snapshot)
  end.

(** ** lib.rs: contexts and filters *)

Record EvmContext := mkEvmContext {
  address : H160;
  caller : H160;
  apparent_value : U256;
}.

(** [From<evm_runtime::Context> for Context]. *)
Definition EvmContext_from (i : EvmContext) : EvmContext :=
  {| address := address i; caller := caller i; apparent_value := apparent_value i |}.

Record StepEventFilter := mkStepEventFilter {
  enable_stack : bool;
  enable_memory : bool;
}.

(** ** evm.rs *)

Record Transfer := mkTransfer {
  source : H160;
  target : H160;
  transfer_value : U256;
}.

Inductive CreateScheme :=
| CreateScheme_Legacy (caller : H160)
| CreateScheme_Create2 (caller : H160) (code_hash salt : H256)
| CreateScheme_Fixed (address : H160).

Inductive EvmEvent :=
| EvmEvent_Call (code_address : H160) (transfer : option Transfer) (input : bytes)
    (target_gas : option Z) (is_static : bool) (context : EvmContext)
| EvmEvent_Create (caller address : H160) (scheme : CreateScheme) (value : U256)
    (init_code : bytes) (target_gas : option Z)
| EvmEvent_Suicide (address target : H160) (balance : U256)
| EvmEvent_Exit (reason : ExitReason) (return_value : bytes)
| EvmEvent_TransactCall (caller address : H160) (value : U256) (data : bytes)
    (gas_limit : Z)
| EvmEvent_TransactCreate (caller : H160) (value : U256) (init_code : bytes)
    (gas_limit : Z) (address : H160)
| EvmEvent_TransactCreate2 (caller : H160) (value : U256) (init_code : bytes)
    (salt : H256) (gas_limit : Z) (address : H160)
| EvmEvent_PrecompileSubcall (code_address : H160) (transfer : option Transfer)
    (input : bytes) (target_gas : option Z) (is_static : bool) (context : EvmContext).

(** The conversions of evm.rs.  The types of the [evm] crate have the same
    fields as their mirrors, so one type stands for both sides. *)
Definition Transfer_from (i : Transfer) : Transfer :=
  {| source := source i; target := target i; transfer_value := transfer_value i |}.

Definition CreateScheme_from (i : CreateScheme) : CreateScheme :=
  match i with
  | CreateScheme_Legacy caller => CreateScheme_Legacy caller
  | CreateScheme_Create2 caller code_hash salt => CreateScheme_Create2 caller code_hash salt
  | CreateScheme_Fixed address => CreateScheme_Fixed address
  end.

Definition EvmEvent_from (i : EvmEvent) : EvmEvent :=
  match i with
  | EvmEvent_Call code_address transfer input target_gas is_static context =>
      EvmEvent_Call code_address
        (match transfer with Some transfer => Some (Transfer_from transfer) | None => None end)
        input target_gas is_static (EvmContext_from context)
  | EvmEvent_Create caller address scheme value init_code target_gas =>
      EvmEvent_Create caller address (CreateScheme_from scheme) value init_code target_gas
  | EvmEvent_Suicide address target balance => EvmEvent_Suicide address target balance
  | EvmEvent_Exit reason return_value => EvmEvent_Exit reason return_value
  | EvmEvent_TransactCall caller address value data gas_limit =>
      EvmEvent_TransactCall caller address value data gas_limit
  | EvmEvent_TransactCreate caller value init_code gas_limit address =>
      EvmEvent_TransactCreate caller value init_code gas_limit address
  | EvmEvent_TransactCreate2 caller value init_code salt gas_limit address =>
      EvmEvent_TransactCreate2 caller value init_code salt gas_limit address
  | EvmEvent_PrecompileSubcall code_address transfer input target_gas is_static context =>
      EvmEvent_PrecompileSubcall code_address
        (match transfer with Some transfer => Some (Transfer_from transfer) | None => None end)
        input target_gas is_static (EvmContext_from context)
  end.

(** ** runtime.rs *)

Record Stack := mkStack { data_stack : list H256; limit_stack : Z }.
Record Memory := mkMemory { data_memory : bytes; effective_len : U256; limit_memory : Z }.

Definition Stack_from (i : EvmStack) : Stack :=
  {| data_stack := stack_data i; limit_stack := stack_limit i |}.

Definition Memory_from (i : EvmMemory) : Memory :=
  {| data_memory := memory_data i; effective_len := memory_effective_len i;
     limit_memory := memory_limit i |}.

Inductive Capture (E T : Type) :=
| Exit (e : E)
| Trap (t : T).
Arguments Exit {E T} e.
Arguments Trap {E T} t.

Inductive RuntimeEvent :=
| Step (context : EvmContext) (opcode : bytes) (position : result Z ExitReason)
    (stack : option Stack) (memory : option Memory)
| StepResult (res : result unit (Capture ExitReason bytes)) (return_value : bytes)
| SLoad (address : H160) (index value : H256)
| SStore (address : H160) (index value : H256).

(** [Event] of lib.rs. *)
Inductive Event :=
| Event_Evm (e : EvmEvent)
| Event_Gasometer (e : GasometerEvent)
| Event_Runtime (e : RuntimeEvent)
| Event_CallListNew.

(** The name of an opcode, the table of runtime.rs.  The opcode is a [u8]. *)
Definition opcodes_string (opcode : Z) : bytes :=
  bytes_of
  match opcode with
  | 0 => "Stop"
  | 1 => "Add"
  | 2 => "Mul"
  | 3 => "Sub"
  | 4 => "Div"
  | 5 => "SDiv"
  | 6 => "Mod"
  | 7 => "SMod"
  | 8 => "AddMod"
  | 9 => "MulMod"
  | 10 => "Exp"
  | 11 => "SignExtend"
  | 16 => "Lt"
  | 17 => "Gt"
  | 18 => "Slt"
  | 19 => "Sgt"
  | 20 => "Eq"
  | 21 => "IsZero"
  | 22 => "And"
  | 23 => "Or"
  | 24 => "Xor"
  | 25 => "Not"
  | 26 => "Byte"
  | 27 => "Shl"
  | 28 => "Shr"
  | 29 => "Sar"
  | 32 => "Keccak256"
  | 48 => "Address"
  | 49 => "Balance"
  | 50 => "Origin"
  | 51 => "Caller"
  | 52 => "CallValue"
  | 53 => "CallDataLoad"
  | 54 => "CallDataSize"
  | 55 => "CallDataCopy"
  | 56 => "CodeSize"
  | 57 => "CodeCopy"
  | 58 => "GasPrice"
  | 59 => "ExtCodeSize"
  | 60 => "ExtCodeCopy"
  | 61 => "ReturnDataSize"
  | 62 => "ReturnDataCopy"
  | 63 => "ExtCodeHash"
  | 64 => "BlockHash"
  | 65 => "Coinbase"
  | 66 => "Timestamp"
  | 67 => "Number"
  | 68 => "Difficulty"
  | 69 => "GasLimit"
  | 70 => "ChainId"
  | 80 => "Pop"
  | 81 => "MLoad"
  | 82 => "MStore"
  | 83 => "MStore8"
  | 84 => "SLoad"
  | 85 => "SStore"
  | 86 => "Jump"
  | 87 => "JumpI"
  | 88 => "GetPc"
  | 89 => "MSize"
  | 90 => "Gas"
  | 91 => "JumpDest"
  | 96 => "Push1"
  | 97 => "Push2"
  | 98 => "Push3"
  | 99 => "Push4"
  | 100 => "Push5"
  | 101 => "Push6"
  | 102 => "Push7"
  | 103 => "Push8"
  | 104 => "Push9"
  | 105 => "Push10"
  | 106 => "Push11"
  | 107 => "Push12"
  | 108 => "Push13"
  | 109 => "Push14"
  | 110 => "Push15"
  | 111 => "Push16"
  | 112 => "Push17"
  | 113 => "Push18"
  | 114 => "Push19"
  | 115 => "Push20"
  | 116 => "Push21"
  | 117 => "Push22"
  | 118 => "Push23"
  | 119 => "Push24"
  | 120 => "Push25"
  | 121 => "Push26"
  | 122 => "Push27"
  | 123 => "Push28"
  | 124 => "Push29"
  | 125 => "Push30"
  | 126 => "Push31"
  | 127 => "Push32"
  | 128 => "Dup1"
  | 129 => "Dup2"
  | 130 => "Dup3"
  | 131 => "Dup4"
  | 132 => "Dup5"
  | 133 => "Dup6"
  | 134 => "Dup7"
  | 135 => "Dup8"
  | 136 => "Dup9"
  | 137 => "Dup10"
  | 138 => "Dup11"
  | 139 => "Dup12"
  | 140 => "Dup13"
  | 141 => "Dup14"
  | 142 => "Dup15"
  | 143 => "Dup16"
  | 144 => "Swap1"
  | 145 => "Swap2"
  | 146 => "Swap3"
  | 147 => "Swap4"
  | 148 => "Swap5"
  | 149 => "Swap6"
  | 150 => "Swap7"
  | 151 => "Swap8"
  | 152 => "Swap9"
  | 153 => "Swap10"
  | 154 => "Swap11"
  | 155 => "Swap12"
  | 156 => "Swap13"
  | 157 => "Swap14"
  | 158 => "Swap15"
  | 159 => "Swap16"
  | 160 => "Log0"
  | 161 => "Log1"
  | 162 => "Log2"
  | 163 => "Log3"
  | 164 => "Log4"
  | 176 => "JumpTo"
  | 177 => "JumpIf"
  | 178 => "JumpSub"
  | 180 => "JumpSubv"
  | 181 => "BeginSub"
  | 182 => "BeginData"
  | 184 => "ReturnSub"
  | 185 => "PutLocal"
  | 186 => "GetLocal"
  | 225 => "SLoadBytes"
  | 226 => "SStoreBytes"
  | 227 => "SSize"
  | 240 => "Create"
  | 241 => "Call"
  | 242 => "CallCode"
  | 243 => "Return"
  | 244 => "DelegateCall"
  | 245 => "Create2"
  | 250 => "StaticCall"
  | 252 => "TxExecGas"
  | 253 => "Revert"
  | 254 => "Invalid"
  | 255 => "SelfDestruct"
  | n => String.append "Unknown(" (String.append (pretty (Z.to_N n)) ")")
  end.

(** The step events of the [evm_runtime] crate. *)
Inductive RuntimeTracingEvent :=
| RStep (context : EvmContext) (opcode : Z) (position : result Z ExitReason)
    (stack : EvmStack) (memory : EvmMemory)
| RStepResult (res : result unit (Capture ExitReason Z)) (return_value : bytes)
| RSLoad (address : H160) (index value : H256)
| RSStore (address : H160) (index value : H256).

(** [RuntimeEvent::from_evm_event].  [position as u64] keeps the value: a
    position is a [usize]. *)
Definition from_evm_event (i : RuntimeTracingEvent) (filter : StepEventFilter) :
    RuntimeEvent :=
  match i with
  | RStep context opcode position stack memory =>
      Step (EvmContext_from context) (opcodes_string opcode)
        match position with Ok position => Ok position | Err e => Err e end
        (if enable_stack filter then Some (Stack_from stack) else None)
        (if enable_memory filter then Some (Memory_from memory) else None)
  | RStepResult res return_value =>
      StepResult
        match res with
        | Ok _ => Ok tt
        | Err (Exit e) => Err (Exit e)
        | Err (Trap t) => Err (Trap (opcodes_string t))
        end
        return_value
  | RSLoad address index value => SLoad address index value
  | RSStore address index value => SStore address index value
  end.

(** ** The listener interface of lib.rs

    [Listener] is the trait; [using] (here [using_listener]) installs a listener while a closure runs.
    The closure is given by the events it emits and by what it returns, and
    [emit] hands each of them to the installed listener. *)

Class Listener (L : Type) := {
  event : L → Event → outcome L;
  step_event_filter : L → StepEventFilter;
}.

Fixpoint emit_all `{Listener L} (l : L) (evs : list Event) : outcome L :=
  match evs with
  | [] => Ret l
  | e :: evs => l' ← event l e; emit_all l' evs
  end.

Definition using_listener `{Listener L} {R} (l : L) (f : list Event * R) : outcome (L * R) :=
  l' ← emit_all l f.1; Ret (l', f.2).

(** ** Facts *)

Lemma emit_all_app `{Listener L} (l : L) (e1 e2 : list Event) :
  emit_all l (e1 ++ e2) = (l' ← emit_all l e1; emit_all l' e2).
Proof.
  revert l. induction e1 as [|e e1 IH]; intros l; [done|].
  simpl. destruct (event l e); simpl; [apply IH|done].
Qed.

Lemma emit_all_cons `{Listener L} (l l' : L) e evs :
  event l e = Ret l' → emit_all l (e :: evs) = emit_all l' evs.
Proof. simpl. by intros ->. Qed.

Lemma emit_all_app_Ret `{Listener L} (l l' : L) (e1 e2 : list Event) :
  emit_all l e1 = Ret l' → emit_all l (e1 ++ e2) = emit_all l' e2.
Proof. rewrite emit_all_app. by intros ->. Qed.

Lemma Snapshot_gas_ok `{!BuildProfile} s :
  0 ≤ memory_gas s → used_gas s + memory_gas s ≤ gas_limit s →
  Snapshot_gas s = Ret (gas_limit s - used_gas s - memory_gas s).
Proof.
  intros Hm Hle. unfold Snapshot_gas.
  rewrite sub_w_ok by lia. simpl. by rewrite sub_w_ok by lia.
Qed.
