(* ===== verification/TraceTypes.v ===== *)
(** * Types of the tracing client: client/evm-tracing/src/types

    Call types, the recognition of context-creating opcodes ([ContextType::from]),
    memory words ([convert_memory]), and the result types of the single
    transaction and whole block traces. *)

From stdpp Require Import base tactics list gmap strings.
From Stdlib Require Import ZArith Lia Strings.Byte.
From S2P Require Import Prelude EvmEvents.
Local Open Scope Z_scope.
Set Warnings "-register-all".

(** ** UTF-8, as [str::from_utf8] and [str::to_uppercase] of Rust read it *)

Definition is_cont (lo hi : Z) (b : Byte.byte) : bool :=
  (lo <=? byte_val b) && (byte_val b <=? hi).

(** The code points of a byte string, or [None] when it is not UTF-8
    (overlong forms, surrogates and code points above U+10FFFF are refused). *)
Fixpoint utf8_decode (l : bytes) : option (list Z) :=
  match l with
  | [] => Some []
  | b0 :: l0 =>
      let v0 := byte_val b0 in
      if v0 <? 0x80 then cons v0 <$> utf8_decode l0
      else if (0xC2 <=? v0) && (v0 <=? 0xDF) then
        match l0 with
        | b1 :: l1 =>
            if is_cont 0x80 0xBF b1
            then cons ((v0 - 0xC0) * 64 + (byte_val b1 - 0x80)) <$> utf8_decode l1
            else None
        | _ => None
        end
      else if (0xE0 <=? v0) && (v0 <=? 0xEF) then
        match l0 with
        | b1 :: b2 :: l2 =>
            if is_cont (if v0 =? 0xE0 then 0xA0 else 0x80)
                 (if v0 =? 0xED then 0x9F else 0xBF) b1 && is_cont 0x80 0xBF b2
            then cons ((v0 - 0xE0) * 4096 + (byte_val b1 - 0x80) * 64 + (byte_val b2 - 0x80))
                 <$> utf8_decode l2
            else None
        | _ => None
        end
      else if (0xF0 <=? v0) && (v0 <=? 0xF4) then
        match l0 with
        | b1 :: b2 :: b3 :: l3 =>
            if is_cont (if v0 =? 0xF0 then 0x90 else 0x80)
                 (if v0 =? 0xF4 then 0x8F else 0xBF) b1
               && is_cont 0x80 0xBF b2 && is_cont 0x80 0xBF b3
            then cons ((v0 - 0xF0) * 262144 + (byte_val b1 - 0x80) * 4096
                       + (byte_val b2 - 0x80) * 64 + (byte_val b3 - 0x80))
                 <$> utf8_decode l3
            else None
        | _ => None
        end
      else None
  end.

(** The code points of a string literal of ASCII characters. *)
Definition codes (s : string) : list Z := byte_val <$> bytes_of s.

(** The upper case of a code point when it consists of ASCII characters only,
    and [None] when it does not (the ten non-ASCII code points with an ASCII
    upper case are those of Unicode's tables). *)
Definition upper_ascii (c : Z) : option (list Z) :=
  if c <? 0x80 then Some [if (97 <=? c) && (c <=? 122) then c - 32 else c]
  else if c =? 0xDF then Some (codes "SS")
  else if c =? 0x131 then Some (codes "I")
  else if c =? 0x17F then Some (codes "S")
  else if c =? 0xFB00 then Some (codes "FF")
  else if c =? 0xFB01 then Some (codes "FI")
  else if c =? 0xFB02 then Some (codes "FL")
  else if c =? 0xFB03 then Some (codes "FFI")
  else if c =? 0xFB04 then Some (codes "FFL")
  else if (c =? 0xFB05) || (c =? 0xFB06) then Some (codes "ST")
  else None.

(** [from_utf8(..).to_uppercase()], when the result is an ASCII string: the
    only results the comparisons with ASCII literals can tell apart. *)
Definition to_uppercase_ascii (opcode : bytes) : option (list Z) :=
  cps ← utf8_decode opcode;
  mjoin <$> mapM upper_ascii cps.

(** ** types/mod.rs *)

Inductive CallType := CallType_Call | CallCode | DelegateCall | StaticCall.
Inductive CreateType := CreateType_Create.
Inductive ContextType :=
| ContextType_Call (t : CallType)
| ContextType_Create.

#[global] Instance CallType_eq_dec : EqDecision CallType.
Proof. solve_decision. Defined.
#[global] Instance ContextType_eq_dec : EqDecision ContextType.
Proof. solve_decision. Defined.

(** [ContextType::from]. *)
Definition ContextType_from (opcode : bytes) : option ContextType :=
  match to_uppercase_ascii opcode with
  | None => None
  | Some op =>
      if decide (op = codes "CREATE" ∨ op = codes "CREATE2") then Some ContextType_Create
      else if decide (op = codes "CALL") then Some (ContextType_Call CallType_Call)
      else if decide (op = codes "CALLCODE") then Some (ContextType_Call CallCode)
      else if decide (op = codes "DELEGATECALL") then Some (ContextType_Call DelegateCall)
      else if decide (op = codes "STATICCALL") then Some (ContextType_Call StaticCall)
      else None
  end.

Inductive CallResult :=
| CallResult_Output (b : bytes)
| CallResult_Error (b : bytes).

Inductive CreateResult :=
| CreateResult_Error (error : bytes)
| CreateResult_Success (created_contract_address_hash : H160)
    (created_contract_code : bytes).

#[global] Instance CallResult_eq_dec : EqDecision CallResult.
Proof. solve_decision. Defined.
#[global] Instance CreateResult_eq_dec : EqDecision CreateResult.
Proof. solve_decision. Defined.

(** [slice::chunks]: every pass removes at least one element, so the length of
    the slice bounds the number of chunks. *)
Fixpoint chunks_fuel {A} (fuel size : nat) (l : list A) : list (list A) :=
  match fuel, l with
  | S fuel, _ :: _ => take size l :: chunks_fuel fuel size (drop size l)
  | _, _ => []
  end.
Definition chunks {A} (size : nat) (l : list A) : list (list A) :=
  chunks_fuel (length l) size l.

(** [H256::from_slice]: the big-endian value of the bytes. *)
Definition H256_from_slice (l : bytes) : H256 :=
  foldl (λ acc b, acc * 256 + byte_val b) 0 l.

(** [convert_memory]. *)
Definition convert_memory (memory : bytes) : list H256 :=
  let size := 32%nat in
  (λ c : bytes,
    let chunk := length c in
    let msg :=
      if decide (chunk < size)%nat
      then replicate (size - chunk) Byte.x00 ++ c
      else c in
    H256_from_slice msg) <$> chunks size memory.

(** ** formatters/blockscout.rs: the entries of the call list *)

Inductive BlockscoutCallInner :=
| CallInner_Call (call_type : CallType) (to : H160) (input : bytes) (res : CallResult)
| CallInner_Create (init : bytes) (res : CreateResult)
| CallInner_SelfDestruct (balance : U256) (to : H160).

Record BlockscoutCall := mkBlockscoutCall {
  bc_from : H160;
  bc_trace_address : list Z;
  bc_subtraces : Z;
  bc_value : U256;
  bc_gas : U256;
  bc_gas_used : U256;
  bc_inner : BlockscoutCallInner;
}.

#[global] Instance BlockscoutCallInner_eq_dec : EqDecision BlockscoutCallInner.
Proof. solve_decision. Defined.
#[global] Instance BlockscoutCall_eq_dec : EqDecision BlockscoutCall.
Proof. solve_decision. Defined.

(** ** formatters/call_tracer.rs: the nested calls

    [Call] of types/single.rs and [CallTracerCall] refer to each other: the
    former is [CallOf] at the latter. *)

Inductive CallTracerInner :=
| CallTracerInner_Call (call_type : bytes) (to : H160) (input : bytes)
    (res : CallResult) (value : option U256)
| CallTracerInner_Create (call_type : bytes) (input : bytes) (to : option H160)
    (output : option bytes) (error : option bytes) (value : U256)
| CallTracerInner_SelfDestruct (call_type : bytes) (to : H160) (value : U256).

(** [Call] of types/single.rs, over the type of nested calls. *)
Inductive CallOf (C : Type) :=
| Call_Blockscout (c : BlockscoutCall)
| Call_CallTracer (c : C).
Arguments Call_Blockscout {C} c.
Arguments Call_CallTracer {C} c.

Inductive CallTracerCall :=
| mkCallTracerCall (from : H160) (trace_address : option (list Z)) (gas gas_used : U256)
    (inner : CallTracerInner) (calls : list (CallOf CallTracerCall)).

Definition Call : Type := CallOf CallTracerCall.

(** ** types/single.rs *)

Inductive TraceType :=
| TraceType_Raw (disable_storage disable_memory disable_stack : bool)
| TraceType_CallList
| TraceType_Block.

Record RawStepLog := mkRawStepLog {
  log_depth : U256;
  log_gas : U256;
  log_gas_cost : U256;
  log_memory : option (list H256);
  log_op : bytes;
  log_pc : U256;
  log_stack : option (list H256);
  log_storage : option (gmap H256 H256);
}.

Inductive SingleTrace :=
| TransactionTrace_Raw (gas : U256) (return_value : bytes) (step_logs : list RawStepLog)
| TransactionTrace_CallList (calls : list Call)
| TransactionTrace_CallListNested (call : Call).

(** ** types/block.rs *)

Inductive TransactionTraceAction :=
| Action_Call (call_type : CallType) (from : H160) (gas : U256) (input : bytes)
    (to : H160) (value : U256)
| Action_Create (creation_method : CreateType) (from : H160) (gas : U256) (init : bytes)
    (value : U256)
| Action_Suicide (address : H160) (balance : U256) (refund_address : H160).

Inductive TransactionTraceResult :=
| TraceResult_Call (gas_used : U256) (output : bytes)
| TraceResult_Create (address : H160) (code : bytes) (gas_used : U256)
| TraceResult_Suicide.

Inductive TransactionTraceOutput :=
| TraceOutput_Result (r : TransactionTraceResult)
| TraceOutput_Error (e : bytes).

Record TransactionTrace := mkTransactionTrace {
  tt_action : TransactionTraceAction;
  tt_block_hash : H256;
  tt_block_number : Z;
  tt_output : TransactionTraceOutput;
  tt_subtraces : Z;
  tt_trace_address : list Z;
  tt_transaction_hash : H256;
  tt_transaction_position : Z;
}.

(** ** Opcodes *)

(** The EVM instructions that open a context, by their byte. *)
Definition context_opcode (opcode : Z) : option ContextType :=
  match opcode with
  | 0xF0 | 0xF5 => Some ContextType_Create
  | 0xF1 => Some (ContextType_Call CallType_Call)
  | 0xF2 => Some (ContextType_Call CallCode)
  | 0xF4 => Some (ContextType_Call DelegateCall)
  | 0xFA => Some (ContextType_Call StaticCall)
  | _ => None
  end.

(** A decidable property of all bytes is checked by running it on each. *)
Lemma all_bytes (P : Z → bool) :
  forallb P (seqZ 0 256) = true → ∀ b, 0 ≤ b < 256 → P b = true.
Proof.
  rewrite forallb_forall. intros HP b Hb. apply HP, list_elem_of_In, elem_of_seqZ. lia.
Qed.

(** The names the runtime gives to opcodes are classified by the client
    exactly as the instruction set does: CREATE and CREATE2, the four kinds of
    calls, and nothing else opens a context. *)
Theorem ContextType_from_opcodes_string opcode :
  0 ≤ opcode < 256 → ContextType_from (opcodes_string opcode) = context_opcode opcode.
Proof.
  intros Hop. refine (bool_decide_eq_true_1 _ (all_bytes (λ op, bool_decide
    (ContextType_from (opcodes_string op) = context_opcode op)) _ opcode Hop)).
  vm_compute. done.
Qed.

(** No two opcodes have the same name, so a trace determines the opcodes. *)
Theorem opcodes_string_inj o1 o2 :
  0 ≤ o1 < 256 → 0 ≤ o2 < 256 → opcodes_string o1 = opcodes_string o2 → o1 = o2.
Proof.
  intros H1 H2 Heq.
  assert (NoDup (opcodes_string <$> seqZ 0 256)) as Hnd
    by (refine (bool_decide_eq_true_1 _ _); vm_compute; done).
  assert (∀ o, 0 ≤ o < 256 →
    (opcodes_string <$> seqZ 0 256) !! Z.to_nat o = Some (opcodes_string o)) as Hl.
  { intros o Ho. rewrite list_lookup_fmap, lookup_seqZ_lt by lia. simpl. do 2 f_equal. lia. }
  pose proof (Hl o1 H1) as Hl1. rewrite Heq in Hl1.
  pose proof (NoDup_lookup _ _ _ _ Hnd Hl1 (Hl o2 H2)). lia.
Qed.

Lemma ContextType_from_opcodes_string_witness :
  ContextType_from (opcodes_string 0xF4) = Some (ContextType_Call DelegateCall).
Proof. apply (ContextType_from_opcodes_string 0xF4). lia. Defined.

Lemma opcodes_string_inj_witness : 0xF1 = 0xF1.
Proof. apply (opcodes_string_inj 0xF1 0xF1); [lia|lia|reflexivity]. Defined.

(** ** Memory words *)

(** The 32 bytes of a word, most significant first. *)
Definition byte_of_Z (z : Z) : Byte.byte :=
  default Byte.x00 (Byte.of_N (Z.to_N (z mod 256))).
Fixpoint be_bytes (n : nat) (z : Z) : bytes :=
  match n with
  | O => []
  | S n => be_bytes n (z / 256) ++ [byte_of_Z z]
  end.

Lemma byte_val_range b : 0 ≤ byte_val b < 256.
Proof. unfold byte_val. pose proof (Byte.to_N_bounded b). lia. Qed.

Lemma byte_of_byte_val b z : byte_of_Z (z * 256 + byte_val b) = b.
Proof.
  unfold byte_of_Z. pose proof (byte_val_range b).
  replace ((z * 256 + byte_val b) mod 256) with (byte_val b).
  - unfold byte_val. by rewrite N2Z.id, Byte.of_to_N.
  - rewrite Z.add_comm, Z.mod_add by lia. by rewrite Z.mod_small.
Qed.

Lemma be_bytes_from_slice l : be_bytes (length l) (H256_from_slice l) = l.
Proof.
  induction l as [|b l IH] using rev_ind; [done|].
  rewrite length_app, Nat.add_comm. simpl. unfold H256_from_slice. rewrite foldl_app. simpl.
  change (foldl _ 0 l) with (H256_from_slice l). rewrite byte_of_byte_val.
  pose proof (byte_val_range b).
  replace ((H256_from_slice l * 256 + byte_val b) / 256) with (H256_from_slice l).
  - by rewrite IH.
  - rewrite Z.div_add_l by lia. rewrite Z.div_small by done. lia.
Qed.

Lemma chunks_fuel_concat {A} size fuel (l : list A) :
  (0 < size)%nat → (length l ≤ fuel)%nat → mjoin (chunks_fuel fuel size l) = l.
Proof.
  intros Hsize. revert l. induction fuel as [|fuel IH]; intros l Hl.
  - by destruct l; [|simpl in Hl; lia].
  - destruct l as [|a l]; [done|]. cbn [chunks_fuel mjoin list_join].
    rewrite IH; [apply take_drop|]. rewrite length_drop. simpl in *. lia.
Qed.

Lemma chunks_fuel_length {A} size fuel (l : list A) n :
  (0 < size)%nat → length l = (n * size)%nat → (length l ≤ fuel)%nat →
  Forall (λ c, length c = size) (chunks_fuel fuel size l) ∧
  length (chunks_fuel fuel size l) = n.
Proof.
  intros Hsize. revert l n. induction fuel as [|fuel IH]; intros l n Hn Hl.
  - destruct n; simpl in *; [done|lia].
  - destruct l as [|a l], n as [|n]; try (simpl in *; lia); [done|].
    destruct (IH (drop size (a :: l)) n) as [Hall Hlen]; [rewrite length_drop; simpl in *; lia..|].
    cbn [chunks_fuel length]. split; [|by rewrite Hlen].
    constructor; [|done]. rewrite length_take. simpl in *. lia.
Qed.

(** The words of a memory. *)
Lemma memory_words n memory :
  length memory = (n * 32)%nat →
  length (convert_memory memory) = n ∧
  mjoin (be_bytes 32 <$> convert_memory memory) = memory.
Proof.
  intros Hn. destruct (chunks_fuel_length 32 (length memory) memory n) as [Hall Hlen];
    [lia|done|lia|].
  unfold convert_memory, chunks. rewrite length_fmap, Hlen. split; [done|].
  rewrite <-list_fmap_compose.
  transitivity (mjoin (chunks_fuel (length memory) 32 memory));
    [f_equal|by apply chunks_fuel_concat; [lia|]].
  transitivity (id <$> chunks_fuel (length memory) 32 memory); [|by rewrite list_fmap_id].
  apply list_fmap_ext. intros i c Hc. unfold compose, id. cbv zeta.
  rewrite Forall_lookup in Hall. specialize (Hall i c Hc).
  rewrite decide_False by lia. rewrite <-Hall. apply be_bytes_from_slice.
Qed.

(** The words [convert_memory] makes of a memory of [n] words are [n], and
    their bytes one after the other are the memory. *)
Theorem convert_memory_roundtrip n memory :
  length memory = (n * 32)%nat →
  length (convert_memory memory) = n ∧
  mjoin (be_bytes 32 <$> convert_memory memory) = memory.
Proof. apply memory_words. Qed.

Lemma convert_memory_roundtrip_witness :
  length (convert_memory (replicate 31 Byte.x00 ++ [Byte.x2a])) = 1%nat ∧
  mjoin (be_bytes 32 <$> convert_memory (replicate 31 Byte.x00 ++ [Byte.x2a])) =
    replicate 31 Byte.x00 ++ [Byte.x2a].
Proof. apply (convert_memory_roundtrip 1). reflexivity. Defined.
