(* ===== verification/Serialization.v ===== *)
(** * Serialization of traces: client/evm-tracing/src/types/serialization.rs

    The functions that write the fields of a trace as JSON, and that bytes, hashes
    and the memory of a log can be read back from what they write.  TraceJson.v has the
    traces they are fields of. *)

From stdpp Require Import base tactics list gmap strings.
From Stdlib Require Import ZArith Lia Strings.Byte.
From S2P Require Import Prelude TraceTypes.
Local Open Scope Z_scope.

Set Warnings "-register-all".

(** The values of JSON, with strings by their UTF-8 bytes and the fields of an
    object in the order in which they are written. *)
Inductive Json :=
| JNull
| JBool (b : bool)
| JNum (n : Z)
| JStr (s : bytes)
| JSeq (l : list Json)
| JObj (fields : list (string * Json)).

Inductive SerError := OpcodeSerializeError | StringSerializeError.

(** [char::to_uppercase]: the tables of Unicode, known where the upper case is ASCII. *)
Class Unicode := {
  to_uppercase : Z → list Z;
  to_uppercase_known c u : upper_ascii c = Some u → to_uppercase c = u;
}.

(** The UTF-8 bytes of code points. *)
Definition utf8_char (c : Z) : bytes :=
  byte_of_Z <$>
  if c <? 0x80 then [c]
  else if c <? 0x800 then [0xC0 + c `div` 64; 0x80 + c mod 64]
  else if c <? 0x10000 then
    [0xE0 + c `div` 4096; 0x80 + c `div` 64 mod 64; 0x80 + c mod 64]
  else [0xF0 + c `div` 262144; 0x80 + c `div` 4096 mod 64; 0x80 + c `div` 64 mod 64;
        0x80 + c mod 64].
Definition utf8_encode (cps : list Z) : bytes := mjoin (utf8_char <$> cps).

(** ** Hexadecimal *)

Definition hex_char (d : Z) : Byte.byte := byte_of_Z (if d <? 10 then d + 48 else d + 87).
Definition hex_byte (b : Byte.byte) : bytes :=
  [hex_char (byte_val b `div` 16); hex_char (byte_val b mod 16)].

(** [hex::encode]. *)
Definition hex_encode (l : bytes) : bytes := mjoin (hex_byte <$> l).

(** The value of a lower-case digit, and the bytes of a string of them. *)
Definition hex_value (c : Byte.byte) : Z :=
  let v := byte_val c in if v <? 58 then v - 48 else v - 87.
Fixpoint hex_decode (l : bytes) : bytes :=
  match l with
  | c1 :: c2 :: l => byte_of_Z (hex_value c1 * 16 + hex_value c2) :: hex_decode l
  | _ => []
  end.

Definition with_0x (s : bytes) : bytes := bytes_of "0x" ++ s.

(** ** The serializers *)

(** [{:x}] of a hash writes its 32 bytes. *)
Definition h256_hex (h : H256) : bytes := hex_encode (be_bytes 32 h).

Definition seq_h256_serialize (data : option (list H256)) : Json :=
  match data with
  | Some vec => JSeq ((λ h, JStr (h256_hex h)) <$> vec)
  | None => JSeq []
  end.

Definition bytes_0x_serialize (b : bytes) : Json := JStr (with_0x (hex_encode b)).

Definition option_bytes_0x_serialize (b : option bytes) : result Json SerError :=
  match b with
  | Some b => Ok (JStr (with_0x (hex_encode b)))
  | None => Err StringSerializeError
  end.

Definition opcode_serialize `{!Unicode} (opcode : bytes) : result Json SerError :=
  match utf8_decode opcode with
  | Some cps => Ok (JStr (utf8_encode (mjoin (to_uppercase <$> cps))))
  | None => Err OpcodeSerializeError
  end.

Definition string_serialize (value : bytes) : result Json SerError :=
  match utf8_decode value with
  | Some _ => Ok (JStr value)
  | None => Err StringSerializeError
  end.

Definition option_string_serialize (value : option bytes) : result Json SerError :=
  match value with
  | Some value => string_serialize value
  | None => Err StringSerializeError
  end.

(** [low_u64]. *)
Definition u256_serialize (data : U256) : Json := JNum (data mod 2 ^ 64).

Definition h256_serialize (h : H256) : Json := JStr (h256_hex h).
Definition h256_0x_serialize (h : H256) : Json := JStr (with_0x (h256_hex h)).

(** ** Round trips *)

Lemma byte_val_of_Z z : byte_val (byte_of_Z z) = z mod 256.
Proof.
  pose proof (Z.mod_pos_bound z 256 ltac:(lia)) as Hz.
  unfold byte_of_Z, byte_val. destruct (Byte.of_N (Z.to_N (z mod 256))) as [b|] eqn:Hb; simpl.
  - apply Byte.to_of_N in Hb. lia.
  - apply Byte.of_N_None_iff in Hb. lia.
Qed.

Lemma hex_byte_decode b l : hex_decode (hex_byte b ++ l) = b :: hex_decode l.
Proof. by destruct b. Qed.

Lemma hex_encode_cons b l : hex_encode (b :: l) = hex_byte b ++ hex_encode l.
Proof. done. Qed.

Lemma hex_decode_encode l : hex_decode (hex_encode l) = l.
Proof.
  induction l as [|b l IH]; [done|]. by rewrite hex_encode_cons, hex_byte_decode, IH.
Qed.

Lemma hex_encode_inj l1 l2 : hex_encode l1 = hex_encode l2 → l1 = l2.
Proof. intros Heq. by rewrite <-(hex_decode_encode l1), Heq, hex_decode_encode. Qed.

Lemma with_0x_inj s1 s2 : with_0x s1 = with_0x s2 → s1 = s2.
Proof. apply app_inv_head. Qed.

(** A number below [256 ^ n] is the value of its [n] bytes. *)
Lemma be_bytes_value n z :
  0 ≤ z < 256 ^ Z.of_nat n → H256_from_slice (be_bytes n z) = z.
Proof.
  revert z. induction n as [|n IH]; intros z Hz; [simpl in *; unfold H256_from_slice; simpl; lia|].
  simpl. unfold H256_from_slice. rewrite foldl_app. simpl.
  change (foldl _ 0 ?l) with (H256_from_slice l). rewrite IH.
  - rewrite byte_val_of_Z. pose proof (Z.div_mod z 256). lia.
  - rewrite Nat2Z.inj_succ, Z.pow_succ_r in Hz by lia.
    split; [apply Z.div_pos; lia|apply Z.div_lt_upper_bound; lia].
Qed.

Lemma h256_hex_inj h1 h2 :
  0 ≤ h1 < 2 ^ 256 → 0 ≤ h2 < 2 ^ 256 → h256_hex h1 = h256_hex h2 → h1 = h2.
Proof.
  intros H1 H2 Heq%hex_encode_inj. change (2 ^ 256) with (256 ^ Z.of_nat 32) in *.
  by rewrite <-(be_bytes_value 32 h1), Heq, be_bytes_value.
Qed.

(** What a trace shows can be read back: bytes from their hexadecimal string,
    the memory of a log from the strings of its words, and a number when it has
    at most 64 bits; larger numbers are cut to their low 64 bits. *)
Theorem serialized_read_back (b memory : bytes) (n : nat) (x : U256) :
  length memory = (n * 32)%nat → 0 ≤ x →
  (∃ s, bytes_0x_serialize b = JStr (with_0x s) ∧ hex_decode s = b) ∧
  (∃ l, seq_h256_serialize (Some (convert_memory memory)) = JSeq (JStr <$> l) ∧
     length l = n ∧ mjoin (hex_decode <$> l) = memory) ∧
  (u256_serialize x = JNum x ↔ x < 2 ^ 64).
Proof.
  intros Hmem Hx. split_and!.
  - eexists. split; [done|]. apply hex_decode_encode.
  - exists (h256_hex <$> convert_memory memory). split; [by rewrite <-list_fmap_compose|].
    destruct (memory_words n memory Hmem) as [Hlen Hcat]. rewrite length_fmap. split; [done|]. rewrite <-list_fmap_compose.
    rewrite <-Hcat at 2. f_equal. apply list_fmap_ext. intros i h _. unfold compose.
    apply hex_decode_encode.
  - unfold u256_serialize. split.
    + intros [= Heq]. rewrite <-Heq. apply Z.mod_pos_bound. lia.
    + intros Hlt. by rewrite Z.mod_small.
Qed.

Lemma serialized_read_back_witness :
  ∃ l, seq_h256_serialize (Some (convert_memory (replicate 32 Byte.x2a))) = JSeq (JStr <$> l) ∧
    length l = 1%nat ∧ mjoin (hex_decode <$> l) = replicate 32 Byte.x2a.
Proof. apply (serialized_read_back [Byte.x01] (replicate 32 Byte.x2a) 1 5); [done|lia]. Defined.
