(* ===== verification/EventCodec.v ===== *)
(** * The codec of the tracing events: primitives/rpc/evm-tracing-events/src

    A tracing runtime sends its events to the client as bytes, by the derived [Encode] and
    [Decode] of their types: the fields of a struct in order, and a variant as the byte of
    its index before its fields.  The codecs of the leaves (integers, hashes, vectors and
    the [ExitReason] of the evm crate) are parameters that read back what they write. *)

From stdpp Require Import base tactics list option.
From Stdlib Require Import ZArith Lia Strings.Byte.
From S2P Require Import Prelude EvmEvents TraceTypes Serialization.
Local Open Scope Z_scope.

(** A codec of the values in its range. *)
Record codec (A : Type) := mkCodec {
  enc : A → bytes;
  dec : bytes → option (A * bytes);
  valid : A → Prop;
  dec_enc a rest : valid a → dec (enc a ++ rest) = Some (a, rest);
}.
Arguments enc {_} _ _.
Arguments dec {_} _ _.
Arguments valid {_} _ _.
Arguments dec_enc {_} _ _ _ _.

(** Reads one field after another, and at the end the value. *)
Ltac read_back :=
  cbn [enc dec valid gas_limit memory_gas used_gas refunded_gas address caller apparent_value
       source target transfer_value data_stack limit_stack data_memory effective_len
       limit_memory] in *;
  rewrite <-?app_comm_cons, <-?app_assoc; cbv beta iota;
  repeat (rewrite dec_enc by tauto; cbn [mbind option_bind]); try done.

(** [Option] and [Result] of the library, variants in order. *)
Definition option_codec {A} (c : codec A) : codec (option A).
Proof.
  refine {|
    enc o := match o with None => [x00] | Some a => x01 :: enc c a end;
    dec b := match b with
             | x00 :: b => Some (None, b)
             | x01 :: b => '(a, b) ← dec c b; Some (Some a, b)
             | _ => None
             end;
    valid o := match o with None => True | Some a => valid c a end;
  |}.
  abstract (intros [a|] rest Ha; read_back).
Defined.

Definition result_codec {A E} (c : codec A) (d : codec E) : codec (result A E).
Proof.
  refine {|
    enc r := match r with Ok a => x00 :: enc c a | Err e => x01 :: enc d e end;
    dec b := match b with
             | x00 :: b => '(a, b) ← dec c b; Some (Ok a, b)
             | x01 :: b => '(e, b) ← dec d b; Some (Err e, b)
             | _ => None
             end;
    valid r := match r with Ok a => valid c a | Err e => valid d e end;
  |}.
  abstract (intros [a|e] rest Ha; read_back).
Defined.

Definition unit_codec : codec unit.
Proof.
  refine {| enc _ := []; dec b := Some (tt, b); valid _ := True |}.
  abstract (by intros [] rest _).
Defined.

(** The codecs of the leaves. *)
Class LeafCodecs := {
  u64 : codec Z;
  i64 : codec Z;
  h160 : codec H160;
  h256 : codec H256;
  u256 : codec U256;
  boolean : codec bool;
  vec_u8 : codec bytes;
  vec_h256 : codec (list H256);
  exit_reason : codec ExitReason;
}.

Section codecs.
Context `{!LeafCodecs}.

(** ** gasometer.rs *)

Definition Snapshot_codec : codec Snapshot.
Proof.
  refine {|
    enc s := enc u64 (gas_limit s) ++ enc u64 (memory_gas s) ++ enc u64 (used_gas s)
             ++ enc i64 (refunded_gas s);
    dec b := '(gas_limit, b) ← dec u64 b; '(memory_gas, b) ← dec u64 b;
             '(used_gas, b) ← dec u64 b; '(refunded_gas, b) ← dec i64 b;
             Some (mkSnapshot gas_limit memory_gas used_gas refunded_gas, b);
    valid s := valid u64 (gas_limit s) ∧ valid u64 (memory_gas s) ∧ valid u64 (used_gas s) ∧
               valid i64 (refunded_gas s);
  |}.
  abstract (intros [????] rest Ha; read_back).
Defined.

Definition GasometerEvent_codec : codec GasometerEvent.
Proof.
  refine {|
    enc e :=
      match e with
      | RecordCost cost s => x00 :: enc u64 cost ++ enc Snapshot_codec s
      | RecordRefund refund s => x01 :: enc i64 refund ++ enc Snapshot_codec s
      | RecordStipend stipend s => x02 :: enc u64 stipend ++ enc Snapshot_codec s
      | RecordDynamicCost gas_cost memory_gas gas_refund s =>
          x03 :: enc u64 gas_cost ++ enc u64 memory_gas ++ enc i64 gas_refund
            ++ enc Snapshot_codec s
      | RecordTransaction cost s => x04 :: enc u64 cost ++ enc Snapshot_codec s
      end;
    dec b :=
      match b with
      | x00 :: b => '(cost, b) ← dec u64 b; '(s, b) ← dec Snapshot_codec b;
                    Some (RecordCost cost s, b)
      | x01 :: b => '(refund, b) ← dec i64 b; '(s, b) ← dec Snapshot_codec b;
                    Some (RecordRefund refund s, b)
      | x02 :: b => '(stipend, b) ← dec u64 b; '(s, b) ← dec Snapshot_codec b;
                    Some (RecordStipend stipend s, b)
      | x03 :: b => '(gas_cost, b) ← dec u64 b; '(memory_gas, b) ← dec u64 b;
                    '(gas_refund, b) ← dec i64 b; '(s, b) ← dec Snapshot_codec b;
                    Some (RecordDynamicCost gas_cost memory_gas gas_refund s, b)
      | x04 :: b => '(cost, b) ← dec u64 b; '(s, b) ← dec Snapshot_codec b;
                    Some (RecordTransaction cost s, b)
      | _ => None
      end;
    valid e :=
      match e with
      | RecordCost n s | RecordStipend n s | RecordTransaction n s =>
          valid u64 n ∧ valid Snapshot_codec s
      | RecordRefund n s => valid i64 n ∧ valid Snapshot_codec s
      | RecordDynamicCost gas_cost memory_gas gas_refund s =>
          valid u64 gas_cost ∧ valid u64 memory_gas ∧ valid i64 gas_refund ∧
          valid Snapshot_codec s
      end;
  |}.
  abstract (intros [] rest Ha; read_back).
Defined.

(** ** lib.rs and evm.rs *)

Definition Context_codec : codec EvmContext.
Proof.
  refine {|
    enc c := enc h160 (address c) ++ enc h160 (caller c) ++ enc u256 (apparent_value c);
    dec b := '(address, b) ← dec h160 b; '(caller, b) ← dec h160 b;
             '(apparent_value, b) ← dec u256 b;
             Some (mkEvmContext address caller apparent_value, b);
    valid c := valid h160 (address c) ∧ valid h160 (caller c) ∧ valid u256 (apparent_value c);
  |}.
  abstract (intros [???] rest Ha; read_back).
Defined.

Definition Transfer_codec : codec Transfer.
Proof.
  refine {|
    enc t := enc h160 (source t) ++ enc h160 (target t) ++ enc u256 (transfer_value t);
    dec b := '(source, b) ← dec h160 b; '(target, b) ← dec h160 b; '(value, b) ← dec u256 b;
             Some (mkTransfer source target value, b);
    valid t := valid h160 (source t) ∧ valid h160 (target t) ∧ valid u256 (transfer_value t);
  |}.
  abstract (intros [???] rest Ha; read_back).
Defined.

Definition CreateScheme_codec : codec CreateScheme.
Proof.
  refine {|
    enc s :=
      match s with
      | CreateScheme_Legacy caller => x00 :: enc h160 caller
      | CreateScheme_Create2 caller code_hash salt =>
          x01 :: enc h160 caller ++ enc h256 code_hash ++ enc h256 salt
      | CreateScheme_Fixed address => x02 :: enc h160 address
      end;
    dec b :=
      match b with
      | x00 :: b => '(caller, b) ← dec h160 b; Some (CreateScheme_Legacy caller, b)
      | x01 :: b => '(caller, b) ← dec h160 b; '(code_hash, b) ← dec h256 b;
                    '(salt, b) ← dec h256 b; Some (CreateScheme_Create2 caller code_hash salt, b)
      | x02 :: b => '(address, b) ← dec h160 b; Some (CreateScheme_Fixed address, b)
      | _ => None
      end;
    valid s :=
      match s with
      | CreateScheme_Legacy a | CreateScheme_Fixed a => valid h160 a
      | CreateScheme_Create2 caller code_hash salt =>
          valid h160 caller ∧ valid h256 code_hash ∧ valid h256 salt
      end;
  |}.
  abstract (intros [] rest Ha; read_back).
Defined.

(** The fields that a call and a subcall of a precompile share. *)
Definition enc_call (code_address : H160) (transfer : option Transfer) (input : bytes)
    (target_gas : option Z) (is_static : bool) (context : EvmContext) : bytes :=
  enc h160 code_address ++ enc (option_codec Transfer_codec) transfer ++ enc vec_u8 input
  ++ enc (option_codec u64) target_gas ++ enc boolean is_static ++ enc Context_codec context.

Definition dec_call {E}
    (k : H160 → option Transfer → bytes → option Z → bool → EvmContext → E) (b : bytes) :
    option (E * bytes) :=
  '(code_address, b) ← dec h160 b; '(transfer, b) ← dec (option_codec Transfer_codec) b;
  '(input, b) ← dec vec_u8 b; '(target_gas, b) ← dec (option_codec u64) b;
  '(is_static, b) ← dec boolean b; '(context, b) ← dec Context_codec b;
  Some (k code_address transfer input target_gas is_static context, b).

Definition valid_call (code_address : H160) (transfer : option Transfer) (input : bytes)
    (target_gas : option Z) (is_static : bool) (context : EvmContext) : Prop :=
  valid h160 code_address ∧ valid (option_codec Transfer_codec) transfer ∧ valid vec_u8 input ∧
  valid (option_codec u64) target_gas ∧ valid boolean is_static ∧ valid Context_codec context.

Definition enc_EvmEvent (e : EvmEvent) : bytes :=
  match e with
  | EvmEvent_Call code_address transfer input target_gas is_static context =>
      x00 :: enc_call code_address transfer input target_gas is_static context
  | EvmEvent_Create caller address scheme value init_code target_gas =>
      x01 :: enc h160 caller ++ enc h160 address ++ enc CreateScheme_codec scheme
        ++ enc u256 value ++ enc vec_u8 init_code ++ enc (option_codec u64) target_gas
  | EvmEvent_Suicide address target balance =>
      x02 :: enc h160 address ++ enc h160 target ++ enc u256 balance
  | EvmEvent_Exit reason return_value =>
      x03 :: enc exit_reason reason ++ enc vec_u8 return_value
  | EvmEvent_TransactCall caller address value data gas_limit =>
      x04 :: enc h160 caller ++ enc h160 address ++ enc u256 value ++ enc vec_u8 data
        ++ enc u64 gas_limit
  | EvmEvent_TransactCreate caller value init_code gas_limit address =>
      x05 :: enc h160 caller ++ enc u256 value ++ enc vec_u8 init_code ++ enc u64 gas_limit
        ++ enc h160 address
  | EvmEvent_TransactCreate2 caller value init_code salt gas_limit address =>
      x06 :: enc h160 caller ++ enc u256 value ++ enc vec_u8 init_code ++ enc h256 salt
        ++ enc u64 gas_limit ++ enc h160 address
  | EvmEvent_PrecompileSubcall code_address transfer input target_gas is_static context =>
      x07 :: enc_call code_address transfer input target_gas is_static context
  end.

Definition dec_EvmEvent (b : bytes) : option (EvmEvent * bytes) :=
  match b with
  | x00 :: b => dec_call EvmEvent_Call b
  | x01 :: b =>
      '(caller, b) ← dec h160 b; '(address, b) ← dec h160 b;
      '(scheme, b) ← dec CreateScheme_codec b; '(value, b) ← dec u256 b;
      '(init_code, b) ← dec vec_u8 b; '(target_gas, b) ← dec (option_codec u64) b;
      Some (EvmEvent_Create caller address scheme value init_code target_gas, b)
  | x02 :: b =>
      '(address, b) ← dec h160 b; '(target, b) ← dec h160 b; '(balance, b) ← dec u256 b;
      Some (EvmEvent_Suicide address target balance, b)
  | x03 :: b =>
      '(reason, b) ← dec exit_reason b; '(return_value, b) ← dec vec_u8 b;
      Some (EvmEvent_Exit reason return_value, b)
  | x04 :: b =>
      '(caller, b) ← dec h160 b; '(address, b) ← dec h160 b; '(value, b) ← dec u256 b;
      '(data, b) ← dec vec_u8 b; '(gas_limit, b) ← dec u64 b;
      Some (EvmEvent_TransactCall caller address value data gas_limit, b)
  | x05 :: b =>
      '(caller, b) ← dec h160 b; '(value, b) ← dec u256 b; '(init_code, b) ← dec vec_u8 b;
      '(gas_limit, b) ← dec u64 b; '(address, b) ← dec h160 b;
      Some (EvmEvent_TransactCreate caller value init_code gas_limit address, b)
  | x06 :: b =>
      '(caller, b) ← dec h160 b; '(value, b) ← dec u256 b; '(init_code, b) ← dec vec_u8 b;
      '(salt, b) ← dec h256 b; '(gas_limit, b) ← dec u64 b; '(address, b) ← dec h160 b;
      Some (EvmEvent_TransactCreate2 caller value init_code salt gas_limit address, b)
  | x07 :: b => dec_call EvmEvent_PrecompileSubcall b
  | _ => None
  end.

Definition valid_EvmEvent (e : EvmEvent) : Prop :=
  match e with
  | EvmEvent_Call a t i g s c | EvmEvent_PrecompileSubcall a t i g s c => valid_call a t i g s c
  | EvmEvent_Create caller address scheme value init_code target_gas =>
      valid h160 caller ∧ valid h160 address ∧ valid CreateScheme_codec scheme ∧
      valid u256 value ∧ valid vec_u8 init_code ∧ valid (option_codec u64) target_gas
  | EvmEvent_Suicide address target balance =>
      valid h160 address ∧ valid h160 target ∧ valid u256 balance
  | EvmEvent_Exit reason return_value => valid exit_reason reason ∧ valid vec_u8 return_value
  | EvmEvent_TransactCall caller address value data gas_limit =>
      valid h160 caller ∧ valid h160 address ∧ valid u256 value ∧ valid vec_u8 data ∧
      valid u64 gas_limit
  | EvmEvent_TransactCreate caller value init_code gas_limit address =>
      valid h160 caller ∧ valid u256 value ∧ valid vec_u8 init_code ∧ valid u64 gas_limit ∧
      valid h160 address
  | EvmEvent_TransactCreate2 caller value init_code salt gas_limit address =>
      valid h160 caller ∧ valid u256 value ∧ valid vec_u8 init_code ∧ valid h256 salt ∧
      valid u64 gas_limit ∧ valid h160 address
  end.

Lemma dec_enc_call {E} (k : H160 → option Transfer → bytes → option Z → bool → EvmContext → E)
    a t i g s c rest :
  valid_call a t i g s c → dec_call k (enc_call a t i g s c ++ rest) = Some (k a t i g s c, rest).
Proof. unfold valid_call, dec_call, enc_call. intros Hv. read_back. Qed.

Definition EvmEvent_codec : codec EvmEvent.
Proof.
  refine {| enc := enc_EvmEvent; dec := dec_EvmEvent; valid := valid_EvmEvent |}.
  abstract (intros [] rest Hv; cbn [enc_EvmEvent valid_EvmEvent] in *; unfold dec_EvmEvent;
            first [by apply dec_enc_call|read_back]).
Defined.

(** ** runtime.rs *)

Definition Stack_codec : codec Stack.
Proof.
  refine {|
    enc s := enc vec_h256 (data_stack s) ++ enc u64 (limit_stack s);
    dec b := '(data, b) ← dec vec_h256 b; '(limit, b) ← dec u64 b; Some (mkStack data limit, b);
    valid s := valid vec_h256 (data_stack s) ∧ valid u64 (limit_stack s);
  |}.
  abstract (intros [??] rest Ha; read_back).
Defined.

Definition Memory_codec : codec Memory.
Proof.
  refine {|
    enc m := enc vec_u8 (data_memory m) ++ enc u256 (effective_len m)
             ++ enc u64 (limit_memory m);
    dec b := '(data, b) ← dec vec_u8 b; '(effective_len, b) ← dec u256 b;
             '(limit, b) ← dec u64 b; Some (mkMemory data effective_len limit, b);
    valid m := valid vec_u8 (data_memory m) ∧ valid u256 (effective_len m) ∧
               valid u64 (limit_memory m);
  |}.
  abstract (intros [???] rest Ha; read_back).
Defined.

Definition Capture_codec {E T} (c : codec E) (d : codec T) : codec (Capture E T).
Proof.
  refine {|
    enc r := match r with Exit e => x00 :: enc c e | Trap t => x01 :: enc d t end;
    dec b := match b with
             | x00 :: b => '(e, b) ← dec c b; Some (Exit e, b)
             | x01 :: b => '(t, b) ← dec d b; Some (Trap t, b)
             | _ => None
             end;
    valid r := match r with Exit e => valid c e | Trap t => valid d t end;
  |}.
  abstract (intros [e|t] rest Ha; read_back).
Defined.

Definition StepOutcome_codec : codec (result unit (Capture ExitReason bytes)) :=
  result_codec unit_codec (Capture_codec exit_reason vec_u8).

Definition RuntimeEvent_codec : codec RuntimeEvent.
Proof.
  refine {|
    enc e :=
      match e with
      | Step context opcode position stack memory =>
          x00 :: enc Context_codec context ++ enc vec_u8 opcode
            ++ enc (result_codec u64 exit_reason) position
            ++ enc (option_codec Stack_codec) stack ++ enc (option_codec Memory_codec) memory
      | StepResult res return_value =>
          x01 :: enc StepOutcome_codec res ++ enc vec_u8 return_value
      | SLoad address index value =>
          x02 :: enc h160 address ++ enc h256 index ++ enc h256 value
      | SStore address index value =>
          x03 :: enc h160 address ++ enc h256 index ++ enc h256 value
      end;
    dec b :=
      match b with
      | x00 :: b =>
          '(context, b) ← dec Context_codec b; '(opcode, b) ← dec vec_u8 b;
          '(position, b) ← dec (result_codec u64 exit_reason) b;
          '(stack, b) ← dec (option_codec Stack_codec) b;
          '(memory, b) ← dec (option_codec Memory_codec) b;
          Some (Step context opcode position stack memory, b)
      | x01 :: b =>
          '(res, b) ← dec StepOutcome_codec b; '(return_value, b) ← dec vec_u8 b;
          Some (StepResult res return_value, b)
      | x02 :: b =>
          '(address, b) ← dec h160 b; '(index, b) ← dec h256 b; '(value, b) ← dec h256 b;
          Some (SLoad address index value, b)
      | x03 :: b =>
          '(address, b) ← dec h160 b; '(index, b) ← dec h256 b; '(value, b) ← dec h256 b;
          Some (SStore address index value, b)
      | _ => None
      end;
    valid e :=
      match e with
      | Step context opcode position stack memory =>
          valid Context_codec context ∧ valid vec_u8 opcode ∧
          valid (result_codec u64 exit_reason) position ∧
          valid (option_codec Stack_codec) stack ∧ valid (option_codec Memory_codec) memory
      | StepResult res return_value => valid StepOutcome_codec res ∧ valid vec_u8 return_value
      | SLoad address index value | SStore address index value =>
          valid h160 address ∧ valid h256 index ∧ valid h256 value
      end;
  |}.
  abstract (intros [] rest Ha; read_back).
Defined.

(** ** [Event] of lib.rs *)

Definition enc_Event (e : Event) : bytes :=
  match e with
  | Event_Evm e => x00 :: enc EvmEvent_codec e
  | Event_Gasometer e => x01 :: enc GasometerEvent_codec e
  | Event_Runtime e => x02 :: enc RuntimeEvent_codec e
  | Event_CallListNew => [x03]
  end.

Definition dec_Event (b : bytes) : option (Event * bytes) :=
  match b with
  | x00 :: b => '(e, b) ← dec EvmEvent_codec b; Some (Event_Evm e, b)
  | x01 :: b => '(e, b) ← dec GasometerEvent_codec b; Some (Event_Gasometer e, b)
  | x02 :: b => '(e, b) ← dec RuntimeEvent_codec b; Some (Event_Runtime e, b)
  | x03 :: b => Some (Event_CallListNew, b)
  | _ => None
  end.

Definition valid_Event (e : Event) : Prop :=
  match e with
  | Event_Evm e => valid EvmEvent_codec e
  | Event_Gasometer e => valid GasometerEvent_codec e
  | Event_Runtime e => valid RuntimeEvent_codec e
  | Event_CallListNew => True
  end.

Lemma dec_enc_Event e rest : valid_Event e → dec_Event (enc_Event e ++ rest) = Some (e, rest).
Proof.
  destruct e; intros Hv; cbn [enc_Event valid_Event] in *; unfold dec_Event; read_back.
Qed.

(** Two events with the same bytes are the same. *)
Lemma enc_Event_inj e1 e2 :
  valid_Event e1 → valid_Event e2 → enc_Event e1 = enc_Event e2 → e1 = e2.
Proof.
  intros H1 H2 Heq. pose proof (dec_enc_Event e1 [] H1) as E1.
  rewrite Heq, dec_enc_Event in E1 by done. by injection E1.
Qed.

End codecs.

(** ** An example: the library's encodings of the leaves *)

Module CodecExample.

(** [n] bytes, little-endian for an integer; the bytes of a hash as they are *)
Lemma length_be_bytes n z : length (be_bytes n z) = n.
Proof.
  revert z. induction n as [|n IH]; intros z; [done|]. simpl. rewrite length_app, IH. simpl. lia.
Qed.

Definition big (n : nat) : codec Z.
Proof.
  refine {|
    enc z := be_bytes n z;
    dec b := if decide (n ≤ length b)%nat then Some (H256_from_slice (take n b), drop n b)
             else None;
    valid z := 0 ≤ z < 256 ^ Z.of_nat n;
  |}.
  abstract (intros z rest Hz; rewrite length_app, length_be_bytes, decide_True by lia;
    rewrite take_app_length', drop_app_length' by (by rewrite length_be_bytes);
    by rewrite be_bytes_value).
Defined.

Definition little (n : nat) : codec Z.
Proof.
  refine {|
    enc z := reverse (be_bytes n z);
    dec b := if decide (n ≤ length b)%nat
             then Some (H256_from_slice (reverse (take n b)), drop n b) else None;
    valid z := 0 ≤ z < 256 ^ Z.of_nat n;
  |}.
  abstract (intros z rest Hz;
    rewrite length_app, length_reverse, length_be_bytes, decide_True by lia;
    rewrite take_app_length', drop_app_length' by (by rewrite length_reverse, length_be_bytes);
    by rewrite reverse_involutive, be_bytes_value).
Defined.

Definition bool_codec : codec bool.
Proof.
  refine {|
    enc b := if b : bool then [x01] else [x00];
    dec b := match b with x00 :: b => Some (false, b) | x01 :: b => Some (true, b) | _ => None end;
    valid _ := True;
  |}.
  abstract (by intros [] rest _).
Defined.

(** Vectors of bytes below 64: the length times four in a byte, then the bytes *)
Definition short_vec : codec bytes.
Proof.
  refine {|
    enc l := byte_of_Z (4 * zlen l) :: l;
    dec b := match b with
             | n :: b =>
                 let n := Z.to_nat (byte_val n `div` 4) in
                 if decide (n ≤ length b)%nat then Some (take n b, drop n b) else None
             | [] => None
             end;
    valid l := (length l < 64)%nat;
  |}.
  abstract (intros l rest Hl; simpl; rewrite byte_val_of_Z, Z.mod_small by lia;
    rewrite (Z.mul_comm 4), Z.div_mul, Nat2Z.id by lia;
    rewrite length_app, decide_True by lia; by rewrite take_app_length, drop_app_length).
Defined.

(** The empty vector of hashes, and the exit of a return *)
Definition no_hashes : codec (list H256).
Proof.
  refine {| enc l := [x00]; dec b := match b with x00 :: b => Some ([], b) | _ => None end;
            valid l := l = [] |}.
  abstract (by intros l rest ->).
Defined.
Definition returned : codec ExitReason.
Proof.
  refine {| enc r := [x00; x01];
            dec b := match b with x00 :: x01 :: b => Some (Succeed Returned, b) | _ => None end;
            valid r := r = Succeed Returned |}.
  abstract (by intros r rest ->).
Defined.

#[global] Instance leaves : LeafCodecs := {|
  u64 := little 8; i64 := little 8; h160 := big 20; h256 := big 32; u256 := little 32;
  boolean := bool_codec; vec_u8 := short_vec; vec_h256 := no_hashes; exit_reason := returned;
|}.

Definition exited : Event := Event_Evm (EvmEvent_Exit (Succeed Returned) [x2a]).
Definition cost : Event := Event_Gasometer (RecordCost 513 (mkSnapshot 1000 1 2 0)).

End CodecExample.

Lemma event_codec_example :
  enc_Event CodecExample.cost = [x01; x00; x01; x02] ++ drop 4 (enc_Event CodecExample.cost) ∧
  dec_Event (enc_Event CodecExample.cost ++ [x03]) = Some (CodecExample.cost, [x03]) ∧
  dec_Event (enc_Event CodecExample.exited ++ []) = Some (CodecExample.exited, []).
Proof.
  split; [reflexivity|].
  split; [apply dec_enc_Event; vm_compute; repeat split; discriminate|].
  apply (dec_enc_Event CodecExample.exited []). split; [reflexivity|cbn; lia].
Qed.
