(* ===== verification/EvmUtils.v ===== *)
(** * The second copy of the mirror types: primitives/rpc/evm-tracing-events/src/evm_utils.rs

    A copy of evm.rs from before the subcalls of precompiles, which no module of the crate
    includes: its types, its conversions, and what they have in common with evm.rs. *)

From stdpp Require Import base tactics list option.
From Stdlib Require Import ZArith Lia Strings.Byte.
From S2P Require Import Prelude EvmEvents TraceTypes Serialization EventCodec.
Local Open Scope Z_scope.

Record Transfer := mkTransfer {
  source : H160;
  target : H160;
  transfer_value : U256;
}.

Inductive CreateScheme :=
| Legacy (caller : H160)
| Create2 (caller : H160) (code_hash salt : H256)
| Fixed (address : H160).

Inductive EvmEvent :=
| Call (code_address : H160) (transfer : option Transfer) (input : bytes)
    (target_gas : option Z) (is_static : bool) (context : EvmContext)
| Create (caller address : H160) (scheme : CreateScheme) (value : U256)
    (init_code : bytes) (target_gas : option Z)
| Suicide (address target : H160) (balance : U256)
| ExitEvent (reason : ExitReason) (return_value : bytes)
| TransactCall (caller address : H160) (value : U256) (data : bytes) (gas_limit : Z)
| TransactCreate (caller : H160) (value : U256) (init_code : bytes) (gas_limit : Z)
    (address : H160)
| TransactCreate2 (caller : H160) (value : U256) (init_code : bytes) (salt : H256)
    (gas_limit : Z) (address : H160).

(** The conversions; the types of the evm crate are those that EvmEvents.v uses. *)
Definition Transfer_from (i : EvmEvents.Transfer) : Transfer :=
  let mysource := EvmEvents.source i in
  {| source := mysource; target := EvmEvents.target i;
     transfer_value := EvmEvents.transfer_value i |}.

Definition CreateScheme_from (i : EvmEvents.CreateScheme) : CreateScheme :=
  match i with
  | CreateScheme_Legacy caller => Legacy caller
  | CreateScheme_Create2 caller code_hash salt => Create2 caller code_hash salt
  | CreateScheme_Fixed address => Fixed address
  end.

(** The match has no arm for the subcall of a precompile; it was exhaustive for the events
    of its time, and there is no result for the one it does not know. *)
Definition EvmEvent_from (i : EvmEvents.EvmEvent) : option EvmEvent :=
  match i with
  | EvmEvent_Call code_address transfer input target_gas is_static context =>
      Some (Call code_address
        (match transfer with Some transfer => Some (Transfer_from transfer) | None => None end)
        input target_gas is_static (EvmContext_from context))
  | EvmEvent_Create caller address scheme value init_code target_gas =>
      Some (Create caller address (CreateScheme_from scheme) value init_code target_gas)
  | EvmEvent_Suicide address target balance => Some (Suicide address target balance)
  | EvmEvent_Exit reason return_value => Some (ExitEvent reason return_value)
  | EvmEvent_TransactCall caller address value data gas_limit =>
      Some (TransactCall caller address value data gas_limit)
  | EvmEvent_TransactCreate caller value init_code gas_limit address =>
      Some (TransactCreate caller value init_code gas_limit address)
  | EvmEvent_TransactCreate2 caller value init_code salt gas_limit address =>
      Some (TransactCreate2 caller value init_code salt gas_limit address)
  | EvmEvent_PrecompileSubcall _ _ _ _ _ _ => None
  end.

(** ** The derived codec *)

Section codec.
Context `{!LeafCodecs}.

Definition enc_Transfer (t : Transfer) : bytes :=
  enc h160 (source t) ++ enc h160 (target t) ++ enc u256 (transfer_value t).

Definition enc_CreateScheme (s : CreateScheme) : bytes :=
  match s with
  | Legacy caller => x00 :: enc h160 caller
  | Create2 caller code_hash salt => x01 :: enc h160 caller ++ enc h256 code_hash ++ enc h256 salt
  | Fixed address => x02 :: enc h160 address
  end.

Definition enc_EvmEvent (e : EvmEvent) : bytes :=
  match e with
  | Call code_address transfer input target_gas is_static context =>
      x00 :: enc h160 code_address
        ++ (match transfer with None => [x00] | Some t => x01 :: enc_Transfer t end)
        ++ enc vec_u8 input ++ enc (option_codec u64) target_gas ++ enc boolean is_static
        ++ enc Context_codec context
  | Create caller address scheme value init_code target_gas =>
      x01 :: enc h160 caller ++ enc h160 address ++ enc_CreateScheme scheme
        ++ enc u256 value ++ enc vec_u8 init_code ++ enc (option_codec u64) target_gas
  | Suicide address target balance =>
      x02 :: enc h160 address ++ enc h160 target ++ enc u256 balance
  | ExitEvent reason return_value => x03 :: enc exit_reason reason ++ enc vec_u8 return_value
  | TransactCall caller address value data gas_limit =>
      x04 :: enc h160 caller ++ enc h160 address ++ enc u256 value ++ enc vec_u8 data
        ++ enc u64 gas_limit
  | TransactCreate caller value init_code gas_limit address =>
      x05 :: enc h160 caller ++ enc u256 value ++ enc vec_u8 init_code ++ enc u64 gas_limit
        ++ enc h160 address
  | TransactCreate2 caller value init_code salt gas_limit address =>
      x06 :: enc h160 caller ++ enc u256 value ++ enc vec_u8 init_code ++ enc h256 salt
        ++ enc u64 gas_limit ++ enc h160 address
  end.

(** Of what the copy knows: an event converted by it has the bytes that evm.rs gives it,
    which therefore reads it back; and the events it has no conversion for are exactly the
    subcalls of precompiles. *)
Theorem evm_utils_compatible i :
  match EvmEvent_from i with
  | Some e =>
      enc_EvmEvent e = enc EvmEvent_codec (EvmEvents.EvmEvent_from i) ∧
      (valid_EvmEvent (EvmEvents.EvmEvent_from i) →
       dec EvmEvent_codec (enc_EvmEvent e) = Some (EvmEvents.EvmEvent_from i, []))
  | None => ∃ a t input g s c, i = EvmEvent_PrecompileSubcall a t input g s c
  end.
Proof.
  destruct (EvmEvent_from i) as [e|] eqn:He.
  - assert (enc_EvmEvent e = enc EvmEvent_codec (EvmEvents.EvmEvent_from i)) as Heq.
    { destruct i; simplify_eq/=; try done.
      - by destruct transfer.
      - by destruct scheme. }
    split; [done|]. intros Hv. rewrite Heq.
    rewrite <-(app_nil_r (enc _ _)). by apply dec_enc.
  - destruct i; simplify_eq/=. by eauto 7.
Qed.

End codec.
