(* ===== verification/CallList.v ===== *)
(** * The call list listener: client/evm-tracing/src/listeners/call_list.rs

    The listener turns the events of a traced execution into one entry per
    call, create or self-destruct.  Its state is a record with the fields of
    the source's [Listener]; every handler is a function from the state to an
    outcome (a panic of the checked arithmetic, or the next state). *)

From stdpp Require Import base tactics list gmap strings.
From Stdlib Require Import ZArith Lia Strings.Byte.
From S2P Require Import Prelude EvmEvents TraceTypes.
Local Open Scope Z_scope.

Inductive TracingVersion := EarlyTransact | Legacy.

#[global] Instance TracingVersion_eq_dec : EqDecision TracingVersion.
Proof. solve_decision. Defined.

Record Context := mkContext {
  entries_index : Z;
  context_type : ContextType;
  from : H160;
  trace_address : list Z;
  subtraces : Z;
  value : U256;
  gas : Z;
  start_gas : option Z;
  data : bytes;
  to : H160;
}.

(** [context_stack] is kept with its top (the last element of the vector)
    first. *)
Record CallListListener := mkCallListListener {
  version : TracingVersion;
  transaction_cost : Z;
  entries : list (gmap Z BlockscoutCall);
  entries_next_index : Z;
  context_stack : list Context;
  call_type : option CallType;
  skip_next_context : bool;
  step_result_entry : option (Z * BlockscoutCall);
  call_list_first_transaction : bool;
  record_transaction_event_only : bool;
}.

(** [impl Default for Listener]. *)
Definition Listener_default : CallListListener := {|
  version := Legacy;
  transaction_cost := 0;
  entries := [];
  entries_next_index := 0;
  context_stack := [];
  call_type := None;
  step_result_entry := None;
  skip_next_context := false;
  call_list_first_transaction := true;
  record_transaction_event_only := false;
|}.

(** ** Assignments to the fields *)

Definition set_version v s := mkCallListListener v (transaction_cost s) (entries s)
  (entries_next_index s) (context_stack s) (call_type s) (skip_next_context s)
  (step_result_entry s) (call_list_first_transaction s) (record_transaction_event_only s).
Definition set_transaction_cost c s := mkCallListListener (version s) c (entries s)
  (entries_next_index s) (context_stack s) (call_type s) (skip_next_context s)
  (step_result_entry s) (call_list_first_transaction s) (record_transaction_event_only s).
Definition set_entries e s := mkCallListListener (version s) (transaction_cost s) e
  (entries_next_index s) (context_stack s) (call_type s) (skip_next_context s)
  (step_result_entry s) (call_list_first_transaction s) (record_transaction_event_only s).
Definition set_entries_next_index n s := mkCallListListener (version s) (transaction_cost s)
  (entries s) n (context_stack s) (call_type s) (skip_next_context s)
  (step_result_entry s) (call_list_first_transaction s) (record_transaction_event_only s).
Definition set_context_stack l s := mkCallListListener (version s) (transaction_cost s)
  (entries s) (entries_next_index s) l (call_type s) (skip_next_context s)
  (step_result_entry s) (call_list_first_transaction s) (record_transaction_event_only s).
Definition set_call_type t s := mkCallListListener (version s) (transaction_cost s)
  (entries s) (entries_next_index s) (context_stack s) t (skip_next_context s)
  (step_result_entry s) (call_list_first_transaction s) (record_transaction_event_only s).
Definition set_skip_next_context b s := mkCallListListener (version s) (transaction_cost s)
  (entries s) (entries_next_index s) (context_stack s) (call_type s) b
  (step_result_entry s) (call_list_first_transaction s) (record_transaction_event_only s).
Definition set_step_result_entry e s := mkCallListListener (version s) (transaction_cost s)
  (entries s) (entries_next_index s) (context_stack s) (call_type s) (skip_next_context s)
  e (call_list_first_transaction s) (record_transaction_event_only s).
Definition set_call_list_first_transaction b s := mkCallListListener (version s)
  (transaction_cost s) (entries s) (entries_next_index s) (context_stack s) (call_type s)
  (skip_next_context s) (step_result_entry s) b (record_transaction_event_only s).
Definition set_record_transaction_event_only b s := mkCallListListener (version s)
  (transaction_cost s) (entries s) (entries_next_index s) (context_stack s) (call_type s)
  (skip_next_context s) (step_result_entry s) (call_list_first_transaction s) b.

Definition set_subtraces n (c : Context) := mkContext (entries_index c) (context_type c)
  (from c) (trace_address c) n (value c) (gas c) (start_gas c) (data c) (to c).
Definition set_gas start g (c : Context) := mkContext (entries_index c) (context_type c)
  (from c) (trace_address c) (subtraces c) (value c) g start (data c) (to c).

(** ** Handlers *)

Definition early_exit_message : bytes :=
  bytes_of "early exit (out of gas, stack overflow, direct call to precompile, ...)".
Definition data_cost_message : bytes :=
  bytes_of "transaction could not pay its own data cost (impossible to gather more info)".
Definition reverted_message : bytes := bytes_of "execution reverted".

(** [error_message]. *)
Definition error_message (error : ExitError) : bytes :=
  match error with
  | StackUnderflow => bytes_of "stack underflow"
  | StackOverflow => bytes_of "stack overflow"
  | InvalidJump => bytes_of "invalid jump"
  | InvalidRange => bytes_of "invalid range"
  | DesignatedInvalid => bytes_of "designated invalid"
  | CallTooDeep => bytes_of "call too deep"
  | CreateCollision => bytes_of "create collision"
  | CreateContractLimit => bytes_of "create contract limit"
  | OutOfOffset => bytes_of "out of offset"
  | OutOfGas => bytes_of "out of gas"
  | OutOfFund => bytes_of "out of funds"
  | OtherError err => err
  | UnnamedError _ => bytes_of "unexpected error"
  end.

(** [Listener::insert_entry]. *)
Definition insert_entry (key : Z) (entry : BlockscoutCall) (s : CallListListener) :
    CallListListener :=
  match last (entries s) with
  | Some _ => set_entries (alter_last (insert key entry) (entries s)) s
  | None => set_entries (entries s ++ [{[ key := entry ]}]) s
  end.

(** The result of a call, by the reason of its exit. *)
Definition call_result (reason : ExitReason) (return_value : bytes) : CallResult :=
  match reason with
  | Succeed Returned => CallResult_Output return_value
  | Succeed _ => CallResult_Output []
  | Error error => CallResult_Error (error_message error)
  | Revert _ => CallResult_Error reverted_message
  | Fatal _ => CallResult_Error []
  end.

(** The result of a create, by the reason of its exit. *)
Definition create_result (address : H160) (reason : ExitReason) (return_value : bytes) :
    CreateResult :=
  match reason with
  | Succeed _ => CreateResult_Success address return_value
  | Error error => CreateResult_Error (error_message error)
  | Revert _ => CreateResult_Error reverted_message
  | Fatal _ => CreateResult_Error []
  end.

(** The entry of a context once its result is known. *)
Definition context_entry (context : Context) (gas_used : Z) (inner : BlockscoutCallInner) :
    BlockscoutCall := {|
  bc_from := from context;
  bc_trace_address := trace_address context;
  bc_subtraces := subtraces context;
  bc_value := value context;
  bc_gas := gas context;
  bc_gas_used := gas_used;
  bc_inner := inner;
|}.

(** [Option::unwrap_or(0)] *)
Definition start_or_0 (c : Context) : Z := default 0 (start_gas c).

Section handlers.
Context `{!BuildProfile}.

(** The gas a context used: the opening lines of [pop_context_to_entry] and of
    [finish_transaction]. *)
Definition context_gas_used (transaction_cost : Z) (context : Context) : outcome Z :=
  gas_used ← sub_u64 (start_or_0 context) (gas context);
  if entries_index context =? 0 then add_u64 gas_used transaction_cost else Ret gas_used.

(** [Listener::pop_context_to_entry]. *)
Definition pop_context_to_entry (reason : ExitReason) (return_value : bytes)
    (s : CallListListener) : outcome (CallListListener * option (Z * BlockscoutCall)) :=
  match context_stack s with
  | context :: stack =>
      let s := set_context_stack stack s in
      gas_used ← context_gas_used (transaction_cost s) context;
      Ret (s, Some (entries_index context,
        match context_type context with
        | ContextType_Call call_type =>
            context_entry context gas_used
              (CallInner_Call call_type (to context) (data context)
                 (call_result reason return_value))
        | ContextType_Create =>
            context_entry context gas_used
              (CallInner_Create (data context)
                 (create_result (to context) reason return_value))
        end))
  | [] => Ret (s, None)
  end.

(** The entry made for a transaction that could not pay its data cost. *)
Definition data_cost_entry : BlockscoutCall := {|
  bc_from := 0;
  bc_trace_address := [];
  bc_subtraces := 0;
  bc_value := 0;
  bc_gas := 0;
  bc_gas_used := 0;
  bc_inner := CallInner_Call CallType_Call 0 [] (CallResult_Error data_cost_message);
|}.

(** [Listener::finish_transaction]. *)
Definition finish_transaction (s : CallListListener) : outcome CallListListener :=
  let stack := context_stack s in
  let s := set_context_stack [] s in
  match last stack with
  | Some context =>
      gas_used ← context_gas_used (transaction_cost s) context;
      let entry :=
        match context_type context with
        | ContextType_Call call_type =>
            context_entry context gas_used
              (CallInner_Call call_type (to context) (data context)
                 (CallResult_Error early_exit_message))
        | ContextType_Create =>
            context_entry context gas_used
              (CallInner_Create (data context) (CreateResult_Error early_exit_message))
        end in
      let s := insert_entry (entries_index context) entry s in
      next ← add_u32 (entries_index context) 1;
      Ret (set_entries_next_index next s)
  | None =>
      if record_transaction_event_only s then
        let s := insert_entry (entries_next_index s) data_cost_entry s in
        next ← add_u32 (entries_next_index s) 1;
        Ret (set_entries_next_index next s)
      else Ret s
  end.

(** [Listener::gasometer_event]. *)
Definition gasometer_event (s : CallListListener) (event : GasometerEvent) :
    outcome CallListListener :=
  match event with
  | RecordCost _ snapshot
  | RecordDynamicCost _ _ _ snapshot
  | RecordStipend _ snapshot =>
      match context_stack s with
      | context :: stack =>
          g ← Snapshot_gas snapshot;
          let start := match start_gas context with None => Some g | Some g0 => Some g0 end in
          Ret (set_context_stack (set_gas start g context :: stack) s)
      | [] => Ret s
      end
  | RecordTransaction cost _ =>
      Ret (set_record_transaction_event_only true (set_transaction_cost cost s))
  | RecordRefund _ _ => Ret s
  end.

(** [Listener::runtime_event]. *)
Definition runtime_event (s : CallListListener) (event : RuntimeEvent) :
    outcome CallListListener :=
  match event with
  | StepResult (Err (Trap opcode)) _ =>
      match ContextType_from opcode with
      | Some (ContextType_Call call_type) => Ret (set_call_type (Some call_type) s)
      | _ => Ret s
      end
  | StepResult (Err (Exit reason)) return_value =>
      '(s, popped) ← pop_context_to_entry reason return_value s;
      match popped with
      | Some (key, entry) =>
          match version s with
          | Legacy => Ret (insert_entry key entry s)
          | EarlyTransact => Ret (set_step_result_entry (Some (key, entry)) s)
          end
      | None => Ret s
      end
  | _ => Ret s
  end.

(** Reserves the next trace address under the context at the top of the stack:
    [trace_address.push(context.subtraces); context.subtraces += 1], or the
    empty address without a context. *)
Definition next_trace_address (s : CallListListener) :
    outcome (CallListListener * list Z) :=
  match context_stack s with
  | context :: stack =>
      let address := trace_address context ++ [subtraces context] in
      n ← add_u32 (subtraces context) 1;
      Ret (set_context_stack (set_subtraces n context :: stack) s, address)
  | [] => Ret (s, [])
  end.

(** Pushes a context and advances the index:
    [self.context_stack.push(Context \{..\}); self.entries_next_index += 1]. *)
Definition push_context (context_type : ContextType) (from : H160)
    (trace_address : list Z) (value : U256) (data : bytes) (to : H160)
    (s : CallListListener) : outcome CallListListener :=
  let context := {|
    entries_index := entries_next_index s;
    context_type := context_type;
    from := from;
    trace_address := trace_address;
    subtraces := 0;
    value := value;
    gas := 0;
    start_gas := None;
    data := data;
    to := to;
  |} in
  let s := set_context_stack (context :: context_stack s) s in
  next ← add_u32 (entries_next_index s) 1;
  Ret (set_entries_next_index next s).

(** The arms of [EvmEvent::TransactCall], [TransactCreate], [TransactCreate2]. *)
Definition transact (context_type : ContextType) (caller : H160) (value : U256)
    (data : bytes) (address : H160) (s : CallListListener) : outcome CallListListener :=
  let s := set_version EarlyTransact (set_record_transaction_event_only false s) in
  s ← push_context context_type caller [] value data address s;
  Ret (set_skip_next_context true s).

(** The arm of [EvmEvent::Call]. *)
Definition on_call (code_address : H160) (input : bytes) (is_static : bool)
    (context : EvmContext) (s : CallListListener) : outcome CallListListener :=
  let s := set_record_transaction_event_only false s in
  let call_type :=
    match call_type s, is_static with
    | None, true => StaticCall
    | None, false => CallType_Call
    | Some call_type, _ => call_type
    end in
  if negb (skip_next_context s) then
    '(s, trace_address) ← next_trace_address s;
    let from :=
      match context_stack s with
      | parent_context :: _ => to parent_context
      | [] => caller context
      end in
    push_context (ContextType_Call call_type) from trace_address
      (apparent_value context) input code_address s
  else Ret (set_skip_next_context false s).

(** The arm of [EvmEvent::Create]. *)
Definition on_create (caller address : H160) (value : U256) (init_code : bytes)
    (s : CallListListener) : outcome CallListListener :=
  let s := set_record_transaction_event_only false s in
  if negb (skip_next_context s) then
    '(s, trace_address) ← next_trace_address s;
    push_context ContextType_Create caller trace_address value init_code address s
  else Ret (set_skip_next_context false s).

(** The arm of [EvmEvent::Suicide]. *)
Definition on_suicide (address target : H160) (balance : U256) (s : CallListListener) :
    outcome CallListListener :=
  '(s, trace_address) ← next_trace_address s;
  let s := insert_entry (entries_next_index s)
    {| bc_from := address;
       bc_trace_address := trace_address;
       bc_subtraces := 0;
       bc_value := 0;
       bc_gas := 0;
       bc_gas_used := 0;
       bc_inner := CallInner_SelfDestruct balance target |} s in
  next ← add_u32 (entries_next_index s) 1;
  Ret (set_entries_next_index next s).

(** The arm of [EvmEvent::Exit]. *)
Definition on_exit (reason : ExitReason) (return_value : bytes) (s : CallListListener) :
    outcome CallListListener :=
  let s := set_record_transaction_event_only false s in
  '(s, entry) ←
    match step_result_entry s with
    | Some entry => Ret (set_step_result_entry None s, Some entry)
    | None => pop_context_to_entry reason return_value s
    end;
  match entry with
  | Some (key, entry) => Ret (insert_entry key entry s)
  | None => Ret s
  end.

(** [Listener::evm_event]. *)
Definition evm_event (s : CallListListener) (event : EvmEvent) :
    outcome CallListListener :=
  match event with
  | EvmEvent_TransactCall caller address value data _ =>
      transact (ContextType_Call CallType_Call) caller value data address s
  | EvmEvent_TransactCreate caller value init_code _ address =>
      transact ContextType_Create caller value init_code address s
  | EvmEvent_TransactCreate2 caller value init_code _ _ address =>
      transact ContextType_Create caller value init_code address s
  | EvmEvent_Call code_address _ input _ is_static context =>
      on_call code_address input is_static context s
  | EvmEvent_Create caller address _ value init_code _ =>
      on_create caller address value init_code s
  | EvmEvent_Suicide address target balance => on_suicide address target balance s
  | EvmEvent_Exit reason return_value => on_exit reason return_value s
  | EvmEvent_PrecompileSubcall _ _ _ _ _ _ =>
      Ret (set_call_type (Some CallType_Call) s)
  end.

(** [impl ListenerT for Listener]: [event]. *)
Definition listener_event (s : CallListListener) (event : Event) :
    outcome CallListListener :=
  match event with
  | Event_Gasometer gasometer => gasometer_event s gasometer
  | Event_Runtime runtime => runtime_event s runtime
  | Event_Evm evm => evm_event s evm
  | Event_CallListNew =>
      if negb (call_list_first_transaction s) then
        s ← finish_transaction s;
        let s := set_skip_next_context false s in
        Ret (set_entries (entries s ++ [∅]) s)
      else Ret (set_call_list_first_transaction false s)
  end.

Definition call_list_step_event_filter : StepEventFilter :=
  {| enable_memory := false; enable_stack := false |}.

#[global] Instance CallList_Listener : Listener CallListListener := {|
  event := listener_event;
  step_event_filter := λ _, call_list_step_event_filter;
|}.

End handlers.

(** [insert_entry] touches nothing but the entries. *)
Lemma insert_entry_fields k e s :
  entries_next_index (insert_entry k e s) = entries_next_index s ∧
  context_stack (insert_entry k e s) = context_stack s ∧
  step_result_entry (insert_entry k e s) = step_result_entry s.
Proof. unfold insert_entry. by destruct (last (entries s)). Qed.
