(* ===== verification/CallTree.v ===== *)
(** * The call list listener against the tree of calls

    An execution of the EVM is a tree: a transaction opens a root context, a
    context runs instructions and opens further contexts, and every context is
    closed before its parent goes on.  This file gives such trees, the events a
    tracing runtime emits for them, and the tree of entries a trace of them
    has to hold.  CallListSpec.v shows that the listener of call_list.rs
    computes exactly that tree. *)

From stdpp Require Import base tactics list gmap strings.
From Stdlib Require Import ZArith Lia Strings.Byte.
From S2P Require Import Prelude Trees EvmEvents TraceTypes CallList.
Local Open Scope Z_scope.
Set Warnings "-register-all".

(** ** Executions *)

(** What announces the type of a sub-call: the opcode that trapped, or the
    event of a precompile that makes a call. *)
Inductive Marker :=
| MTrap (opcode return_value : bytes)
| MSubcall (code_address : H160) (transfer : option Transfer) (input : bytes)
    (target_gas : option Z) (is_static : bool) (context : EvmContext).

Inductive Opening :=
| OpenCall (m : Marker) (mid : list GasometerEvent) (code_address : H160)
    (transfer : option Transfer) (input : bytes) (target_gas : option Z)
    (is_static : bool) (context : EvmContext)
| OpenCreate (opcode return_value : bytes) (mid : list GasometerEvent)
    (caller address : H160) (scheme : CreateScheme) (value : U256) (init_code : bytes)
    (target_gas : option Z).

(** How a context ends: whether the interpreter stepped to its end (a call of a
    precompile does not), and with which reason and output. *)
Record Closing := mkClosing {
  exit_step : bool;
  exit_reason : ExitReason;
  exit_value : bytes;
  event_reason : ExitReason;
  event_value : bytes;
}.

Inductive item :=
| IQuiet (e : Event)
| IGas (e : GasometerEvent)
| ISuicide (address target : H160) (balance : U256)
| ISub (o : Opening) (body : list item) (c : Closing).

Section item_induction.
Context (P : item → Prop).
Hypothesis HQuiet : ∀ e, P (IQuiet e).
Hypothesis HGas : ∀ e, P (IGas e).
Hypothesis HSuicide : ∀ a t b, P (ISuicide a t b).
Hypothesis HSub : ∀ o body c, Forall P body → P (ISub o body c).

Fixpoint item_rect_Forall (i : item) : P i :=
  match i with
  | IQuiet e => HQuiet e
  | IGas e => HGas e
  | ISuicide a t b => HSuicide a t b
  | ISub o body c =>
      HSub o body c
        ((fix go l : Forall P l :=
            match l with
            | [] => Forall_nil_2 P
            | i :: l => Forall_cons_2 P i l (item_rect_Forall i) (go l)
            end) body)
  end.
End item_induction.

(** ** Events of an execution *)

Definition marker_event (m : Marker) : Event :=
  match m with
  | MTrap opcode rv => Event_Runtime (StepResult (Err (Trap opcode)) rv)
  | MSubcall ca tr i tg st cx => Event_Evm (EvmEvent_PrecompileSubcall ca tr i tg st cx)
  end.

Definition opening_mid (o : Opening) : list GasometerEvent :=
  match o with
  | OpenCall _ mid _ _ _ _ _ _ => mid
  | OpenCreate _ _ mid _ _ _ _ _ _ => mid
  end.

Definition opening_mark (o : Opening) : Event :=
  match o with
  | OpenCall m _ _ _ _ _ _ _ => marker_event m
  | OpenCreate opcode rv _ _ _ _ _ _ _ => Event_Runtime (StepResult (Err (Trap opcode)) rv)
  end.

Definition opening_event (o : Opening) : Event :=
  match o with
  | OpenCall _ _ ca tr i tg st cx => Event_Evm (EvmEvent_Call ca tr i tg st cx)
  | OpenCreate _ _ _ ca ad sc va ic tg => Event_Evm (EvmEvent_Create ca ad sc va ic tg)
  end.

Definition opening_events (o : Opening) : list Event :=
  opening_mark o :: (Event_Gasometer <$> opening_mid o) ++ [opening_event o].

Definition closing_events (v : TracingVersion) (c : Closing) : list Event :=
  match v, exit_step c with
  | Legacy, _ => [Event_Runtime (StepResult (Err (Exit (exit_reason c))) (exit_value c))]
  | EarlyTransact, true =>
      [Event_Runtime (StepResult (Err (Exit (exit_reason c))) (exit_value c));
       Event_Evm (EvmEvent_Exit (event_reason c) (event_value c))]
  | EarlyTransact, false => [Event_Evm (EvmEvent_Exit (exit_reason c) (exit_value c))]
  end.

Fixpoint item_events (v : TracingVersion) (i : item) : list Event :=
  match i with
  | IQuiet e => [e]
  | IGas e => [Event_Gasometer e]
  | ISuicide a t b => [Event_Evm (EvmEvent_Suicide a t b)]
  | ISub o body c =>
      opening_events o ++ mjoin (item_events v <$> body) ++ closing_events v c
  end.

Definition items_events (v : TracingVersion) (l : list item) : list Event :=
  mjoin (item_events v <$> l).

(** ** Gas *)

(** The gas left that a snapshot shows. *)
Definition snapshot_gas (s : Snapshot) : Z := gas_limit s - used_gas s - memory_gas s.

(** The gas left after an event that records gas of the running context. *)
Definition gas_value (e : GasometerEvent) : option Z :=
  match e with
  | RecordCost _ s | RecordDynamicCost _ _ _ s | RecordStipend _ s => Some (snapshot_gas s)
  | RecordRefund _ _ | RecordTransaction _ _ => None
  end.

(** The gas left after each recording event of a context itself, its
    sub-contexts' own ones excluded. *)
Definition item_gas (i : item) : list Z :=
  match i with
  | IGas e => option_list (gas_value e)
  | ISub o _ _ => omap gas_value (opening_mid o)
  | _ => []
  end.
Definition own_gas (l : list item) : list Z := mjoin (item_gas <$> l).

Definition first_gas (gs : list Z) : Z := default 0 (head gs).
Definition last_gas (gs : list Z) : Z := default 0 (last gs).

(** ** The tree of entries *)

Definition marker_type (m : Marker) : option CallType :=
  match m with
  | MTrap opcode _ =>
      match ContextType_from opcode with Some (ContextType_Call t) => Some t | _ => None end
  | MSubcall _ _ _ _ _ _ => Some CallType_Call
  end.

(** The call type the listener remembers after the mark of a sub-context and
    after an item, when it remembered [ct] before. *)
Definition opening_type (ct : option CallType) (o : Opening) : option CallType :=
  match o with
  | OpenCall m _ _ _ _ _ _ _ => marker_type m
  | OpenCreate _ _ _ _ _ _ _ _ _ => ct
  end.

Fixpoint item_type (ct : option CallType) (i : item) : option CallType :=
  match i with
  | ISub o body _ => foldl item_type (opening_type ct o) body
  | _ => ct
  end.
Definition items_type (ct : option CallType) (l : list item) : option CallType :=
  foldl item_type ct l.

(** What a context is opened with. *)
Record Frame := mkFrame {
  frame_type : ContextType;
  frame_from : H160;
  frame_value : U256;
  frame_data : bytes;
  frame_to : H160;
}.

(** A sub-call comes from the contract that makes it. *)
Definition opening_frame (parent : H160) (o : Opening) : Frame :=
  match o with
  | OpenCall m _ ca _ i _ _ cx =>
      mkFrame (ContextType_Call (default CallType_Call (marker_type m)))
        parent (apparent_value cx) i ca
  | OpenCreate _ _ _ ca ad _ va ic _ => mkFrame ContextType_Create ca va ic ad
  end.

Definition closing_inner (f : Frame) (c : Closing) : BlockscoutCallInner :=
  match frame_type f with
  | ContextType_Call t =>
      CallInner_Call t (frame_to f) (frame_data f) (call_result (exit_reason c) (exit_value c))
  | ContextType_Create =>
      CallInner_Create (frame_data f)
        (create_result (frame_to f) (exit_reason c) (exit_value c))
  end.

(** The entry of a context at [addr] with [children] sub-entries, the gas left
    over its run and the cost [extra] that is charged on top. *)
Definition frame_entry (f : Frame) (addr : list Z) (children : Z) (gs : list Z)
    (extra : Z) (c : Closing) : BlockscoutCall := {|
  bc_from := frame_from f;
  bc_trace_address := addr;
  bc_subtraces := children;
  bc_value := frame_value f;
  bc_gas := last_gas gs;
  bc_gas_used := first_gas gs - last_gas gs + extra;
  bc_inner := closing_inner f c;
|}.

Definition suicide_entry (a t : H160) (b : U256) (addr : list Z) : BlockscoutCall := {|
  bc_from := a;
  bc_trace_address := addr;
  bc_subtraces := 0;
  bc_value := 0;
  bc_gas := 0;
  bc_gas_used := 0;
  bc_inner := CallInner_SelfDestruct b t;
|}.

(** A sub-tree, once its parent's contract and its own address are known. *)
Abbreviation subtree := (H160 → list Z → rose BlockscoutCall).

(** The sub-trees of a context, numbered from [k]. *)
Definition place_from (k : Z) (parent : H160) (addr : list Z) (l : list subtree) :
    list (rose BlockscoutCall) :=
  imap (λ j mk, mk parent (addr ++ [k + Z.of_nat j])) l.

Fixpoint item_tree (i : item) : option subtree :=
  match i with
  | IQuiet _ | IGas _ => None
  | ISuicide a t b => Some (λ _ addr, Rose (suicide_entry a t b addr) [])
  | ISub o body c =>
      let subs := omap item_tree body in
      Some (λ parent addr,
        let f := opening_frame parent o in
        Rose (frame_entry f addr (zlen subs) (own_gas body) 0 c)
          (place_from 0 (frame_to f) addr subs))
  end.

Definition items_trees (k : Z) (parent : H160) (addr : list Z) (l : list item) :
    list (rose BlockscoutCall) :=
  place_from k parent addr (omap item_tree l).

(** The number of entries of an item. *)
Fixpoint item_size (i : item) : Z :=
  match i with
  | IQuiet _ | IGas _ => 0
  | ISuicide _ _ _ => 1
  | ISub _ body _ => 1 + foldr Z.add 0 (item_size <$> body)
  end.
Definition items_size (l : list item) : Z := foldr Z.add 0 (item_size <$> l).

(** ** Well-formed executions *)

Definition snapshot_ok (s : Snapshot) : bool :=
  (0 <=? memory_gas s) && (used_gas s + memory_gas s <=? gas_limit s).

Definition gas_event_ok (e : GasometerEvent) : bool :=
  match e with
  | RecordCost _ s | RecordDynamicCost _ _ _ s | RecordStipend _ s => snapshot_ok s
  | RecordRefund _ _ => true
  | RecordTransaction _ _ => false
  end.

(** Events that do not concern the call list. *)
Definition quiet (e : Event) : bool :=
  match e with
  | Event_Runtime (StepResult (Err (Trap opcode)) _) =>
      bool_decide (ContextType_from opcode = None)
  | Event_Runtime (StepResult (Err (Exit _)) _) => false
  | Event_Runtime _ => true
  | Event_Gasometer (RecordRefund _ _) => true
  | _ => false
  end.

Definition opening_ok (o : Opening) : bool :=
  forallb gas_event_ok (opening_mid o) &&
  match o with
  | OpenCall m _ _ _ _ _ _ _ => bool_decide (is_Some (marker_type m))
  | OpenCreate opcode _ _ _ _ _ _ _ _ =>
      bool_decide (ContextType_from opcode = Some ContextType_Create)
  end.

(** The gas left at the end of a context is at most what it started with. *)
Definition gas_falls (gs : list Z) : bool := last_gas gs <=? first_gas gs.

(** In legacy mode a context is only seen to end when the interpreter steps to
    its end. *)
Definition closing_ok (v : TracingVersion) (c : Closing) : bool :=
  match v with Legacy => exit_step c | EarlyTransact => true end.

Fixpoint item_ok (v : TracingVersion) (i : item) : bool :=
  match i with
  | IQuiet e => quiet e
  | IGas e => gas_event_ok e
  | ISuicide _ _ _ => true
  | ISub o body c =>
      opening_ok o && forallb (item_ok v) body && gas_falls (own_gas body) && closing_ok v c
  end.
Definition items_ok (v : TracingVersion) (l : list item) : bool := forallb (item_ok v) l.

(** ** Transactions

    A runtime of the [EarlyTransact] version opens a transaction with one of
    the [TransactX] events, records the cost of the transaction, and announces
    the root context a second time with a [Call] or [Create] event unless the
    transaction fails before. *)

Inductive RootOpening :=
| RootCall (caller address : H160) (value : U256) (data : bytes) (gas_limit : Z)
| RootCreate (caller : H160) (value : U256) (init_code : bytes) (gas_limit : Z)
    (address : H160)
| RootCreate2 (caller : H160) (value : U256) (init_code : bytes) (salt : H256)
    (gas_limit : Z) (address : H160).

Record Transaction := mkTransaction {
  tx_root : RootOpening;
  tx_pre : list GasometerEvent;
  tx_run : option (EvmEvent * list item);
  tx_close : Closing;
}.

Definition root_event (r : RootOpening) : Event :=
  Event_Evm
    match r with
    | RootCall ca ad va da gl => EvmEvent_TransactCall ca ad va da gl
    | RootCreate ca va ic gl ad => EvmEvent_TransactCreate ca va ic gl ad
    | RootCreate2 ca va ic sa gl ad => EvmEvent_TransactCreate2 ca va ic sa gl ad
    end.

Definition root_frame (r : RootOpening) : Frame :=
  match r with
  | RootCall ca ad va da _ => mkFrame (ContextType_Call CallType_Call) ca va da ad
  | RootCreate ca va ic _ ad => mkFrame ContextType_Create ca va ic ad
  | RootCreate2 ca va ic _ _ ad => mkFrame ContextType_Create ca va ic ad
  end.

Definition tx_body (tx : Transaction) : list item :=
  match tx_run tx with Some (_, body) => body | None => [] end.

Definition tx_events (tx : Transaction) : list Event :=
  root_event (tx_root tx) :: (Event_Gasometer <$> tx_pre tx) ++
  match tx_run tx with
  | Some (e, body) => Event_Evm e :: items_events EarlyTransact body
  | None => []
  end ++ closing_events EarlyTransact (tx_close tx).

(** The cost of the transaction: what the last [RecordTransaction] says, or
    the cost [old] the listener remembers. *)
Definition tx_cost (old : Z) (pre : list GasometerEvent) : Z :=
  foldl (λ c e, match e with RecordTransaction c' _ => c' | _ => c end) old pre.

Definition tx_gas (tx : Transaction) : list Z :=
  omap gas_value (tx_pre tx) ++ own_gas (tx_body tx).

(** The cost charged to the context with index [n]. *)
Definition extra_cost (n cost : Z) : Z := if n =? 0 then cost else 0.

(** The tree of entries of a transaction whose root has index [n]. *)
Definition tx_tree (n old : Z) (tx : Transaction) : rose BlockscoutCall :=
  let f := root_frame (tx_root tx) in
  Rose (frame_entry f [] (zlen (omap item_tree (tx_body tx))) (tx_gas tx)
          (extra_cost n (tx_cost old (tx_pre tx))) (tx_close tx))
    (items_trees 0 (frame_to f) [] (tx_body tx)).

Definition tx_size (tx : Transaction) : Z := 1 + items_size (tx_body tx).

Definition pre_event_ok (e : GasometerEvent) : bool :=
  match e with RecordTransaction _ _ => true | _ => gas_event_ok e end.

Definition opens_context (e : EvmEvent) : bool :=
  match e with
  | EvmEvent_Call _ _ _ _ _ _ | EvmEvent_Create _ _ _ _ _ _ => true
  | _ => false
  end.

(** Well-formed transactions; the gas used with the cost of the transaction
    fits the machine word. *)
Definition tx_ok (tx : Transaction) : bool :=
  forallb pre_event_ok (tx_pre tx) &&
  match tx_run tx with
  | Some (e, body) => opens_context e && items_ok EarlyTransact body
  | None => true
  end &&
  gas_falls (tx_gas tx) &&
  (first_gas (tx_gas tx) - last_gas (tx_gas tx) + tx_cost 0 (tx_pre tx) <? 2 ^ 64).

(** ** Blocks

    [Event::CallListNew] is emitted before each transaction. *)

Definition block_events (txs : list Transaction) : list Event :=
  mjoin ((λ tx, Event_CallListNew :: tx_events tx) <$> txs).

Fixpoint block_trees (n old : Z) (txs : list Transaction) : list (rose BlockscoutCall) :=
  match txs with
  | [] => []
  | tx :: txs =>
      tx_tree n old tx :: block_trees (n + tx_size tx) (tx_cost old (tx_pre tx)) txs
  end.

Fixpoint block_maps (n old : Z) (txs : list Transaction) : list (gmap Z BlockscoutCall) :=
  match txs with
  | [] => []
  | tx :: txs =>
      index_map n (preorder (tx_tree n old tx))
        :: block_maps (n + tx_size tx) (tx_cost old (tx_pre tx)) txs
  end.

Definition block_size (txs : list Transaction) : Z := foldr Z.add 0 (tx_size <$> txs).

(** ** An example execution

    A transaction that calls a contract, which makes a static call (whose
    callee reverts), a call through a precompile, and a create whose
    constructor self-destructs. *)

Module Example.

Definition snap (g : Z) : Snapshot := mkSnapshot 100000 0 (100000 - g) 0.
Definition ctx (addr from v : Z) : EvmContext := mkEvmContext addr from v.
Definition returned (b : bytes) : Closing :=
  mkClosing true (Succeed Returned) b (Succeed Returned) b.
Definition reverted : Closing := mkClosing true (Revert 0) [] (Revert 0) [].
Definition precompiled : Closing := mkClosing false (Succeed Returned) [] (Succeed Returned) [].

Definition static_call : item :=
  ISub (OpenCall (MTrap (opcodes_string 250) []) [RecordCost 700 (snap 60000)]
          0xB0 None [Byte.x01] None true (ctx 0xB0 0xA0 0))
    [IGas (RecordCost 3 (snap 50000)); IQuiet (Event_Runtime (SLoad 0xB0 1 2));
     IGas (RecordDynamicCost 3 0 0 (snap 49000))] reverted.
Definition subcall : item :=
  ISub (OpenCall (MSubcall 0xC0 None [] None false (ctx 0xC0 0xA0 5)) []
          0xC0 None [] None false (ctx 0xC0 0xA0 5)) [] precompiled.
Definition create : item :=
  ISub (OpenCreate (opcodes_string 240) [] [] 0xA0 0xD0 (CreateScheme_Legacy 0xA0) 9
          [Byte.x60] None)
    [IGas (RecordCost 3 (snap 30000)); ISuicide 0xD0 0xE0 9] (returned []).

Definition tx : Transaction :=
  mkTransaction (RootCall 0x01 0xA0 7 [Byte.xca] 100000)
    [RecordTransaction 21000 (snap 79000)]
    (Some (EvmEvent_Call 0xA0 None [Byte.xca] None false (ctx 0xA0 0x01 7),
       [IGas (RecordCost 3 (snap 78997)); static_call; subcall; create;
        IGas (RecordCost 3 (snap 20000))]))
    (returned [Byte.x2a]).

(** A transaction that cannot pay its own data. *)
Definition failed : Transaction :=
  mkTransaction (RootCall 0x02 0xA0 0 [] 10) [] None
    (mkClosing false (Error OutOfGas) [] (Error OutOfGas) []).

End Example.

(** ** Sizes *)

Lemma items_events_single v i : items_events v [i] = item_events v i.
Proof. apply app_nil_r. Qed.

Lemma item_size_nonneg i : 0 ≤ item_size i.
Proof.
  induction i as [| | |o body c IH] using item_rect_Forall; simpl; try lia.
  enough (0 ≤ foldr Z.add 0 (item_size <$> body)) by lia.
  induction IH as [|i l Hi _ IHl]; [done|]. rewrite fmap_cons. cbn [foldr]. lia.
Qed.

Lemma items_size_cons i l : items_size (i :: l) = item_size i + items_size l.
Proof. done. Qed.

Lemma items_size_nonneg l : 0 ≤ items_size l.
Proof.
  induction l as [|i l IH]; [done|]. rewrite items_size_cons.
  pose proof (item_size_nonneg i). lia.
Qed.

Lemma items_size_app l1 l2 : items_size (l1 ++ l2) = items_size l1 + items_size l2.
Proof.
  induction l1 as [|i l1 IH]; [done|].
  rewrite <-app_comm_cons, !items_size_cons. lia.
Qed.

Lemma place_from_app k p a l1 l2 :
  place_from k p a (l1 ++ l2) = place_from k p a l1 ++ place_from (k + zlen l1) p a l2.
Proof.
  unfold place_from. rewrite imap_app. f_equal. apply imap_ext. intros j mk _. simpl.
  by rewrite Nat2Z.inj_add, Z.add_assoc.
Qed.

Lemma items_trees_app k p a l1 l2 :
  items_trees k p a (l1 ++ l2) =
  items_trees k p a l1 ++ items_trees (k + zlen (omap item_tree l1)) p a l2.
Proof. unfold items_trees. by rewrite omap_app, place_from_app. Qed.

Lemma items_trees_cons k p a i l :
  items_trees k p a (i :: l) =
  items_trees k p a [i] ++ items_trees (k + zlen (omap item_tree [i])) p a l.
Proof. apply (items_trees_app k p a [i] l). Qed.

Lemma items_trees_sub k p a o body c :
  items_trees k p a [ISub o body c] =
  let f := opening_frame p o in
  [Rose (frame_entry f (a ++ [k]) (zlen (omap item_tree body)) (own_gas body) 0 c)
     (items_trees 0 (frame_to f) (a ++ [k]) body)].
Proof. unfold items_trees at 1, place_from. simpl. by rewrite Z.add_0_r. Qed.

(** The number of entries is the size of the execution. *)
Lemma items_trees_length_Forall l :
  Forall (λ i, ∀ k p a, zlen (preorders (items_trees k p a [i])) = item_size i) l →
  ∀ k p a, zlen (preorders (items_trees k p a l)) = items_size l.
Proof.
  induction 1 as [|i l Hi _ IH]; intros k p a; [done|].
  rewrite items_trees_cons, preorders_app, length_app, Nat2Z.inj_add, Hi, IH.
  by rewrite items_size_cons.
Qed.

Lemma item_trees_length i k p a :
  zlen (preorders (items_trees k p a [i])) = item_size i.
Proof.
  revert k p a. induction i as [| | |o body c IH] using item_rect_Forall; intros k p adr;
    [done..|].
  rewrite items_trees_sub. unfold preorders at 1. rewrite fmap_cons, preorder_Rose.
  cbn [mjoin list_join fmap list_fmap]. rewrite app_nil_r. cbn [length].
  rewrite Nat2Z.inj_succ, items_trees_length_Forall by done. cbn [item_size].
  unfold items_size. lia.
Qed.

Lemma items_trees_length k p a l :
  zlen (preorders (items_trees k p a l)) = items_size l.
Proof.
  apply items_trees_length_Forall, Forall_forall. intros i _. apply item_trees_length.
Qed.

Lemma omap_item_tree_length l : zlen (omap item_tree l) ≤ items_size l.
Proof.
  induction l as [|i l IH]; [done|]. rewrite items_size_cons.
  destruct i as [| | |o body c]; cbn [omap list_omap item_tree item_size length].
  4: change (foldr Z.add 0 (item_size <$> body)) with (items_size body).
  4: pose proof (items_size_nonneg body).
  all: change (list_omap _ _ item_tree l) with (omap item_tree l); lia.
Qed.

Lemma extra_cost_later n cost : 1 ≤ n → extra_cost n cost = 0.
Proof. intros. unfold extra_cost. by rewrite (proj2 (Z.eqb_neq n 0)) by lia. Qed.
