(* ===== verification/CallListSpec.v ===== *)
(** * The call list listener computes the tree of calls

    The refinement of the listener of call_list.rs (CallList.v) by the trees of
    CallTree.v: running the events of an execution adds the pre-order listing
    of its tree to the entries. *)

From stdpp Require Import base tactics list gmap strings.
From Stdlib Require Import ZArith Lia Strings.Byte.
From S2P Require Import Prelude Trees EvmEvents TraceTypes CallList CallTree.
Local Open Scope Z_scope.

(** ** Running the listener inside a context *)

Section refinement.
Context `{!BuildProfile}.
Context (v : TracingVersion).

(** The state of the listener between two events of a transaction. *)
Definition between skip only cost E n stack ct first : CallListListener :=
  mkCallListListener v cost E n stack ct skip None first only.

(** The state between two events of a running context. *)
Definition running := between false false.

Definition record_gas (c : Context) (g : Z) : Context :=
  set_gas (Some (default g (start_gas c))) g c.

(** A context after part of its body. *)
Definition body_context (c : Context) (l : list item) : Context :=
  set_subtraces (subtraces c + zlen (omap item_tree l)) (foldl record_gas c (own_gas l)).

Lemma insert_entry_add key entry s :
  insert_entry key entry s = set_entries (add_map {[key := entry]} (entries s)) s.
Proof.
  unfold insert_entry. destruct (entries s) as [|M E _] using rev_ind; simpl.
  - by rewrite bool_decide_eq_false_2 by apply map_non_empty_singleton.
  - rewrite last_snoc, add_map_snoc, alter_last_snoc.
    by rewrite insert_union_singleton_l.
Qed.

Lemma snapshot_ok_gas s : snapshot_ok s = true → Snapshot_gas s = Ret (snapshot_gas s).
Proof.
  unfold snapshot_ok, snapshot_gas. rewrite andb_true_iff, !Z.leb_le. intros [??].
  by rewrite Snapshot_gas_ok by lia.
Qed.

Lemma gas_event_run e cost E n c stack ct first :
  gas_event_ok e = true →
  listener_event (running cost E n (c :: stack) ct first) (Event_Gasometer e) =
  Ret (running cost E n (foldl record_gas c (option_list (gas_value e)) :: stack) ct first).
Proof.
  intros He. destruct e; simpl in *; try done.
  all: rewrite snapshot_ok_gas by done; simpl.
  all: unfold record_gas; by destruct (start_gas c).
Qed.

Lemma gas_events_run l cost E n c stack ct first :
  forallb gas_event_ok l = true →
  emit_all (running cost E n (c :: stack) ct first) (Event_Gasometer <$> l) =
  Ret (running cost E n (foldl record_gas c (omap gas_value l) :: stack) ct first).
Proof.
  revert c. induction l as [|e l IH]; intros c; [done|].
  cbn [forallb]. rewrite andb_true_iff. intros [He Hl].
  rewrite fmap_cons. erewrite emit_all_cons by exact (gas_event_run _ _ _ _ _ _ _ _ He).
  rewrite IH by done. simpl. by destruct (gas_value e).
Qed.

(** What a part of the body of a context does to the listener. *)
Definition body_spec (l : list item) : Prop := ∀ cost E n c stack ct first,
  items_ok v l = true → 1 ≤ n → n + items_size l < 2 ^ 32 →
  0 ≤ subtraces c → subtraces c + items_size l < 2 ^ 32 →
  emit_all (running cost E n (c :: stack) ct first) (items_events v l) =
  Ret (running cost
         (add_map (index_map n
            (preorders (items_trees (subtraces c) (to c) (trace_address c) l))) E)
         (n + items_size l) (body_context c l :: stack) (items_type ct l) first).

Lemma foldl_record_gas_set_subtraces gs n c :
  foldl record_gas (set_subtraces n c) gs = set_subtraces n (foldl record_gas c gs).
Proof. revert c. induction gs as [|g gs IH]; intros c; [done|]. simpl. by rewrite <-IH. Qed.

Lemma foldl_record_gas_stable gs c :
  let c' := foldl record_gas c gs in
  subtraces c' = subtraces c ∧ to c' = to c ∧ trace_address c' = trace_address c ∧
  entries_index c' = entries_index c ∧ context_type c' = context_type c ∧
  from c' = from c ∧ value c' = value c ∧ data c' = data c.
Proof. revert c. induction gs as [|g gs IH]; intros c; simpl; [done|]. apply (IH (record_gas c g)). Qed.

Lemma body_context_nil c : body_context c [] = c.
Proof. unfold body_context. simpl. rewrite Z.add_0_r. by destruct c. Qed.

Lemma body_context_app c l1 l2 :
  body_context (body_context c l1) l2 = body_context c (l1 ++ l2).
Proof.
  unfold body_context, own_gas. rewrite foldl_record_gas_set_subtraces.
  rewrite fmap_app, join_app, foldl_app, omap_app, length_app. unfold set_subtraces. simpl.
  f_equal. lia.
Qed.

Lemma body_context_stable c l :
  subtraces (body_context c l) = subtraces c + zlen (omap item_tree l) ∧
  to (body_context c l) = to c ∧ trace_address (body_context c l) = trace_address c.
Proof.
  unfold body_context. destruct (foldl_record_gas_stable (own_gas l) c) as (?&?&?&_).
  by simpl.
Qed.

Lemma body_spec_nil : body_spec [].
Proof.
  intros cost E n c stack ct first _ _ _ _ _. simpl.
  rewrite body_context_nil, add_map_empty. by rewrite Z.add_0_r.
Qed.

Lemma items_ok_app l1 l2 : items_ok v (l1 ++ l2) = items_ok v l1 && items_ok v l2.
Proof. apply forallb_app. Qed.

Lemma body_spec_app l1 l2 : body_spec l1 → body_spec l2 → body_spec (l1 ++ l2).
Proof.
  intros H1 H2 cost E n c stack ct first. rewrite items_ok_app, andb_true_iff.
  intros [Hok1 Hok2] Hn. rewrite items_size_app. intros Hlt Hs Hslt.
  pose proof (items_size_nonneg l1). pose proof (items_size_nonneg l2).
  pose proof (omap_item_tree_length l1).
  destruct (body_context_stable c l1) as (Hst & Hto & Hta).
  unfold items_events. rewrite fmap_app, join_app.
  erewrite emit_all_app_Ret by (apply (H1 cost E n c stack ct first); [done|lia..]).
  refine (eq_trans (H2 cost _ (n + items_size l1) (body_context c l1) stack _ first _ _ _ _ _) _);
    [done|lia..|].
  unfold items_type. rewrite foldl_app.
  rewrite Hst, Hto, Hta, add_map_add, body_context_app, Z.add_assoc.
  rewrite items_trees_app, preorders_app, index_map_app, items_trees_length.
  do 3 f_equal. apply map_union_comm. symmetry.
  rewrite <-(items_trees_length (subtraces c) (to c) (trace_address c) l1).
  apply index_map_disjoint.
Qed.

Lemma body_spec_Forall l : Forall (λ i, body_spec [i]) l → body_spec l.
Proof.
  induction 1 as [|i l Hi _ IH]; [apply body_spec_nil|].
  by apply (body_spec_app [i] l).
Qed.

Lemma quiet_run e s : quiet e = true → listener_event s e = Ret s.
Proof.
  destruct e as [|[]|[| [|[]] | |]|]; simpl; try done.
  intros ->%bool_decide_eq_true. done.
Qed.

Lemma body_spec_quiet e : body_spec [IQuiet e].
Proof.
  intros cost E n c stack ct first. cbn [items_ok forallb item_ok]. rewrite andb_true_r.
  intros He _ _ _ _. rewrite items_events_single. cbn [item_events].
  erewrite emit_all_cons by exact (quiet_run _ _ He).
  unfold body_context. simpl. rewrite add_map_empty, !Z.add_0_r. by destruct c.
Qed.

Lemma body_spec_gas e : body_spec [IGas e].
Proof.
  intros cost E n c stack ct first. cbn [items_ok forallb item_ok]. rewrite andb_true_r.
  intros He _ _ _ _. rewrite items_events_single. cbn [item_events].
  erewrite emit_all_cons by exact (gas_event_run _ _ _ _ _ _ _ _ He).
  unfold body_context, own_gas. simpl. rewrite add_map_empty, !Z.add_0_r, app_nil_r.
  destruct (foldl_record_gas_stable (option_list (gas_value e)) c) as [<- _].
  by destruct (foldl _ c _).
Qed.

Lemma body_spec_suicide a t b : body_spec [ISuicide a t b].
Proof.
  intros cost E n c stack ct first _ Hn Hlt Hs Hslt.
  change (items_size [ISuicide a t b]) with 1 in *.
  rewrite items_events_single. simpl. unfold on_call, on_create, on_suicide, next_trace_address. simpl. rewrite add_w_ok by lia. simpl.
  rewrite insert_entry_add. simpl. rewrite add_w_ok by lia. simpl.
  unfold items_trees, place_from, preorders. simpl. by rewrite Z.add_0_r.
Qed.

(** *** Opening and closing a context *)

Definition frame_context (n : Z) (addr : list Z) (f : Frame) : Context :=
  mkContext n (frame_type f) (frame_from f) addr 0 (frame_value f) 0 None
    (frame_data f) (frame_to f).

(** A context opened with [f] that recorded the gas [gs] and has [k] children. *)
Definition frame_final (n : Z) (addr : list Z) (f : Frame) (k : Z) (gs : list Z) :
    Context :=
  mkContext n (frame_type f) (frame_from f) addr k (frame_value f) (last_gas gs) (head gs)
    (frame_data f) (frame_to f).

Lemma foldl_record_gas_Some gs g0 g c :
  foldl record_gas (set_gas (Some g0) g c) gs = set_gas (Some g0) (default g (last gs)) c.
Proof.
  revert g. induction gs as [|g1 gs IH]; intros g; [done|].
  cbn [foldl]. change (record_gas _ g1) with (set_gas (Some g0) g1 c).
  rewrite IH. destruct gs as [|g2 gs]; [done|].
  rewrite last_cons_cons. by destruct (last_is_Some (g2 :: gs)) as [_ [? ->]].
Qed.

Lemma foldl_record_gas_frame n addr f gs :
  foldl record_gas (frame_context n addr f) gs = frame_final n addr f 0 gs.
Proof.
  destruct gs as [|g gs]; [done|]. cbn [foldl].
  change (record_gas _ g) with (set_gas (Some g) g (frame_context n addr f)).
  rewrite foldl_record_gas_Some. unfold frame_final, last_gas. simpl head.
  destruct gs as [|g2 gs]; [done|].
  rewrite last_cons_cons. by destruct (last_is_Some (g2 :: gs)) as [_ [? ->]].
Qed.

Lemma body_context_frame n addr f l :
  body_context (frame_context n addr f) l =
  frame_final n addr f (zlen (omap item_tree l)) (own_gas l).
Proof. unfold body_context. by rewrite foldl_record_gas_frame. Qed.

Lemma body_context_final n addr f gs l :
  body_context (frame_final n addr f 0 gs) l =
  frame_final n addr f (zlen (omap item_tree l)) (gs ++ own_gas l).
Proof.
  assert (foldl record_gas (frame_final n addr f 0 gs) (own_gas l) =
          frame_final n addr f 0 (gs ++ own_gas l)) as Hgas.
  { rewrite <-!foldl_record_gas_frame. by rewrite foldl_app. }
  unfold body_context. by rewrite Hgas.
Qed.

Lemma mark_run o cost E n c stack ct first :
  opening_ok o = true →
  listener_event (running cost E n (c :: stack) ct first) (opening_mark o) =
  Ret (running cost E n (c :: stack) (opening_type ct o) first).
Proof.
  unfold opening_ok. rewrite andb_true_iff. intros [_ Ho].
  destruct o as [[opcode rv|] mid ca tr i tg st cx|opcode rv mid ca ad sc va ic tg]; simpl in *.
  - apply bool_decide_eq_true in Ho. destruct (ContextType_from opcode) as [[t|]|]; simpl.
    + done.
    + by destruct Ho.
    + by destruct Ho.
  - done.
  - apply bool_decide_eq_true in Ho. by rewrite Ho.
Qed.

Lemma open_event_run o cost E n c stack ct first :
  opening_ok o = true → n + 1 < 2 ^ 32 → subtraces c + 1 < 2 ^ 32 →
  listener_event (running cost E n (c :: stack) (opening_type ct o) first)
    (opening_event o) =
  Ret (running cost E (n + 1)
    (frame_context n (trace_address c ++ [subtraces c]) (opening_frame (to c) o)
       :: set_subtraces (subtraces c + 1) c :: stack) (opening_type ct o) first).
Proof.
  unfold opening_ok. rewrite andb_true_iff. intros [_ Ho] Hn Hs.
  destruct o as [m mid ca tr i tg st cx|opcode rv mid ca ad sc va ic tg]; simpl in *.
  - apply bool_decide_eq_true in Ho as [t Ht]. rewrite Ht.
    unfold on_call, on_create, on_suicide, next_trace_address. simpl. rewrite add_w_ok by done. simpl.
    unfold push_context. simpl. by rewrite add_w_ok by done.
  - unfold on_call, on_create, on_suicide, next_trace_address. simpl. rewrite add_w_ok by done. simpl.
    unfold push_context. simpl. by rewrite add_w_ok by done.
Qed.

Lemma opening_run o body cl cost E n c stack ct first :
  opening_ok o = true → n + 1 < 2 ^ 32 → subtraces c + 1 < 2 ^ 32 →
  emit_all (running cost E n (c :: stack) ct first) (opening_events o) =
  Ret (running cost E (n + 1)
    (frame_context n (trace_address c ++ [subtraces c]) (opening_frame (to c) o)
       :: body_context c [ISub o body cl] :: stack) (opening_type ct o) first).
Proof.
  intros Ho Hn Hs. unfold opening_events.
  erewrite emit_all_cons by exact (mark_run o cost E n c stack ct first Ho).
  assert (forallb gas_event_ok (opening_mid o) = true) as Hmid.
  { unfold opening_ok in Ho. by apply andb_true_iff in Ho as [? _]. }
  erewrite emit_all_app_Ret by exact (gas_events_run _ _ _ _ _ _ _ _ Hmid).
  destruct (foldl_record_gas_stable (omap gas_value (opening_mid o)) c) as (Hs'&Hto&Hta&_).
  rewrite <-Hs' in Hs.
  erewrite emit_all_cons by exact (open_event_run _ _ _ _ _ _ _ _ Ho Hn Hs).
  rewrite Hs', Hto, Hta. unfold body_context, own_gas. simpl. by rewrite app_nil_r.
Qed.

Lemma frame_final_gas_used n addr f k gs cost :
  gas_falls gs = true →
  (n = 0 → first_gas gs - last_gas gs + cost < 2 ^ 64) →
  context_gas_used cost (frame_final n addr f k gs) =
  Ret (first_gas gs - last_gas gs + extra_cost n cost).
Proof.
  unfold gas_falls, context_gas_used, extra_cost, start_or_0. simpl.
  rewrite Z.leb_le. intros Hle Hlt. change (default 0 (head gs)) with (first_gas gs).
  rewrite sub_w_ok by done. simpl.
  destruct (Z.eqb_spec n 0); [|by rewrite Z.add_0_r].
  by rewrite add_w_ok by auto.
Qed.

Lemma closing_run skip only cl cost E m n addr f k gs stack ct first :
  closing_ok v cl = true → gas_falls gs = true →
  (n = 0 → first_gas gs - last_gas gs + cost < 2 ^ 64) →
  emit_all (between skip only cost E m (frame_final n addr f k gs :: stack) ct first)
    (closing_events v cl) =
  Ret (between skip (match v with Legacy => only | EarlyTransact => false end) cost
         (add_map {[n := frame_entry f addr k gs (extra_cost n cost) cl]} E)
         m stack ct first).
Proof.
  intros Hok Hgas Hlt.
  pose proof (frame_final_gas_used n addr f k gs cost Hgas Hlt) as Hused.
  unfold closing_events, between, closing_ok in *.
  destruct v, (exit_step cl); simpl; try done.
  all: unfold on_exit, pop_context_to_entry; simpl; rewrite Hused; simpl.
  all: rewrite insert_entry_add; unfold frame_entry, closing_inner; simpl.
  all: by destruct (frame_type f).
Qed.

Lemma body_spec_sub o body cl :
  Forall (λ i, body_spec [i]) body → body_spec [ISub o body cl].
Proof.
  intros Hbody%body_spec_Forall cost E n c stack ct first.
  unfold items_ok. cbn [forallb item_ok]. rewrite !andb_true_r, !andb_true_iff.
  intros [[[Ho Hb] Hgas] Hcl] Hn.
  change (items_size [ISub o body cl]) with (1 + items_size body + 0). intros Hlt Hs Hslt.
  pose proof (items_size_nonneg body).
  rewrite items_events_single. cbn [item_events].
  erewrite emit_all_app_Ret by (apply (opening_run o body cl); [done|lia..]).
  set (addr := trace_address c ++ [subtraces c]) in *.
  set (f := opening_frame (to c) o) in *.
  erewrite emit_all_app_Ret by (apply Hbody; [done|simpl; lia..]).
  rewrite body_context_frame. unfold running. rewrite closing_run by (done || lia).
  replace (match v with Legacy => false | EarlyTransact => false end) with false
    by by destruct v.
  rewrite extra_cost_later by lia.
  rewrite items_trees_sub, add_map_add, <-insert_union_singleton_l. cbn zeta.
  unfold preorders. cbn [fmap list_fmap mjoin list_join]. rewrite preorder_Rose, app_nil_r.
  cbn [index_map]. do 2 f_equal. lia.
Qed.

Lemma body_run l : body_spec l.
Proof.
  apply body_spec_Forall, Forall_forall. intros i _.
  induction i using item_rect_Forall;
    auto using body_spec_quiet, body_spec_gas, body_spec_suicide, body_spec_sub.
Qed.

End refinement.

(** ** Running transactions and blocks *)

Section transactions.
Context `{!BuildProfile}.

Abbreviation early := (between EarlyTransact).

(** The listener before a transaction: no context is open. *)
Definition ready ver only cost E n ct first : CallListListener :=
  between ver false only cost E n [] ct first.

Lemma root_run r ver only cost E n ct first :
  n + 1 < 2 ^ 32 →
  listener_event (ready ver only cost E n ct first) (root_event r) =
  Ret (early true false cost E (n + 1) [frame_context n [] (root_frame r)] ct first).
Proof.
  intros Hn. destruct r; simpl; unfold transact, push_context; simpl.
  all: by rewrite add_w_ok by done.
Qed.

Lemma pre_event_run e only cost E n c ct first :
  pre_event_ok e = true →
  ∃ only',
  listener_event (early true only cost E n [c] ct first) (Event_Gasometer e) =
  Ret (early true only' (tx_cost cost [e]) E n
         [foldl record_gas c (option_list (gas_value e))] ct first).
Proof.
  destruct e as [x sn|x sn|x sn|x y z sn|x sn]; simpl; intros He.
  2,5: by eexists.
  all: exists only; rewrite snapshot_ok_gas by done; unfold record_gas; simpl.
  all: by destruct (start_gas c).
Qed.

Lemma pre_run l only cost E n c ct first :
  forallb pre_event_ok l = true →
  ∃ only',
  emit_all (early true only cost E n [c] ct first) (Event_Gasometer <$> l) =
  Ret (early true only' (tx_cost cost l) E n [foldl record_gas c (omap gas_value l)]
         ct first).
Proof.
  revert only cost c. induction l as [|e l IH]; intros only cost c; [by exists only|].
  cbn [forallb]. rewrite andb_true_iff. intros [He Hl]. rewrite fmap_cons.
  destruct (pre_event_run e only cost E n c ct first He) as [o Ho].
  destruct (IH o (tx_cost cost [e]) (foldl record_gas c (option_list (gas_value e))) Hl)
    as [o' Ho'].
  exists o'. erewrite emit_all_cons by exact Ho. rewrite Ho'.
  simpl. by destruct (gas_value e).
Qed.

Lemma skipped_run e only cost E n c ct first :
  opens_context e = true →
  listener_event (early true only cost E n [c] ct first) (Event_Evm e) =
  Ret (running EarlyTransact cost E n [c] ct first).
Proof. by destruct e. Qed.

(** The root context of a transaction when it is about to close. *)
Lemma tx_run_run tx only cost E n f gs ct first :
  match tx_run tx with
  | Some (e, body) => opens_context e && items_ok EarlyTransact body
  | None => true
  end = true → 0 ≤ n → n + tx_size tx < 2 ^ 32 →
  ∃ skip only' ct',
  emit_all (early true only cost E (n + 1) [frame_final n [] f 0 gs] ct first)
    match tx_run tx with
    | Some (e, body) => Event_Evm e :: items_events EarlyTransact body
    | None => []
    end =
  Ret (early skip only' cost
         (add_map (index_map (n + 1) (preorders (items_trees 0 (frame_to f) [] (tx_body tx)))) E)
         (n + tx_size tx)
         [frame_final n [] f (zlen (omap item_tree (tx_body tx))) (gs ++ own_gas (tx_body tx))]
         ct' first).
Proof.
  unfold tx_size, tx_body. destruct (tx_run tx) as [[e body]|].
  - rewrite andb_true_iff. intros [He Hbody] Hn Hlt.
    pose proof (items_size_nonneg body).
    erewrite emit_all_cons by exact (skipped_run _ _ _ _ _ _ _ _ He).
    exists false, false, (items_type ct body).
    rewrite body_run by (done || simpl; lia). by rewrite body_context_final, Z.add_assoc.
  - intros _ _ _. exists true, only, ct. simpl. rewrite add_map_empty, app_nil_r. done.
Qed.

(** A transaction, from a listener without open contexts, adds exactly the
    entries of its tree, numbered in pre-order from the next index. *)
Lemma tx_refines tx ver only cost E n ct first :
  tx_ok tx = true → 0 ≤ n → n + tx_size tx < 2 ^ 32 →
  (n = 0 → first_gas (tx_gas tx) - last_gas (tx_gas tx) + tx_cost cost (tx_pre tx) < 2 ^ 64) →
  ∃ skip ct',
  emit_all (ready ver only cost E n ct first) (tx_events tx) =
  Ret (early skip false (tx_cost cost (tx_pre tx))
         (add_map (index_map n (preorder (tx_tree n cost tx))) E)
         (n + tx_size tx) [] ct' first).
Proof.
  unfold tx_ok. rewrite !andb_true_iff. intros [[[Hpre Hrun] Hgas] _] Hn Hlt Hcost.
  pose proof (items_size_nonneg (tx_body tx)). unfold tx_events.
  erewrite emit_all_cons by (apply root_run; unfold tx_size in Hlt; lia).
  edestruct (pre_run (tx_pre tx)) as [o Hp]; [exact Hpre|].
  erewrite emit_all_app_Ret by exact Hp. clear Hp. rewrite foldl_record_gas_frame.
  edestruct (tx_run_run tx) as (sk & o' & ct' & Hr); [exact Hrun|exact Hn|exact Hlt|].
  exists sk, ct'. erewrite emit_all_app_Ret by exact Hr. clear Hr.
  rewrite closing_run by done.
  rewrite add_map_add, <-insert_union_singleton_l. done.
Qed.

Lemma index_map_preorder_nonempty n (t : rose BlockscoutCall) :
  index_map n (preorder t) ≠ ∅.
Proof. destruct t. apply insert_non_empty. Qed.

Lemma tx_size_pos tx : 1 ≤ tx_size tx.
Proof. unfold tx_size. pose proof (items_size_nonneg (tx_body tx)). lia. Qed.

Lemma block_size_cons tx txs : block_size (tx :: txs) = tx_size tx + block_size txs.
Proof. done. Qed.

Lemma block_size_nonneg txs : 0 ≤ block_size txs.
Proof.
  induction txs as [|tx txs IH]; [done|]. rewrite block_size_cons.
  pose proof (tx_size_pos tx). lia.
Qed.

Lemma block_size_length txs : zlen txs ≤ block_size txs.
Proof.
  induction txs as [|tx txs IH]; [done|]. rewrite block_size_cons.
  pose proof (tx_size_pos tx). simpl length. lia.
Qed.

(** The transactions of a block after the first. *)
Lemma later_txs_run txs skip cost E n ct :
  forallb tx_ok txs = true → 1 ≤ n → n + block_size txs < 2 ^ 32 →
  ∃ skip' cost' ct',
  emit_all (early skip false cost E n [] ct false) (block_events txs) =
  Ret (early skip' false cost' (E ++ block_maps n cost txs) (n + block_size txs) []
         ct' false).
Proof.
  revert skip cost E n ct. induction txs as [|tx txs IH]; intros skip cost E n ct.
  { intros _ _ _. exists skip, cost, ct. simpl. rewrite app_nil_r. do 2 f_equal.
    unfold block_size. simpl. lia. }
  cbn [forallb]. rewrite andb_true_iff, block_size_cons. intros [Hok Hoks] Hn Hlt.
  pose proof (tx_size_pos tx). pose proof (block_size_nonneg txs).
  unfold block_events. rewrite fmap_cons. cbn [mjoin list_join]. rewrite <-app_comm_cons.
  rewrite (emit_all_cons _ (ready EarlyTransact false cost (E ++ [∅]) n ct false)) by done.
  destruct (tx_refines tx EarlyTransact false cost (E ++ [∅]) n ct false)
    as (sk & ct1 & Htx); [done|lia..|].
  erewrite emit_all_app_Ret by exact Htx. rewrite add_map_snoc, (right_id_L ∅ (∪)).
  destruct (IH sk (tx_cost cost (tx_pre tx))
    (E ++ [index_map n (preorder (tx_tree n cost tx))]) (n + tx_size tx) ct1)
    as (sk2 & c2 & ct2 & Hb); [done|lia..|].
  exists sk2, c2, ct2. refine (eq_trans Hb _). cbn [block_maps].
  by rewrite <-app_assoc, Z.add_assoc.
Qed.

(** The state of the listener after the transactions of a block. *)
Lemma block_run_state tx txs :
  forallb tx_ok (tx :: txs) = true → block_size (tx :: txs) < 2 ^ 32 →
  ∃ skip cost ct,
  emit_all Listener_default (block_events (tx :: txs)) =
  Ret (early skip false cost (block_maps 0 0 (tx :: txs)) (block_size (tx :: txs)) []
         ct false).
Proof.
  cbn [forallb]. rewrite andb_true_iff, block_size_cons. intros [Hok Hoks] Hlt.
  pose proof (tx_size_pos tx). pose proof (block_size_nonneg txs).
  unfold block_events. rewrite fmap_cons. cbn [mjoin list_join]. rewrite <-app_comm_cons.
  rewrite (emit_all_cons _ (ready Legacy false 0 [] 0 None false)) by done.
  destruct (tx_refines tx Legacy false 0 [] 0 None false)
    as (sk & ct1 & Htx); [done|lia..| |].
  { intros _. unfold tx_ok in Hok. apply andb_true_iff in Hok as [_ Hc].
    by apply Z.ltb_lt in Hc. }
  erewrite emit_all_app_Ret by exact Htx.
  rewrite add_map_nil by apply index_map_preorder_nonempty.
  destruct (later_txs_run txs sk (tx_cost 0 (tx_pre tx))
    [index_map 0 (preorder (tx_tree 0 0 tx))] (0 + tx_size tx) ct1)
    as (sk2 & c2 & ct2 & Hb); [done|lia..|].
  exists sk2, c2, ct2. exact Hb.
Qed.

(** The whole block, from a new listener. *)
Lemma block_run txs :
  forallb tx_ok txs = true → block_size txs < 2 ^ 32 →
  ∃ s, emit_all Listener_default (block_events txs) = Ret s ∧
    entries s = block_maps 0 0 txs ∧ context_stack s = [] ∧
    record_transaction_event_only s = false.
Proof.
  destruct txs as [|tx txs]; [by eexists|]. intros Hok Hlt.
  destruct (block_run_state tx txs Hok Hlt) as (sk & c & ct & Hrun).
  eexists. split; [exact Hrun|done].
Qed.

(** A single transaction, from a new listener. *)
Lemma single_tx_run tx :
  tx_ok tx = true → tx_size tx < 2 ^ 32 →
  ∃ s, emit_all Listener_default (tx_events tx) = Ret s ∧
    entries s = [index_map 0 (preorder (tx_tree 0 0 tx))] ∧ context_stack s = [] ∧
    record_transaction_event_only s = false.
Proof.
  intros Hok Hlt.
  destruct (tx_refines tx Legacy false 0 [] 0 None true) as (sk & ct & Hrun); [done..| |].
  { intros _. unfold tx_ok in Hok. apply andb_true_iff in Hok as [_ Hc].
    by apply Z.ltb_lt in Hc. }
  rewrite add_map_nil in Hrun by apply index_map_preorder_nonempty.
  eexists. change Listener_default with (ready Legacy false 0 [] 0 None true).
  split; [exact Hrun|done].
Qed.

Lemma finish_transaction_idle s :
  context_stack s = [] → record_transaction_event_only s = false →
  finish_transaction s = Ret s.
Proof. destruct s. simpl. intros -> ->. done. Qed.

Lemma block_maps_values n old txs :
  btree_values <$> block_maps n old txs = preorder <$> block_trees n old txs.
Proof.
  revert n old. induction txs as [|tx txs IH]; intros n old; [done|].
  cbn [block_maps block_trees]. rewrite !fmap_cons, btree_values_index_map. by rewrite IH.
Qed.

End transactions.

(** ** The listener computes the tree of calls *)

Section theorems.
Context `{!BuildProfile}.

(** C1: tracing a block of well-formed transactions and finishing the last one
    returns (no arithmetic overflows), and the listener then holds one map per
    transaction, whose entries in key order are the calls of the transaction's
    tree in pre-order: with the types, senders, inputs, results, gas, trace
    addresses and numbers of sub-traces of the tree. *)
Theorem call_list_block txs :
  forallb tx_ok txs = true → block_size txs < 2 ^ 32 →
  ∃ s, (s ← emit_all Listener_default (block_events txs); finish_transaction s) = Ret s ∧
    entries s = block_maps 0 0 txs ∧
    btree_values <$> entries s = preorder <$> block_trees 0 0 txs.
Proof.
  intros Hok Hlt. destruct (block_run txs Hok Hlt) as (s & Hrun & He & Hs & Ho).
  exists s. rewrite Hrun. cbn [mbind outcome_bind].
  rewrite finish_transaction_idle by done. by rewrite He, block_maps_values.
Qed.

(** Tracing a single well-formed transaction, which is not announced by
    [Event::CallListNew], leaves one map with the calls of its tree in
    pre-order; the cost of the transaction is part of the gas the root used. *)
Theorem call_list_transaction tx :
  tx_ok tx = true → tx_size tx < 2 ^ 32 →
  ∃ s, (s ← emit_all Listener_default (tx_events tx); finish_transaction s) = Ret s ∧
    entries s = [index_map 0 (preorder (tx_tree 0 0 tx))] ∧
    bc_gas_used (rose_label (tx_tree 0 0 tx)) =
      first_gas (tx_gas tx) - last_gas (tx_gas tx) + tx_cost 0 (tx_pre tx).
Proof.
  intros Hok Hlt. destruct (single_tx_run tx Hok Hlt) as (s & Hrun & He & Hs & Ho).
  exists s. rewrite Hrun. cbn [mbind outcome_bind].
  by rewrite finish_transaction_idle by done.
Qed.

(** When a block is traced the cost of a transaction is part of the gas used
    by the root of the first transaction only.  The root of the second one has
    the gas used without the cost, whatever [RecordTransaction] announced. *)
Theorem call_list_cost_of_first tx1 tx2 :
  tx_ok tx1 = true → tx_ok tx2 = true → tx_size tx1 + tx_size tx2 < 2 ^ 32 →
  ∃ s r1 r2, emit_all Listener_default (block_events [tx1; tx2]) = Ret s ∧
    entries s !! 0%nat ≫= lookup 0 = Some r1 ∧
    entries s !! 1%nat ≫= lookup (tx_size tx1) = Some r2 ∧
    bc_gas_used r1 =
      first_gas (tx_gas tx1) - last_gas (tx_gas tx1) + tx_cost 0 (tx_pre tx1) ∧
    bc_gas_used r2 = first_gas (tx_gas tx2) - last_gas (tx_gas tx2).
Proof.
  intros H1 H2 Hlt.
  destruct (block_run [tx1; tx2]) as (s & Hrun & He & _).
  { simpl. by rewrite H1, H2. }
  { rewrite !block_size_cons. change (block_size []) with 0. lia. }
  eexists s, _, _. rewrite He. split_and!; [done| | | |].
  - cbn. apply lookup_insert_eq.
  - cbn. apply lookup_insert_eq.
  - done.
  - pose proof (tx_size_pos tx1). cbn [frame_entry bc_gas_used].
    rewrite extra_cost_later by lia. lia.
Qed.

End theorems.

Lemma call_list_block_witness :
  ∃ s, (s ← @emit_all _ (@CallList_Listener dev) Listener_default
              (block_events [Example.tx; Example.failed; Example.tx]);
        @finish_transaction dev s) = Ret s ∧
    entries s = block_maps 0 0 [Example.tx; Example.failed; Example.tx] ∧
    btree_values <$> entries s =
      preorder <$> block_trees 0 0 [Example.tx; Example.failed; Example.tx].
Proof. apply (@call_list_block dev); vm_compute; reflexivity. Defined.

Lemma call_list_transaction_witness :
  ∃ s, (s ← @emit_all _ (@CallList_Listener release) Listener_default (tx_events Example.tx);
        @finish_transaction release s) = Ret s ∧
    entries s = [index_map 0 (preorder (tx_tree 0 0 Example.tx))] ∧
    bc_gas_used (rose_label (tx_tree 0 0 Example.tx)) =
      first_gas (tx_gas Example.tx) - last_gas (tx_gas Example.tx)
      + tx_cost 0 (tx_pre Example.tx).
Proof. apply (@call_list_transaction release); vm_compute; reflexivity. Defined.

Lemma call_list_cost_of_first_witness :
  ∃ s r1 r2, @emit_all _ (@CallList_Listener release) Listener_default
      (block_events [Example.tx; Example.tx]) = Ret s ∧
    entries s !! 0%nat ≫= lookup 0 = Some r1 ∧
    entries s !! 1%nat ≫= lookup (tx_size Example.tx) = Some r2 ∧
    bc_gas_used r1 =
      first_gas (tx_gas Example.tx) - last_gas (tx_gas Example.tx)
      + tx_cost 0 (tx_pre Example.tx) ∧
    bc_gas_used r2 = first_gas (tx_gas Example.tx) - last_gas (tx_gas Example.tx).
Proof. apply (@call_list_cost_of_first release); vm_compute; reflexivity. Defined.
