(* ===== verification/CallListLegacy.v ===== *)
(** * The call list listener on runtimes of the legacy version

    Runtimes before the [EarlyTransact] version emit no [TransactX] and no [Exit]
    events.  A transaction is seen by its first [Call] or [Create], and a context
    ends when the interpreter steps to its end; a root context that is not seen to
    end, and a transaction that opens none, are completed by [finish_transaction].
    This file gives the legacy events of a transaction and shows the entries the
    listener of call_list.rs makes of them. *)

From stdpp Require Import base tactics list gmap strings.
From Stdlib Require Import ZArith Lia Strings.Byte.
From S2P Require Import Prelude Trees EvmEvents TraceTypes CallList CallTree CallListSpec.
Local Open Scope Z_scope.

(** ** Legacy transactions *)

(** What the gasometer records before a context is open, the opening of the root
    with its body, and how the root is seen to end. *)
Record LegacyTransaction := mkLegacy {
  lt_pre : list GasometerEvent;
  lt_run : option (EvmEvent * list item * option Closing);
}.

Definition lt_events (tx : LegacyTransaction) : list Event :=
  (Event_Gasometer <$> lt_pre tx) ++
  match lt_run tx with
  | Some (e, body, close) =>
      Event_Evm e :: items_events Legacy body ++
      match close with Some c => closing_events Legacy c | None => [] end
  | None => []
  end.

(** The root frame; a call has the remembered type [ct], if there is one. *)
Definition legacy_frame (ct : option CallType) (e : EvmEvent) : Frame :=
  match e with
  | EvmEvent_Call ca _ i _ st cx =>
      mkFrame (ContextType_Call (default (if st then StaticCall else CallType_Call) ct))
        (caller cx) (apparent_value cx) i ca
  | EvmEvent_Create ca ad _ va ic _ => mkFrame ContextType_Create ca va ic ad
  | _ => mkFrame ContextType_Create 0 0 [] 0
  end.

(** The end [finish_transaction] gives to a root that is still open. *)
Definition early_exit : Closing :=
  mkClosing true (Error (OtherError early_exit_message)) []
    (Error (OtherError early_exit_message)) [].

Definition lt_tree (n old : Z) (ct : option CallType) (tx : LegacyTransaction) :
    rose BlockscoutCall :=
  match lt_run tx with
  | Some (e, body, close) =>
      let f := legacy_frame ct e in
      Rose (frame_entry f [] (zlen (omap item_tree body)) (own_gas body)
              (extra_cost n (tx_cost old (lt_pre tx))) (default early_exit close))
        (items_trees 0 (frame_to f) [] body)
  | None => Rose data_cost_entry []
  end.

(** The call type that is remembered after a transaction. *)
Definition lt_type (ct : option CallType) (tx : LegacyTransaction) : option CallType :=
  match lt_run tx with Some (_, body, _) => items_type ct body | None => ct end.

Definition lt_size (tx : LegacyTransaction) : Z :=
  match lt_run tx with Some (_, body, _) => 1 + items_size body | None => 1 end.

(** The index after a transaction: [finish_transaction] goes back to the one
    after the root. *)
Definition lt_step (tx : LegacyTransaction) : Z :=
  match lt_run tx with Some (_, body, Some _) => 1 + items_size body | _ => 1 end.

Definition is_record_transaction (e : GasometerEvent) : bool :=
  match e with RecordTransaction _ _ => true | _ => false end.

Definition lt_ok (tx : LegacyTransaction) : bool :=
  match lt_run tx with
  | Some (e, body, close) =>
      opens_context e && items_ok Legacy body && gas_falls (own_gas body) &&
      (first_gas (own_gas body) - last_gas (own_gas body) + tx_cost 0 (lt_pre tx) <? 2 ^ 64) &&
      match close with Some c => closing_ok Legacy c | None => true end
  | None => existsb is_record_transaction (lt_pre tx)
  end.

(** ** Blocks *)

Definition lt_block_events (txs : list LegacyTransaction) : list Event :=
  mjoin ((λ tx, Event_CallListNew :: lt_events tx) <$> txs).

Fixpoint lt_block_trees (n old : Z) (ct : option CallType) (txs : list LegacyTransaction) :
    list (rose BlockscoutCall) :=
  match txs with
  | [] => []
  | tx :: txs =>
      lt_tree n old ct tx
        :: lt_block_trees (n + lt_step tx) (tx_cost old (lt_pre tx)) (lt_type ct tx) txs
  end.

Fixpoint lt_block_maps (n old : Z) (ct : option CallType) (txs : list LegacyTransaction) :
    list (gmap Z BlockscoutCall) :=
  match txs with
  | [] => []
  | tx :: txs =>
      index_map n (preorder (lt_tree n old ct tx))
        :: lt_block_maps (n + lt_step tx) (tx_cost old (lt_pre tx)) (lt_type ct tx) txs
  end.

Definition lt_block_size (txs : list LegacyTransaction) : Z :=
  foldr Z.add 0 (lt_size <$> txs).

(** The call trees of a block's transactions: a root call has the type of its event. *)
Fixpoint lt_call_trees (n old : Z) (txs : list LegacyTransaction) :
    list (rose BlockscoutCall) :=
  match txs with
  | [] => []
  | tx :: txs =>
      lt_tree n old None tx :: lt_call_trees (n + lt_step tx) (tx_cost old (lt_pre tx)) txs
  end.

(** The call type that is remembered when each transaction opens its root: that of the last
    sub-call of the transactions before it. *)
Fixpoint remembered_types (ct : option CallType) (txs : list LegacyTransaction) :
    list (option CallType) :=
  match txs with
  | [] => []
  | tx :: txs =>
      match lt_run tx with Some _ => ct | None => None end
        :: remembered_types (lt_type ct tx) txs
  end.

(** A tree whose root, if it is a call, has another call type. *)
Definition retype_root (ct : option CallType) (t : rose BlockscoutCall) :
    rose BlockscoutCall :=
  match ct, t with
  | Some ct, Rose (mkBlockscoutCall from addr subs value gas used (CallInner_Call _ to input r)) l =>
      Rose (mkBlockscoutCall from addr subs value gas used (CallInner_Call ct to input r)) l
  | _, _ => t
  end.

Lemma lt_tree_retyped n old ct tx :
  lt_tree n old ct tx =
  retype_root match lt_run tx with Some _ => ct | None => None end (lt_tree n old None tx).
Proof.
  unfold lt_tree. destruct (lt_run tx) as [[[e body] close]|]; [|done].
  destruct ct as [ct|]; [|done]. by destruct e.
Qed.

Lemma lt_block_trees_retyped n old ct txs :
  lt_block_trees n old ct txs =
  zip_with retype_root (remembered_types ct txs) (lt_call_trees n old txs).
Proof.
  revert n old ct. induction txs as [|tx txs IH]; intros n old ct; [done|]. simpl.
  by rewrite IH, lt_tree_retyped.
Qed.

(** ** Running a transaction *)

Section transactions.
Context `{!BuildProfile}.

Abbreviation legacy := (between Legacy false).

(** Without a context the gasometer's events only set the cost. *)
Lemma lt_pre_run l only cost E n ct first :
  emit_all (legacy only cost E n [] ct first) (Event_Gasometer <$> l) =
  Ret (legacy (only || existsb is_record_transaction l) (tx_cost cost l) E n [] ct first).
Proof.
  revert only cost. induction l as [|e l IH]; intros only cost; [by rewrite orb_false_r|].
  rewrite fmap_cons. cbn [existsb].
  rewrite (emit_all_cons _ (legacy (only || is_record_transaction e) (tx_cost cost [e])
    E n [] ct first)) by (destruct e; simpl; by rewrite ?orb_true_r, ?orb_false_r).
  rewrite IH. by rewrite orb_assoc.
Qed.

Lemma lt_open_run e only cost E n ct first :
  opens_context e = true → n + 1 < 2 ^ 32 →
  listener_event (legacy only cost E n [] ct first) (Event_Evm e) =
  Ret (legacy false cost E (n + 1) [frame_context n [] (legacy_frame ct e)] ct first).
Proof.
  intros He Hn. destruct e as [ca tr i tg st cx| | | | | | |]; simpl in *; try done.
  all: unfold on_call, on_create, next_trace_address, push_context; simpl.
  all: rewrite add_w_ok by done; simpl.
  - by destruct ct, st.
  - done.
Qed.

(** What the next [Event::CallListNew], or the end, completes. *)
Definition finished (m : outcome CallListListener) : outcome CallListListener :=
  s ← m; finish_transaction s.

Lemma finish_open only cost E m n f k gs ct first :
  gas_falls gs = true → n + 1 < 2 ^ 32 →
  (n = 0 → first_gas gs - last_gas gs + cost < 2 ^ 64) →
  finish_transaction (legacy only cost E m [frame_final n [] f k gs] ct first) =
  Ret (legacy only cost
         (add_map {[n := frame_entry f [] k gs (extra_cost n cost) early_exit]} E)
         (n + 1) [] ct first).
Proof.
  intros Hgas Hn Hlt. unfold finish_transaction. cbn [context_stack between last].
  rewrite (frame_final_gas_used n [] f k gs cost Hgas Hlt). cbn [mbind outcome_bind].
  rewrite insert_entry_add. simpl. rewrite add_w_ok by done. simpl.
  unfold frame_entry, closing_inner, context_entry. simpl. by destruct (frame_type f).
Qed.

(** The remembered flag after a finished transaction. *)
Definition lt_only (tx : LegacyTransaction) : bool :=
  match lt_run tx with Some _ => false | None => true end.

(** A legacy transaction, finished, adds the entries of its tree. *)
Lemma lt_refines tx only cost E n ct first :
  lt_ok tx = true → 0 ≤ n → n + lt_size tx < 2 ^ 32 → (n = 0 → cost = 0) →
  finished (emit_all (legacy only cost E n [] ct first) (lt_events tx)) =
  Ret (legacy (lt_only tx) (tx_cost cost (lt_pre tx))
         (add_map (index_map n (preorder (lt_tree n cost ct tx))) E)
         (n + lt_step tx) [] (lt_type ct tx) first).
Proof.
  unfold lt_ok, lt_size, lt_events, lt_only, lt_tree, lt_type, lt_step, finished.
  erewrite emit_all_app_Ret by apply lt_pre_run.
  destruct (lt_run tx) as [[[e body] close]|].
  - rewrite !andb_true_iff, Z.ltb_lt. intros [[[[He Hbody] Hgas] Hfit] Hclose] Hn Hlt Hcost.
    pose proof (items_size_nonneg body).
    erewrite emit_all_cons by (apply lt_open_run; [done|lia]).
    erewrite emit_all_app_Ret by (apply body_run; [done|simpl; lia..]).
    rewrite body_context_frame. unfold running.
    destruct close as [c|]; simpl default.
    + rewrite closing_run by (done || intros ->; by rewrite Hcost). cbn [mbind outcome_bind].
      rewrite finish_transaction_idle by done.
      rewrite add_map_add, <-insert_union_singleton_l, Z.add_assoc. done.
    + cbn [emit_all mbind outcome_bind].
      rewrite finish_open by (done || lia || intros ->; by rewrite Hcost).
      by rewrite add_map_add, <-insert_union_singleton_l.
  - intros Hrec Hn Hlt _. cbn [emit_all mbind outcome_bind]. unfold finish_transaction.
    rewrite Hrec, orb_true_r. simpl. rewrite insert_entry_add. simpl.
    by rewrite add_w_ok by done.
Qed.

(** ** Running a block *)

Lemma finish_first s s' :
  finish_transaction s = Ret s' → call_list_first_transaction s' = call_list_first_transaction s.
Proof.
  unfold finish_transaction. intros Hrun. destruct (last (context_stack s)).
  - apply bind_Ret_inv in Hrun as (g & _ & Hrun).
    apply bind_Ret_inv in Hrun as (m & _ & Hrun). injection Hrun as <-.
    rewrite insert_entry_add. done.
  - destruct (record_transaction_event_only _); [|by injection Hrun as <-].
    apply bind_Ret_inv in Hrun as (m & _ & Hrun). injection Hrun as <-.
    rewrite insert_entry_add. done.
Qed.

Lemma lt_step_size tx : 1 ≤ lt_step tx ≤ lt_size tx.
Proof.
  unfold lt_step, lt_size. destruct (lt_run tx) as [[[e body] [c|]]|];
    try pose proof (items_size_nonneg body); lia.
Qed.

Lemma lt_block_size_nonneg txs : 0 ≤ lt_block_size txs.
Proof.
  induction txs as [|tx txs IH]; [done|]. unfold lt_block_size in *.
  rewrite fmap_cons. cbn [foldr]. pose proof (lt_step_size tx). lia.
Qed.

(** The transactions of a block from one on, after transactions that the next
    event will finish. *)
Lemma lt_txs_run txs s only cost E n ct :
  finish_transaction s = Ret (legacy only cost E n [] ct false) →
  forallb lt_ok txs = true → 1 ≤ n → n + lt_block_size txs < 2 ^ 32 →
  ∃ s' only' cost' n' ct', emit_all s (lt_block_events txs) = Ret s' ∧
    finish_transaction s' =
    Ret (legacy only' cost' (E ++ lt_block_maps n cost ct txs) n' [] ct' false).
Proof.
  revert s only cost E n ct. induction txs as [|tx txs IH]; intros s only cost E n ct Hs.
  { intros _ _ _. eexists s, only, cost, n, ct. by rewrite app_nil_r. }
  cbn [forallb]. rewrite andb_true_iff. intros [Hok Hoks] Hn.
  change (lt_block_size (tx :: txs)) with (lt_size tx + lt_block_size txs). intros Hlt.
  pose proof (lt_step_size tx). pose proof (lt_block_size_nonneg txs).
  assert (listener_event s Event_CallListNew =
          Ret (legacy only cost (E ++ [∅]) n [] ct false)) as Hnew.
  { cbn [listener_event]. pose proof (finish_first _ _ Hs) as Hfirst. simpl in Hfirst.
    by rewrite <-Hfirst, Hs. }
  unfold lt_block_events. rewrite fmap_cons. cbn [mjoin list_join]. rewrite <-app_comm_cons.
  erewrite emit_all_cons by exact Hnew.
  pose proof (lt_refines tx only cost (E ++ [∅]) n ct false Hok) as Htx.
  specialize (Htx ltac:(lia) ltac:(lia) ltac:(lia)).
  apply bind_Ret_inv in Htx as (s1 & Hs1 & Hfin).
  erewrite emit_all_app_Ret by exact Hs1.
  rewrite add_map_snoc, (right_id_L ∅ (∪)) in Hfin.
  destruct (IH _ _ _ _ _ _ Hfin) as (s2 & o2 & c2 & n2 & ct2 & Hs2 & Hfin2); [done|lia..|].
  eexists s2, o2, c2, n2, ct2. split; [exact Hs2|].
  rewrite Hfin2, <-app_assoc. done.
Qed.

Lemma lt_block_maps_values n old ct txs :
  btree_values <$> lt_block_maps n old ct txs = preorder <$> lt_block_trees n old ct txs.
Proof.
  revert n old ct. induction txs as [|tx txs IH]; intros n old ct; [done|].
  cbn [lt_block_maps lt_block_trees]. rewrite !fmap_cons, btree_values_index_map. by rewrite IH.
Qed.

Lemma lt_block_run tx txs :
  forallb lt_ok (tx :: txs) = true → lt_block_size (tx :: txs) < 2 ^ 32 →
  ∃ s s', emit_all Listener_default (lt_block_events (tx :: txs)) = Ret s ∧
    finish_transaction s = Ret s' ∧ entries s' = lt_block_maps 0 0 None (tx :: txs).
Proof.
  cbn [forallb]. rewrite andb_true_iff. intros [Hok Hoks].
  change (lt_block_size (tx :: txs)) with (lt_size tx + lt_block_size txs). intros Hlt.
  pose proof (lt_step_size tx). pose proof (lt_block_size_nonneg txs).
  unfold lt_block_events. rewrite fmap_cons. cbn [mjoin list_join]. rewrite <-app_comm_cons.
  rewrite (emit_all_cons _ (legacy false 0 [] 0 [] None false)) by done.
  pose proof (lt_refines tx false 0 [] 0 None false Hok) as Htx.
  specialize (Htx ltac:(lia) ltac:(lia) ltac:(done)).
  apply bind_Ret_inv in Htx as (s1 & Hs1 & Hfin).
  erewrite emit_all_app_Ret by exact Hs1.
  rewrite add_map_nil in Hfin by apply index_map_preorder_nonempty.
  destruct (lt_txs_run _ _ _ _ _ _ _ Hfin Hoks) as (s2 & o2 & c2 & n2 & ct2 & Hs2 & Hfin2);
    [lia..|].
  exists s2. eexists. split_and!; [exact Hs2|exact Hfin2|done].
Qed.

End transactions.

(** ** The entries of legacy executions *)

(** C25: on a runtime of the legacy version too, tracing a block and finishing it
    returns, and the entries of each transaction are the calls of its call tree in
    pre-order, with one exception: a root call has the type of the last sub-call of the
    transactions before it, if they made one, instead of its own.  A root that is not seen
    to end has the result of an early exit, and a transaction that could not pay for its
    data has the one entry made for it. *)
Theorem call_list_legacy_block `{!BuildProfile} txs :
  forallb lt_ok txs = true → lt_block_size txs < 2 ^ 32 →
  ∃ s, finished (emit_all Listener_default (lt_block_events txs)) = Ret s ∧
    btree_values <$> entries s =
    preorder <$> zip_with retype_root (remembered_types None txs) (lt_call_trees 0 0 txs).
Proof.
  rewrite <-lt_block_trees_retyped.
  destruct txs as [|tx txs]; intros Hok Hlt; [by eexists|].
  destruct (lt_block_run tx txs Hok Hlt) as (s & s' & Hrun & Hfin & He).
  exists s'. unfold finished. rewrite Hrun. cbn [mbind outcome_bind].
  by rewrite Hfin, He, lt_block_maps_values.
Qed.

Module LegacyExample.
Import Example.

(** A call with a static sub-call, a root that exits early, and a transaction that
    cannot pay its data. *)
Definition called : LegacyTransaction :=
  mkLegacy [RecordTransaction 21000 (snap 79000)]
    (Some (EvmEvent_Call 0xA0 None [Byte.xca] None false (ctx 0xA0 0x01 7),
       [IGas (RecordCost 3 (snap 78997)); static_call; create], Some (returned []))).
Definition cut : LegacyTransaction :=
  mkLegacy [RecordTransaction 21000 (snap 79000)]
    (Some (EvmEvent_Call 0xB0 None [] None false (ctx 0xB0 0x01 0),
       [IGas (RecordCost 3 (snap 70000)); static_call], None)).
Definition unpaid : LegacyTransaction :=
  mkLegacy [RecordTransaction 21000 (snap 10)] None.

(** The root call of [called] is a call, that of [cut] after it is shown as the
    static call [called] made. *)
Lemma cut_root_type :
  (bc_inner ∘ rose_label <$> lt_block_trees 0 0 None [called; cut]) !! 1%nat =
  Some (CallInner_Call StaticCall 0xB0 [] (CallResult_Error early_exit_message)).
Proof. vm_compute. reflexivity. Qed.
End LegacyExample.

Lemma call_list_legacy_block_witness :
  ∃ s, @finished dev (@emit_all _ (@CallList_Listener dev) Listener_default
      (lt_block_events [LegacyExample.called; LegacyExample.cut; LegacyExample.unpaid])) = Ret s ∧
    btree_values <$> entries s = preorder <$>
      zip_with retype_root [None; Some StaticCall; None]
        (lt_call_trees 0 0 [LegacyExample.called; LegacyExample.cut; LegacyExample.unpaid]).
Proof.
  apply (@call_list_legacy_block dev
    [LegacyExample.called; LegacyExample.cut; LegacyExample.unpaid]); vm_compute; reflexivity.
Defined.
