(* ===== verification/CallListTypes.v ===== *)
(** * The widths of the call list listener's integers

    The fields of the listener of call_list.rs are machine integers, which the
    model keeps as integers with the overflow of each operation written out.  This
    file shows that the model never leaves their ranges, whatever a runtime emits
    and in both build profiles, and that a build without overflow checks handles
    every event. *)

From stdpp Require Import base tactics list gmap strings.
From Stdlib Require Import ZArith Lia Strings.Byte.
From S2P Require Import Prelude EvmEvents TraceTypes CallList CallTree.
Local Open Scope Z_scope.

(** ** Well-typed events and states *)

(** The values of a [w]-bit unsigned integer, or of a hash of [w] bits. *)
Definition uint (w x : Z) : Prop := 0 ≤ x < 2 ^ w.

Record snapshot_typed (s : Snapshot) : Prop := {
  snapshot_limit : uint 64 (gas_limit s);
  snapshot_memory : uint 64 (memory_gas s);
  snapshot_used : uint 64 (used_gas s);
}.

Definition gasometer_typed (e : GasometerEvent) : Prop :=
  match e with
  | RecordCost _ s | RecordRefund _ s | RecordStipend _ s | RecordDynamicCost _ _ _ s =>
      snapshot_typed s
  | RecordTransaction cost _ => uint 64 cost
  end.

Definition evm_typed (e : EvmEvent) : Prop :=
  match e with
  | EvmEvent_Call ca _ _ _ _ cx =>
      uint 160 ca ∧ uint 160 (caller cx) ∧ uint 256 (apparent_value cx)
  | EvmEvent_Create ca ad _ va _ _ => uint 160 ca ∧ uint 160 ad ∧ uint 256 va
  | EvmEvent_Suicide ad ta ba => uint 160 ad ∧ uint 160 ta ∧ uint 256 ba
  | EvmEvent_TransactCall ca ad va _ _ => uint 160 ca ∧ uint 160 ad ∧ uint 256 va
  | EvmEvent_TransactCreate ca va _ _ ad => uint 160 ca ∧ uint 160 ad ∧ uint 256 va
  | EvmEvent_TransactCreate2 ca va _ _ _ ad => uint 160 ca ∧ uint 160 ad ∧ uint 256 va
  | EvmEvent_Exit _ _ | EvmEvent_PrecompileSubcall _ _ _ _ _ _ => True
  end.

Definition event_typed (e : Event) : Prop :=
  match e with
  | Event_Evm e => evm_typed e
  | Event_Gasometer e => gasometer_typed e
  | Event_Runtime _ | Event_CallListNew => True
  end.

Record context_typed (c : Context) : Prop := {
  context_index : uint 32 (entries_index c);
  context_from : uint 160 (from c);
  context_address : Forall (uint 32) (trace_address c);
  context_subtraces : uint 32 (subtraces c);
  context_value : uint 256 (value c);
  context_gas : uint 64 (gas c);
  context_start : uint 64 (start_or_0 c);
  context_to : uint 160 (to c);
}.

Record call_typed (b : BlockscoutCall) : Prop := {
  call_from : uint 160 (bc_from b);
  call_address : Forall (uint 32) (bc_trace_address b);
  call_subtraces : uint 32 (bc_subtraces b);
  call_value : uint 256 (bc_value b);
  call_gas : uint 64 (bc_gas b);
  call_gas_used : uint 64 (bc_gas_used b);
  call_to : match bc_inner b with
            | CallInner_Call _ to _ _ => uint 160 to
            | CallInner_Create _ (CreateResult_Success a _) => uint 160 a
            | CallInner_Create _ (CreateResult_Error _) => True
            | CallInner_SelfDestruct balance to => uint 256 balance ∧ uint 160 to
            end;
}.

Definition entry_typed (x : Z * BlockscoutCall) : Prop := uint 32 x.1 ∧ call_typed x.2.
Definition map_typed (m : gmap Z BlockscoutCall) : Prop :=
  map_Forall (λ k b, entry_typed (k, b)) m.

Record listener_typed (s : CallListListener) : Prop := {
  typed_cost : uint 64 (transaction_cost s);
  typed_entries : Forall map_typed (entries s);
  typed_next : uint 32 (entries_next_index s);
  typed_stack : Forall context_typed (context_stack s);
  typed_step : ∀ x, step_result_entry s = Some x → entry_typed x;
}.

(** ** Arithmetic *)

Section arithmetic.
Context `{!BuildProfile}.

Lemma add_w_uint w a b c : add_w w a b = Ret c → 0 ≤ w → uint w a → uint w b → uint w c.
Proof. intros ? Hw [? _] [? _]. by apply (add_w_range w a b). Qed.

Lemma sub_w_uint w a b c : sub_w w a b = Ret c → 0 ≤ w → uint w a → uint w b → uint w c.
Proof. intros ? Hw [_ ?] [? _]. by apply (sub_w_range w a b). Qed.

Lemma Snapshot_gas_uint s g : snapshot_typed s → Snapshot_gas s = Ret g → uint 64 g.
Proof.
  intros [Hl Hm Hu] Hrun. unfold Snapshot_gas in Hrun. run_inv.
  eapply sub_w_uint; [done|done| |done]. by eapply sub_w_uint.
Qed.

Lemma uint_0 w : 0 ≤ w → uint w 0.
Proof. unfold uint. pose proof (Z.pow_pos_nonneg 2 w). lia. Qed.

Lemma uint_1 w : 1 ≤ w → uint w 1.
Proof. unfold uint. pose proof (Z.pow_gt_1 2 w). lia. Qed.

Lemma context_gas_used_uint cost c g :
  uint 64 cost → context_typed c → context_gas_used cost c = Ret g → uint 64 g.
Proof.
  intros Hcost Hc Hrun. unfold context_gas_used in Hrun. run_inv.
  assert (uint 64 x) by (eapply sub_w_uint; [done|done|apply Hc..]).
  destruct (entries_index c =? 0); [by eapply add_w_uint|by simplify_eq].
Qed.

Lemma add_w_total w a b : overflow_checks = false → ∃ c, add_w w a b = Ret c.
Proof. intros H'. unfold add_w. rewrite H'. destruct (_ <? _); eauto. Qed.

Lemma sub_w_total w a b : overflow_checks = false → ∃ c, sub_w w a b = Ret c.
Proof. intros H'. unfold sub_w. rewrite H'. destruct (_ <=? _); eauto. Qed.

End arithmetic.

#[export] Hint Resolve uint_0 uint_1 : edgeware.

Section handlers.
Context `{!BuildProfile}.

(** ** Every handler keeps the ranges *)

Lemma insert_entry_typed k b s :
  entry_typed (k, b) → listener_typed s → listener_typed (insert_entry k b s).
Proof.
  intros Hb [Hc He Hn Hs Hr]. unfold insert_entry.
  destruct (entries s) as [|m E _] using rev_ind; simpl.
  - constructor; simpl; try done. apply Forall_singleton, map_Forall_singleton, Hb.
  - rewrite last_snoc, alter_last_snoc. constructor; simpl; try done.
    apply Forall_app in He as [He [Hm _]%Forall_cons].
    apply Forall_app. split; [done|]. apply Forall_singleton.
    by apply map_Forall_insert_2.
Qed.

(** A context that ended, as an entry. *)
Lemma context_entry_typed c g inner :
  context_typed c → uint 64 g →
  match inner with
  | CallInner_Call _ t _ _ => t = to c
  | CallInner_Create _ (CreateResult_Success a _) => a = to c
  | CallInner_Create _ (CreateResult_Error _) => True
  | CallInner_SelfDestruct _ _ => False
  end → entry_typed (entries_index c, context_entry c g inner).
Proof.
  intros [] Hg Hi. split; [done|]. constructor; simpl; try done.
  destruct inner as [???? |? []|]; simplify_eq; done.
Qed.

Lemma pop_typed reason rv s s' popped :
  listener_typed s → pop_context_to_entry reason rv s = Ret (s', popped) →
  listener_typed s' ∧ ∀ x, popped = Some x → entry_typed x.
Proof.
  intros Hs Hrun. unfold pop_context_to_entry in Hrun. pose proof (typed_stack s Hs) as Hst.
  destruct (context_stack s) as [|c st] eqn:Heq; run_inv; [done|].
  apply Forall_cons in Hst as [Hc Hst]. destruct Hs. split; [by constructor|].
  intros y [= <-]. simpl in *.
  destruct (context_type c); apply context_entry_typed;
    try done; try by eapply context_gas_used_uint.
  unfold create_result. by destruct reason.
Qed.

Lemma next_address_typed s s' addr :
  listener_typed s → next_trace_address s = Ret (s', addr) →
  listener_typed s' ∧ Forall (uint 32) addr.
Proof.
  intros Hs Hrun. unfold next_trace_address in Hrun. pose proof (typed_stack s Hs) as Hst.
  destruct (context_stack s) as [|c st] eqn:Heq; run_inv.
  { split; [done|by constructor]. }
  apply Forall_cons in Hst as [[] Hst]. destruct Hs. split.
  - constructor; simpl; try done. constructor; [|done]. constructor; simpl; try done.
    eapply add_w_uint; [done|auto with edgeware lia..].
  - apply Forall_app. split; [done|]. by apply Forall_singleton.
Qed.

Lemma push_typed ct f addr v d t s s' :
  listener_typed s → uint 160 f → Forall (uint 32) addr → uint 256 v → uint 160 t →
  push_context ct f addr v d t s = Ret s' → listener_typed s'.
Proof.
  intros Hs Hf Ha Hv Ht Hrun. unfold push_context in Hrun. run_inv. simpl in *.
  destruct Hs. constructor; simpl; try done.
  - eapply add_w_uint; [done|auto with edgeware lia..].
  - constructor; [|done]. constructor; simpl; auto with edgeware lia.
Qed.

(** Assignments to the fields that are not integers. *)
Lemma same_typed s s' :
  transaction_cost s' = transaction_cost s → entries s' = entries s →
  entries_next_index s' = entries_next_index s → context_stack s' = context_stack s →
  step_result_entry s' = step_result_entry s → listener_typed s → listener_typed s'.
Proof. intros E1 E2 E3 E4 E5 []. constructor; by rewrite ?E1, ?E2, ?E3, ?E4, ?E5. Qed.

Lemma next_index_typed n s :
  uint 32 n → listener_typed s → listener_typed (set_entries_next_index n s).
Proof. intros Hn []. by constructor. Qed.

Lemma transact_typed ct ca v d a s s' :
  listener_typed s → uint 160 ca → uint 256 v → uint 160 a →
  transact ct ca v d a s = Ret s' → listener_typed s'.
Proof.
  intros Hs Hca Hv Ha Hrun. unfold transact in Hrun. run_inv.
  apply (same_typed x); [done..|]. eapply push_typed; [| | | | |done]; try done.
  by apply (same_typed s).
Qed.

Lemma parent_typed s f :
  listener_typed s → uint 160 f →
  uint 160 match context_stack s with parent :: _ => to parent | [] => f end.
Proof.
  intros Hs Hf. pose proof (typed_stack s Hs) as Hst.
  destruct (context_stack s); [done|]. apply Forall_cons in Hst as [[] _]. done.
Qed.

Lemma on_call_typed ca i st cx s s' :
  listener_typed s → uint 160 ca → uint 160 (caller cx) → uint 256 (apparent_value cx) →
  on_call ca i st cx s = Ret s' → listener_typed s'.
Proof.
  intros Hs Hca Hcx Hv Hrun. unfold on_call in Hrun.
  set (s1 := set_record_transaction_event_only false s) in *.
  assert (listener_typed s1) as Hs1 by by apply (same_typed s).
  destruct (skip_next_context s1); simpl in Hrun; run_inv; [by apply (same_typed s1)|].
  destruct x as [s2 addr]. edestruct next_address_typed as [Hs2 Ha]; [exact Hs1|done|].
  eapply push_typed; [exact Hs2| |exact Ha|exact Hv|exact Hca|done].
  by apply parent_typed.
Qed.

Lemma on_create_typed ca a v i s s' :
  listener_typed s → uint 160 ca → uint 160 a → uint 256 v →
  on_create ca a v i s = Ret s' → listener_typed s'.
Proof.
  intros Hs Hca Ha Hv Hrun. unfold on_create in Hrun.
  set (s1 := set_record_transaction_event_only false s) in *.
  assert (listener_typed s1) as Hs1 by by apply (same_typed s).
  destruct (skip_next_context s1); simpl in Hrun; run_inv; [by apply (same_typed s1)|].
  destruct x as [s2 addr]. edestruct next_address_typed as [Hs2 Haddr]; [exact Hs1|done|].
  eapply push_typed; [| | | | |done]; done.
Qed.

Lemma on_suicide_typed a t b s s' :
  listener_typed s → uint 160 a → uint 160 t → uint 256 b →
  on_suicide a t b s = Ret s' → listener_typed s'.
Proof.
  intros Hs Ha Ht Hb Hrun. unfold on_suicide in Hrun. run_inv. destruct x as [s1 addr].
  run_inv. edestruct next_address_typed as [Hs1 Haddr]; [exact Hs|done|].
  apply next_index_typed.
  - eapply add_w_uint; [done|auto with edgeware lia..].
    rewrite (proj1 (insert_entry_fields _ _ _)). apply Hs1.
  - apply insert_entry_typed; [|done]. split; [apply Hs1|].
    constructor; simpl; auto with edgeware lia.
Qed.

Lemma on_exit_typed r rv s s' :
  listener_typed s → on_exit r rv s = Ret s' → listener_typed s'.
Proof.
  intros Hs Hrun. unfold on_exit in Hrun.
  set (s1 := set_record_transaction_event_only false s) in *.
  assert (listener_typed s1) as Hs1 by by apply (same_typed s). clearbody s1.
  run_inv. destruct x as [s2 entry].
  destruct (step_result_entry s1) as [x|] eqn:Hstep; simplify_eq/=.
  - destruct x as [k e]. run_inv. apply insert_entry_typed; [by apply (typed_step s1 Hs1)|].
    destruct Hs1. by constructor.
  - edestruct pop_typed as [Hs2 Hx]; [exact Hs1|done|].
    destruct entry as [[k e]|]; run_inv; [|done]. apply insert_entry_typed; auto.
Qed.

Lemma runtime_typed e s s' :
  listener_typed s → runtime_event s e = Ret s' → listener_typed s'.
Proof.
  intros Hs Hrun. destruct e as [|[|[reason|opcode]] rv| |]; simpl in Hrun; run_inv; try done.
  - destruct x as [s1 popped]. edestruct pop_typed as [Hs1 Hx]; [exact Hs|done|].
    destruct popped as [x|]; [|by run_inv]. specialize (Hx x eq_refl).
    destruct x as [k e], (version s1); run_inv; [|by apply insert_entry_typed].
    destruct Hs1. constructor; simpl; try done. by intros x [= <-].
  - destruct (ContextType_from opcode) as [[]|]; run_inv; [by apply (same_typed s)|done..].
Qed.

Lemma record_typed sn s s' :
  listener_typed s → snapshot_typed sn →
  match context_stack s with
  | context :: stack =>
      g ← Snapshot_gas sn;
      let start := match start_gas context with None => Some g | Some g0 => Some g0 end in
      Ret (set_context_stack (set_gas start g context :: stack) s)
  | [] => Ret s
  end = Ret s' → listener_typed s'.
Proof.
  intros Hs Hsn. pose proof (typed_stack s Hs) as Hst.
  destruct (context_stack s) as [|c st]; intros Hrun; run_inv; [done|].
  apply Forall_cons in Hst as [Hc Hst].
  assert (uint 64 x) by by eapply Snapshot_gas_uint.
  destruct Hs. constructor; simpl; try done. constructor; [|done].
  destruct Hc as [?????? Hstart ?]. unfold start_or_0 in Hstart.
  constructor; unfold start_or_0; simpl; try done. by destruct (start_gas c).
Qed.

Lemma gasometer_event_typed e s s' :
  listener_typed s → gasometer_typed e → gasometer_event s e = Ret s' → listener_typed s'.
Proof.
  intros Hs He Hrun. destruct e; simpl in *; try by eapply record_typed.
  - by run_inv.
  - run_inv. destruct Hs. by constructor.
Qed.

Lemma finish_typed s s' :
  listener_typed s → finish_transaction s = Ret s' → listener_typed s'.
Proof.
  intros Hs Hrun. unfold finish_transaction in Hrun.
  assert (listener_typed (set_context_stack [] s)) as Hs1.
  { destruct Hs. by constructor. }
  destruct (last (context_stack s)) as [c|] eqn:Hlast.
  - assert (context_typed c) as Hc.
    { apply last_Some in Hlast as [l Hl]. pose proof (typed_stack s Hs) as Hst.
      rewrite Hl in Hst. apply Forall_app in Hst as [_ Hst]. by apply Forall_singleton. }
    run_inv. assert (uint 64 x) by (eapply context_gas_used_uint; [apply Hs|done..]).
    apply next_index_typed; [eapply add_w_uint; [done|done|apply Hc|auto with edgeware lia]|].
    apply insert_entry_typed; [|done]. destruct (context_type c); by apply context_entry_typed.
  - destruct (record_transaction_event_only (set_context_stack [] s)); [|by run_inv]. run_inv.
    apply next_index_typed.
    + eapply add_w_uint; [done|auto with edgeware lia..].
      rewrite (proj1 (insert_entry_fields _ _ _)). apply Hs.
    + apply insert_entry_typed; [|done]. split; [apply Hs|].
      by constructor.
Qed.

Lemma evm_event_typed e s s' :
  listener_typed s → evm_typed e → evm_event s e = Ret s' → listener_typed s'.
Proof.
  intros Hs He Hrun. destruct e; simpl in *; destruct_and?.
  - by eapply on_call_typed in Hrun.
  - by eapply on_create_typed in Hrun.
  - by eapply on_suicide_typed in Hrun.
  - by eapply on_exit_typed.
  - by eapply transact_typed in Hrun.
  - by eapply transact_typed in Hrun.
  - by eapply transact_typed in Hrun.
  - run_inv. by apply (same_typed s).
Qed.

Lemma listener_event_typed e s s' :
  listener_typed s → event_typed e → listener_event s e = Ret s' → listener_typed s'.
Proof.
  intros Hs He Hrun. destruct e as [e|e|e|]; simpl in *.
  - by eapply evm_event_typed.
  - by eapply gasometer_event_typed.
  - by eapply runtime_typed.
  - destruct (call_list_first_transaction s); simpl in Hrun; run_inv; [by apply (same_typed s)|].
    assert (listener_typed x) as [] by by eapply finish_typed.
    constructor; simpl; try done. apply Forall_app. split; [done|].
    apply Forall_singleton, map_Forall_empty.
Qed.

(** ** A build without overflow checks handles every event *)

Hypothesis unchecked : overflow_checks = false.

Lemma pop_total reason rv s : ∃ s' popped, pop_context_to_entry reason rv s = Ret (s', popped).
Proof.
  unfold pop_context_to_entry, context_gas_used. destruct (context_stack s) as [|c st]; [eauto|].
  destruct (sub_w_total 64 (start_or_0 c) (gas c) unchecked) as [u Hu].
  destruct (add_w_total 64 u (transaction_cost s) unchecked) as [v Hv].
  simpl. rewrite Hu. simpl. rewrite Hv. destruct (entries_index c =? 0); simpl; eauto.
Qed.

Lemma next_address_total s : ∃ s' addr, next_trace_address s = Ret (s', addr).
Proof.
  unfold next_trace_address. destruct (context_stack s) as [|c st]; [eauto|].
  destruct (add_w_total 32 (subtraces c) 1 unchecked) as [u ->]. simpl. eauto.
Qed.

Lemma push_total ct f addr v d t s : ∃ s', push_context ct f addr v d t s = Ret s'.
Proof.
  unfold push_context. simpl.
  destruct (add_w_total 32 (entries_next_index s) 1 unchecked) as [u ->]. simpl. eauto.
Qed.

Lemma evm_event_total e s : ∃ s', evm_event s e = Ret s'.
Proof.
  destruct e; simpl; unfold transact, on_call, on_create, on_suicide, on_exit; eauto;
    try (destruct (skip_next_context _); simpl; [by eauto|]);
    try match goal with |- context [next_trace_address ?s] =>
      destruct (next_address_total s) as (? & ? & ->) end; simpl;
    try match goal with |- context [push_context ?ct ?f ?a ?v ?d ?t ?s] =>
      destruct (push_total ct f a v d t s) as (? & ->) end; simpl; eauto.
  - match goal with |- context [add_u32 ?a ?b] =>
      destruct (add_w_total 32 a b unchecked) as [? ->] end. simpl. eauto.
  - destruct (step_result_entry s) as [[]|]; simpl; [by eauto|].
    match goal with |- context [pop_context_to_entry ?r ?v ?s] =>
      destruct (pop_total r v s) as (? & [[]|] & ->) end; simpl; eauto.
Qed.

Lemma finish_total s : ∃ s', finish_transaction s = Ret s'.
Proof.
  unfold finish_transaction, context_gas_used. destruct (last _) as [c|]; simpl.
  - destruct (sub_w_total 64 (start_or_0 c) (gas c) unchecked) as [u ->]. simpl.
    destruct (add_w_total 64 u (transaction_cost s) unchecked) as [v ->].
    destruct (add_w_total 32 (entries_index c) 1 unchecked) as [n ->].
    destruct (entries_index c =? 0); simpl; eauto.
  - destruct (record_transaction_event_only s); [|by eauto].
    match goal with |- context [add_u32 ?a ?b] =>
      destruct (add_w_total 32 a b unchecked) as [? ->] end. simpl. eauto.
Qed.

Lemma gas_total s : ∃ g, Snapshot_gas s = Ret g.
Proof.
  unfold Snapshot_gas. destruct (sub_w_total 64 (gas_limit s) (used_gas s) unchecked) as [u ->].
  apply (sub_w_total 64 u (memory_gas s) unchecked).
Qed.

Lemma listener_event_total e s : ∃ s', listener_event s e = Ret s'.
Proof.
  destruct e as [e|e|e|]; simpl.
  - apply evm_event_total.
  - destruct e; simpl; destruct (context_stack s); eauto;
      match goal with |- context [Snapshot_gas ?s] => destruct (gas_total s) as [? ->] end;
      simpl; eauto.
  - destruct e as [|[|[reason|op]] rv| |]; simpl; eauto.
    + destruct (pop_total reason rv s) as (s' & [[]|] & ->); simpl; [destruct (version s')|]; eauto.
    + destruct (ContextType_from op) as [[]|]; eauto.
  - destruct (negb _); [|by eauto]. destruct (finish_total s) as [? ->]. simpl. eauto.
Qed.

End handlers.

Lemma emit_all_typed `{!BuildProfile} evs s s' :
  listener_typed s → Forall event_typed evs → emit_all s evs = Ret s' → listener_typed s'.
Proof.
  revert s. induction evs as [|e evs IH]; intros s Hs Hev Hrun; simpl in Hrun; run_inv; [done|].
  apply Forall_cons in Hev as [He Hev]. eapply IH; [|done..].
  by eapply listener_event_typed.
Qed.

Lemma default_typed : listener_typed Listener_default.
Proof. constructor; simpl; auto with edgeware lia. done. Qed.

(** ** The property *)

(** C14: whatever well-typed events a runtime emits, in either build profile, every
    state the call list listener reaches is well typed: indices, subtraces and
    trace addresses stay [u32], gas amounts [u64], addresses 160-bit and values
    256-bit, in the open contexts, in the entry kept for the next [Exit] and in
    every entry recorded.  A build without overflow checks moreover handles every
    such sequence without panicking. *)
Theorem call_list_well_typed (profile : BuildProfile) evs :
  Forall event_typed evs →
  match emit_all Listener_default evs with
  | Ret s => listener_typed s
  | Panic => overflow_checks = true
  end.
Proof.
  intros Hev. destruct (emit_all Listener_default evs) as [s|] eqn:Hrun.
  - by apply (emit_all_typed evs Listener_default), Hrun; [apply default_typed|].
  - destruct overflow_checks eqn:Hc; [done|exfalso].
    clear Hev. revert Hrun. generalize Listener_default.
    induction evs as [|e evs IH]; intros s Hrun; simpl in Hrun; [done|].
    destruct (listener_event_total Hc e s) as [s' He].
    change (event s e) with (listener_event s e) in Hrun. rewrite He in Hrun.
    by eapply IH.
Qed.

Module TypedExample.

(** A snapshot whose used gas exceeds its limit. *)
Definition overdrawn : Snapshot := mkSnapshot 10 0 11 0.
Definition evs : list Event :=
  [Event_CallListNew; Event_Evm (EvmEvent_TransactCall 1 2 0 [] 10);
   Event_Gasometer (RecordCost 1 overdrawn);
   Event_Evm (EvmEvent_Exit (Succeed Returned) [])].

Lemma evs_typed : Forall event_typed evs.
Proof. repeat constructor; simpl; lia. Qed.

End TypedExample.

Lemma call_list_well_typed_witness :
  Forall event_typed TypedExample.evs ∧
  emit_all (H := @CallList_Listener dev) Listener_default TypedExample.evs = Panic ∧
  match emit_all (H := @CallList_Listener release) Listener_default TypedExample.evs with
  | Ret s => listener_typed s ∧
      ∃ m e, head (entries s) = Some m ∧ m !! 0 = Some e ∧ bc_gas e = 2 ^ 64 - 1
  | Panic => False
  end.
Proof.
  split; [exact TypedExample.evs_typed|]. split; [by vm_compute|].
  pose proof (call_list_well_typed release TypedExample.evs TypedExample.evs_typed) as Hty.
  destruct (emit_all Listener_default TypedExample.evs) as [s|] eqn:Hrun; [|done].
  split; [exact Hty|]. vm_compute in Hrun. simplify_eq/=. by eexists _, _.
Defined.
