(* ===== verification/CallListSafety.v ===== *)
(** * Safety of the call list listener on arbitrary events

    The events come from the runtime of the traced block, which may be of any
    version.  Whatever it emits, in a build that checks arithmetic the listener never
    overwrites an entry it has recorded, as long as no transaction leaves the result of
    a step without its [Exit] to the next one; and the gas of a context that recorded
    none is zero. *)

From stdpp Require Import base tactics list gmap strings.
From Stdlib Require Import ZArith Lia Strings.Byte.
From S2P Require Import Prelude EvmEvents TraceTypes CallList CallTree.
Local Open Scope Z_scope.

(** The map the listener is filling. *)
Definition current (s : CallListListener) : gmap Z BlockscoutCall :=
  default ∅ (last (entries s)).

Abbreviation indices st := (entries_index <$> st).

(** The indices of open contexts, and of the entry kept between [StepResult]
    and [Exit], are distinct, below the next index, and unused in the map. *)
Record fresh_inv (s : CallListListener) : Prop := {
  inv_map : ∀ k, is_Some (current s !! k) → k < entries_next_index s;
  inv_stack : ∀ k, k ∈ indices (context_stack s) →
    k < entries_next_index s ∧ current s !! k = None;
  inv_nodup : NoDup (indices (context_stack s));
  inv_step : ∀ k e, step_result_entry s = Some (k, e) →
    k < entries_next_index s ∧ current s !! k = None ∧ (k ∉ indices (context_stack s));
  inv_gas : Forall (λ c, start_gas c = None → gas c = 0) (context_stack s);
}.

(** Every entry of the maps of a block stays where and what it is. *)
Definition grows (E E' : list (gmap Z BlockscoutCall)) : Prop :=
  ∀ i m, E !! i = Some m → ∃ m', E' !! i = Some m' ∧ m ⊆ m'.
#[global] Instance grows_refl : Reflexive grows.
Proof. intros E i m Hm. eauto. Qed.
#[global] Instance grows_trans : Transitive grows.
Proof.
  intros E1 E2 E3 H12 H23 i m Hm. destruct (H12 i m Hm) as (m2 & Hm2 & Hs).
  destruct (H23 i m2 Hm2) as (m3 & Hm3 & Hs'). exists m3. split; [done|]. by etrans.
Qed.

Lemma grows_snoc E m : grows E (E ++ [m]).
Proof. intros i m' Hm. exists m'. split; [by apply lookup_app_l_Some|done]. Qed.

(** What one step guarantees: the invariant, and that the maps only grow. *)
Definition safe_step (s s' : CallListListener) : Prop :=
  fresh_inv s' ∧ grows (entries s) (entries s').

Definition in_transaction (e : Event) : bool :=
  match e with Event_CallListNew => false | _ => true end.

Lemma current_insert_entry k e s :
  current (insert_entry k e s) = <[k:=e]> (current s).
Proof.
  unfold current, insert_entry. destruct (entries s) as [|M E _] using rev_ind; [done|].
  rewrite !last_snoc. simpl. rewrite alter_last_snoc, last_snoc. done.
Qed.

Lemma grows_insert_entry k e s :
  current s !! k = None → grows (entries s) (entries (insert_entry k e s)).
Proof.
  unfold current, insert_entry. destruct (entries s) as [|M E _] using rev_ind.
  { by intros _ i m Hm. }
  rewrite !last_snoc. simpl. rewrite alter_last_snoc. intros HM i m [Hm|[-> Hm]]%lookup_snoc_Some.
  - exists m. split; [apply lookup_app_l_Some; apply Hm|done].
  - simplify_eq. exists (<[k:=e]> m). split; [|by apply insert_subseteq].
    by rewrite lookup_app_r, Nat.sub_diag.
Qed.

Lemma safe_step_refl s : fresh_inv s → safe_step s s.
Proof. by split. Qed.

(** Inserting at an index that nothing else refers to. *)
Lemma safe_insert k e s :
  fresh_inv s → k < entries_next_index s → current s !! k = None →
  k ∉ indices (context_stack s) →
  (∀ e', step_result_entry s ≠ Some (k, e')) →
  safe_step s (insert_entry k e s).
Proof.
  intros [Hm Hst Hnd Hsr Hg] Hk HM Hin Hs.
  destruct (insert_entry_fields k e s) as (En & Es & Er).
  split; [|by apply grows_insert_entry].
  constructor; rewrite ?En, ?Es, ?Er, ?current_insert_entry; try done.
  - intros k'. rewrite lookup_insert. case_decide; [by subst|]. apply Hm.
  - intros k' Hk'. destruct (Hst k' Hk'). split; [done|].
    rewrite lookup_insert_ne; [done|]. by intros ->.
  - intros k' e' Heq. destruct (Hsr k' e' Heq) as (?&?&?).
    rewrite lookup_insert_ne; [done|]. intros ->. by eapply Hs.
Qed.

(** Replacing the stack by one with the same indices. *)
Lemma inv_same_indices s s' :
  fresh_inv s → entries s' = entries s → entries_next_index s' = entries_next_index s →
  step_result_entry s' = step_result_entry s →
  indices (context_stack s') = indices (context_stack s) →
  Forall (λ c, start_gas c = None → gas c = 0) (context_stack s') →
  safe_step s s'.
Proof.
  intros [Hm Hst Hnd Hsr Hg] He Hn Hr Hi Hg'.
  assert (current s' = current s) as Hc by (unfold current; by rewrite He).
  split; [|by rewrite He]. constructor; rewrite ?Hn, ?Hr, ?Hi, ?Hc; done.
Qed.

(** Taking the context at the top of the stack. *)
Lemma inv_pop s c st :
  fresh_inv s → context_stack s = c :: st →
  fresh_inv (set_context_stack st s) ∧
  entries_index c < entries_next_index s ∧ current s !! entries_index c = None ∧
  (entries_index c ∉ indices st) ∧
  (∀ e, step_result_entry s ≠ Some (entries_index c, e)).
Proof.
  intros [Hm Hst Hnd Hsr Hg] Heq. rewrite Heq in *. rewrite fmap_cons in *.
  apply NoDup_cons in Hnd as [Hnotin Hnd]. apply Forall_cons in Hg as [_ Hg].
  destruct (Hst (entries_index c)) as [??]; [left|].
  split_and!; try done.
  - constructor; simpl; try done.
    + intros k Hk. apply Hst. by right.
    + intros k e He. destruct (Hsr k e He) as (?&?&[??]%not_elem_of_cons). done.
  - intros e He. destruct (Hsr _ e He) as (_&_&[]%not_elem_of_cons). done.
Qed.

Section steps.
Context `{!BuildProfile}.
Hypothesis checked : overflow_checks = true.

Lemma add_w_checked w a b c : add_w w a b = Ret c → c = a + b.
Proof.
  unfold add_w. rewrite checked. by destruct (a + b <? 2 ^ w); intros [= <-].
Qed.

Lemma safe_pop_entry reason rv s s' popped :
  fresh_inv s → pop_context_to_entry reason rv s = Ret (s', popped) →
  safe_step s s' ∧ entries_next_index s' = entries_next_index s ∧
  step_result_entry s' = step_result_entry s ∧
  match popped with
  | Some (k, e) => k < entries_next_index s ∧ current s' !! k = None ∧
      (k ∉ indices (context_stack s')) ∧ (∀ e', step_result_entry s ≠ Some (k, e'))
  | None => s' = s
  end.
Proof.
  intros Hinv. unfold pop_context_to_entry.
  destruct (context_stack s) as [|c st] eqn:Hst.
  { intros [= <- <-]. split_and!; [by apply safe_step_refl|done..]. }
  intros Hrun. run_inv.
  destruct (inv_pop s c st Hinv Hst) as (Hinv' & ? & ? & ? & ?). done.
Qed.

Lemma safe_push ct from addr v d to s s' :
  fresh_inv s → push_context ct from addr v d to s = Ret s' → safe_step s s'.
Proof.
  intros [Hm Hst Hnd Hsr Hg] Hrun. unfold push_context in Hrun. run_inv. simpl in *.
  match goal with H : add_w _ _ _ = _ |- _ => apply add_w_checked in H as -> end.
  split; [|done]. constructor; unfold current in *; simpl in *.
  - intros k Hk. specialize (Hm k Hk). lia.
  - intros k [->|Hk]%elem_of_cons.
    + split; [lia|]. destruct (default ∅ (last (entries s)) !! _) eqn:E; [|done].
      assert (entries_next_index s < entries_next_index s) by eauto. lia.
    + destruct (Hst k Hk). split; [lia|done].
  - apply NoDup_cons. split; [|done]. intros Hk. destruct (Hst _ Hk). lia.
  - intros k e He. destruct (Hsr k e He) as (?&?&?). split_and!; [lia|done|].
    apply not_elem_of_cons. split; [lia|done].
  - by constructor.
Qed.

Lemma safe_next_address s s' addr :
  fresh_inv s → next_trace_address s = Ret (s', addr) →
  safe_step s s' ∧ entries_next_index s' = entries_next_index s.
Proof.
  intros Hinv. unfold next_trace_address.
  destruct (context_stack s) as [|c st] eqn:Hst.
  { intros [= <- <-]. split; [by apply safe_step_refl|done]. }
  intros Hrun. run_inv. split; [|done].
  destruct Hinv as [? ? ? ? Hg]. apply inv_same_indices; try done; simpl.
  - by rewrite Hst.
  - rewrite Hst in Hg. apply Forall_cons in Hg as [??]. by constructor.
Qed.

Lemma safe_trans s1 s2 s3 : safe_step s1 s2 → safe_step s2 s3 → safe_step s1 s3.
Proof. intros [_ H1] [H2 H3]. split; [done|]. by etrans. Qed.

(** Assignments the invariant does not depend on. *)
Lemma safe_same s s' :
  entries s' = entries s → entries_next_index s' = entries_next_index s →
  step_result_entry s' = step_result_entry s → context_stack s' = context_stack s →
  fresh_inv s → safe_step s s'.
Proof.
  intros He Hn Hr Hs Hinv. apply inv_same_indices; rewrite ?Hs; try done.
  by destruct Hinv.
Qed.

Lemma safe_next_index s s' n :
  fresh_inv s → entries_next_index s ≤ n → s' = set_entries_next_index n s → safe_step s s'.
Proof.
  intros [Hm Hst Hnd Hsr Hg] Hn ->. split; [|done].
  constructor; unfold current in *; simpl in *; try done.
  - intros k Hk. specialize (Hm k Hk). lia.
  - intros k Hk. destruct (Hst k Hk). split; [lia|done].
  - intros k e He. destruct (Hsr k e He) as (?&?&?). split_and!; [lia|done..].
Qed.

Lemma safe_transact ct caller v d a s s' :
  fresh_inv s → transact ct caller v d a s = Ret s' → safe_step s s'.
Proof.
  intros Hinv Hrun. unfold transact in Hrun. run_inv.
  set (s1 := set_version _ _) in *.
  assert (safe_step s s1) as H1 by by apply safe_same.
  eapply safe_trans; [exact H1|]. destruct H1 as [H1 _].
  match goal with H : push_context _ _ _ _ _ _ _ = Ret ?s2 |- _ =>
    apply safe_push in H; [|exact H1]; eapply safe_trans; [exact H|]; destruct H end.
  by apply safe_same.
Qed.

(** Opening a context under the one at the top of the stack. *)
Lemma safe_open s s1 s' addr ct from v d to :
  fresh_inv s → next_trace_address s = Ret (s1, addr) →
  push_context ct from addr v d to s1 = Ret s' → safe_step s s'.
Proof.
  intros Hinv [H1 _]%safe_next_address Hpush; [|done].
  eapply safe_trans; [exact H1|]. destruct H1. by eapply safe_push.
Qed.

Lemma safe_on_call ca i st cx s s' :
  fresh_inv s → on_call ca i st cx s = Ret s' → safe_step s s'.
Proof.
  intros Hinv Hrun. unfold on_call in Hrun.
  set (s1 := set_record_transaction_event_only false s) in *.
  assert (safe_step s s1) as H1 by by apply safe_same.
  eapply safe_trans; [exact H1|]. destruct H1 as [H1 _].
  destruct (skip_next_context s1); simpl in Hrun; run_inv; [by apply safe_same|].
  destruct x as [s2 addr]. by eapply safe_open.
Qed.

Lemma safe_on_create ca a v i s s' :
  fresh_inv s → on_create ca a v i s = Ret s' → safe_step s s'.
Proof.
  intros Hinv Hrun. unfold on_create in Hrun.
  set (s1 := set_record_transaction_event_only false s) in *.
  assert (safe_step s s1) as H1 by by apply safe_same.
  eapply safe_trans; [exact H1|]. destruct H1 as [H1 _].
  destruct (skip_next_context s1); simpl in Hrun; run_inv; [by apply safe_same|].
  destruct x as [s2 addr]. by eapply safe_open.
Qed.

(** Inserting at the next index, which is then advanced. *)
Lemma safe_insert_next e s s' n :
  fresh_inv s → add_u32 (entries_next_index s) 1 = Ret n →
  s' = set_entries_next_index n (insert_entry (entries_next_index s) e s) → safe_step s s'.
Proof.
  intros Hinv Hn%add_w_checked ->.
  assert (safe_step s (set_entries_next_index n s)) as H1
    by (eapply safe_next_index; [done| |done]; lia).
  eapply safe_trans; [exact H1|]. destruct H1 as [H1 _]. destruct Hinv as [Hm Hst Hnd Hsr Hg].
  assert (set_entries_next_index n (insert_entry (entries_next_index s) e s) =
          insert_entry (entries_next_index s) e (set_entries_next_index n s)) as ->.
  { unfold insert_entry. simpl. by destruct (last (entries s)). }
  apply safe_insert; simpl; try done.
  - lia.
  - destruct (current _ !! entries_next_index s) eqn:E; [|done].
    assert (entries_next_index s < entries_next_index s) by eauto. lia.
  - intros Hk. destruct (Hst _ Hk). lia.
  - intros e' He. destruct (Hsr _ _ He). lia.
Qed.

Lemma safe_on_suicide a t b s s' :
  fresh_inv s → on_suicide a t b s = Ret s' → safe_step s s'.
Proof.
  intros Hinv Hrun. unfold on_suicide in Hrun. run_inv. destruct x as [s1 addr]. run_inv.
  match goal with H : next_trace_address _ = _ |- _ =>
    apply safe_next_address in H as [Hs1 _]; [|exact Hinv] end.
  eapply safe_trans; [exact Hs1|]. destruct Hs1 as [Hs1 _].
  eapply safe_insert_next; [done| |done].
  by destruct (insert_entry_fields (entries_next_index s1)
    (mkBlockscoutCall a addr 0 0 0 0 (CallInner_SelfDestruct b t)) s1) as (<- & _).
Qed.

Lemma safe_on_exit r rv s s' : fresh_inv s → on_exit r rv s = Ret s' → safe_step s s'.
Proof.
  intros Hinv Hrun. unfold on_exit in Hrun.
  set (s1 := set_record_transaction_event_only false s) in *.
  assert (safe_step s s1) as H1 by by apply safe_same.
  eapply safe_trans; [exact H1|]. destruct H1 as [H1 _]. clearbody s1. clear Hinv s.
  run_inv. destruct x as [s2 entry].
  destruct (step_result_entry s1) as [[k e]|] eqn:Hsr; simplify_eq/=; run_inv.
  - destruct H1 as [Hm Hst Hnd Hs Hg]. destruct (Hs k e Hsr) as (?&?&?).
    apply (safe_trans _ (set_step_result_entry None s1)).
    + split; [|done]. by constructor.
    + by apply safe_insert.
  - match goal with H : pop_context_to_entry _ _ _ = _ |- _ =>
      apply safe_pop_entry in H as (Hs2 & Hn & Hr & Hpop); [|exact H1] end.
    destruct entry as [[k e]|]; run_inv; [|done].
    eapply safe_trans; [exact Hs2|]. destruct Hs2 as [Hs2 _], Hpop as (?&?&?&?).
    apply safe_insert; rewrite ?Hn, ?Hr; done.
Qed.

Lemma safe_runtime e s s' : fresh_inv s → runtime_event s e = Ret s' → safe_step s s'.
Proof.
  intros Hinv Hrun. destruct e as [|[|[reason|opcode]] rv| |]; simpl in Hrun; run_inv;
    try by apply safe_step_refl.
  - destruct x as [s1 popped].
    match goal with H : pop_context_to_entry _ _ _ = _ |- _ =>
      apply safe_pop_entry in H as (Hs2 & Hn & Hr & Hpop); [|exact Hinv] end.
    destruct popped as [[k e]|]; run_inv; [|done].
    eapply safe_trans; [exact Hs2|]. destruct Hs2 as [Hs2 _], Hpop as (?&?&?&?).
    destruct (version s1); run_inv.
    + split; [|done]. destruct Hs2 as [Hm Hst Hnd Hs Hg]. constructor; simpl; try done.
      intros k' e' [= <- <-]. by rewrite Hn.
    + apply safe_insert; rewrite ?Hn, ?Hr; done.
  - destruct (ContextType_from opcode) as [[]|]; run_inv;
      (by apply safe_step_refl) || by apply safe_same.
Qed.

Lemma safe_gasometer e s s' : fresh_inv s → gasometer_event s e = Ret s' → safe_step s s'.
Proof.
  intros Hinv Hrun.
  assert (∀ sn, match context_stack s with
    | context :: stack =>
        g ← Snapshot_gas sn;
        let start := match start_gas context with None => Some g | Some g0 => Some g0 end in
        Ret (set_context_stack (set_gas start g context :: stack) s)
    | [] => Ret s
    end = Ret s' → safe_step s s') as Hrec.
  { intros sn. destruct (context_stack s) as [|c st] eqn:Hst.
    { intros [= <-]. by apply safe_step_refl. }
    intros Hr. run_inv. pose proof (inv_gas s Hinv) as Hg. rewrite Hst in Hg.
    apply Forall_cons in Hg as [??]. apply (inv_same_indices s); simpl; rewrite ?Hst; try done.
    constructor; [|done]. simpl. by destruct (start_gas c). }
  destruct e; simpl in Hrun; try by eapply Hrec.
  - run_inv. by apply safe_step_refl.
  - run_inv. by apply safe_same.
Qed.

Lemma safe_event e s s' :
  in_transaction e = true → fresh_inv s → listener_event s e = Ret s' → safe_step s s'.
Proof.
  intros Htx Hinv Hrun. destruct e as [e|e|e|]; simpl in *; [|by eapply safe_gasometer..|
    by eapply safe_runtime|done].
  destruct e; simpl in Hrun; run_inv;
    eauto using safe_on_call, safe_on_create, safe_on_suicide, safe_on_exit, safe_transact.
  by apply safe_same.
Qed.

Lemma finish_grows s s' :
  fresh_inv s → finish_transaction s = Ret s' →
  grows (entries s) (entries s') ∧ context_stack s' = [] ∧
  step_result_entry s' = step_result_entry s.
Proof.
  intros Hinv Hrun. unfold finish_transaction in Hrun.
  destruct (last (context_stack s)) as [c|] eqn:Hlast.
  - run_inv. split.
    + apply (grows_insert_entry _ _ (set_context_stack [] s)).
      apply (inv_stack s Hinv), list_elem_of_fmap_2.
      apply last_Some in Hlast as [l ->]. apply elem_of_app. right. by left.
    + edestruct insert_entry_fields as (_ & Hs & Hr). simpl. by rewrite Hs, Hr.
  - destruct (record_transaction_event_only _); run_inv; [|done]. split.
    + apply (grows_insert_entry _ _ (set_context_stack [] s)).
      change (current (set_context_stack [] s)) with (current s). simpl.
      destruct (current s !! _) eqn:E; [|done].
      pose proof (inv_map s Hinv (entries_next_index s)) as Hlt. rewrite E in Hlt.
      assert (entries_next_index s < entries_next_index s) by eauto. lia.
    + edestruct insert_entry_fields as (_ & Hs & Hr). simpl. by rewrite Hs, Hr.
Qed.

(** The event that starts a transaction. *)
Lemma safe_new s s' :
  step_result_entry s = None → fresh_inv s → listener_event s Event_CallListNew = Ret s' →
  safe_step s s'.
Proof.
  intros Hsr Hinv Hrun. simpl in Hrun. destruct (negb _); run_inv; [|by apply safe_same].
  destruct (finish_grows s x Hinv) as (Hg & Hst & Hr); [done|].
  split; [|etrans; [exact Hg|apply grows_snoc]].
  constructor; unfold current; simpl; rewrite ?last_snoc, ?Hst, ?Hr, ?Hsr; simpl; try done.
  - by intros k [? ?].
  - inversion 1.
  - constructor.
Qed.

(** At every start of a transaction no result of a step waits for its [Exit]. *)
Fixpoint settled (s : CallListListener) (evs : list Event) : Prop :=
  match evs with
  | [] => True
  | e :: evs =>
      (e = Event_CallListNew → step_result_entry s = None) ∧
      match listener_event s e with Ret s' => settled s' evs | Panic => True end
  end.

Lemma safe_all evs s s' :
  settled s evs → fresh_inv s → emit_all s evs = Ret s' → safe_step s s'.
Proof.
  revert s. induction evs as [|e evs IH]; intros s; simpl.
  { intros _ Hinv [= <-]. by apply safe_step_refl. }
  intros [He Hevs] Hinv Hrun. run_inv.
  match goal with H : listener_event s e = Ret x |- _ => rewrite H in Hevs; rename H into Hx end.
  assert (safe_step s x) as H1.
  { destruct (in_transaction e) eqn:Htx; [by eapply safe_event|].
    destruct e; try done. by apply safe_new; [apply He|..]. }
  eapply safe_trans; [exact H1|]. destruct H1. by apply IH.
Qed.

Lemma fresh_default : fresh_inv Listener_default.
Proof. constructor; simpl; try done; [by intros k [? ?]|inversion 1|constructor]. Qed.

End steps.

Section theorems.
Context `{!BuildProfile}.

(** C22: in a build with overflow checks, whatever events the transactions of a block
    emit, in whatever order, an entry once recorded is never overwritten nor lost: not by
    the events that follow, those of later transactions included, and not by finishing.
    The condition is that no transaction leaves the result of a step without its [Exit] to
    the next one ([stale_result_overwrites] shows that it is needed). *)
Theorem call_list_no_overwrite evs1 evs2 s1 s2 s3 :
  overflow_checks = true →
  settled Listener_default (evs1 ++ evs2) →
  emit_all Listener_default evs1 = Ret s1 → emit_all s1 evs2 = Ret s2 →
  finish_transaction s2 = Ret s3 →
  grows (entries s1) (entries s2) ∧ grows (entries s2) (entries s3).
Proof.
  intros Hc Hsettled Hrun1 Hrun2 Hfin.
  assert (settled Listener_default evs1 ∧ settled s1 evs2) as [H1 H2].
  { clear Hrun2 Hfin. revert Hsettled Hrun1. generalize Listener_default.
    induction evs1 as [|e evs1 IH]; intros s; simpl; [by intros ? [= <-]|].
    intros [He Hevs] Hrun. run_inv.
    match goal with H : listener_event s e = Ret _ |- _ => rewrite H in * end.
    destruct (IH _ Hevs Hrun). done. }
  pose proof (safe_all Hc _ _ _ H1 fresh_default Hrun1) as [Hi1 _].
  pose proof (safe_all Hc _ _ _ H2 Hi1 Hrun2) as [Hi2 Hsub].
  split; [done|]. by eapply finish_grows.
Qed.

End theorems.

Module SafetyExample.
#[local] Existing Instance dev.
(** Two transactions of a block, cut in the middle of the second. *)
Definition evs1 : list Event :=
  Event_CallListNew :: tx_events Example.tx ++ Event_CallListNew ::
  take 16 (tx_events Example.tx).
Definition evs2 : list Event := drop 16 (tx_events Example.tx).
Definition s1 : CallListListener :=
  outcome_or (emit_all Listener_default evs1) Listener_default.
Definition s2 : CallListListener := outcome_or (emit_all s1 evs2) Listener_default.
Definition s3 : CallListListener := outcome_or (finish_transaction s2) Listener_default.

(** A transaction whose sub-call reports the result of a step and no exit, and one that
    destroys a contract and reports the exit. *)
Definition context : EvmContext := mkEvmContext 0xA0 0x01 0.
Definition stale : list Event :=
  [Event_CallListNew; Event_Evm (EvmEvent_TransactCall 0x01 0xA0 0 [] 21000);
   Event_Evm (EvmEvent_Call 0xA0 None [] None false context);
   Event_Evm (EvmEvent_Call 0xB0 None [] None false context);
   Event_Runtime (StepResult (Err (Exit (Succeed Returned))) []);
   Event_CallListNew; Event_Evm (EvmEvent_Suicide 0xC0 0xD0 5)].
Definition last_entry (evs : list Event) : option BlockscoutCall :=
  current (outcome_or (emit_all Listener_default evs) Listener_default) !! 1.
End SafetyExample.

(** The result that waits for its [Exit] is kept over the start of a transaction; the next
    [Exit] puts it in the place of an entry of that transaction. *)
Lemma stale_result_overwrites :
  (bc_inner <$> SafetyExample.last_entry SafetyExample.stale) =
    Some (CallInner_SelfDestruct 5 0xD0) ∧
  (bc_inner <$> SafetyExample.last_entry
     (SafetyExample.stale ++ [Event_Evm (EvmEvent_Exit (Succeed Returned) [])])) =
    Some (CallInner_Call CallType_Call 0xB0 [] (CallResult_Output [])).
Proof. split; vm_compute; reflexivity. Qed.

Lemma call_list_no_overwrite_witness :
  grows (entries SafetyExample.s1) (entries SafetyExample.s2) ∧
  grows (entries SafetyExample.s2) (entries SafetyExample.s3).
Proof.
  apply (@call_list_no_overwrite dev SafetyExample.evs1 SafetyExample.evs2);
    [reflexivity| |vm_compute; reflexivity..].
  vm_compute. repeat split; discriminate.
Defined.
