(* ===== verification/CallListTests.v ===== *)
(** * The unit tests of the call list listener: listeners/call_list.rs, mod tests

    The tests of the source as definitions, each a script of events with its
    assertion.  All of them pass in the model, in both build profiles, and the two tests
    of nested calls pass for every number of nested calls, not only the one they fix. *)

From stdpp Require Import base tactics list gmap strings.
From Stdlib Require Import ZArith Lia Strings.Byte.
From S2P Require Import Prelude EvmEvents TraceTypes CallList.
Local Open Scope Z_scope.

Inductive TestEvmEvent :=
| Test_Call
| Test_Create
| Test_Suicide
| Test_Exit
| Test_TransactCall
| Test_TransactCreate
| Test_TransactCreate2.

Inductive TestRuntimeEvent := Test_Step | Test_StepResult | Test_SLoad | Test_SStore.

Inductive TestGasometerEvent :=
| Test_RecordCost
| Test_RecordRefund
| Test_RecordStipend
| Test_RecordDynamicCost
| Test_RecordTransaction.

Definition test_context : EvmContext :=
  {| address := 0; caller := 0; apparent_value := 0 |}.
Definition test_create_scheme : CreateScheme := CreateScheme_Legacy 0.
Definition test_stack : option Stack := None.
Definition test_memory : option Memory := None.
Definition test_snapshot : Snapshot :=
  {| gas_limit := 0; memory_gas := 0; used_gas := 0; refunded_gas := 0 |}.

(** The reason of an exit is unwrapped. *)
Definition test_emit_evm_event (event_type : TestEvmEvent) (is_static : bool)
    (exit_reason : option ExitReason) : outcome EvmEvent :=
  match event_type with
  | Test_Call => Ret (EvmEvent_Call 0 None [] None is_static test_context)
  | Test_Create => Ret (EvmEvent_Create 0 0 test_create_scheme 0 [] None)
  | Test_Suicide => Ret (EvmEvent_Suicide 0 0 0)
  | Test_Exit =>
      match exit_reason with Some reason => Ret (EvmEvent_Exit reason []) | None => Panic end
  | Test_TransactCall => Ret (EvmEvent_TransactCall 0 0 0 [] 0)
  | Test_TransactCreate => Ret (EvmEvent_TransactCreate 0 0 [] 0 0)
  | Test_TransactCreate2 => Ret (EvmEvent_TransactCreate2 0 0 [] 0 0 0)
  end.

Definition test_emit_runtime_event (event_type : TestRuntimeEvent) : RuntimeEvent :=
  match event_type with
  | Test_Step => Step test_context [] (Ok 0) test_stack test_memory
  | Test_StepResult => StepResult (Ok tt) []
  | Test_SLoad => SLoad 0 0 0
  | Test_SStore => SStore 0 0 0
  end.

Definition test_emit_gasometer_event (event_type : TestGasometerEvent) : GasometerEvent :=
  match event_type with
  | Test_RecordCost => RecordCost 0 test_snapshot
  | Test_RecordRefund => RecordRefund 0 test_snapshot
  | Test_RecordStipend => RecordStipend 0 test_snapshot
  | Test_RecordDynamicCost => RecordDynamicCost 0 0 0 test_snapshot
  | Test_RecordTransaction => RecordTransaction 0 test_snapshot
  end.

Section tests.
Context `{!BuildProfile}.

(** A piece of a script changes the listener. *)
Abbreviation script := (CallListListener → outcome CallListListener).

Definition do_evm (event_type : TestEvmEvent) (exit_reason : option ExitReason) : script :=
  λ listener, e ← test_emit_evm_event event_type false exit_reason; evm_event listener e.

Definition do_transact_call_event : script := do_evm Test_TransactCall None.
Definition do_transact_create_event : script := do_evm Test_TransactCreate None.
Definition do_gasometer_event : script := λ listener,
  gasometer_event listener (test_emit_gasometer_event Test_RecordTransaction).
Definition do_exit_event : script := do_evm Test_Exit (Some (Error OutOfGas)).
Definition do_evm_call_event : script := do_evm Test_Call None.
Definition do_evm_create_event : script := do_evm Test_Create None.
Definition do_evm_suicide_event : script := do_evm Test_Suicide None.
Definition do_runtime_step_event : script := λ listener,
  runtime_event listener (test_emit_runtime_event Test_Step).
Definition do_runtime_step_result_event : script := λ listener,
  runtime_event listener (test_emit_runtime_event Test_StepResult).

Definition seqs (l : list script) : script :=
  λ listener, foldl (λ o f, o ≫= f) (Ret listener) l.

(** [for i in 0..n] *)
Definition for_loop (n : nat) (body : nat → script) : script := seqs (body <$> seq 0 n).

(** The end of every test: the two assertions on the entries. *)
Definition run_test (events : script) (expected : nat) : outcome unit :=
  listener ← events Listener_default;
  listener ← finish_transaction listener;
  match entries listener with
  | [m] => if decide (size m = expected) then Ret tt else Panic
  | _ => Panic
  end.

(** ** Calls and creates *)

Definition call_early_exit_tx_cost : outcome unit :=
  run_test (seqs [do_transact_call_event; do_gasometer_event; do_exit_event]) 1.
Definition call_early_exit_before_runtime : outcome unit :=
  run_test (seqs [do_transact_call_event; do_gasometer_event; do_evm_call_event;
                  do_exit_event]) 1.
Definition call_step_without_step_result : outcome unit :=
  run_test (seqs [do_transact_call_event; do_gasometer_event; do_evm_call_event;
                  do_runtime_step_event; do_exit_event]) 1.
Definition call_step_result : outcome unit :=
  run_test (seqs [do_transact_call_event; do_gasometer_event; do_evm_call_event;
                  do_runtime_step_event; do_runtime_step_result_event; do_exit_event]) 1.
Definition call_suicide : outcome unit :=
  run_test (seqs [do_transact_call_event; do_gasometer_event; do_evm_call_event;
                  do_runtime_step_event; do_evm_suicide_event; do_exit_event]) 2.

Definition create_early_exit_tx_cost : outcome unit :=
  run_test (seqs [do_transact_create_event; do_gasometer_event; do_exit_event]) 1.
Definition create_early_exit_before_runtime : outcome unit :=
  run_test (seqs [do_transact_create_event; do_gasometer_event; do_evm_create_event;
                  do_exit_event]) 1.
Definition create_step_without_step_result : outcome unit :=
  run_test (seqs [do_transact_create_event; do_gasometer_event; do_evm_create_event;
                  do_runtime_step_event; do_exit_event]) 1.
Definition create_step_result : outcome unit :=
  run_test (seqs [do_transact_create_event; do_gasometer_event; do_evm_create_event;
                  do_runtime_step_event; do_runtime_step_result_event; do_exit_event]) 1.

(** ** Nested calls *)

(** The opening of the tests below, up to the nested calls. *)
Definition main_call : script :=
  seqs [do_transact_call_event; do_gasometer_event; do_evm_call_event; do_runtime_step_event;
        do_runtime_step_result_event].

Definition nested_call_early_exit_before_runtime : outcome unit :=
  run_test (seqs [main_call; do_evm_call_event; do_exit_event; do_exit_event]) 2.
Definition nested_call_without_step_result : outcome unit :=
  run_test (seqs [main_call; do_evm_call_event; do_runtime_step_event; do_exit_event;
                  do_exit_event]) 2.

Definition nested_call_step_result (depth : nat) : outcome unit :=
  run_test (seqs [main_call;
    for_loop depth (λ _, seqs [do_evm_call_event; do_runtime_step_event;
                               do_runtime_step_result_event; do_exit_event]);
    do_exit_event]) (depth + 1).

Definition call_or_create (i : nat) : script :=
  if Nat.even i then do_evm_call_event else do_evm_create_event.

Definition subnested_call_and_create_mixbag (depth subdepth : nat) : outcome unit :=
  run_test (seqs [main_call;
    for_loop depth (λ d,
      seqs [call_or_create d; do_runtime_step_event; do_runtime_step_result_event;
            for_loop subdepth (λ s,
              seqs [call_or_create s;
                    if decide (s mod 3 = 0)%nat
                    then seqs [do_runtime_step_event; do_runtime_step_result_event]
                    else Ret;
                    do_exit_event]);
            do_exit_event]);
    do_exit_event]) (depth * (subdepth + 1) + 1).

End tests.

#[global] Arguments seqs : simpl never.

(** ** Scripts that leave the stack as they found it *)

(** The states of a test once the transaction is open: at most one transaction of
    entries, no gas counted, no pending call type or step result. *)
Definition at_work (es : option (gmap Z BlockscoutCall)) (n : Z) (stack : list Context) :
    CallListListener :=
  mkCallListListener EarlyTransact 0 (option_list es) n stack None false None true false.

Abbreviation table es := (default (∅ : gmap Z BlockscoutCall) es).

(** [b] opens and closes [j] contexts under the context it starts in: [j] entries are
    added, on the [j] indices from the next one. *)
Definition balanced `{!BuildProfile} (j : Z) (b : CallListListener → outcome CallListListener) :
    Prop :=
  ∀ c st n es,
    1 ≤ n → n + j < 2 ^ 32 → 0 ≤ subtraces c → subtraces c + j < 2 ^ 32 →
    (∀ i, n ≤ i → table es !! i = None) →
    ∃ es' k, b (at_work es n (c :: st)) =
               Ret (at_work es' (n + j) (set_subtraces (subtraces c + k) c :: st)) ∧
      0 ≤ k ≤ j ∧ Z.of_nat (size (table es')) = Z.of_nat (size (table es)) + j ∧
      (∀ i, n + j ≤ i → table es' !! i = None) ∧
      ∀ i, i < n → table es' !! i = table es !! i.

Section balance.
Context `{!BuildProfile}.

Lemma seqs_nil s : seqs [] s = Ret s.
Proof. done. Qed.

Lemma seqs_Panic (l : list (CallListListener → outcome CallListListener)) :
  foldl (λ o f, o ≫= f) Panic l = Panic.
Proof. induction l; simpl; auto. Qed.

Lemma seqs_cons f l s : seqs (f :: l) s = f s ≫= seqs l.
Proof. unfold seqs. simpl. destruct (f s); simpl; [done|apply seqs_Panic]. Qed.

Lemma seqs_app l l' s : seqs (l ++ l') s = seqs l s ≫= seqs l'.
Proof.
  revert s. induction l as [|f l IH]; intros s; [done|].
  rewrite <- app_comm_cons, !seqs_cons. destruct (f s); simpl; [apply IH|done].
Qed.

Lemma set_subtraces_id c : set_subtraces (subtraces c + 0) c = c.
Proof. rewrite Z.add_0_r. by destruct c. Qed.

Lemma set_subtraces_twice c a b :
  set_subtraces (subtraces (set_subtraces a c) + b) (set_subtraces a c)
  = set_subtraces (a + b) c.
Proof. by destruct c. Qed.

Lemma balanced_id b : (∀ s, b s = Ret s) → balanced 0 b.
Proof.
  intros Hb c st n es Hn Hj Hs Hsj Hes. exists es, 0.
  rewrite Hb, set_subtraces_id, !Z.add_0_r. repeat split; try lia; done.
Qed.

Lemma balanced_step : balanced 0 do_runtime_step_event.
Proof. by apply balanced_id. Qed.

Lemma balanced_step_result : balanced 0 do_runtime_step_result_event.
Proof. by apply balanced_id. Qed.

Lemma balanced_cons i j f l :
  0 ≤ i → 0 ≤ j → balanced i f → balanced j (seqs l) → balanced (i + j) (seqs (f :: l)).
Proof.
  intros Hi Hj Hf Hl c st n es Hn Hn' Hs Hs' Hes.
  destruct (Hf c st n es) as (es1 & k1 & E1 & Hk1 & Hsize1 & Hes1 & Hold1); try lia; auto.
  destruct (Hl (set_subtraces (subtraces c + k1) c) st (n + i) es1)
    as (es2 & k2 & E2 & Hk2 & Hsize2 & Hes2 & Hold2); simpl; try lia; auto.
  exists es2, (k1 + k2). rewrite seqs_cons, E1. simpl. rewrite E2.
  rewrite set_subtraces_twice, !Z.add_assoc. repeat split; try lia.
  - intros x Hx. apply Hes2. lia.
  - intros x Hx. rewrite Hold2, Hold1 by lia. done.
Qed.

Lemma balanced_nil : balanced 0 (seqs []).
Proof. by apply balanced_id. Qed.

Lemma balanced_loop j body (l : list nat) :
  0 ≤ j → (∀ i, balanced j (body i)) → balanced (Z.of_nat (length l) * j) (seqs (body <$> l)).
Proof.
  intros Hj Hb. induction l as [|i l IH]; [apply balanced_nil|]. cbn [length].
  replace (Z.of_nat (S (length l)) * j) with (j + Z.of_nat (length l) * j) by lia.
  by apply balanced_cons; [|lia|..].
Qed.

Lemma balanced_for n j body :
  0 ≤ j → (∀ i, balanced j (body i)) → balanced (Z.of_nat n * j) (for_loop n body).
Proof.
  intros Hj Hb. pose proof (balanced_loop j body (seq 0 n) Hj Hb) as Hl.
  by rewrite length_seq in Hl.
Qed.

(** Opening a context under [c] *)
Lemma open_context (f : CallListListener → outcome CallListListener) :
  f = do_evm_call_event ∨ f = do_evm_create_event →
  ∀ c st n es, n + 1 < 2 ^ 32 → subtraces c + 1 < 2 ^ 32 →
  ∃ child, f (at_work es n (c :: st)) =
             Ret (at_work es (n + 1) (child :: set_subtraces (subtraces c + 1) c :: st)) ∧
    entries_index child = n ∧ subtraces child = 0 ∧ gas child = 0 ∧ start_gas child = None.
Proof.
  intros Hf c st n es Hn Hs.
  destruct Hf as [-> | ->]; unfold do_evm_call_event, do_evm_create_event, do_evm; simpl;
    unfold on_call, on_create; simpl; unfold next_trace_address; simpl;
    rewrite (add_w_ok 32 (subtraces c) 1) by done; simpl;
    unfold push_context; simpl; rewrite (add_w_ok 32 n 1) by done; by eexists.
Qed.

(** Closing one adds its entry. *)
Lemma close_context child st n es :
  gas child = 0 → start_gas child = None →
  ∃ entry, do_exit_event (at_work es n (child :: st)) =
    Ret (at_work (Some (<[entries_index child := entry]> (table es))) n st).
Proof.
  intros Hg Hs. unfold do_exit_event, do_evm. simpl. unfold on_exit. simpl.
  unfold pop_context_to_entry. simpl. unfold context_gas_used, start_or_0.
  rewrite Hg, Hs. unfold sub_w. simpl. unfold add_w. simpl.
  destruct (entries_index child =? 0); simpl;
    destruct es as [m|]; (eexists; unfold insert_entry; simpl; try rewrite insert_empty; reflexivity).
Qed.

(** A call or create around a balanced script *)
Lemma balanced_node j (f : CallListListener → outcome CallListListener) body :
  f = do_evm_call_event ∨ f = do_evm_create_event → 0 ≤ j → balanced j (seqs body) →
  balanced (j + 1) (seqs (f :: body ++ [do_exit_event])).
Proof.
  intros Hf Hj Hbody c st n es Hn Hn' Hs Hs' Hes.
  destruct (open_context f Hf c st n es) as (child & Ef & Hi & Hsub & Hg & Hst); [lia..|].
  destruct (Hbody child (set_subtraces (subtraces c + 1) c :: st) (n + 1) es)
    as (es1 & k & E1 & Hk & Hsize & Hes1 & Hold1); try lia; [intros i ?; apply Hes; lia|].
  destruct (close_context (set_subtraces (subtraces child + k) child)
    (set_subtraces (subtraces c + 1) c :: st) (n + 1 + j) es1) as [entry Ex]; try done.
  exists (Some (<[n := entry]> (table es1))), 1.
  rewrite seqs_cons, Ef. simpl. rewrite seqs_app, E1. simpl.
  rewrite seqs_cons, Ex. simpl. rewrite Hi.
  assert (Hfresh : table es1 !! n = None) by (rewrite Hold1 by lia; apply Hes; lia).
  replace (n + (j + 1)) with (n + 1 + j) by lia. split_and!; try lia; try done.
  - rewrite (map_size_insert_None _ _ _ Hfresh). lia.
  - intros x Hx. rewrite lookup_insert_ne by lia. apply Hes1. lia.
  - intros x Hx. rewrite lookup_insert_ne by lia. apply Hold1. lia.
Qed.

End balance.

Section passing.
Context `{!BuildProfile}.

(** A balanced script in the main call: the two assertions hold. *)
Lemma main_balanced j b :
  0 ≤ Z.of_nat j → Z.of_nat j + 1 < 2 ^ 32 → balanced (Z.of_nat j) b →
  run_test (seqs [main_call; b; do_exit_event]) (j + 1) = Ret tt.
Proof.
  intros Hj Hj' Hb. unfold run_test. rewrite seqs_cons.
  replace (main_call Listener_default) with (Ret (at_work None 1
    [mkContext 0 (ContextType_Call CallType_Call) 0 [] 0 0 0 None [] 0])) by reflexivity.
  simpl. rewrite seqs_cons.
  destruct (Hb (mkContext 0 (ContextType_Call CallType_Call) 0 [] 0 0 0 None [] 0) [] 1 None)
    as (es & k & E & Hk & Hsize & Hes & Hold); simpl; try lia; [done|].
  rewrite E. cbn [mbind outcome_bind subtraces]. rewrite seqs_cons, Z.add_0_l.
  destruct (close_context (set_subtraces k
    (mkContext 0 (ContextType_Call CallType_Call) 0 [] 0 0 0 None [] 0)) [] (1 + Z.of_nat j) es)
    as [entry Ex]; [done..|].
  rewrite Ex. simpl. rewrite (map_size_insert_None _ _ _ (Hold 0 ltac:(lia))).
  simpl in Hsize. rewrite map_size_empty in Hsize. rewrite decide_True by lia. done.
Qed.

Lemma call_or_create_opens i :
  call_or_create i = do_evm_call_event ∨ call_or_create i = do_evm_create_event.
Proof. unfold call_or_create. destruct (Nat.even i); auto. Qed.

Lemma balanced_steps : balanced 0 (seqs [do_runtime_step_event; do_runtime_step_result_event]).
Proof. by apply balanced_id. Qed.

Lemma balanced_nested :
  balanced 1 (seqs [do_evm_call_event; do_runtime_step_event; do_runtime_step_result_event;
                    do_exit_event]).
Proof. apply (balanced_node 0 _ [_; _]); [auto|lia|apply balanced_steps]. Qed.

Lemma balanced_sub s :
  balanced 1 (seqs [call_or_create s;
    if decide (s mod 3 = 0)%nat
    then seqs [do_runtime_step_event; do_runtime_step_result_event] else Ret;
    do_exit_event]).
Proof.
  apply (balanced_node 0 _ [_]); [apply call_or_create_opens|lia|].
  apply (balanced_cons 0 0); [lia..| |apply balanced_nil].
  case_decide; [apply balanced_steps|by apply balanced_id].
Qed.

(** The unit tests of the listener pass in the model, whatever the build profile: the
    early exits at the transaction cost and before the runtime, with and without a step
    result, for a call and for a create; the self-destruct; the early exits of a nested call.
    The test of nested calls passes for every number of calls, and the test of mixed calls
    and creates for all numbers of calls and of calls inside each, as long as the entries'
    indices fit 32 bits. *)
Theorem call_list_tests_pass :
  Forall (λ o, o = Ret tt)
    [call_early_exit_tx_cost; call_early_exit_before_runtime; call_step_without_step_result;
     call_step_result; call_suicide; create_early_exit_tx_cost;
     create_early_exit_before_runtime; create_step_without_step_result; create_step_result;
     nested_call_early_exit_before_runtime; nested_call_without_step_result] ∧
  (∀ depth, Z.of_nat depth + 1 < 2 ^ 32 → nested_call_step_result depth = Ret tt) ∧
  (∀ depth subdepth, Z.of_nat (depth * (subdepth + 1)) + 1 < 2 ^ 32 →
     subnested_call_and_create_mixbag depth subdepth = Ret tt).
Proof.
  split; [repeat constructor|split].
  - intros depth Hd. apply main_balanced; [lia..|].
    pose proof (balanced_for depth 1 _ ltac:(lia) (λ _, balanced_nested)) as Hb.
    by rewrite Z.mul_1_r in Hb.
  - intros depth subdepth Hd. apply main_balanced; [lia..|].
    rewrite Nat2Z.inj_mul. apply balanced_for; [lia|]. intros d.
    rewrite Nat2Z.inj_add. apply (balanced_node _ _ [_; _; _]);
      [apply call_or_create_opens|lia|].
    apply (balanced_cons 0 (Z.of_nat subdepth)); [lia..|apply balanced_step|].
    apply (balanced_cons 0 (Z.of_nat subdepth)); [lia..|apply balanced_step_result|].
    pose proof (balanced_cons (Z.of_nat subdepth * 1) 0 _ [] ltac:(lia) ltac:(lia)
      (balanced_for subdepth 1 _ ltac:(lia) balanced_sub) balanced_nil) as Hb.
    by rewrite Z.mul_1_r, Z.add_0_r in Hb.
Qed.

End passing.

(** The two loops at the numbers of the source: 5, and 5 with 10. *)
Lemma call_list_tests_pass_witness :
  @nested_call_step_result dev 5 = Ret tt ∧
  @subnested_call_and_create_mixbag release 5 10 = Ret tt.
Proof.
  split.
  - refine (proj1 (proj2 (@call_list_tests_pass dev)) 5%nat _). by vm_compute.
  - refine (proj2 (proj2 (@call_list_tests_pass release)) 5%nat 10%nat _). by vm_compute.
Defined.
