(* ===== verification/CallTracer.v ===== *)
(** * The call tracer formatter: client/evm-tracing/src/formatters/call_tracer.rs

    Geth's callTracer answers with nested calls, while the listener records a
    flat list.  The formatter sorts the entries by trace address and moves each
    one, from the deepest, into its parent.  The file models it and shows that
    it rebuilds the tree of calls. *)

From stdpp Require Import base tactics list gmap strings sorting.
From Stdlib Require Import ZArith Lia Strings.Byte.
From S2P Require Import Prelude Trees EvmEvents TraceTypes CallList CallTree CallListSpec.
Local Open Scope Z_scope.

(** ** The formatter *)

(** The name of a call type. *)
Definition call_type_name (t : CallType) : bytes :=
  match t with
  | CallType_Call => bytes_of "CALL"
  | CallCode => bytes_of "CALLCODE"
  | DelegateCall => bytes_of "DELEGATECALL"
  | StaticCall => bytes_of "STATICCALL"
  end.

Definition call_tracer_inner (value : U256) (inner : BlockscoutCallInner) :
    CallTracerInner :=
  match inner with
  | CallInner_Call call_type to input res =>
      CallTracerInner_Call (call_type_name call_type) to input res (Some value)
  | CallInner_Create init res =>
      CallTracerInner_Create (bytes_of "CREATE") init
        match res with
        | CreateResult_Success created_contract_address_hash _ =>
            Some created_contract_address_hash
        | CreateResult_Error _ => None
        end
        match res with
        | CreateResult_Success _ created_contract_code => Some created_contract_code
        | CreateResult_Error _ => None
        end
        match res with
        | CreateResult_Success _ _ => None
        | CreateResult_Error error => Some error
        end
        value
  | CallInner_SelfDestruct balance to =>
      CallTracerInner_SelfDestruct (bytes_of "SELFDESTRUCT") to balance
  end.

(** An entry of the call list as a call without sub-calls. *)
Definition to_call_tracer (it : BlockscoutCall) : CallTracerCall :=
  mkCallTracerCall (bc_from it) (Some (bc_trace_address it)) (bc_gas it) (bc_gas_used it)
    (call_tracer_inner (bc_value it) (bc_inner it)) [].

Definition ct_trace_address (c : CallTracerCall) : option (list Z) :=
  match c with mkCallTracerCall _ trace_address _ _ _ _ => trace_address end.
Definition remove_trace_address (c : CallTracerCall) : CallTracerCall :=
  match c with
  | mkCallTracerCall from _ gas gas_used inner calls =>
      mkCallTracerCall from None gas gas_used inner calls
  end.
Definition push_call (last c : CallTracerCall) : CallTracerCall :=
  match c with
  | mkCallTracerCall from trace_address gas gas_used inner calls =>
      mkCallTracerCall from trace_address gas gas_used inner (calls ++ [Call_CallTracer last])
  end.

(** [sibling_greater_than]; it is only applied to addresses of one length, so
    [b[i]] is in bounds. *)
Fixpoint sibling_greater_than (a b : list Z) : bool :=
  match a, b with
  | a_value :: a, b_value :: b =>
      if b_value <? a_value then true
      else if a_value <? b_value then false
      else sibling_greater_than a b
  | _, _ => false
  end.

(** The comparison of two addresses: true for [Ordering::Less], false for
    [Ordering::Greater]. *)
Definition address_less (a b : list Z) : bool :=
  (length a <? length b)%nat
  || ((length a =? length b)%nat && sibling_greater_than a b).

Definition call_less (a b : CallTracerCall) : bool :=
  match ct_trace_address a, ct_trace_address b with
  | Some a, Some b => address_less a b
  | _, _ => false
  end.

(** [slice::sort_by] with a comparison that tells which elements are less: a
    stable insertion sort.  The comparison is a strict total order on distinct
    addresses, where every sort has the same result. *)
Fixpoint insert_by {A} (less : A → A → bool) (x : A) (l : list A) : list A :=
  match l with
  | [] => [x]
  | y :: l' => if less y x then y :: insert_by less x l' else x :: l
  end.
Definition sort_by {A} (less : A → A → bool) (l : list A) : list A :=
  foldr (insert_by less) [] l.

(** [result.iter().position(..)].  For an empty address [a.len() - 1] underflows
    and the slice is out of bounds, with or without overflow checks. *)
Fixpoint position (last : CallTracerCall) (result : list CallTracerCall) :
    outcome (option nat) :=
  match result with
  | [] => Ret None
  | current :: result =>
      match ct_trace_address last, ct_trace_address current with
      | Some a, Some b =>
          if decide (a = []) then Panic
          else if decide (b = removelast a) then Ret (Some O)
          else i ← position last result; Ret (option_map S i)
      | _, _ => Panic
      end
  end.

(** The loop of pops and pushes.  Each round removes an element, so the length
    of the vector is enough fuel ([pop_and_push_fuel]). *)
Fixpoint pop_and_push (fuel : nat) (result : list CallTracerCall) :
    outcome (list CallTracerCall) :=
  match fuel with
  | O => Ret result
  | S fuel =>
      if (1 <? length result)%nat then
        match last result with
        | None => Panic
        | Some last =>
            let result := removelast result in
            index ← position last result;
            match index with
            | Some index =>
                let last := remove_trace_address last in
                pop_and_push fuel (alter (push_call last) index result)
            | None => pop_and_push fuel result
            end
        end
      else Ret result
  end.

(** The body of the loop over the entries. *)
Definition format_entry (entry : gmap Z BlockscoutCall) : outcome (option SingleTrace) :=
  let result := to_call_tracer <$> btree_values entry in
  result ←
    (if (1 <? length result)%nat
     then let result := sort_by call_less result in pop_and_push (length result) result
     else Ret result);
  let result := alter remove_trace_address 0%nat result in
  Ret match result with
      | [c] => Some (TransactionTrace_CallListNested (Call_CallTracer c))
      | _ => None
      end.

Fixpoint format_entries (entries : list (gmap Z BlockscoutCall)) :
    outcome (list SingleTrace) :=
  match entries with
  | [] => Ret []
  | entry :: entries =>
      trace ← format_entry entry;
      traces ← format_entries entries;
      Ret (option_list trace ++ traces)
  end.

(** [Formatter::format] of call_tracer.rs. *)
Definition call_tracer_format (listener : CallListListener) :
    outcome (option (list SingleTrace)) :=
  let entries := filter (λ x, x ≠ ∅) (entries listener) in
  traces ← format_entries entries;
  Ret match traces with [] => None | _ => Some traces end.

(** ** The nested calls of a tree *)

Fixpoint nest (t : rose BlockscoutCall) : CallTracerCall :=
  match t with
  | Rose b l =>
      mkCallTracerCall (bc_from b) None (bc_gas b) (bc_gas_used b)
        (call_tracer_inner (bc_value b) (bc_inner b)) ((Call_CallTracer ∘ nest) <$> l)
  end.

(** A tree whose root has address [p] and whose [i]-th sub-trees have the
    address of their parent followed by [i]. *)
Fixpoint addressed (p : list Z) (t : rose BlockscoutCall) : Prop :=
  match t with
  | Rose b l =>
      bc_trace_address b = p ∧ bc_subtraces b = zlen l ∧
      (fix go (i : Z) (l : list (rose BlockscoutCall)) : Prop :=
         match l with
         | [] => True
         | t :: l => addressed (p ++ [i]) t ∧ go (i + 1) l
         end) 0 l
  end.

Fixpoint addressed_from (p : list Z) (i : Z) (l : list (rose BlockscoutCall)) : Prop :=
  match l with
  | [] => True
  | t :: l => addressed (p ++ [i]) t ∧ addressed_from p (i + 1) l
  end.

Fixpoint subtrees {A} (t : rose A) : list (rose A) :=
  t :: match t with Rose _ l => mjoin (subtrees <$> l) end.

Definition addr (t : rose BlockscoutCall) : list Z := bc_trace_address (rose_label t).

(** [w] is the root of a sub-tree directly below [u]. *)
Definition child_of (u w : rose BlockscoutCall) : Prop :=
  addr w ≠ [] ∧ removelast (addr w) = addr u.
#[global] Instance child_of_dec u w : Decision (child_of u w).
Proof. unfold child_of. apply _. Defined.

(** ** Termination of the loop *)

(** The length of the vector is enough fuel: more of it changes nothing. *)
Lemma pop_and_push_fuel fuel fuel' result :
  (length result ≤ fuel)%nat → (fuel ≤ fuel')%nat →
  pop_and_push fuel' result = pop_and_push fuel result.
Proof.
  revert fuel' result. induction fuel as [|fuel IH]; intros fuel' result Hlen Hf.
  { destruct result; [|simpl in Hlen; lia]. by destruct fuel'. }
  destruct fuel' as [|fuel']; [lia|]. cbn [pop_and_push].
  destruct (1 <? length result)%nat eqn:Hlt; [|done].
  destruct (last result) as [x|] eqn:Hlast; [|done].
  apply last_Some in Hlast as [l ->]. rewrite length_app in Hlen. simpl in Hlen.
  rewrite removelast_last. destruct (position x l) as [[i|]|]; [| |done]; simpl.
  - apply IH; [rewrite length_alter|]; lia.
  - apply IH; lia.
Qed.

(** ** Sub-trees of an addressed tree *)

Lemma addressed_Rose p b l :
  addressed p (Rose b l) ↔
  bc_trace_address b = p ∧ bc_subtraces b = zlen l ∧ addressed_from p 0 l.
Proof.
  simpl. generalize 0. intros i.
  enough ((fix go i l := match l with [] => True
    | t :: l => addressed (p ++ [i]) t ∧ go (i + 1) l end) i l ↔ addressed_from p i l)
    by tauto.
  revert i. induction l as [|t l IH]; intros i; simpl; [done|]. by rewrite IH.
Qed.

Lemma preorder_subtrees {A} (t : rose A) : preorder t = rose_label <$> subtrees t.
Proof.
  induction t as [a l IH] using rose_rect_Forall.
  change (a :: mjoin (preorder <$> l) = a :: (rose_label <$> mjoin (subtrees <$> l))).
  f_equal. induction IH as [|t l Ht _ IHl]; [done|].
  rewrite !fmap_cons. cbn [mjoin list_join]. rewrite fmap_app, Ht. f_equal. exact IHl.
Qed.

Lemma addressed_addr p t : addressed p t → addr t = p.
Proof. destruct t. rewrite addressed_Rose. by intros [? _]. Qed.

Lemma addressed_from_lookup p i l k t :
  addressed_from p i l → l !! k = Some t → addressed (p ++ [i + Z.of_nat k]) t.
Proof.
  revert i k. induction l as [|t' l IH]; intros i k; [done|].
  intros [Ht Hl] Hk. destruct k as [|k]; simplify_eq/=.
  - by rewrite Z.add_0_r.
  - specialize (IH _ _ Hl Hk). by replace (i + 1 + Z.of_nat k) with (i + Z.of_nat (S k)) in IH by lia.
Qed.

Lemma subtrees_self {A} (t : rose A) : t ∈ subtrees t.
Proof. destruct t. left. Qed.

Lemma elem_of_subtrees_Rose {A} a l (w : rose A) :
  w ∈ subtrees (Rose a l) ↔ w = Rose a l ∨ ∃ u, u ∈ l ∧ w ∈ subtrees u.
Proof.
  simpl. rewrite elem_of_cons, list_elem_of_join.
  setoid_rewrite list_elem_of_fmap. split.
  - intros [->|(ts & Hw & u & -> & Hu)]; eauto.
  - intros [->|(u & Hu & Hw)]; [by left|right]. exists (subtrees u). eauto.
Qed.

Lemma addressed_subtree p t w :
  addressed p t → w ∈ subtrees t → ∃ q, addressed (p ++ q) w.
Proof.
  revert p. induction t as [b l IH] using rose_rect_Forall. intros p Ht.
  rewrite elem_of_subtrees_Rose. intros [->|(u & Hu & Hw)].
  { exists []. by rewrite app_nil_r. }
  rewrite Forall_forall in IH. apply addressed_Rose in Ht as (_ & _ & Hl).
  pose proof Hu as [k Hk]%list_elem_of_lookup.
  destruct (IH u Hu _ (addressed_from_lookup _ _ _ _ _ Hl Hk) Hw) as [q Hq].
  eexists. by rewrite <-app_assoc in Hq.
Qed.

Lemma addressed_self p t w : addressed p t → w ∈ subtrees t → addressed (addr w) w.
Proof.
  intros Ht Hw. destruct (addressed_subtree p t w Ht Hw) as [q Hq].
  by rewrite (addressed_addr _ _ Hq).
Qed.

Lemma addressed_child u k w :
  addressed (addr u) u → rose_children u !! k = Some w → addr w = addr u ++ [Z.of_nat k].
Proof.
  destruct u as [b l]. rewrite addressed_Rose. intros (_ & _ & Hl) Hk.
  apply (addressed_addr _ w). exact (addressed_from_lookup _ _ _ _ _ Hl Hk).
Qed.

Lemma subtrees_trans {A} (t u w : rose A) :
  u ∈ subtrees t → w ∈ subtrees u → w ∈ subtrees t.
Proof.
  induction t as [a l IH] using rose_rect_Forall.
  rewrite elem_of_subtrees_Rose. intros [->|(v & Hv & Hu)] Hw; [done|].
  rewrite Forall_forall in IH. apply elem_of_subtrees_Rose. right. eauto.
Qed.

Lemma subtrees_child {A} (t u w : rose A) :
  u ∈ subtrees t → w ∈ rose_children u → w ∈ subtrees t.
Proof.
  intros Hu Hw. eapply subtrees_trans; [exact Hu|].
  destruct u. apply elem_of_subtrees_Rose. right. eauto using subtrees_self.
Qed.

Lemma subtrees_parent {A} (t w : rose A) :
  w ∈ subtrees t → w = t ∨ ∃ u, u ∈ subtrees t ∧ w ∈ rose_children u.
Proof.
  induction t as [a l IH] using rose_rect_Forall.
  rewrite elem_of_subtrees_Rose. intros [->|(v & Hv & Hw)]; [by left|right].
  rewrite Forall_forall in IH. destruct (IH v Hv Hw) as [->|(u & Hu & Hin)].
  - exists (Rose a l). split; [apply subtrees_self|done].
  - exists u. split; [|done]. apply elem_of_subtrees_Rose. eauto.
Qed.

Lemma addressed_from_prefix p i l w :
  addressed_from p i l → w ∈ mjoin (subtrees <$> l) →
  ∃ j q, i ≤ j ∧ addr w = p ++ j :: q.
Proof.
  intros Hl. rewrite list_elem_of_join. intros (ts & Hw & Hts).
  apply list_elem_of_fmap in Hts as (t & -> & [k Hk]%list_elem_of_lookup).
  destruct (addressed_subtree _ _ _ (addressed_from_lookup _ _ _ _ _ Hl Hk) Hw) as [q Hq].
  apply addressed_addr in Hq. rewrite <-app_assoc in Hq.
  exists (i + Z.of_nat k), q. split; [lia|done].
Qed.

Lemma subtrees_NoDup p t : addressed p t → NoDup (addr <$> subtrees t).
Proof.
  revert p. induction t as [b l IH] using rose_rect_Forall. intros p.
  rewrite addressed_Rose. intros (Hb & _ & Hl). simpl. apply NoDup_cons. split.
  - intros (w & Hw & Hin)%list_elem_of_fmap.
    destruct (addressed_from_prefix _ _ _ _ Hl Hin) as (j & q & _ & Hq).
    unfold addr in Hw at 1. simpl in Hw. rewrite Hb, Hq in Hw.
    apply (f_equal length) in Hw. rewrite length_app in Hw. simpl in Hw. lia.
  - clear Hb. revert Hl. generalize 0. induction IH as [|t l Ht _ IHl]; intros i; simpl.
    { constructor. }
    intros [Hti Hl]. rewrite fmap_app, NoDup_app. split_and!.
    + by eapply Ht.
    + intros a (w & -> & Hw)%list_elem_of_fmap (w' & Heq & Hw')%list_elem_of_fmap.
      destruct (addressed_from_prefix _ _ _ _ Hl Hw') as (j & q & Hj & Hq).
      destruct (addressed_subtree _ _ _ Hti Hw) as [q' Hq'%addressed_addr].
      rewrite <-app_assoc in Hq'. rewrite Heq, Hq in Hq'. simplify_list_eq. lia.
    + by eapply IHl.
Qed.

Lemma addr_inj p t u w :
  addressed p t → u ∈ subtrees t → w ∈ subtrees t → addr u = addr w → u = w.
Proof.
  intros Ht [i Hi]%list_elem_of_lookup [j Hj]%list_elem_of_lookup Heq.
  assert (i = j) as ->; [|congruence].
  eapply NoDup_lookup; [by eapply subtrees_NoDup|..];
    rewrite list_lookup_fmap, ?Hi, ?Hj; simpl; by rewrite ?Heq.
Qed.

(** ** The order of addresses *)

Lemma sgt_irrefl a : sibling_greater_than a a = false.
Proof. induction a as [|x a IH]; simpl; [done|]. by rewrite Z.ltb_irrefl. Qed.

Lemma sgt_trans a b c :
  length a = length b → length b = length c →
  sibling_greater_than a b = true → sibling_greater_than b c = true →
  sibling_greater_than a c = true.
Proof.
  revert b c. induction a as [|x a IH]; intros [|y b] [|z c]; simpl; try done.
  intros [= Hab] [= Hbc].
  destruct (Z.ltb_spec y x), (Z.ltb_spec x y), (Z.ltb_spec z y), (Z.ltb_spec y z),
    (Z.ltb_spec z x), (Z.ltb_spec x z); try done; try lia; eauto.
Qed.

Lemma sgt_total a b :
  length a = length b → a ≠ b → sibling_greater_than a b = false →
  sibling_greater_than b a = true.
Proof.
  revert b. induction a as [|x a IH]; intros [|y b]; simpl; try done.
  intros [= Hab] Hne. destruct (Z.ltb_spec y x), (Z.ltb_spec x y); try done; try lia.
  apply IH; [done|]. intros ->. apply Hne. f_equal. lia.
Qed.

Lemma address_less_spec a b :
  address_less a b = true ↔
  (length a < length b)%nat ∨ length a = length b ∧ sibling_greater_than a b = true.
Proof.
  unfold address_less. rewrite orb_true_iff, andb_true_iff, Nat.ltb_lt, Nat.eqb_eq. done.
Qed.

Lemma address_less_length a b : address_less a b = true → (length a ≤ length b)%nat.
Proof. rewrite address_less_spec. lia. Qed.

Lemma address_less_irrefl a : address_less a a ≠ true.
Proof. rewrite address_less_spec, sgt_irrefl. intros [?|[_ ?]]; [lia|done]. Qed.

Lemma address_less_trans a b c :
  address_less a b = true → address_less b c = true → address_less a c = true.
Proof.
  rewrite !address_less_spec. intros [?|[??]] [?|[??]]; [left; lia..|right].
  split; [lia|]. by eapply sgt_trans.
Qed.

Lemma address_less_total a b : a ≠ b → address_less a b = false → address_less b a = true.
Proof.
  intros Hne Hf. apply address_less_spec.
  destruct (decide (length b < length a)%nat) as [|Hge]; [by left|right].
  assert (length a = length b) as Hlen.
  { destruct (decide (length a = length b)); [done|]. exfalso.
    assert (address_less a b = true) by (apply address_less_spec; left; lia). congruence. }
  split; [done|]. apply sgt_total; [done..|].
  destruct (sibling_greater_than a b) eqn:E; [|done].
  assert (address_less a b = true) by (apply address_less_spec; by right). congruence.
Qed.

(** ** Sorting *)

Section sorting.
Context {A K : Type} (key : A → K) (less : K → K → bool).
Context (Htrans : ∀ a b c, less a b = true → less b c = true → less a c = true).
Context (Htotal : ∀ a b, a ≠ b → less a b = false → less b a = true).

Abbreviation kless := (λ x y, less (key x) (key y)).

Lemma insert_by_perm x l : insert_by kless x l ≡ₚ x :: l.
Proof.
  induction l as [|y l IH]; simpl; [done|]. destruct (less _ _); [|done].
  rewrite IH. apply Permutation_swap.
Qed.

Lemma sort_by_perm l : sort_by kless l ≡ₚ l.
Proof. induction l as [|x l IH]; simpl; [done|]. by rewrite insert_by_perm, IH. Qed.

Lemma insert_by_sorted x l :
  key x ∉ key <$> l → StronglySorted (λ x y, less (key x) (key y) = true) l →
  StronglySorted (λ x y, less (key x) (key y) = true) (insert_by kless x l).
Proof.
  induction l as [|y l IH]; intros Hx Hl; simpl.
  { repeat constructor. }
  apply StronglySorted_inv in Hl as [Hl Hy]. rewrite fmap_cons, not_elem_of_cons in Hx.
  destruct Hx as [Hne Hx]. destruct (less (key y) (key x)) eqn:Hyx.
  - constructor; [by apply IH|]. rewrite insert_by_perm. by constructor.
  - assert (less (key x) (key y) = true) as Hxy by (apply Htotal; [congruence|done]).
    constructor; [by constructor|]. constructor; [done|].
    eapply Forall_impl; [exact Hy|]. simpl. eauto.
Qed.

Lemma sort_by_sorted l :
  NoDup (key <$> l) → StronglySorted (λ x y, less (key x) (key y) = true) (sort_by kless l).
Proof.
  induction l as [|x l IH]; simpl; [constructor|]. rewrite NoDup_cons. intros [Hx Hl].
  apply insert_by_sorted; [|by apply IH]. by rewrite sort_by_perm.
Qed.

End sorting.

Lemma insert_by_fmap {A B} (f : A → B) less less' x l :
  (∀ x y, less (f x) (f y) = less' x y) →
  insert_by less (f x) (f <$> l) = f <$> insert_by less' x l.
Proof.
  intros Hf. induction l as [|y l IH]; [done|]. simpl. rewrite Hf.
  destruct (less' y x); [|done]. rewrite fmap_cons. by f_equal.
Qed.

Lemma sort_by_fmap {A B} (f : A → B) less less' l :
  (∀ x y, less (f x) (f y) = less' x y) →
  sort_by less (f <$> l) = f <$> sort_by less' l.
Proof.
  intros Hf. induction l as [|x l IH]; [done|].
  rewrite fmap_cons. cbn [sort_by foldr].
  change (foldr (insert_by less) [] (f <$> l)) with (sort_by less (f <$> l)).
  rewrite IH. by apply insert_by_fmap.
Qed.

(** The order in which sub-trees are taken off the vector: the deepest first,
    and siblings by their index. *)
Definition pops_before (u w : rose BlockscoutCall) : Prop :=
  address_less (addr w) (addr u) = true.

Lemma StronglySorted_flip_reverse {A} (R : relation A) l :
  StronglySorted R l → StronglySorted (flip R) (reverse l).
Proof.
  induction 1 as [|x l Hl IH Hx]; [constructor|].
  rewrite reverse_cons. apply StronglySorted_app_2; [|done|repeat constructor].
  intros y z Hy ->%list_elem_of_singleton. unfold flip.
  rewrite Forall_forall in Hx. by apply Hx, elem_of_reverse.
Qed.

Lemma StronglySorted_filter {A} (R : relation A) (Q : A → Prop) `{∀ x, Decision (Q x)} l :
  StronglySorted R l → StronglySorted R (filter Q l).
Proof.
  induction 1 as [|x l Hl IH Hx]; [constructor|].
  rewrite filter_cons. destruct (decide (Q x)); [|exact IH].
  constructor; [exact IH|]. rewrite Forall_forall in *.
  intros y [_ Hy]%list_elem_of_filter. by apply Hx.
Qed.

Lemma filter_none {A} (Q : A → Prop) `{∀ x, Decision (Q x)} l :
  (∀ x, x ∈ l → ¬ Q x) → filter Q l = [].
Proof.
  induction l as [|x l IH]; intros Hl; [done|].
  rewrite filter_cons, decide_False by (apply Hl; left).
  apply IH. intros y Hy. apply Hl. by right.
Qed.

Lemma children_sorted u :
  addressed (addr u) u → StronglySorted pops_before (rose_children u).
Proof.
  intros Hu.
  assert (∀ k l, l = drop k (rose_children u) → StronglySorted pops_before l) as Hgen.
  { intros k l. revert k. induction l as [|w l IH]; intros k Hl; [constructor|].
    assert (rose_children u !! k = Some w) as Hw
      by (rewrite <-(Nat.add_0_r k), <-lookup_drop, <-Hl; done).
    assert (l = drop (S k) (rose_children u)) as Hl'.
    { rewrite (drop_S _ _ _ Hw) in Hl. congruence. }
    constructor; [by apply (IH (S k))|]. apply Forall_lookup. intros j w' Hw'.
    rewrite Hl', lookup_drop in Hw'. unfold pops_before.
    rewrite (addressed_child u _ _ Hu Hw), (addressed_child u _ _ Hu Hw').
    apply address_less_spec. right. rewrite !length_app. split; [done|].
    generalize (addr u). intros p. induction p as [|x p IHp]; simpl.
    - by rewrite (proj2 (Z.ltb_lt _ _)) by lia.
    - by rewrite Z.ltb_irrefl. }
  by apply (Hgen 0%nat).
Qed.

(** ** The loop rebuilds the tree

    [P] lists the sub-trees of [t] in the order the loop takes them. *)

Section nesting.
Context (t : rose BlockscoutCall) (Ht : addressed [] t).
Context (P : list (rose BlockscoutCall)) (HP : P ≡ₚ subtrees t).
Context (Hsorted : StronglySorted pops_before P).

(** A sub-tree on the vector once those of [D] have been taken off. *)
Definition vec_item (D : list (rose BlockscoutCall)) (u : rose BlockscoutCall) :
    CallTracerCall :=
  let b := rose_label u in
  mkCallTracerCall (bc_from b) (Some (addr u)) (bc_gas b) (bc_gas_used b)
    (call_tracer_inner (bc_value b) (bc_inner b))
    ((Call_CallTracer ∘ nest) <$> filter (child_of u) D).

Lemma in_P u : u ∈ P ↔ u ∈ subtrees t.
Proof. by rewrite HP. Qed.

Lemma P_addressed u : u ∈ P → addressed (addr u) u.
Proof. rewrite in_P. by apply (addressed_self []). Qed.

Lemma P_addr_inj u w : u ∈ P → w ∈ P → addr u = addr w → u = w.
Proof. rewrite !in_P. by apply (addr_inj []). Qed.

Lemma P_NoDup : NoDup P.
Proof. rewrite HP. eapply NoDup_fmap_1. by apply (subtrees_NoDup []). Qed.

Lemma child_of_children u w : u ∈ P → w ∈ P → child_of u w ↔ w ∈ rose_children u.
Proof.
  intros Hu Hw. split.
  - intros [Hne Hpar]. pose proof Hw as Hw'. rewrite in_P in Hw'.
    destruct (subtrees_parent t w Hw') as [->|(v & Hv%in_P & Hin)].
    { by rewrite (addressed_addr _ _ Ht) in Hne. }
    pose proof Hin as [k Hk]%list_elem_of_lookup.
    rewrite (addressed_child v k w (P_addressed v Hv) Hk), removelast_last in Hpar.
    by rewrite (P_addr_inj u v).
  - intros [k Hk]%list_elem_of_lookup. unfold child_of.
    rewrite (addressed_child u k w (P_addressed u Hu) Hk), removelast_last.
    split; [|done]. by destruct (addr u).
Qed.

Lemma children_of_P u : u ∈ P → filter (child_of u) P = rose_children u.
Proof.
  intros Hu. apply (StronglySorted_unique_strong pops_before).
  - intros w w' _ _ H1 H2. exfalso. eapply address_less_irrefl, address_less_trans; eauto.
  - by apply StronglySorted_filter.
  - by apply children_sorted, P_addressed.
  - apply NoDup_Permutation.
    + apply NoDup_filter, P_NoDup.
    + apply NoDup_alt. intros i j w Hi Hj.
      pose proof (addressed_child u i w (P_addressed u Hu) Hi) as Hai.
      rewrite (addressed_child u j w (P_addressed u Hu) Hj) in Hai.
      simplify_list_eq. lia.
    + intros w. rewrite list_elem_of_filter. split.
      * intros [Hc Hw]. by apply child_of_children.
      * intros Hw. assert (w ∈ P) as HwP.
        { apply in_P. eapply subtrees_child; [|done]. by apply in_P. }
        split; [|done]. by apply child_of_children.
Qed.

(** When a sub-tree is taken off, all its children already have been. *)
Lemma vec_item_complete D u R :
  P = D ++ u :: R → filter (child_of u) D = rose_children u.
Proof.
  intros Heq. rewrite <-(children_of_P u) by (rewrite Heq; set_solver).
  rewrite Heq, filter_app.
  enough (filter (child_of u) (u :: R) = []) as -> by by rewrite app_nil_r.
  apply filter_none. intros w Hw [Hne Hpar].
  assert (length (addr w) = S (length (addr u))) as Hlen.
  { rewrite <-Hpar. destruct (addr w) as [|a l _] using rev_ind; [done|].
    rewrite removelast_last, length_app. simpl. lia. }
  apply elem_of_cons in Hw as [->|Hw]; [lia|].
  rewrite Heq in Hsorted. apply StronglySorted_app in Hsorted as (_ & _ & Hs).
  apply StronglySorted_inv in Hs as [_ Hs]. rewrite Forall_forall in Hs.
  apply Hs, address_less_length in Hw. lia.
Qed.

Lemma vec_item_nest D u R :
  P = D ++ u :: R → remove_trace_address (vec_item D u) = nest u.
Proof.
  intros Heq. unfold vec_item. simpl. rewrite (vec_item_complete D u R Heq).
  by destruct u.
Qed.

(** The only sub-tree with an empty address is taken off last. *)
Lemma addr_not_empty D u R : P = D ++ u :: R → R ≠ [] → addr u ≠ [].
Proof.
  intros Heq HR Hnil. destruct R as [|w R]; [done|].
  rewrite Heq in Hsorted. apply StronglySorted_app in Hsorted as (_ & _ & Hs).
  apply StronglySorted_inv in Hs as [_ [Hs _]%Forall_cons]. unfold pops_before in Hs.
  rewrite Hnil in Hs. apply address_less_spec in Hs as [?|[_ ?]]; [simpl in *; lia|].
  by destruct (addr w).
Qed.

(** The parent of a sub-tree is still on the vector. *)
Lemma parent_remains D u R :
  P = D ++ u :: R → addr u ≠ [] → ∃ q, q ∈ R ∧ child_of q u.
Proof.
  intros Heq Hne. assert (u ∈ P) as Hu by (rewrite Heq; set_solver).
  pose proof Hu as Hu'. rewrite in_P in Hu'.
  destruct (subtrees_parent t u Hu') as [->|(q & Hq%in_P & Hc)].
  { by rewrite (addressed_addr _ _ Ht) in Hne. }
  exists q. apply child_of_children in Hc; [|done..]. split; [|done].
  destruct Hc as [_ Hpar].
  assert (length (addr u) = S (length (addr q))) as Hlen.
  { rewrite <-Hpar. destruct (addr u) as [|a l _] using rev_ind; [done|].
    rewrite removelast_last, length_app. simpl. lia. }
  rewrite Heq in Hq. apply elem_of_app in Hq as [Hq|[->|Hq]%elem_of_cons]; [|lia|done].
  rewrite Heq in Hsorted. apply StronglySorted_app in Hsorted as (Hs & _).
  specialize (Hs q u Hq (list_elem_of_here _ _)). apply address_less_length in Hs. lia.
Qed.

Lemma position_cons last current l a b :
  ct_trace_address last = Some a → ct_trace_address current = Some b → a ≠ [] →
  position last (current :: l) =
    if decide (b = removelast a) then Ret (Some O)
    else i ← position last l; Ret (option_map S i).
Proof.
  intros Ha Hb Hne. cbn [position]. rewrite Ha, Hb.
  by destruct (decide (a = [])).
Qed.

Lemma position_spec D u q l :
  addr u ≠ [] → q ∈ l → child_of q u →
  ∃ i q', position (vec_item D u) (vec_item D <$> l) = Ret (Some i) ∧
    l !! i = Some q' ∧ child_of q' u.
Proof.
  intros Hne. induction l as [|w l IH]; [by inversion 1|].
  intros Hq Hc. rewrite fmap_cons, (position_cons _ _ _ (addr u) (addr w)) by done.
  case_decide as Hw.
  { exists 0%nat, w. split_and!; [done..|]. split; [done|]. done. }
  apply elem_of_cons in Hq as [->|Hq]; [by destruct Hc|].
  destruct (IH Hq Hc) as (i & q' & Hpos & Hi & Hc').
  exists (S i), q'. split_and!; [|done..]. by rewrite Hpos.
Qed.

Lemma push_vec_item D u R i q :
  P = D ++ u :: R → reverse R !! i = Some q → child_of q u →
  alter (push_call (nest u)) i (vec_item D <$> reverse R) =
  vec_item (D ++ [u]) <$> reverse R.
Proof.
  intros Heq Hi [Hne Hq]. apply list_eq. intros j.
  rewrite list_lookup_alter, !list_lookup_fmap.
  assert (∀ k w, reverse R !! k = Some w → w ∈ P) as HinP.
  { intros k w Hk%list_elem_of_lookup_2. rewrite elem_of_reverse in Hk.
    rewrite Heq. set_solver. }
  case_decide as Hj.
  - subst j. rewrite Hi. simpl. f_equal. unfold vec_item, push_call. f_equal.
    rewrite filter_app, fmap_app, filter_cons, decide_True by done. done.
  - destruct (reverse R !! j) as [w|] eqn:Hw; [|done]. simpl. f_equal. unfold vec_item.
    rewrite filter_app, filter_cons, decide_False, filter_nil, app_nil_r; [done|].
    intros [_ Hpar]. apply Hj.
    assert (q = w) as -> by (apply P_addr_inj; eauto; congruence).
    assert (NoDup (reverse R)) as Hnd.
    { pose proof P_NoDup as HndP. rewrite Heq in HndP.
      apply NoDup_app in HndP as (_ & _ & [_ ?]%NoDup_cons).
      by rewrite reverse_Permutation. }
    by eapply NoDup_lookup.
Qed.

Lemma last_is_root D u : P = D ++ [u] → u = t.
Proof.
  intros Heq. assert (t ∈ P) as Hin by (apply in_P, subtrees_self).
  rewrite Heq in Hin. apply elem_of_app in Hin as [Hin|Hin]; [|by apply list_elem_of_singleton in Hin].
  rewrite Heq in Hsorted. apply StronglySorted_app in Hsorted as (Hs & _).
  specialize (Hs t u Hin (list_elem_of_here _ _)). unfold pops_before in Hs.
  rewrite (addressed_addr _ _ Ht) in Hs.
  apply address_less_spec in Hs as [?|[_ ?]]; [simpl in *; lia|]. by destruct (addr u).
Qed.

Lemma pop_and_push_step fuel D u w R :
  P = D ++ u :: w :: R →
  pop_and_push (S fuel) (vec_item D <$> reverse (u :: w :: R)) =
  pop_and_push fuel (vec_item (D ++ [u]) <$> reverse (w :: R)).
Proof.
  intros Heq. pose proof (addr_not_empty D u (w :: R) Heq ltac:(done)) as Hne.
  destruct (parent_remains D u (w :: R) Heq Hne) as (q & Hq & Hc).
  cbn [pop_and_push]. rewrite length_fmap, length_reverse. cbn [length Nat.ltb Nat.leb].
  rewrite (reverse_cons (w :: R) u), fmap_app.
  change (vec_item D <$> [u]) with [vec_item D u]. rewrite last_snoc, removelast_last.
  destruct (position_spec D u q (reverse (w :: R))) as (i & q' & Hpos & Hi & Hc');
    [done|by rewrite elem_of_reverse|done|].
  rewrite Hpos. cbn [mbind outcome_bind].
  rewrite (vec_item_nest D u (w :: R) Heq). f_equal. by eapply push_vec_item.
Qed.

Lemma pop_and_push_nest fuel D R :
  P = D ++ R → R ≠ [] → (length R ≤ fuel)%nat →
  ∃ D', P = D' ++ [t] ∧
    pop_and_push fuel (vec_item D <$> reverse R) = Ret [vec_item D' t].
Proof.
  revert D R. induction fuel as [|fuel IH]; intros D R Heq HR Hlen.
  { destruct R; [done|]. simpl in Hlen. lia. }
  destruct R as [|u [|w R]]; [done| |].
  - exists D. assert (u = t) as -> by by eapply last_is_root. by split.
  - rewrite (pop_and_push_step fuel D u w R Heq).
    apply IH; [by rewrite <-app_assoc|done|]. simpl in *. lia.
Qed.

End nesting.

(** Sorting and nesting the sub-trees of an addressed tree, given in any order. *)
Lemma sort_and_nest t T :
  addressed [] t → T ≡ₚ subtrees t → (1 < length T)%nat →
  ∃ c, pop_and_push (length T) (sort_by call_less (vec_item [] <$> T)) = Ret [c] ∧
    remove_trace_address c = nest t.
Proof.
  intros Ht HT Hlen.
  rewrite (sort_by_fmap (vec_item []) call_less (λ u w, address_less (addr u) (addr w)))
    by done.
  set (S := sort_by _ T).
  assert (S ≡ₚ T) as HS by apply (sort_by_perm addr).
  assert (reverse S ≡ₚ subtrees t) as HP by by rewrite reverse_Permutation, HS.
  assert (StronglySorted pops_before (reverse S)) as Hsort.
  { apply (StronglySorted_flip_reverse (flip pops_before)).
    apply (sort_by_sorted addr address_less address_less_trans address_less_total).
    rewrite HT. by apply (subtrees_NoDup []). }
  assert (length S = length T) as HlenS by by rewrite HS.
  destruct (pop_and_push_nest t Ht (reverse S) HP Hsort (length T) [] (reverse S))
    as (D' & Hroot & Hrun).
  - done.
  - intros Hnil%(f_equal length). rewrite length_reverse in Hnil. simpl in Hnil. lia.
  - by rewrite length_reverse, HlenS.
  - rewrite reverse_involutive in Hrun. eexists. split; [exact Hrun|].
    by apply (vec_item_nest t Ht (reverse S) HP Hsort D' t []).
Qed.

(** Formatting a map that holds the entries of an addressed tree, with any keys. *)
Lemma format_tree m t :
  addressed [] t → btree_values m ≡ₚ preorder t →
  format_entry m = Ret (Some (TransactionTrace_CallListNested (Call_CallTracer (nest t)))).
Proof.
  intros Ht Hm. rewrite preorder_subtrees in Hm.
  apply Permutation_map_inv in Hm as (T & HT & Hperm). symmetry in Hperm.
  unfold format_entry. rewrite HT. change (map rose_label T) with (rose_label <$> T).
  rewrite <-list_fmap_compose.
  change (to_call_tracer ∘ rose_label) with (vec_item []). rewrite length_fmap.
  destruct (Nat.ltb_spec 1 (length T)) as [Hlt|Hge].
  - assert (length (sort_by call_less (vec_item [] <$> T)) = length T) as Hlen.
    { rewrite (sort_by_fmap _ _ (λ u w, address_less (addr u) (addr w))) by done.
      by rewrite length_fmap, (sort_by_perm addr). }
    cbn zeta. rewrite Hlen.
    destruct (sort_and_nest t T Ht Hperm Hlt) as (c & Hrun & Hc).
    rewrite Hrun. cbn [mbind outcome_bind alter list_alter]. by rewrite Hc.
  - destruct t as [b l]. assert (l = []) as ->.
    { rewrite Hperm in Hge. destruct l as [|[b' l'] l]; [done|]. simpl in Hge. lia. }
    apply Permutation_singleton_r in Hperm as ->. done.
Qed.

Lemma format_trees ms ts :
  Forall2 (λ m t, addressed [] t ∧ btree_values m ≡ₚ preorder t) ms ts →
  format_entries ms =
  Ret ((λ t, TransactionTrace_CallListNested (Call_CallTracer (nest t))) <$> ts).
Proof.
  induction 1 as [|m t ms ts [Ht Hm] _ IH]; [done|].
  cbn [format_entries]. rewrite (format_tree m t), IH by done. done.
Qed.

(** ** The trees of the listener are addressed *)

Lemma items_addressed_Forall l :
  Forall (λ i, ∀ k p a, addressed_from a k (items_trees k p a [i])) l →
  ∀ k p a, addressed_from a k (items_trees k p a l).
Proof.
  assert (∀ a k l1 l2, addressed_from a k l1 → addressed_from a (k + zlen l1) l2 →
    addressed_from a k (l1 ++ l2)) as Happ.
  { intros a k l1. revert k. induction l1 as [|t l1 IH]; intros k l2.
    - simpl. by rewrite Z.add_0_r.
    - intros [Ht H1] H2. split; [done|]. apply IH; [done|].
      by replace (k + 1 + zlen l1) with (k + zlen (t :: l1)) by (simpl; lia). }
  induction 1 as [|i l Hi _ IH]; intros k p a; [done|].
  rewrite items_trees_cons. apply Happ; [apply Hi|].
  unfold items_trees at 1, place_from. rewrite length_imap. apply IH.
Qed.

Lemma items_addressed k p a l : addressed_from a k (items_trees k p a l).
Proof.
  apply items_addressed_Forall, Forall_forall. intros i _. clear k p a l.
  induction i as [e|e|x y b|o body c IH] using item_rect_Forall; intros k p adr;
    [done|done| |].
  - unfold items_trees, place_from. simpl. by rewrite Z.add_0_r.
  - rewrite items_trees_sub. cbn zeta. split; [|done]. rewrite addressed_Rose. split_and!.
    + done.
    + unfold items_trees, place_from. by rewrite length_imap.
    + by apply items_addressed_Forall.
Qed.

Lemma tx_tree_addressed n old tx : addressed [] (tx_tree n old tx).
Proof.
  unfold tx_tree. rewrite addressed_Rose. split_and!; [done| |apply items_addressed].
  unfold items_trees, place_from. by rewrite length_imap.
Qed.

Lemma block_maps_trees n old txs :
  Forall2 (λ m t, addressed [] t ∧ btree_values m ≡ₚ preorder t)
    (block_maps n old txs) (block_trees n old txs).
Proof.
  revert n old. induction txs as [|tx txs IH]; intros n old; [constructor|].
  cbn [block_maps block_trees]. constructor; [|apply IH]. split; [apply tx_tree_addressed|].
  by rewrite btree_values_index_map.
Qed.

Lemma block_maps_nonempty n old txs :
  filter (λ x, x ≠ ∅) (block_maps n old txs) = block_maps n old txs.
Proof.
  revert n old. induction txs as [|tx txs IH]; intros n old; [done|].
  cbn [block_maps]. rewrite filter_cons, decide_True by apply index_map_preorder_nonempty.
  by rewrite IH.
Qed.

(** ** Theorems *)

Definition nested (t : rose BlockscoutCall) : SingleTrace :=
  TransactionTrace_CallListNested (Call_CallTracer (nest t)).

(** C2: whenever the entries of a transaction are the calls of a tree, in any
    order, with the trace addresses of the tree, the formatter returns exactly
    the nested calls of the tree, one per transaction, and does not panic. *)
Theorem call_tracer_nests listener ts :
  Forall2 (λ m t, addressed [] t ∧ btree_values m ≡ₚ preorder t)
    (filter (λ x, x ≠ ∅) (entries listener)) ts →
  call_tracer_format listener = Ret (if decide (ts = []) then None else Some (nested <$> ts)).
Proof.
  intros Hall. unfold call_tracer_format. cbn zeta. rewrite (format_trees _ ts Hall).
  by destruct ts.
Qed.

(** Tracing a block of well-formed transactions and formatting the result
    for callTracer gives, for each transaction in order, the nested calls of
    its execution. *)
Theorem call_tracer_block `{!BuildProfile} txs :
  txs ≠ [] → forallb tx_ok txs = true → block_size txs < 2 ^ 32 →
  (s ← emit_all Listener_default (block_events txs);
   s ← finish_transaction s;
   call_tracer_format s) = Ret (Some (nested <$> block_trees 0 0 txs)).
Proof.
  intros Hne Hok Hlt. destruct (block_run txs Hok Hlt) as (s & Hrun & He & Hs & Ho).
  rewrite Hrun. cbn [mbind outcome_bind]. rewrite finish_transaction_idle by done.
  cbn [mbind outcome_bind]. unfold call_tracer_format.
  rewrite He, block_maps_nonempty, (format_trees _ _ (block_maps_trees 0 0 txs)).
  by destruct txs.
Qed.

Module NestExample.
Definition listener : CallListListener :=
  set_entries [∅; index_map 4 (reverse (preorder (tx_tree 0 0 Example.tx)))] Listener_default.
End NestExample.

Lemma call_tracer_nests_witness :
  call_tracer_format NestExample.listener = Ret (Some [nested (tx_tree 0 0 Example.tx)]).
Proof.
  apply (call_tracer_nests NestExample.listener [tx_tree 0 0 Example.tx]).
  constructor; [|constructor]. split; [apply tx_tree_addressed|].
  rewrite btree_values_index_map. apply reverse_Permutation.
Defined.

Lemma call_tracer_block_witness :
  (s ← @emit_all _ (@CallList_Listener release) Listener_default
         (block_events [Example.tx; Example.failed]);
   s ← @finish_transaction release s;
   call_tracer_format s) =
  Ret (Some (nested <$> block_trees 0 0 [Example.tx; Example.failed])).
Proof. apply (@call_tracer_block release); [done|vm_compute; reflexivity..]. Defined.
