(* ===== verification/CallTracerLoop.v ===== *)
(** * The loop of the callTracer formatter on arbitrary entries

    CallTracer.v shows what call_tracer.rs makes of the entries of a call tree.
    The entries come from the events of a runtime of any version, so this file
    looks at arbitrary ones: the [while] loop always ends, every transaction with
    entries gets one trace, and the only panic is that of a transaction with two
    roots. *)

From stdpp Require Import base tactics list gmap sorting strings.
From Stdlib Require Import ZArith Lia Strings.Byte.
From S2P Require Import Prelude Trees EvmEvents TraceTypes CallList CallTree CallListSpec.
From S2P Require Import CallTracer.
Local Open Scope Z_scope.

(** ** The loop without fuel *)

(** The body of [while result.len() > 1]. *)
Definition loop_body (result : list CallTracerCall) : outcome (list CallTracerCall) :=
  match last result with
  | None => Panic
  | Some last =>
      let result := removelast result in
      index ← position last result;
      Ret match index with
          | Some index => alter (push_call (remove_trace_address last)) index result
          | None => result
          end
  end.

(** [while_run n result out]: started with [result], the loop ends after [n]
    rounds with the vector, or the panic, [out]. *)
Inductive while_run : nat → list CallTracerCall → outcome (list CallTracerCall) → Prop :=
| while_exit result : (length result ≤ 1)%nat → while_run O result (Ret result)
| while_panic result :
    (1 < length result)%nat → loop_body result = Panic → while_run 1 result Panic
| while_round n result result' out :
    (1 < length result)%nat → loop_body result = Ret result' → while_run n result' out →
    while_run (S n) result out.

Lemma loop_body_length result result' :
  loop_body result = Ret result' → length result = S (length result').
Proof.
  unfold loop_body. destruct (last result) as [x|] eqn:Hlast; [|done].
  apply last_Some in Hlast as [l ->]. rewrite removelast_last, length_app.
  intros Hrun. run_inv. simpl. destruct x0; rewrite ?length_alter; lia.
Qed.

Lemma pop_and_push_S fuel result :
  pop_and_push (S fuel) result =
  if (1 <? length result)%nat
  then result' ← loop_body result; pop_and_push fuel result' else Ret result.
Proof.
  cbn [pop_and_push]. unfold loop_body. destruct (1 <? length result)%nat; [|done].
  destruct (last result); [|done]. by destruct (position _ _) as [[]|].
Qed.

(** The loop ends, and the model with fuel computes its result. *)
Lemma while_ends fuel result :
  (length result ≤ fuel)%nat →
  ∃ n, (n ≤ length result - 1)%nat ∧ while_run n result (pop_and_push fuel result).
Proof.
  revert result. induction fuel as [|fuel IH]; intros result Hlen.
  { exists O. split; [lia|]. apply while_exit. lia. }
  rewrite pop_and_push_S. destruct (Nat.ltb_spec 1 (length result)) as [Hlt|]; cycle 1.
  { exists O. split; [lia|by apply while_exit]. }
  destruct (loop_body result) as [result'|] eqn:Hbody; simpl.
  - pose proof (loop_body_length _ _ Hbody) as Hl.
    destruct (IH result') as (n & Hn & Hrun); [lia|].
    exists (S n). split; [lia|]. by eapply while_round.
  - exists 1%nat. split; [lia|]. by apply while_panic.
Qed.

(** ** Roots *)

(** The elements with an empty address. *)
Definition roots (result : list CallTracerCall) : nat :=
  length (filter (λ c, ct_trace_address c = Some []) result).

Definition addr_length (c : CallTracerCall) : nat :=
  match ct_trace_address c with Some a => length a | None => 0 end.

(** All addresses are present, the shorter ones first. *)
Definition by_length (result : list CallTracerCall) : Prop :=
  Forall (λ c, is_Some (ct_trace_address c)) result ∧
  StronglySorted (λ a b, addr_length a ≤ addr_length b)%nat result.

Lemma push_call_address last c : ct_trace_address (push_call last c) = ct_trace_address c.
Proof. by destruct c. Qed.

(** Only the addresses matter. *)
Lemma alter_addresses last (i : nat) (result : list CallTracerCall) :
  ct_trace_address <$> alter (push_call last) i result = ct_trace_address <$> result.
Proof.
  revert i. induction result as [|c result IH]; intros [|i]; [done..| |].
  - simpl. by rewrite push_call_address.
  - change (ct_trace_address c :: (ct_trace_address <$> alter (push_call last) i result) =
      ct_trace_address c :: (ct_trace_address <$> result)). by rewrite IH.
Qed.

Lemma addresses_inv (l l' : list CallTracerCall) :
  ct_trace_address <$> l = ct_trace_address <$> l' →
  roots l = roots l' ∧ (by_length l → by_length l').
Proof.
  revert l'. induction l as [|c l IH]; intros [|c' l']; [done..|].
  rewrite !fmap_cons. intros [= Hc Hl]. destruct (IH _ Hl) as [Hr Hb]. split.
  - unfold roots in *. rewrite !filter_cons, Hc. case_decide; simpl; lia.
  - intros [[Hs Hall]%Forall_cons [Hsort Hle]%StronglySorted_inv].
    destruct Hb as [Hall' Hsort']; [by split|].
    split; [constructor; [by rewrite <-Hc|done]|]. constructor; [done|].
    clear -Hc Hl Hle. revert l' Hl. induction Hle as [|x l Hx _ IH]; intros [|x' l'] Hl;
      try done. rewrite !fmap_cons in Hl. injection Hl as Hx' Hl.
    constructor; [|by apply IH]. unfold addr_length in *. by rewrite <-Hc, <-Hx'.
Qed.

(** With all addresses present, only an empty address makes the search panic. *)
Lemma position_total x a l :
  ct_trace_address x = Some a → a ≠ [] → Forall (λ c, is_Some (ct_trace_address c)) l →
  ∃ i, position x l = Ret i.
Proof.
  intros Hx Ha Hl. induction Hl as [|c l [b Hb] _ [i IH]]; simpl; [by eauto|].
  rewrite Hx, Hb, decide_False by done. case_decide; [by eauto|]. rewrite IH. by eauto.
Qed.

(** The last element is a root only when all elements are. *)
Lemma last_root l x :
  by_length (l ++ [x]) → ct_trace_address x = Some [] → l ≠ [] →
  (2 ≤ roots (l ++ [x]))%nat ∧ position x l = Panic.
Proof.
  intros [Hall Hsort] Hx Hne. apply StronglySorted_app in Hsort as (Hle & _ & _).
  apply Forall_app in Hall as [Hall _]. destruct l as [|c l]; [done|].
  apply Forall_cons in Hall as [[b Hb] _].
  assert (b = []) as ->.
  { assert (addr_length c ≤ addr_length x)%nat as Hc by (apply Hle; left).
    unfold addr_length in Hc. rewrite Hb, Hx in Hc. destruct b; [done|simpl in Hc; lia]. }
  split; [|simpl; by rewrite Hx, Hb].
  unfold roots. rewrite <-app_comm_cons, filter_cons, decide_True by done.
  rewrite filter_app, filter_cons, decide_True by done. simpl. rewrite length_app. simpl. lia.
Qed.

Lemma roots_snoc l x a :
  ct_trace_address x = Some a → a ≠ [] → roots (l ++ [x]) = roots l.
Proof.
  intros Hx Ha. unfold roots. rewrite filter_app, filter_cons, decide_False; [|congruence].
  rewrite filter_nil. by rewrite app_nil_r.
Qed.

Lemma roots_length l : (roots l ≤ length l)%nat.
Proof. apply length_filter. Qed.

(** The loop panics exactly when there are two roots, and otherwise leaves one
    element. *)
Lemma pop_and_push_roots fuel result :
  (length result ≤ fuel)%nat → by_length result →
  match pop_and_push fuel result with
  | Ret result' => length result' = Nat.min 1 (length result) ∧ (roots result ≤ 1)%nat
  | Panic => (2 ≤ roots result)%nat
  end.
Proof.
  revert result. induction fuel as [|fuel IH]; intros result Hlen Hby.
  { destruct result; [by simpl; auto with lia|simpl in Hlen; lia]. }
  cbn [pop_and_push]. destruct (Nat.ltb_spec 1 (length result)) as [Hlt|]; cycle 1.
  { pose proof (roots_length result). lia. }
  destruct (last result) as [x|] eqn:Hlast.
  2: { apply last_None in Hlast. subst. simpl in Hlt. lia. }
  apply last_Some in Hlast as [l ->]. rewrite length_app in *. simpl length in *.
  rewrite removelast_last. pose proof Hby as [Hall Hsort].
  apply Forall_app in Hall as [Hall [[a Ha] _]%Forall_cons].
  apply StronglySorted_app in Hsort as (_ & Hsort & _).
  destruct (decide (a = [])) as [->|Hne].
  { destruct (last_root l x Hby Ha) as [Hr ->]; [|done]. by intros ->; simpl in Hlt; lia. }
  destruct (position_total x a l Ha Hne Hall) as [i ->]. cbn [mbind outcome_bind].
  rewrite (roots_snoc l x a Ha Hne).
  set (l' := match i with
    | Some i => alter (push_call (remove_trace_address x)) i l | None => l end).
  assert (ct_trace_address <$> l' = ct_trace_address <$> l) as Heq.
  { unfold l'. destruct i; [apply alter_addresses|done]. }
  assert (length l' = length l) as Hl'.
  { by rewrite <-(length_fmap ct_trace_address l'), Heq, length_fmap. }
  symmetry in Heq. destruct (addresses_inv _ _ Heq) as [-> Hby'].
  replace (Nat.min 1 (length l + 1)) with (Nat.min 1 (length l')) by lia.
  assert (pop_and_push fuel l' = match i with
    | Some i => pop_and_push fuel (alter (push_call (remove_trace_address x)) i l)
    | None => pop_and_push fuel l end) as <- by by destruct i.
  apply IH; [lia|]. by apply Hby'.
Qed.

(** ** The sort puts shorter addresses first *)

Lemma insert_call_perm c l : insert_by call_less c l ≡ₚ c :: l.
Proof.
  exact (insert_by_perm ct_trace_address
    (λ a b, match a, b with Some a, Some b => address_less a b | _, _ => false end) c l).
Qed.

Lemma sort_call_perm l : sort_by call_less l ≡ₚ l.
Proof.
  exact (sort_by_perm ct_trace_address
    (λ a b, match a, b with Some a, Some b => address_less a b | _, _ => false end) l).
Qed.

Lemma insert_by_length c l :
  is_Some (ct_trace_address c) → by_length l → by_length (insert_by call_less c l).
Proof.
  intros [a Ha] [Hall Hsort]. split.
  { rewrite insert_call_perm.
    constructor; [by rewrite Ha|done]. }
  induction Hsort as [|y l Hsort IH Hle]; simpl; [by repeat constructor|].
  apply Forall_cons in Hall as [[b Hb] Hall]. destruct (call_less y c) eqn:Hless;
    unfold call_less, address_less in Hless; rewrite Ha, Hb in Hless.
  - constructor; [by apply IH|].
    rewrite insert_call_perm.
    constructor; [|done]. unfold addr_length. rewrite Ha, Hb.
    apply orb_true_iff in Hless as [?%Nat.ltb_lt|[?%Nat.eqb_eq _]%andb_true_iff]; lia.
  - apply orb_false_iff in Hless as [Hless%Nat.ltb_ge _].
    assert (addr_length c ≤ addr_length y)%nat as Hcy by (unfold addr_length; by rewrite Ha, Hb).
    constructor; [by constructor|]. constructor; [done|].
    eapply Forall_impl; [exact Hle|]. simpl. lia.
Qed.

Lemma sort_by_length l :
  Forall (λ c, is_Some (ct_trace_address c)) l → by_length (sort_by call_less l).
Proof.
  induction 1 as [|c l Hc _ IH]; [split; constructor|]. by apply insert_by_length.
Qed.

(** ** The formatter *)

(** The roots among the entries of a transaction. *)
Definition entry_roots (entry : gmap Z BlockscoutCall) : nat :=
  length (filter (λ b, bc_trace_address b = []) (btree_values entry)).

Lemma to_call_tracer_roots l :
  roots (to_call_tracer <$> l) = length (filter (λ b, bc_trace_address b = []) l).
Proof.
  unfold roots. induction l as [|b l IH]; [done|]. rewrite fmap_cons, !filter_cons.
  change (ct_trace_address (to_call_tracer b)) with (Some (bc_trace_address b)).
  destruct (decide (bc_trace_address b = [])) as [->|Hne].
  - rewrite decide_True by done. simpl. by rewrite IH.
  - rewrite decide_False by congruence. done.
Qed.

Lemma roots_perm l l' : l ≡ₚ l' → roots l = roots l'.
Proof. intros Hp. unfold roots. by rewrite Hp. Qed.

Lemma btree_values_length (m : gmap Z BlockscoutCall) : length (btree_values m) = size m.
Proof.
  unfold btree_values, btree_iter. by rewrite length_fmap, merge_sort_Permutation, length_map_to_list.
Qed.

Lemma entry_roots_empty : entry_roots ∅ = 0%nat.
Proof. done. Qed.

Lemma format_entry_total entry :
  entry ≠ ∅ →
  match format_entry entry with
  | Ret trace => is_Some trace ∧ (entry_roots entry ≤ 1)%nat
  | Panic => (2 ≤ entry_roots entry)%nat
  end.
Proof.
  intros Hne. unfold format_entry, entry_roots. rewrite <-to_call_tracer_roots.
  set (result := to_call_tracer <$> btree_values entry).
  assert (Forall (λ c, is_Some (ct_trace_address c)) result) as Hall.
  { apply Forall_fmap, Forall_true. intros b. by eexists. }
  assert (0 < length result)%nat as Hpos.
  { unfold result. rewrite length_fmap, btree_values_length.
    pose proof (map_size_empty_inv entry). destruct (size entry); [by destruct Hne; auto|lia]. }
  clearbody result. pose proof (roots_length result) as Hr.
  destruct (Nat.ltb_spec 1 (length result)) as [Hlt|Hge].
  - cbn zeta. rewrite <-(roots_perm _ _ (sort_call_perm result)).
    pose proof (pop_and_push_roots _ _ (Nat.le_refl _) (sort_by_length result Hall)) as Hrun.
    assert (length (sort_by call_less result) = length result) as Hs by by rewrite sort_call_perm.
    destruct (pop_and_push _ _) as [r|]; [|done]. destruct Hrun as [Hl ?].
    rewrite Nat.min_l in Hl by lia. destruct r as [|c [|c' r]]; simpl in *; try lia.
    split; [by eexists|done].
  - destruct result as [|c [|c' r]]; simpl in *; try lia. split; [by eexists|done].
Qed.

Lemma format_entries_total maps :
  Forall (λ m, m ≠ ∅) maps →
  match format_entries maps with
  | Ret traces => length traces = length maps ∧ Forall (λ m, entry_roots m ≤ 1)%nat maps
  | Panic => Exists (λ m, 2 ≤ entry_roots m)%nat maps
  end.
Proof.
  induction 1 as [|m maps Hm _ IH]; [done|]. simpl.
  pose proof (format_entry_total m Hm) as Hentry.
  destruct (format_entry m) as [trace|]; simpl; [|by constructor].
  destruct Hentry as [[x ->] Hr]. destruct (format_entries maps) as [traces|]; simpl.
  - destruct IH as [<- ?]. split; [done|by constructor].
  - by right.
Qed.

(** C13: the callTracer formatter always ends, whatever entries a runtime's events
    left: its [while] loop takes fewer rounds than the vector has elements; the
    formatter panics exactly when some transaction recorded two calls with an
    empty trace address, and otherwise returns one trace per transaction that
    recorded any call. *)
Theorem call_tracer_terminates listener :
  (∀ result, ∃ n, (n ≤ length result - 1)%nat ∧
     while_run n result (pop_and_push (length result) result)) ∧
  match call_tracer_format listener with
  | Ret None => Forall (λ m, m = ∅) (entries listener)
  | Ret (Some traces) =>
      (0 < length traces)%nat ∧
      length traces = length (filter (λ m, m ≠ ∅) (entries listener)) ∧
      Forall (λ m, entry_roots m ≤ 1)%nat (entries listener)
  | Panic => Exists (λ m, 2 ≤ entry_roots m)%nat (entries listener)
  end.
Proof.
  split; [intros result; by apply while_ends|]. unfold call_tracer_format. cbn zeta.
  set (maps := filter (λ m, m ≠ ∅) (entries listener)).
  assert (∀ m, m ∈ maps ↔ m ≠ ∅ ∧ m ∈ entries listener) as Hin
    by (intros m; unfold maps; by rewrite list_elem_of_filter).
  pose proof (format_entries_total maps) as Hall.
  specialize (Hall ltac:(apply Forall_forall; by intros m [? _]%Hin)).
  destruct (format_entries maps) as [traces|]; simpl.
  - destruct Hall as [Hlen Hroots]. rewrite Forall_forall in Hroots.
    destruct traces as [|t traces].
    + apply Forall_forall. intros m Hm. destruct (decide (m = ∅)) as [|Hne]; [done|].
      assert (m ∈ maps) as Hmaps by by apply Hin.
      destruct maps; [by apply elem_of_nil in Hmaps|done].
    + split; [simpl; lia|]. split; [done|]. apply Forall_forall. intros m Hm.
      destruct (decide (m = ∅)) as [->|Hne]; [rewrite entry_roots_empty; lia|].
      apply Hroots. by apply Hin.
  - apply Exists_exists in Hall as (m & [_ Hm]%Hin & Hr). apply Exists_exists. eauto.
Qed.

(** Two calls in a row without a call around them, in one transaction, have both
    an empty address: the formatter panics on them. *)
Example two_roots_panic (profile : BuildProfile) :
  match emit_all Listener_default
    [Event_CallListNew;
     Event_Evm (EvmEvent_Call 1 None [] None false (mkEvmContext 1 2 0));
     Event_Evm (EvmEvent_Exit (Succeed Returned) []);
     Event_Evm (EvmEvent_Call 1 None [] None false (mkEvmContext 1 2 0));
     Event_Evm (EvmEvent_Exit (Succeed Returned) [])] with
  | Ret listener => call_tracer_format listener = Panic
  | Panic => False
  end.
Proof. by vm_compute. Qed.
