(* ===== verification/TraceJson.v ===== *)
(** * The JSON of traces: client/evm-tracing/src/types and formatters

    What the [Serialize] implementations of the result types write, as their
    attributes say (renamed, flattened, skipped, tagged and untagged), on top of the
    serializers of types/serialization.rs.  The serializers of [ethereum_types] are an
    interface. *)

From stdpp Require Import base tactics list gmap strings sorting.
From Stdlib Require Import ZArith Lia Strings.Byte.
From S2P Require Import Prelude Trees EvmEvents TraceTypes Serialization CallList CallListTypes.
From S2P Require Import CallTree CallListSpec CallTracer.
Local Open Scope Z_scope.

(** The strings of the integers and hashes of [ethereum_types], which tell their values
    apart. *)
Class EthereumSerde := {
  u256_string : U256 → bytes;
  h160_string : H160 → bytes;
  h256_string : H256 → bytes;
  u256_string_inj x y : uint 256 x → uint 256 y → u256_string x = u256_string y → x = y;
  h160_string_inj x y : uint 160 x → uint 160 y → h160_string x = h160_string y → x = y;
  h256_string_inj x y : uint 256 x → uint 256 y → h256_string x = h256_string y → x = y;
}.

(** Serializing one after the other, until an error. *)
Definition map_result {A B E} (f : A → result B E) : list A → result (list B) E :=
  fix go l :=
    match l with
    | [] => Ok []
    | a :: l => b ←? f a; bs ←? go l; Ok (b :: bs)
    end.

Abbreviation fields := (list (string * Json)).

(** A field, and one that is skipped when it is [None]. *)
Definition field (key : string) (j : Json) : string * Json := (key, j).
Definition opt_field (key : string) (j : option Json) : fields :=
  match j with Some j => [field key j] | None => [] end.

Section serialize.
Context `{!Unicode, !EthereumSerde}.

Definition JU256 (x : U256) : Json := JStr (u256_string x).
Definition JH160 (x : H160) : Json := JStr (h160_string x).
Definition JH256 (x : H256) : Json := JStr (h256_string x).

(** ** types/mod.rs *)

Definition CallType_serialize (t : CallType) : Json :=
  JStr (bytes_of match t with
                 | CallType_Call => "call"
                 | CallCode => "callcode"
                 | DelegateCall => "delegatecall"
                 | StaticCall => "staticcall"
                 end).
Definition CreateType_serialize (t : CreateType) : Json :=
  match t with CreateType_Create => JStr (bytes_of "create") end.

(** [CallResult], flattened: a field named by its variant. *)
Definition CallResult_serialize (r : CallResult) : result fields SerError :=
  match r with
  | CallResult_Output b => Ok [field "output" (bytes_0x_serialize b)]
  | CallResult_Error e => e ←? string_serialize e; Ok [field "error" e]
  end.

(** [CreateResult], flattened and untagged. *)
Definition CreateResult_serialize (r : CreateResult) : result fields SerError :=
  match r with
  | CreateResult_Error e => e ←? string_serialize e; Ok [field "error" e]
  | CreateResult_Success address code =>
      Ok [field "createdContractAddressHash" (JH160 address);
          field "createdContractCode" (bytes_0x_serialize code)]
  end.

(** ** formatters/blockscout.rs *)

Definition BlockscoutCallInner_serialize (i : BlockscoutCallInner) :
    result fields SerError :=
  match i with
  | CallInner_Call call_type to input res =>
      res ←? CallResult_serialize res;
      Ok ([field "type" (JStr (bytes_of "call"));
           field "callType" (CallType_serialize call_type);
           field "to" (JH160 to); field "input" (bytes_0x_serialize input)] ++ res)
  | CallInner_Create init res =>
      res ←? CreateResult_serialize res;
      Ok ([field "type" (JStr (bytes_of "create"));
           field "init" (bytes_0x_serialize init)] ++ res)
  | CallInner_SelfDestruct balance to =>
      Ok [field "type" (JStr (bytes_of "selfdestruct")); field "to" (JH160 to)]
  end.

Definition BlockscoutCall_serialize (c : BlockscoutCall) : result Json SerError :=
  inner ←? BlockscoutCallInner_serialize (bc_inner c);
  Ok (JObj ([field "from" (JH160 (bc_from c));
             field "traceAddress" (JSeq (JNum <$> bc_trace_address c));
             field "value" (JU256 (bc_value c)); field "gas" (JU256 (bc_gas c));
             field "gasUsed" (JU256 (bc_gas_used c))] ++ inner)).

(** ** formatters/call_tracer.rs *)

Definition CallTracerInner_serialize (i : CallTracerInner) : result fields SerError :=
  match i with
  | CallTracerInner_Call call_type to input res value =>
      call_type ←? opcode_serialize call_type;
      res ←? CallResult_serialize res;
      Ok ([field "type" call_type; field "to" (JH160 to);
           field "input" (bytes_0x_serialize input)] ++ res ++
          opt_field "value" (JU256 <$> value))
  | CallTracerInner_Create call_type input to output error value =>
      call_type ←? opcode_serialize call_type;
      output ←? match output with
                | Some _ => j ←? option_bytes_0x_serialize output; Ok (Some j)
                | None => Ok None
                end;
      error ←? match error with
               | Some _ => j ←? option_string_serialize error; Ok (Some j)
               | None => Ok None
               end;
      Ok ([field "type" call_type; field "input" (bytes_0x_serialize input)] ++
          opt_field "to" (JH160 <$> to) ++ opt_field "output" output ++
          opt_field "error" error ++ [field "value" (JU256 value)])
  | CallTracerInner_SelfDestruct call_type to value =>
      call_type ←? opcode_serialize call_type;
      Ok [field "type" call_type; field "to" (JH160 to); field "value" (JU256 value)]
  end.

(** [Call] of types/single.rs, untagged. *)
Definition CallOf_serialize {C} (f : C → result Json SerError) (c : CallOf C) :
    result Json SerError :=
  match c with
  | Call_Blockscout c => BlockscoutCall_serialize c
  | Call_CallTracer c => f c
  end.

(** No field [calls] without calls. *)
Definition calls_field (calls : list Json) : fields :=
  match calls with [] => [] | _ => [field "calls" (JSeq calls)] end.

Fixpoint CallTracerCall_serialize (c : CallTracerCall) : result Json SerError :=
  match c with
  | mkCallTracerCall from trace_address gas gas_used inner calls =>
      inner ←? CallTracerInner_serialize inner;
      calls ←? map_result (CallOf_serialize CallTracerCall_serialize) calls;
      Ok (JObj ([field "from" (JH160 from)] ++
                opt_field "traceAddress" ((λ a, JSeq (JNum <$> a)) <$> trace_address) ++
                [field "gas" (JU256 gas); field "gasUsed" (JU256 gas_used)] ++ inner ++
                calls_field calls))
  end.

Definition Call_serialize : Call → result Json SerError :=
  CallOf_serialize CallTracerCall_serialize.

(** ** types/single.rs *)

(** The storage is a map: its keys are the strings of the hashes, in their order. *)
Definition storage_serialize (m : gmap H256 H256) : Json :=
  JObj ((λ kv, field (String.string_of_list_byte (h256_string kv.1)) (JH256 kv.2)) <$>
        btree_iter m).

Definition RawStepLog_serialize (l : RawStepLog) : result Json SerError :=
  op ←? opcode_serialize (log_op l);
  Ok (JObj ([field "depth" (u256_serialize (log_depth l));
             field "gas" (u256_serialize (log_gas l));
             field "gasCost" (u256_serialize (log_gas_cost l))] ++
            opt_field "memory" ((λ m, seq_h256_serialize (Some m)) <$> log_memory l) ++
            [field "op" op; field "pc" (u256_serialize (log_pc l))] ++
            opt_field "stack" ((λ m, seq_h256_serialize (Some m)) <$> log_stack l) ++
            opt_field "storage" (storage_serialize <$> log_storage l))).

(** [TransactionTrace] of types/single.rs, untagged. *)
Definition SingleTrace_serialize (t : SingleTrace) : result Json SerError :=
  match t with
  | TransactionTrace_Raw gas return_value step_logs =>
      logs ←? map_result RawStepLog_serialize step_logs;
      Ok (JObj [field "gas" (JU256 gas); field "returnValue" (JStr (hex_encode return_value));
                field "stepLogs" (JSeq logs)])
  | TransactionTrace_CallList calls =>
      calls ←? map_result Call_serialize calls; Ok (JSeq calls)
  | TransactionTrace_CallListNested call => Call_serialize call
  end.

(** ** types/block.rs *)

(** Flattened, with the variant under [type] and its fields under [action]. *)
Definition TransactionTraceAction_serialize (a : TransactionTraceAction) : fields :=
  match a with
  | Action_Call call_type from gas input to value =>
      [field "type" (JStr (bytes_of "call"));
       field "action" (JObj [field "callType" (CallType_serialize call_type);
                             field "from" (JH160 from); field "gas" (JU256 gas);
                             field "input" (bytes_0x_serialize input);
                             field "to" (JH160 to); field "value" (JU256 value)])]
  | Action_Create creation_method from gas init value =>
      [field "type" (JStr (bytes_of "create"));
       field "action" (JObj [field "creationMethod" (CreateType_serialize creation_method);
                             field "from" (JH160 from); field "gas" (JU256 gas);
                             field "init" (bytes_0x_serialize init);
                             field "value" (JU256 value)])]
  | Action_Suicide address balance refund_address =>
      [field "type" (JStr (bytes_of "suicide"));
       field "action" (JObj [field "address" (JH160 address); field "balance" (JU256 balance);
                             field "refundAddress" (JH160 refund_address)])]
  end.

Definition TransactionTraceResult_serialize (r : TransactionTraceResult) : Json :=
  match r with
  | TraceResult_Call gas_used output =>
      JObj [field "gasUsed" (JU256 gas_used); field "output" (bytes_0x_serialize output)]
  | TraceResult_Create address code gas_used =>
      JObj [field "address" (JH160 address); field "code" (bytes_0x_serialize code);
            field "gasUsed" (JU256 gas_used)]
  | TraceResult_Suicide => JNull
  end.

Definition TransactionTraceOutput_serialize (o : TransactionTraceOutput) :
    result fields SerError :=
  match o with
  | TraceOutput_Result r => Ok [field "result" (TransactionTraceResult_serialize r)]
  | TraceOutput_Error e => e ←? string_serialize e; Ok [field "error" e]
  end.

Definition TransactionTrace_serialize (t : TransactionTrace) : result Json SerError :=
  output ←? TransactionTraceOutput_serialize (tt_output t);
  Ok (JObj (TransactionTraceAction_serialize (tt_action t) ++
            [field "blockHash" (h256_0x_serialize (tt_block_hash t));
             field "blockNumber" (JNum (tt_block_number t))] ++ output ++
            [field "subtraces" (JNum (tt_subtraces t));
             field "traceAddress" (JSeq (JNum <$> tt_trace_address t));
             field "transactionHash" (h256_0x_serialize (tt_transaction_hash t));
             field "transactionPosition" (JNum (tt_transaction_position t))])).

End serialize.

(** ** What is written tells the traces apart *)

Lemma bytes_0x_serialize_inj b1 b2 : bytes_0x_serialize b1 = bytes_0x_serialize b2 → b1 = b2.
Proof. intros [= Heq]. by apply hex_encode_inj. Qed.

Lemma JNum_seq_inj l1 l2 : JSeq (JNum <$> l1) = JSeq (JNum <$> l2) → l1 = l2.
Proof.
  intros [= Heq]. assert (Inj (=) (=) JNum) by by intros ?? [= ->].
  by apply (inj (fmap (M:=list) JNum)).
Qed.

Lemma h256_0x_serialize_inj h1 h2 :
  uint 256 h1 → uint 256 h2 → h256_0x_serialize h1 = h256_0x_serialize h2 → h1 = h2.
Proof.
  intros H1 H2 Heq. apply h256_hex_inj; [exact H1|exact H2|].
  unfold h256_0x_serialize in Heq. apply with_0x_inj. congruence.
Qed.

Lemma string_serialize_Ok e j : string_serialize e = Ok j → j = JStr e.
Proof. unfold string_serialize. destruct (utf8_decode e); congruence. Qed.

Section inj.
Context `{!Unicode, !EthereumSerde}.

Lemma JU256_inj x y : uint 256 x → uint 256 y → JU256 x = JU256 y → x = y.
Proof. intros Hx Hy [= Heq]. by apply u256_string_inj. Qed.
Lemma JH160_inj x y : uint 160 x → uint 160 y → JH160 x = JH160 y → x = y.
Proof. intros Hx Hy [= Heq]. by apply h160_string_inj. Qed.
Lemma CallType_serialize_inj t1 t2 : CallType_serialize t1 = CallType_serialize t2 → t1 = t2.
Proof. by destruct t1, t2. Qed.

End inj.


(** The widths of a block trace. *)
Definition action_typed (a : TransactionTraceAction) : Prop :=
  match a with
  | Action_Call _ from gas _ to value => uint 160 from ∧ uint 256 gas ∧ uint 160 to ∧ uint 256 value
  | Action_Create _ from gas _ value => uint 160 from ∧ uint 256 gas ∧ uint 256 value
  | Action_Suicide address balance refund => uint 160 address ∧ uint 256 balance ∧ uint 160 refund
  end.
Definition output_typed (o : TransactionTraceOutput) : Prop :=
  match o with
  | TraceOutput_Result (TraceResult_Call g _) => uint 256 g
  | TraceOutput_Result (TraceResult_Create a _ g) => uint 160 a ∧ uint 256 g
  | _ => True
  end.
Record trace_typed (t : TransactionTrace) : Prop := {
  trace_action_typed : action_typed (tt_action t);
  trace_output_typed : output_typed (tt_output t);
  trace_hash_typed : uint 256 (tt_block_hash t);
  trace_tx_typed : uint 256 (tt_transaction_hash t);
}.

(** Equal lists of fields have equal fields. *)
Lemma field_inj k j1 j2 (l1 l2 : fields) :
  field k j1 :: l1 = field k j2 :: l2 → j1 = j2 ∧ l1 = l2.
Proof. by intros [= -> ->]. Qed.
Lemma field_neq k1 k2 j1 j2 (l1 l2 : fields) :
  k1 ≠ k2 → field k1 j1 :: l1 ≠ field k2 j2 :: l2.
Proof. intros Hk [= Heq _ _]. done. Qed.
Lemma JObj_inj f1 f2 : JObj f1 = JObj f2 → f1 = f2.
Proof. by intros [= ->]. Qed.
Lemma JStr_inj s1 s2 : JStr s1 = JStr s2 → s1 = s2.
Proof. by intros [= ->]. Qed.
Lemma Ok_inj {A E} (a b : A) : @Ok A E a = Ok b → a = b.
Proof. by intros [= ->]. Qed.

(** Equality of objects, field by field, and of leaves, by their injectivity. *)
Ltac objects :=
  repeat match goal with
  | H : Ok _ = Ok _ |- _ => apply Ok_inj in H
  | H : JObj _ = JObj _ |- _ => apply JObj_inj in H
  | H : field ?k _ :: _ = field ?k _ :: _ |- _ => apply field_inj in H as [? H]
  | H : field ?k1 _ :: _ = field ?k2 _ :: _ |- _ =>
      exfalso; revert H; apply field_neq; discriminate
  | H : [] = field _ _ :: _ |- _ => discriminate H
  | H : field _ _ :: _ = [] |- _ => discriminate H
  | H : JStr (bytes_of _) = JStr (bytes_of _) |- _ => discriminate H
  | H : JStr ?a = JStr ?b |- _ => is_var a; is_var b; apply JStr_inj in H
  | H : string_serialize _ = Ok _ |- _ => apply string_serialize_Ok in H; subst
  | H : bytes_0x_serialize _ = bytes_0x_serialize _ |- _ => apply bytes_0x_serialize_inj in H
  | H : JSeq (JNum <$> _) = JSeq (JNum <$> _) |- _ => apply JNum_seq_inj in H
  | H : h256_0x_serialize _ = h256_0x_serialize _ |- _ =>
      apply h256_0x_serialize_inj in H; [|tauto..]
  | H : JU256 _ = JU256 _ |- _ => apply JU256_inj in H; [|tauto..]
  | H : JH160 _ = JH160 _ |- _ => apply JH160_inj in H; [|tauto..]
  | H : CallType_serialize _ = CallType_serialize _ |- _ => apply CallType_serialize_inj in H
  | H : JNum _ = JNum _ |- _ => injection H as H
  | H : ?x = ?x |- _ => clear H
  end.

Section block.
Context `{!Unicode, !EthereumSerde}.

Lemma action_serialize_inj a1 a2 (l1 l2 : fields) :
  action_typed a1 → action_typed a2 →
  TransactionTraceAction_serialize a1 ++ l1 = TransactionTraceAction_serialize a2 ++ l2 →
  a1 = a2 ∧ l1 = l2.
Proof.
  intros H1 H2 Heq. destruct a1 as [???? | |], a2; cbn [TransactionTraceAction_serialize app] in Heq;
    unfold action_typed in *; objects; subst; try done.
  by destruct creation_method, creation_method0.
Qed.

Lemma output_serialize_inj o1 o2 f1 f2 l1 l2 :
  output_typed o1 → output_typed o2 →
  TransactionTraceOutput_serialize o1 = Ok f1 → TransactionTraceOutput_serialize o2 = Ok f2 →
  f1 ++ l1 = f2 ++ l2 → o1 = o2 ∧ l1 = l2.
Proof.
  intros H1 H2 E1 E2 Heq.
  destruct o1 as [[]|e1], o2 as [[]|e2]; cbn [TransactionTraceOutput_serialize output_typed
    TransactionTraceResult_serialize] in *;
    try (destruct (string_serialize e1) eqn:Hs1; [|discriminate E1]);
    try (destruct (string_serialize e2) eqn:Hs2; [|discriminate E2]);
    objects; subst; cbn [app] in *; objects; subst; try done.
  all: discriminate.
Qed.

Lemma block_json_inj t1 t2 j :
  trace_typed t1 → trace_typed t2 →
  TransactionTrace_serialize t1 = Ok j → TransactionTrace_serialize t2 = Ok j → t1 = t2.
Proof.
  intros [A1 O1 B1 T1] [A2 O2 B2 T2]. destruct t1, t2. simpl in *.
  unfold TransactionTrace_serialize. simpl.
  destruct (TransactionTraceOutput_serialize tt_output) as [f1|] eqn:E1; [|done].
  destruct (TransactionTraceOutput_serialize tt_output0) as [f2|] eqn:E2; [|done].
  intros <-%Ok_inj Heq%Ok_inj. apply JObj_inj in Heq. symmetry in Heq.
  apply action_serialize_inj in Heq as [-> Heq]; [|done..]. cbn [app] in Heq. objects.
  eapply output_serialize_inj in Heq as [-> Heq]; [|done..]. objects. by subst.
Qed.

End block.

(** ** Opcodes *)

(** The upper case of a byte below 128. *)
Definition ascii_upper (b : Byte.byte) : Byte.byte :=
  let v := byte_val b in byte_of_Z (if (97 <=? v) && (v <=? 122) then v - 32 else v).
Definition is_ascii (l : bytes) : bool := forallb (λ b, byte_val b <? 0x80) l.

Lemma is_ascii_cons b l : is_ascii (b :: l) = true → byte_val b < 0x80 ∧ is_ascii l = true.
Proof. simpl. rewrite andb_true_iff, Z.ltb_lt. done. Qed.

Lemma utf8_decode_ascii l : is_ascii l = true → utf8_decode l = Some (byte_val <$> l).
Proof.
  induction l as [|b l IH]; intros Hl; [done|]. apply is_ascii_cons in Hl as [Hb Hl].
  cbn [utf8_decode]. rewrite (proj2 (Z.ltb_lt _ _) Hb), IH by done. done.
Qed.

Section opcodes.
Context `{!Unicode, !EthereumSerde}.

Lemma opcode_serialize_ascii l :
  is_ascii l = true → opcode_serialize l = Ok (JStr (ascii_upper <$> l)).
Proof.
  intros Hl. unfold opcode_serialize. rewrite utf8_decode_ascii by done. do 2 f_equal.
  unfold utf8_encode. induction l as [|b l IH]; [done|]. apply is_ascii_cons in Hl as [Hb Hl].
  rewrite !fmap_cons. cbn [mjoin list_join].
  rewrite (to_uppercase_known _ [if (97 <=? byte_val b) && (byte_val b <=? 122)
    then byte_val b - 32 else byte_val b]).
  2:{ unfold upper_ascii. by rewrite (proj2 (Z.ltb_lt _ _) Hb). }
  cbn [app fmap list_fmap mjoin list_join]. rewrite <-IH by done.
  change (utf8_char ?c ++ ?l) with (utf8_char c ++ l).
  assert (utf8_char (if (97 <=? byte_val b) && (byte_val b <=? 122)
    then byte_val b - 32 else byte_val b) = [ascii_upper b]) as ->; [|done].
  unfold utf8_char, ascii_upper. cbv zeta. rewrite (proj2 (Z.ltb_lt _ _)); [done|].
  destruct (_ && _); lia.
Qed.

(** The names of opcodes are written in upper case, and no two are written alike. *)
Lemma opcode_name_serialize o :
  0 ≤ o < 256 → opcode_serialize (opcodes_string o) = Ok (JStr (ascii_upper <$> opcodes_string o)).
Proof.
  intros Ho. apply opcode_serialize_ascii. revert o Ho.
  apply (all_bytes (λ o, is_ascii (opcodes_string o))). by vm_compute.
Qed.

Lemma opcode_name_inj o1 o2 :
  0 ≤ o1 < 256 → 0 ≤ o2 < 256 →
  ascii_upper <$> opcodes_string o1 = ascii_upper <$> opcodes_string o2 → o1 = o2.
Proof.
  intros H1 H2 Heq.
  assert (NoDup ((λ o, ascii_upper <$> opcodes_string o) <$> seqZ 0 256)) as Hnd
    by (refine (bool_decide_eq_true_1 _ _); vm_compute; done).
  assert (∀ o, 0 ≤ o < 256 →
    ((λ o, ascii_upper <$> opcodes_string o) <$> seqZ 0 256) !! Z.to_nat o =
    Some (ascii_upper <$> opcodes_string o)) as Hl.
  { intros o Ho. rewrite list_lookup_fmap, lookup_seqZ_lt by lia. simpl. do 3 f_equal. lia. }
  pose proof (Hl o1 H1) as Hl1. rewrite Heq in Hl1.
  pose proof (NoDup_lookup _ _ _ _ Hnd Hl1 (Hl o2 H2)). lia.
Qed.

Lemma call_type_name_serialize t :
  opcode_serialize (call_type_name t) = Ok (JStr (call_type_name t)).
Proof. rewrite opcode_serialize_ascii by by destruct t. by destruct t. Qed.
Lemma call_type_name_inj t1 t2 : JStr (call_type_name t1) = JStr (call_type_name t2) → t1 = t2.
Proof. by destruct t1, t2. Qed.

End opcodes.

(** ** The calls of a transaction *)

(** What Blockscout is not shown of a call. *)
Definition shown_call (b : BlockscoutCall) : BlockscoutCall :=
  mkBlockscoutCall (bc_from b) (bc_trace_address b) 0 (bc_value b) (bc_gas b) (bc_gas_used b)
    match bc_inner b with
    | CallInner_SelfDestruct _ to => CallInner_SelfDestruct 0 to
    | inner => inner
    end.

(** The widths the serializers need. *)
Lemma uint_weaken w1 w2 x : 0 ≤ w1 ≤ w2 → uint w1 x → uint w2 x.
Proof. intros Hw [H1 H2]. split; [done|]. pose proof (Z.pow_le_mono_r 2 w1 w2). lia. Qed.

Lemma map_result_cons {A B E} (f : A → result B E) a l js :
  map_result f (a :: l) = Ok js →
  ∃ j js', f a = Ok j ∧ map_result f l = Ok js' ∧ js = j :: js'.
Proof.
  simpl. destruct (f a) as [j|]; [|done]. fold (map_result f).
  destruct (map_result f l) as [js'|]; [|done]. intros [= <-]. eauto.
Qed.

(** A serializer that tells elements apart tells lists apart. *)
Lemma map_result_inj {A B E C} (f : A → result B E) (g : A → C) l1 l2 js :
  (∀ a1 a2 j, a1 ∈ l1 → a2 ∈ l2 → f a1 = Ok j → f a2 = Ok j → g a1 = g a2) →
  map_result f l1 = Ok js → map_result f l2 = Ok js → g <$> l1 = g <$> l2.
Proof.
  revert l2 js. induction l1 as [|a1 l1 IH]; intros l2 js Hinj H1 H2.
  - destruct l2; [done|]. apply map_result_cons in H2 as (? & ? & ? & ? & ->). done.
  - apply map_result_cons in H1 as (j & js1 & Hj & Hl1 & ->).
    destruct l2 as [|a2 l2]; [done|].
    apply map_result_cons in H2 as (j' & js2 & Hj' & Hl2 & [= <- <-]).
    rewrite !fmap_cons. f_equal; [by eapply Hinj; [left|left|..]|].
    eapply IH; [|done..]. intros b1 b2 ? Hb1 Hb2. apply Hinj; by right.
Qed.

Section calls.
Context `{!Unicode, !EthereumSerde}.

Lemma call_result_inj r1 r2 f1 f2 (l1 l2 : fields) :
  CallResult_serialize r1 = Ok f1 → CallResult_serialize r2 = Ok f2 →
  f1 ++ l1 = f2 ++ l2 → r1 = r2 ∧ l1 = l2.
Proof.
  intros E1 E2 Heq.
  destruct r1 as [o1|e1], r2 as [o2|e2]; cbn [CallResult_serialize] in *;
    try (destruct (string_serialize e1) eqn:Hs1; [|discriminate E1]);
    try (destruct (string_serialize e2) eqn:Hs2; [|discriminate E2]);
    objects; subst; cbn [app] in *; objects; by subst.
Qed.

Lemma create_result_inj r1 r2 f1 f2 :
  match r1 with CreateResult_Success a _ => uint 160 a | _ => True end →
  match r2 with CreateResult_Success a _ => uint 160 a | _ => True end →
  CreateResult_serialize r1 = Ok f1 → CreateResult_serialize r2 = Ok f2 → f1 = f2 → r1 = r2.
Proof.
  intros T1 T2 E1 E2 Heq.
  destruct r1 as [e1|a1 c1], r2 as [e2|a2 c2]; cbn [CreateResult_serialize] in *;
    try (destruct (string_serialize e1) eqn:Hs1; [|discriminate E1]);
    try (destruct (string_serialize e2) eqn:Hs2; [|discriminate E2]);
    objects; subst; objects; by subst.
Qed.

Lemma blockscout_json_inj b1 b2 j :
  call_typed b1 → call_typed b2 →
  BlockscoutCall_serialize b1 = Ok j → BlockscoutCall_serialize b2 = Ok j →
  shown_call b1 = shown_call b2.
Proof.
  intros [F1 A1 S1 V1 G1 U1 I1] [F2 A2 S2 V2 G2 U2 I2]. destruct b1, b2. simpl in *.
  apply (uint_weaken 64 256) in G1, G2, U1, U2; [|lia..].
  unfold BlockscoutCall_serialize, shown_call. simpl.
  destruct (BlockscoutCallInner_serialize bc_inner) as [j1|] eqn:E1; [|done].
  destruct (BlockscoutCallInner_serialize bc_inner0) as [j2|] eqn:E2; [|done].
  intros <-%Ok_inj Heq%Ok_inj. objects. subst. f_equal.
  destruct bc_inner as [t1 d1 i1 r1|i1 r1|w1 d1], bc_inner0 as [t2 d2 i2 r2|i2 r2|w2 d2];
    cbn [BlockscoutCallInner_serialize] in *;
    try (destruct (CallResult_serialize r1) eqn:R1; [|discriminate E1]);
    try (destruct (CallResult_serialize r2) eqn:R2; [|discriminate E2]);
    try (destruct (CreateResult_serialize r1) eqn:R1; [|discriminate E1]);
    try (destruct (CreateResult_serialize r2) eqn:R2; [|discriminate E2]);
    objects; subst; cbn [app] in *; objects; subst; try done.
  - by destruct (call_result_inj _ _ _ _ [] [] R1 R2 eq_refl) as [-> _].
  - by rewrite (create_result_inj _ _ _ _ I1 I2 R1 R2 eq_refl).
Qed.

End calls.

(** ** Nested calls *)

Lemma calls_field_inj js1 js2 : calls_field js1 = calls_field js2 → js1 = js2.
Proof. destruct js1, js2; simpl; intros Heq; by simplify_eq. Qed.

Lemma preorders_Forall {A} (P : A → Prop) l t :
  Forall P (preorders l) → t ∈ l → Forall P (preorder t).
Proof.
  rewrite !Forall_forall. intros Hall Ht a Ha. apply Hall, list_elem_of_join.
  exists (preorder t). split; [done|]. by apply list_elem_of_fmap_2.
Qed.

Section nested.
Context `{!Unicode, !EthereumSerde}.

Lemma create_name_serialize :
  opcode_serialize (bytes_of "CREATE") = Ok (JStr (bytes_of "CREATE")).
Proof. by rewrite opcode_serialize_ascii. Qed.
Lemma selfdestruct_name_serialize :
  opcode_serialize (bytes_of "SELFDESTRUCT") = Ok (JStr (bytes_of "SELFDESTRUCT")).
Proof. by rewrite opcode_serialize_ascii. Qed.

(** The fields of a create that failed or succeeded. *)
Lemma create_fields v init res f :
  CallTracerInner_serialize (call_tracer_inner v (CallInner_Create init res)) = Ok f →
  f = [field "type" (JStr (bytes_of "CREATE")); field "input" (bytes_0x_serialize init)] ++
      match res with
      | CreateResult_Success a c =>
          [field "to" (JH160 a); field "output" (bytes_0x_serialize c)]
      | CreateResult_Error e => [field "error" (JStr e)]
      end ++ [field "value" (JU256 v)].
Proof.
  cbn [call_tracer_inner CallTracerInner_serialize]. rewrite create_name_serialize.
  destruct res as [e|a c]; simpl; [|by intros [= <-]].
  destruct (string_serialize e) as [j|] eqn:Hs; [|done]. apply string_serialize_Ok in Hs as ->.
  by intros [= <-].
Qed.

Lemma tracer_inner_inj b1 b2 f1 f2 (l1 l2 : fields) :
  call_typed b1 → call_typed b2 →
  let inner b := call_tracer_inner (bc_value b) (bc_inner b) in
  CallTracerInner_serialize (inner b1) = Ok f1 →
  CallTracerInner_serialize (inner b2) = Ok f2 →
  f1 ++ l1 = f2 ++ l2 → inner b1 = inner b2 ∧ l1 = l2.
Proof.
  intros [_ _ _ V1 _ _ I1] [_ _ _ V2 _ _ I2]. cbv beta zeta.
  destruct (bc_inner b1) as [t1 d1 i1 r1|i1 r1|w1 d1],
    (bc_inner b2) as [t2 d2 i2 r2|i2 r2|w2 d2]; intros E1 E2 Heq;
    try (apply create_fields in E1 as ->); try (apply create_fields in E2 as ->);
    cbn [call_tracer_inner CallTracerInner_serialize] in *;
    rewrite ?call_type_name_serialize, ?selfdestruct_name_serialize in *;
    try (destruct (CallResult_serialize r1) as [g1|] eqn:R1; [|discriminate E1]);
    try (destruct (CallResult_serialize r2) as [g2|] eqn:R2; [|discriminate E2]);
    objects; subst; rewrite <-?(assoc_L (++)) in Heq; cbn [app] in Heq; objects;
    try (by destruct t1); try (by destruct t2).
  - match goal with H : JStr _ = JStr _ |- _ => apply call_type_name_inj in H end.
    apply (call_result_inj _ _ _ _ _ _ R1 R2) in Heq as [-> Heq]. cbn [opt_field fmap
      option_fmap option_map app] in Heq. objects. split; congruence.
  - destruct r1, r2; cbn [app] in Heq; objects; split; congruence.
  - split; congruence.
Qed.

(** The JSON of the nested calls of a tree determines them. *)
Lemma nest_json_inj t1 t2 j :
  Forall call_typed (preorder t1) → Forall call_typed (preorder t2) →
  CallTracerCall_serialize (nest t1) = Ok j → CallTracerCall_serialize (nest t2) = Ok j →
  nest t1 = nest t2.
Proof.
  revert t2 j. induction t1 as [b1 l1 IH] using rose_rect_Forall. intros [b2 l2] j.
  rewrite !preorder_Rose, !Forall_cons. intros [B1 L1] [B2 L2] E1 E2. simpl in E1, E2.
  destruct (CallTracerInner_serialize (call_tracer_inner (bc_value b1) (bc_inner b1)))
    as [f1|] eqn:F1; [|discriminate E1].
  destruct (CallTracerInner_serialize (call_tracer_inner (bc_value b2) (bc_inner b2)))
    as [f2|] eqn:F2; [|discriminate E2].
  destruct (map_result _ _) as [js1|] eqn:J1 in E1; [|discriminate E1].
  destruct (map_result _ _) as [js2|] eqn:J2 in E2; [|discriminate E2].
  apply Ok_inj in E1 as <-. apply Ok_inj in E2. 
  assert (uint 256 (bc_gas b1) ∧ uint 256 (bc_gas_used b1) ∧ uint 256 (bc_gas b2) ∧
    uint 256 (bc_gas_used b2)) as Hgas.
  { split_and!; eapply (uint_weaken 64); (lia || apply B1 || apply B2). }
  pose proof (call_from _ B1). pose proof (call_from _ B2).
  objects. apply (tracer_inner_inj b2 b1 _ _ _ _ B2 B1 F2 F1) in E2 as [Hin Hc].
  apply calls_field_inj in Hc as ->. simpl. rewrite Hin. f_equal; [congruence..|].
  rewrite <-(list_fmap_id ((Call_CallTracer ∘ nest) <$> l1)),
    <-(list_fmap_id ((Call_CallTracer ∘ nest) <$> l2)).
  eapply map_result_inj; [|exact J1|exact J2].
  intros c1 c2 i (u1 & -> & Hu1)%list_elem_of_fmap (u2 & -> & Hu2)%list_elem_of_fmap. simpl.
  intros K1 K2. unfold id. f_equal. rewrite Forall_forall in IH. eapply IH; [done| | |done..].
  - by apply (preorders_Forall _ l1).
  - by apply (preorders_Forall _ l2).
Qed.

End nested.

(** ** Raw logs *)

(** A log of a step: an opcode, words of 256 bits and counters that fit the 64 bits
    which are written. *)
Record log_typed (l : RawStepLog) : Prop := {
  log_depth_typed : uint 64 (log_depth l);
  log_gas_typed : uint 64 (log_gas l);
  log_cost_typed : uint 64 (log_gas_cost l);
  log_pc_typed : uint 64 (log_pc l);
  log_memory_typed : ∀ m, log_memory l = Some m → Forall (uint 256) m;
  log_stack_typed : ∀ m, log_stack l = Some m → Forall (uint 256) m;
  log_storage_typed : ∀ m, log_storage l = Some m →
    map_Forall (λ k v, uint 256 k ∧ uint 256 v) m;
  log_op_typed : ∃ o, 0 ≤ o < 256 ∧ log_op l = opcodes_string o;
}.

Lemma cons_inv {A} (a b : A) l1 l2 : a :: l1 = b :: l2 → a = b ∧ l1 = l2.
Proof. by intros [= -> ->]. Qed.

Lemma u256_serialize_inj x y :
  uint 64 x → uint 64 y → u256_serialize x = u256_serialize y → x = y.
Proof. unfold u256_serialize, uint. intros Hx Hy [= Heq]. by rewrite !Z.mod_small in Heq. Qed.

Lemma words_inj m1 m2 :
  Forall (uint 256) m1 → Forall (uint 256) m2 →
  seq_h256_serialize (Some m1) = seq_h256_serialize (Some m2) → m1 = m2.
Proof.
  intros H1 H2 Heq. assert ((λ h, JStr (h256_hex h)) <$> m1 = (λ h, JStr (h256_hex h)) <$> m2)
    as Heq' by (unfold seq_h256_serialize in Heq; congruence). clear Heq. revert m2 H2 Heq'.
  induction H1 as [|h1 m1 Hh1 _ IH]; intros m2 H2 Heq; destruct m2 as [|h2 m2]; [done..|].
  apply Forall_cons in H2 as [Hh2 H2]. rewrite !fmap_cons in Heq.
  apply cons_inv in Heq as [Hh Heq]. f_equal; [|by apply IH].
  apply h256_hex_inj; [exact Hh1|exact Hh2|]. congruence.
Qed.

Lemma btree_iter_inj {A} (m1 m2 : gmap Z A) : btree_iter m1 = btree_iter m2 → m1 = m2.
Proof.
  unfold btree_iter. intros Heq. apply map_to_list_inj.
  by rewrite <-(merge_sort_Permutation key_le (map_to_list m1)), Heq, merge_sort_Permutation.
Qed.

Lemma btree_iter_Forall {A} (P : Z → A → Prop) (m : gmap Z A) :
  map_Forall P m → Forall (λ x, P x.1 x.2) (btree_iter m).
Proof.
  intros Hm. unfold btree_iter. rewrite merge_sort_Permutation.
  apply Forall_forall. intros [k v] Hkv. by apply elem_of_map_to_list, Hm in Hkv.
Qed.

Section raw.
Context `{!Unicode, !EthereumSerde}.

Lemma storage_serialize_inj m1 m2 :
  map_Forall (λ k v, uint 256 k ∧ uint 256 v) m1 →
  map_Forall (λ k v, uint 256 k ∧ uint 256 v) m2 →
  storage_serialize m1 = storage_serialize m2 → m1 = m2.
Proof.
  intros H1%btree_iter_Forall H2%btree_iter_Forall Heq. apply btree_iter_inj.
  unfold storage_serialize in Heq. apply JObj_inj in Heq. revert H1 H2 Heq.
  generalize (btree_iter m1) (btree_iter m2). intros l1 l2 H1. revert l2.
  induction H1 as [|[k1 v1] l1 [Hk1 Hv1] _ IH]; intros l2 H2 Heq;
    destruct l2 as [|[k2 v2] l2]; [done..|].
  apply Forall_cons in H2 as [[Hk2 Hv2] H2]. rewrite !fmap_cons in Heq.
  apply cons_inv in Heq as [Hkv Heq]. f_equal; [|by apply IH]. simpl in *.
  assert (h256_string k1 = h256_string k2 ∧ h256_string v1 = h256_string v2) as [Hk Hv].
  { unfold field, JH256 in Hkv.
    rewrite <-(String.list_byte_of_string_of_list_byte (h256_string k1)).
    rewrite <-(String.list_byte_of_string_of_list_byte (h256_string k2)).
    split; congruence. }
  by rewrite (h256_string_inj k1 k2), (h256_string_inj v1 v2).
Qed.

(** Optional fields with different names, after and before other fields. *)
Lemma log_json_inj l1 l2 j :
  log_typed l1 → log_typed l2 →
  RawStepLog_serialize l1 = Ok j → RawStepLog_serialize l2 = Ok j → l1 = l2.
Proof.
  intros [D1 G1 C1 P1 M1 S1 T1 (o1 & O1 & Ho1)] [D2 G2 C2 P2 M2 S2 T2 (o2 & O2 & Ho2)].
  destruct l1 as [d1 g1 c1 m1 op1 p1 s1 t1], l2 as [d2 g2 c2 m2 op2 p2 s2 t2]. simpl in *.
  subst op1 op2. unfold RawStepLog_serialize. cbn [log_op].
  rewrite !opcode_name_serialize by done.
  cbn [log_depth log_gas log_gas_cost log_memory log_pc log_stack log_storage].
  intros <-%Ok_inj Heq%Ok_inj.
  assert (d1 = d2 ∧ g1 = g2 ∧ c1 = c2 ∧ p1 = p2 ∧ o1 = o2 ∧ m1 = m2 ∧ s1 = s2 ∧ t1 = t2)
    as (-> & -> & -> & -> & -> & -> & -> & ->); [|done].
  destruct m1, m2, s1, s2, t1, t2;
    cbn [app opt_field fmap option_fmap option_map] in Heq; objects;
    repeat match goal with
    | H : u256_serialize _ = u256_serialize _ |- _ => apply u256_serialize_inj in H; [|done..]
    | H : seq_h256_serialize _ = seq_h256_serialize _ |- _ =>
        apply words_inj in H; [|by auto..]
    | H : storage_serialize _ = storage_serialize _ |- _ =>
        apply storage_serialize_inj in H; [|by auto..]
    | H : JStr (ascii_upper <$> _) = JStr (ascii_upper <$> _) |- _ =>
        apply JStr_inj, opcode_name_inj in H; [|done..]
    end; subst; done.
Qed.

End raw.

(** ** Answers *)

(** The traces of the formatters: logs of steps, calls for Blockscout and nested calls. *)
Inductive answer : SingleTrace → Prop :=
| answer_raw gas rv logs :
    uint 256 gas → Forall log_typed logs → answer (TransactionTrace_Raw gas rv logs)
| answer_list cs :
    Forall call_typed cs → answer (TransactionTrace_CallList (Call_Blockscout <$> cs))
| answer_nested t :
    Forall call_typed (preorder t) → answer (nested t).

(** What of a trace is written. *)
Definition shown (t : SingleTrace) : SingleTrace :=
  match t with
  | TransactionTrace_CallList calls =>
      TransactionTrace_CallList
        ((λ c, match c with Call_Blockscout b => Call_Blockscout (shown_call b) | _ => c end)
         <$> calls)
  | _ => t
  end.

Section answers.
Context `{!Unicode, !EthereumSerde}.

(** The three kinds are told apart by the first field or the brackets. *)
Lemma single_json_shape t j :
  answer t → SingleTrace_serialize t = Ok j →
  match t with
  | TransactionTrace_Raw _ _ _ => ∃ v l, j = JObj (field "gas" v :: l)
  | TransactionTrace_CallList _ => ∃ l, j = JSeq l
  | TransactionTrace_CallListNested _ => ∃ v l, j = JObj (field "from" v :: l)
  end.
Proof.
  intros [gas rv logs _ _|cs _|[b l] _]; simpl.
  - destruct (map_result _ _); [|done]. intros <-%Ok_inj. by eexists _, _.
  - destruct (map_result _ _); [|done]. intros <-%Ok_inj. by eexists.
  - destruct (CallTracerInner_serialize _); [|done]. destruct (map_result _ _); [|done].
    intros <-%Ok_inj. by eexists _, _.
Qed.

Lemma list_json_inj cs1 cs2 j :
  Forall call_typed cs1 → Forall call_typed cs2 →
  map_result Call_serialize (Call_Blockscout <$> cs1) = Ok j →
  map_result Call_serialize (Call_Blockscout <$> cs2) = Ok j →
  shown_call <$> cs1 = shown_call <$> cs2.
Proof.
  rewrite !Forall_forall. intros H1 H2.
  assert (∀ cs, map_result Call_serialize (Call_Blockscout <$> cs) =
    map_result BlockscoutCall_serialize cs) as Hmap.
  { induction cs as [|c cs IH]; [done|]. rewrite fmap_cons. unfold map_result in *. by rewrite IH. }
  rewrite !Hmap. apply map_result_inj. intros c1 c2 i Hc1 Hc2. apply blockscout_json_inj; auto.
Qed.

Lemma logs_json_inj l1 l2 j :
  Forall log_typed l1 → Forall log_typed l2 →
  map_result RawStepLog_serialize l1 = Ok j → map_result RawStepLog_serialize l2 = Ok j →
  l1 = l2.
Proof.
  rewrite !Forall_forall. intros H1 H2 E1 E2.
  rewrite <-(list_fmap_id l1), <-(list_fmap_id l2). eapply map_result_inj; [|done..].
  intros c1 c2 i Hc1 Hc2. apply log_json_inj; auto.
Qed.

Lemma single_json_inj t1 t2 j :
  answer t1 → answer t2 →
  SingleTrace_serialize t1 = Ok j → SingleTrace_serialize t2 = Ok j → shown t1 = shown t2.
Proof.
  intros A1 A2 E1 E2. pose proof (single_json_shape _ _ A1 E1) as S1.
  pose proof (single_json_shape _ _ A2 E2) as S2.
  destruct A1 as [g1 rv1 l1 G1 L1|cs1 C1|u1 T1], A2 as [g2 rv2 l2 G2 L2|cs2 C2|u2 T2];
    try (destruct S1 as (? & ? & ->), S2 as (? & ? & S2); by objects);
    try (destruct S1 as (? & ->), S2 as (? & ? & S2); discriminate S2);
    try (destruct S1 as (? & ? & ->), S2 as (? & S2); discriminate S2); clear S1 S2.
  - simpl in *. destruct (map_result _ _) eqn:J1 in E1; [|done].
    destruct (map_result _ _) eqn:J2 in E2; [|done]. apply Ok_inj in E1 as <-.
    objects. subst.
    repeat match goal with
    | H : JStr (hex_encode _) = _ |- _ => apply JStr_inj, hex_encode_inj in H
    | H : JSeq _ = JSeq _ |- _ => injection H as H
    end. subst. by rewrite (logs_json_inj l1 l2 _ L1 L2 J1 J2).
  - simpl in *. destruct (map_result _ _) eqn:J1 in E1; [|done].
    destruct (map_result _ _) eqn:J2 in E2; [|done]. apply Ok_inj in E1 as <-.
    injection E2 as ->. f_equal. rewrite <-!list_fmap_compose.
    pose proof (list_json_inj _ _ _ C1 C2 J1 J2) as Heq.
    apply (f_equal (fmap (M:=list) (@Call_Blockscout CallTracerCall))) in Heq.
    by rewrite <-!list_fmap_compose in Heq.
  - simpl in *. unfold nested. by rewrite (nest_json_inj u1 u2 j).
Qed.

(** C18: what is answered in JSON determines the trace: equal objects are written for
    equal block traces, equal logs of steps and equal nested calls, and for Blockscout
    for calls that differ at most in the number of sub-calls and the balance of a
    self-destruct, which it is not shown. *)
Theorem trace_json_determines :
  (∀ t1 t2 j, trace_typed t1 → trace_typed t2 →
     TransactionTrace_serialize t1 = Ok j → TransactionTrace_serialize t2 = Ok j → t1 = t2) ∧
  (∀ t1 t2 j, answer t1 → answer t2 →
     SingleTrace_serialize t1 = Ok j → SingleTrace_serialize t2 = Ok j → shown t1 = shown t2).
Proof. split; [apply block_json_inj|apply single_json_inj]. Qed.

End answers.

(** ** Witness *)

Module JsonExample.

(** Upper case beyond ASCII left as it is, and big-endian hexadecimal strings. *)
#[global] Instance unicode : Unicode.
Proof.
  refine {| to_uppercase := λ c, default [c] (upper_ascii c) |}. by intros c u ->.
Defined.

Lemma hex_inj n x y :
  uint (8 * Z.of_nat n) x → uint (8 * Z.of_nat n) y →
  hex_encode (be_bytes n x) = hex_encode (be_bytes n y) → x = y.
Proof.
  unfold uint. rewrite !Z.pow_mul_r by lia. intros Hx Hy Heq%hex_encode_inj.
  by rewrite <-(be_bytes_value n x), Heq, be_bytes_value.
Qed.

#[global] Instance serde : EthereumSerde.
Proof.
  refine {| u256_string x := hex_encode (be_bytes 32 x);
            h160_string x := hex_encode (be_bytes 20 x);
            h256_string x := hex_encode (be_bytes 32 x) |}.
  - apply (hex_inj 32).
  - apply (hex_inj 20).
  - apply (hex_inj 32).
Defined.

Definition call : BlockscoutCall :=
  mkBlockscoutCall 1 [0; 2] 3 4 5 6 (CallInner_Call CallType_Call 7 [] (CallResult_Output [])).
Definition other : BlockscoutCall := 
  mkBlockscoutCall 1 [0; 2] 8 4 5 6 (CallInner_Call CallType_Call 7 [] (CallResult_Output [])).

Lemma typed n : uint 32 n → call_typed
  (mkBlockscoutCall 1 [0; 2] n 4 5 6 (CallInner_Call CallType_Call 7 [] (CallResult_Output []))).
Proof.
  intros Hn. constructor; simpl; try done; try (unfold uint; lia).
  repeat (apply Forall_cons; split; [unfold uint; lia|]). by apply Forall_nil.
Qed.

End JsonExample.

Lemma trace_json_determines_witness :
  shown (TransactionTrace_CallList [Call_Blockscout JsonExample.call]) =
  shown (TransactionTrace_CallList [Call_Blockscout JsonExample.other]).
Proof.
  refine (proj2 trace_json_determines _ _ _ _ _ _ _).
  - apply (answer_list [JsonExample.call]). constructor; [|constructor].
    by apply JsonExample.typed.
  - apply (answer_list [JsonExample.other]). constructor; [|constructor].
    by apply JsonExample.typed.
  - vm_compute. reflexivity.
  - vm_compute. reflexivity.
Defined.
