(* ===== verification/Formatters.v ===== *)
(** * The flat formatters: formatters/blockscout.rs and formatters/trace_filter.rs

    Both list the entries of the call list in key order: Blockscout's those of
    the last transaction, trace_filter's those of every transaction, as
    OpenEthereum's block traces. *)

From stdpp Require Import base tactics list gmap strings sorting.
From Stdlib Require Import ZArith Lia Strings.Byte.
From S2P Require Import Prelude Trees EvmEvents TraceTypes CallList CallTree CallListSpec.
From S2P Require Import CallTracer.
Local Open Scope Z_scope.

(** [ResponseFormatter] of formatters/mod.rs. *)
Class ResponseFormatter (L R : Type) := format : L → outcome (option R).

(** [Formatter::format] of blockscout.rs. *)
Definition blockscout_format (listener : CallListListener) : option SingleTrace :=
  match last (entries listener) with
  | Some entry => Some (TransactionTrace_CallList (Call_Blockscout <$> btree_values entry))
  | None => None
  end.

(** The fields of a block trace that follow from the kind of the entry. *)
Definition trace_action (trace : BlockscoutCall) : TransactionTraceAction :=
  match bc_inner trace with
  | CallInner_Call call_type to input _ =>
      Action_Call call_type (bc_from trace) (bc_gas trace) input to (bc_value trace)
  | CallInner_Create init _ =>
      Action_Create CreateType_Create (bc_from trace) (bc_gas trace) init (bc_value trace)
  | CallInner_SelfDestruct balance to => Action_Suicide (bc_from trace) balance to
  end.

Definition trace_output (trace : BlockscoutCall) : TransactionTraceOutput :=
  match bc_inner trace with
  | CallInner_Call _ _ _ (CallResult_Output output) =>
      TraceOutput_Result (TraceResult_Call (bc_gas_used trace) output)
  | CallInner_Call _ _ _ (CallResult_Error error) => TraceOutput_Error error
  | CallInner_Create _ (CreateResult_Success address code) =>
      TraceOutput_Result (TraceResult_Create address code (bc_gas_used trace))
  | CallInner_Create _ (CreateResult_Error error) => TraceOutput_Error error
  | CallInner_SelfDestruct _ _ => TraceOutput_Result TraceResult_Suicide
  end.

(** The block trace of an entry of transaction [eth_tx_index] ([as u32]). *)
Definition to_transaction_trace (eth_tx_index : nat) (trace : BlockscoutCall) :
    TransactionTrace := {|
  tt_action := trace_action trace;
  tt_block_hash := 0;
  tt_block_number := 0;
  tt_output := trace_output trace;
  tt_subtraces := bc_subtraces trace;
  tt_trace_address := bc_trace_address trace;
  tt_transaction_hash := 0;
  tt_transaction_position := Z.of_nat eth_tx_index mod 2 ^ 32;
|}.

(** [Formatter::format] of trace_filter.rs. *)
Definition trace_filter_format (listener : CallListListener) :
    option (list TransactionTrace) :=
  let entries := filter (λ x, x ≠ ∅) (entries listener) in
  Some (mjoin (imap (λ eth_tx_index entry,
    to_transaction_trace eth_tx_index <$> btree_values entry) entries)).

#[global] Instance Blockscout_Formatter : ResponseFormatter CallListListener SingleTrace :=
  λ l, Ret (blockscout_format l).
#[global] Instance CallTracer_Formatter :
  ResponseFormatter CallListListener (list SingleTrace) := call_tracer_format.
#[global] Instance TraceFilter_Formatter :
  ResponseFormatter CallListListener (list TransactionTrace) :=
  λ l, Ret (trace_filter_format l).

(** ** Theorems *)

Section theorems.
Context `{!BuildProfile}.

(** Tracing a single well-formed transaction and formatting the result for
    Blockscout gives the calls of its tree in pre-order. *)
Theorem blockscout_transaction tx :
  tx_ok tx = true → tx_size tx < 2 ^ 32 →
  (s ← emit_all Listener_default (tx_events tx);
   s ← finish_transaction s; Ret (blockscout_format s)) =
  Ret (Some (TransactionTrace_CallList
    (Call_Blockscout <$> preorder (tx_tree 0 0 tx)))).
Proof.
  intros Hok Hlt. destruct (single_tx_run tx Hok Hlt) as (s & Hrun & He & Hs & Ho).
  rewrite Hrun. cbn [mbind outcome_bind]. rewrite finish_transaction_idle by done.
  cbn [mbind outcome_bind]. unfold blockscout_format. rewrite He.
  change (last [?m]) with (Some m). cbv beta iota. by rewrite btree_values_index_map.
Qed.

(** Tracing a block of well-formed transactions and formatting the result
    for trace_filter gives the calls of all transactions, each in pre-order and
    in the order of the transactions, with the transaction's index as its
    position. *)
Theorem trace_filter_block txs :
  forallb tx_ok txs = true → block_size txs < 2 ^ 32 →
  (s ← emit_all Listener_default (block_events txs);
   s ← finish_transaction s; Ret (trace_filter_format s)) =
  Ret (Some (mjoin (imap (λ i t, to_transaction_trace i <$> preorder t)
    (block_trees 0 0 txs)))).
Proof.
  intros Hok Hlt. destruct (block_run txs Hok Hlt) as (s & Hrun & He & Hs & Ho).
  rewrite Hrun. cbn [mbind outcome_bind]. rewrite finish_transaction_idle by done.
  cbn [mbind outcome_bind]. unfold trace_filter_format.
  rewrite He, block_maps_nonempty. do 3 f_equal.
  transitivity (imap (λ i (l : list BlockscoutCall), to_transaction_trace i <$> l)
    (preorder <$> block_trees 0 0 txs : list (list BlockscoutCall)));
    [|by rewrite imap_fmap].
  by rewrite <-block_maps_values, imap_fmap.
Qed.

End theorems.

(** A transaction that recorded no entry takes no position: the entries of
    the transaction after it are given the position it has in the block. *)
Theorem trace_filter_skips_empty listener m t :
  entries listener = [∅; m] → btree_values m = preorder t →
  trace_filter_format listener = Some (to_transaction_trace 0 <$> preorder t).
Proof.
  intros He Hm. unfold trace_filter_format. rewrite He.
  assert (m ≠ ∅) as Hne.
  { intros ->. destruct t. change (btree_values ∅) with (@nil BlockscoutCall) in Hm.
    discriminate Hm. }
  rewrite filter_cons, decide_False by (intros []; done).
  rewrite filter_cons, decide_True, filter_nil by done.
  cbn zeta. simpl. by rewrite Hm, app_nil_r.
Qed.

(** ** Witnesses *)

Lemma blockscout_transaction_witness :
  (s ← @emit_all _ (@CallList_Listener dev) Listener_default (tx_events Example.tx);
   s ← @finish_transaction dev s; Ret (blockscout_format s)) =
  Ret (Some (TransactionTrace_CallList
    (Call_Blockscout <$> preorder (tx_tree 0 0 Example.tx)))).
Proof. apply (@blockscout_transaction dev); vm_compute; reflexivity. Defined.

Lemma trace_filter_block_witness :
  (s ← @emit_all _ (@CallList_Listener dev) Listener_default
         (block_events [Example.failed; Example.tx]);
   s ← @finish_transaction dev s; Ret (trace_filter_format s)) =
  Ret (Some (mjoin (imap (λ i t, to_transaction_trace i <$> preorder t)
    (block_trees 0 0 [Example.failed; Example.tx])))).
Proof. apply (@trace_filter_block dev); vm_compute; reflexivity. Defined.

Lemma trace_filter_skips_empty_witness :
  trace_filter_format
    (set_entries [∅; index_map 0 (preorder (tx_tree 0 0 Example.tx))] Listener_default) =
  Some (to_transaction_trace 0 <$> preorder (tx_tree 0 0 Example.tx)).
Proof.
  apply (trace_filter_skips_empty _ (index_map 0 (preorder (tx_tree 0 0 Example.tx))));
    [reflexivity|apply btree_values_index_map].
Defined.
