(* ===== verification/RawListener.v ===== *)
(** * The raw listener: client/evm-tracing/src/listeners/raw.rs and formatters/raw.rs

    The listener of opcode-level traces: one log per executed step, with the
    depth, gas, memory, stack and the storage slots the context has touched. *)

From stdpp Require Import base tactics list gmap strings.
From Stdlib Require Import ZArith Lia Strings.Byte.
From S2P Require Import Prelude EvmEvents TraceTypes Formatters.
Local Open Scope Z_scope.

Record RawStep := mkRawStep {
  step_opcode : bytes;
  step_depth : Z;
  step_gas : Z;
  step_gas_cost : Z;
  step_position : Z;
  step_memory : option bytes;
  step_stack : option (list H256);
}.

Record RawContext := mkRawContext {
  storage_cache : gmap H256 H256;
  context_address : H160;
  current_step : option RawStep;
  global_storage_changes : gmap H160 (gmap H256 H256);
}.

(** [raw_stack] is kept with its top (the last element of the vector) first. *)
Record RawL := mkRawL {
  disable_storage : bool;
  disable_memory : bool;
  disable_stack : bool;
  new_context : bool;
  raw_stack : list RawContext;
  step_logs : list RawStepLog;
  raw_return_value : bytes;
  final_gas : Z;
}.

(** [Listener::new]. *)
Definition RawL_new (disable_storage disable_memory disable_stack : bool) : RawL := {|
  disable_storage := disable_storage;
  disable_memory := disable_memory;
  disable_stack := disable_stack;
  new_context := false;
  raw_stack := [];
  step_logs := [];
  raw_return_value := [];
  final_gas := 0;
|}.

Definition set_new_context b l := mkRawL (disable_storage l) (disable_memory l)
  (disable_stack l) b (raw_stack l) (step_logs l) (raw_return_value l) (final_gas l).
Definition set_raw_stack st l := mkRawL (disable_storage l) (disable_memory l)
  (disable_stack l) (new_context l) st (step_logs l) (raw_return_value l) (final_gas l).
Definition push_step_log log l := mkRawL (disable_storage l) (disable_memory l)
  (disable_stack l) (new_context l) (raw_stack l) (step_logs l ++ [log])
  (raw_return_value l) (final_gas l).
Definition set_return_value rv l := mkRawL (disable_storage l) (disable_memory l)
  (disable_stack l) (new_context l) (raw_stack l) (step_logs l) rv (final_gas l).
Definition set_final_gas g l := mkRawL (disable_storage l) (disable_memory l)
  (disable_stack l) (new_context l) (raw_stack l) (step_logs l) (raw_return_value l) g.

Definition set_current_step s c :=
  mkRawContext (storage_cache c) (context_address c) s (global_storage_changes c).
Definition set_storage_cache m c :=
  mkRawContext m (context_address c) (current_step c) (global_storage_changes c).
Definition set_storage_changes m c :=
  mkRawContext (storage_cache c) (context_address c) (current_step c) m.
Definition set_step_gas g cost s := mkRawStep (step_opcode s) (step_depth s) g cost
  (step_position s) (step_memory s) (step_stack s).

(** ** Storage *)

(** The update of the parent's cache: every key it tracks takes the value the
    sub-context left, when it left one. *)
Definition update_cache (storage cache : gmap H256 H256) : gmap H256 H256 :=
  map_imap (λ cached_key cached_value, Some (default cached_value (storage !! cached_key)))
    cache.

(** One round of the loop over the storage changes of the sub-context. *)
Definition apply_change (address : H160) (storage : gmap H256 H256) (parent : RawContext) :
    RawContext :=
  if decide (context_address parent = address)
  then set_storage_cache (update_cache storage (storage_cache parent)) parent
  else set_storage_changes
         (<[address := storage ∪ default ∅ (global_storage_changes parent !! address)]>
            (global_storage_changes parent)) parent.

(** The changes of a sub-context that succeeded, applied to its parent. *)
Definition apply_storage_changes (context parent : RawContext) : RawContext :=
  let changes := <[context_address context := storage_cache context]>
                   (global_storage_changes context) in
  foldl (λ parent '(address, storage), apply_change address storage parent) parent
    (btree_iter changes).

(** ** Handlers *)

Section handlers.
Context `{!BuildProfile}.

Definition record_cost (cost : Z) (snapshot : Snapshot) (l : RawL) : outcome RawL :=
  match raw_stack l with
  | context :: stack =>
      context ←
        match current_step context with
        | Some step =>
            g ← Snapshot_gas snapshot;
            Ret (set_current_step (Some (set_step_gas g cost step)) context)
        | None => Ret context
        end;
      Ret (set_final_gas (used_gas snapshot) (set_raw_stack (context :: stack) l))
  | [] => Ret l
  end.

(** [Listener::gasometer_event]. *)
Definition raw_gasometer_event (l : RawL) (event : GasometerEvent) : outcome RawL :=
  match event with
  | RecordTransaction cost _ => Ret (set_final_gas cost (set_new_context true l))
  | RecordCost cost snapshot => record_cost cost snapshot l
  | RecordDynamicCost gas_cost _ _ snapshot => record_cost gas_cost snapshot l
  | _ => Ret l
  end.

(** [Option::expect]. *)
Definition expect {A} (o : option A) : outcome A :=
  match o with Some a => Ret a | None => Panic end.

(** The arm of [RuntimeEvent::Step]. *)
Definition raw_step (context : EvmContext) (opcode : bytes) (position : result Z ExitReason)
    (stack : option Stack) (memory : option Memory) (l : RawL) : outcome RawL :=
  let l :=
    if new_context l then
      let l := set_new_context false l in
      set_raw_stack (mkRawContext ∅ (address context) None ∅ :: raw_stack l) l
    else l in
  let depth := zlen (raw_stack l) in
  match raw_stack l with
  | context :: rest =>
      memory ← (if disable_memory l then Ret None
                else memory ← expect memory; Ret (Some (data_memory memory)));
      stack ← (if disable_stack l then Ret None
               else stack ← expect stack; Ret (Some (data_stack stack)));
      Ret (set_raw_stack
        (set_current_step (Some {|
           step_opcode := opcode;
           step_depth := depth;
           step_gas := 0;
           step_gas_cost := 0;
           step_position := match position with Ok position => position | Err _ => 0 end;
           step_memory := memory;
           step_stack := stack |}) context :: rest) l)
  | [] => Ret l
  end.

(** The log of a step: the first part of the arm of [RuntimeEvent::StepResult]. *)
Definition log_step (l : RawL) : RawL :=
  match raw_stack l with
  | context :: stack =>
      match current_step context with
      | Some step =>
          let storage := if disable_storage l then None else Some (storage_cache context) in
          push_step_log {|
            log_depth := step_depth step;
            log_gas := step_gas step;
            log_gas_cost := step_gas_cost step;
            log_memory := convert_memory <$> step_memory step;
            log_op := step_opcode step;
            log_pc := step_position step;
            log_stack := step_stack step;
            log_storage := storage |}
            (set_raw_stack (set_current_step None context :: stack) l)
      | None => l
      end
  | [] => l
  end.

(** The exit of a context. *)
Definition exit_context (reason : ExitReason) (return_value : bytes) (l : RawL) : RawL :=
  match raw_stack l with
  | context :: stack =>
      let l := set_raw_stack stack l in
      let l := match stack with [] => set_return_value return_value l | _ => l end in
      match disable_storage l, reason, stack with
      | false, Succeed _, parent_context :: stack =>
          set_raw_stack (apply_storage_changes context parent_context :: stack) l
      | _, _, _ => l
      end
  | [] => l
  end.

(** [Listener::runtime_event]. *)
Definition raw_runtime_event (l : RawL) (event : RuntimeEvent) : outcome RawL :=
  match event with
  | Step context opcode position stack memory =>
      raw_step context opcode position stack memory l
  | StepResult result return_value =>
      let l := log_step l in
      match result with
      | Err (Exit reason) => Ret (exit_context reason return_value l)
      | Err (Trap opcode) =>
          if bool_decide (is_Some (ContextType_from opcode))
          then Ret (set_new_context true l)
          else Ret l
      | _ => Ret l
      end
  | SLoad _ index value | SStore _ index value =>
      match raw_stack l with
      | context :: stack =>
          if negb (disable_storage l) then
            Ret (set_raw_stack
              (set_storage_cache (<[index := value]> (storage_cache context)) context
                 :: stack) l)
          else Ret l
      | [] => Ret l
      end
  end.

(** [impl ListenerT for Listener]. *)
Definition raw_event (l : RawL) (event : Event) : outcome RawL :=
  match event with
  | Event_Gasometer e => raw_gasometer_event l e
  | Event_Runtime e => raw_runtime_event l e
  | _ => Ret l
  end.

Definition raw_step_event_filter (l : RawL) : StepEventFilter :=
  {| enable_memory := negb (disable_memory l); enable_stack := negb (disable_stack l) |}.

#[global] Instance Raw_Listener : Listener RawL := {|
  event := raw_event;
  step_event_filter := raw_step_event_filter;
|}.

End handlers.

(** [Formatter::format] of formatters/raw.rs. *)
Definition raw_format (listener : RawL) : option SingleTrace :=
  Some (TransactionTrace_Raw (final_gas listener) (raw_return_value listener)
          (step_logs listener)).

#[global] Instance Raw_Formatter : ResponseFormatter RawL SingleTrace :=
  λ l, Ret (raw_format l).
