(* ===== verification/RawSpec.v ===== *)
(** * The raw listener against executions

    Executions of nested contexts, step by step, with the log each step has to
    leave; and the proof that the listener of raw.rs (RawListener.v) writes
    these logs.  Further: the listener never panics on the events made for it,
    honours its flags, and keeps its storage maps consistent. *)

From stdpp Require Import base tactics list sorting gmap strings.
From Stdlib Require Import ZArith Lia Strings.Byte.
From S2P Require Import Prelude EvmEvents TraceTypes CallTree CallListSpec.
From S2P Require Import Formatters RawListener.
Local Open Scope Z_scope.

(** ** Executions *)

Record StepData := mkStepData {
  sd_context : EvmContext;
  sd_opcode : bytes;
  sd_position : result Z ExitReason;
  sd_stack : option Stack;
  sd_memory : option Memory;
}.

(** What happens between a step and its result, or between two steps. *)
Inductive mid :=
| MGas (e : GasometerEvent)
| MLoad (address : H160) (index value : H256)
| MStore (address : H160) (index value : H256)
| MEvm (e : EvmEvent).

(** The rest of the execution of a context: steps that go on, a step that opens
    a context and resumes after it, and the step that ends the context. *)
Inductive rexec :=
| XDone (sd : StepData) (during : list mid) (reason : ExitReason) (rv : bytes)
| XStep (sd : StepData) (during : list mid) (rv : bytes) (k : rexec)
| XCall (sd : StepData) (during : list mid) (opcode rv : bytes) (between : list mid)
    (sub k : rexec).

Definition step_event (sd : StepData) : Event :=
  Event_Runtime (Step (sd_context sd) (sd_opcode sd) (sd_position sd) (sd_stack sd)
    (sd_memory sd)).

Definition mid_event (m : mid) : Event :=
  match m with
  | MGas e => Event_Gasometer e
  | MLoad a i v => Event_Runtime (SLoad a i v)
  | MStore a i v => Event_Runtime (SStore a i v)
  | MEvm e => Event_Evm e
  end.

Fixpoint x_events (x : rexec) : list Event :=
  match x with
  | XDone sd during reason rv =>
      step_event sd :: (mid_event <$> during) ++
      [Event_Runtime (StepResult (Err (Exit reason)) rv)]
  | XStep sd during rv k =>
      step_event sd :: (mid_event <$> during) ++
      Event_Runtime (StepResult (Ok tt) rv) :: x_events k
  | XCall sd during opcode rv between sub k =>
      step_event sd :: (mid_event <$> during) ++
      Event_Runtime (StepResult (Err (Trap opcode)) rv) :: (mid_event <$> between) ++
      x_events sub ++ x_events k
  end.

(** The step that starts an execution, and how it ends. *)
Definition x_first (x : rexec) : StepData :=
  match x with XDone sd _ _ _ | XStep sd _ _ _ | XCall sd _ _ _ _ _ _ => sd end.
Fixpoint x_end (x : rexec) : ExitReason * bytes :=
  match x with
  | XDone _ _ reason rv => (reason, rv)
  | XStep _ _ _ k | XCall _ _ _ _ _ _ k => x_end k
  end.

(** ** The logs of an execution *)

(** The gas left and the cost a step shows: those of the last cost recorded
    while it ran. *)
Definition mid_gas (gc : Z * Z) (m : mid) : Z * Z :=
  match m with
  | MGas (RecordCost cost s) | MGas (RecordDynamicCost cost _ _ s) => (snapshot_gas s, cost)
  | _ => gc
  end.



(** A use of storage: the account, the slot, and the value that was loaded or stored. *)
Definition access : Type := H160 * H256 * H256.

(** The account whose storage an execution uses. *)
Definition x_account (x : rexec) : H160 := address (sd_context (x_first x)).

Definition mid_accesses (a : H160) (l : list mid) : list access :=
  omap (λ m, match m with MLoad _ i v | MStore _ i v => Some (a, i, v) | _ => None end) l.

(** What a context of account [a] with the accesses [h] so far learns of those of a
    sub-context: none when it failed, and of its own account only those to slots that it has
    accessed already. *)
Definition learnt (a : H160) (h : list access) (reason : ExitReason) (sub : list access) :
    list access :=
  match reason with
  | Succeed _ => filter (λ w, w.1.1 = a → w.1 ∈ h.*1) sub
  | _ => []
  end.

Arguments learnt : simpl never.

(** The accesses known to a context at the end of an execution that continues after [h], in
    their order. *)
Fixpoint x_accesses (a : H160) (h : list access) (x : rexec) : list access :=
  match x with
  | XDone _ during _ _ => h ++ mid_accesses a during
  | XStep _ during _ k => x_accesses a (h ++ mid_accesses a during) k
  | XCall _ during _ _ _ sub k =>
      let h := h ++ mid_accesses a during in
      x_accesses a (h ++ learnt a h (x_end sub).1 (x_accesses (x_account sub) [] sub)) k
  end.

(** The storage of an account after accesses: the last value of each slot. *)
Definition last_values (a : H160) (h : list access) : gmap H256 H256 :=
  foldl (λ m w, if decide (w.1.1 = a) then <[w.1.2 := w.2]> m else m) ∅ h.

Section logs.
Context (ds dm dst : bool).

(** The log of a step of a context of account [a] that knows the accesses [h]. *)
Definition step_log (depth : Z) (a : H160) (h : list access) (sd : StepData)
    (during : list mid) : RawStepLog :=
  let gc := foldl mid_gas (0, 0) during in {|
    log_depth := depth;
    log_gas := gc.1;
    log_gas_cost := gc.2;
    log_memory :=
      if dm then None else convert_memory <$> (data_memory <$> sd_memory sd);
    log_op := sd_opcode sd;
    log_pc := match sd_position sd with Ok position => position | Err _ => 0 end;
    log_stack := if dst then None else data_stack <$> sd_stack sd;
    log_storage := if ds then None else Some (last_values a (h ++ mid_accesses a during));
  |}.

(** The logs: one per step, in the order of execution, with the depth of the
    context that runs it. *)
Fixpoint x_logs (depth : Z) (a : H160) (h : list access) (x : rexec) : list RawStepLog :=
  match x with
  | XDone sd during _ _ => [step_log depth a h sd during]
  | XStep sd during _ k =>
      step_log depth a h sd during :: x_logs depth a (h ++ mid_accesses a during) k
  | XCall sd during _ _ _ sub k =>
      let h' := h ++ mid_accesses a during in
      step_log depth a h sd during ::
      x_logs (depth + 1) (x_account sub) [] sub ++
      x_logs depth a
        (h' ++ learnt a h' (x_end sub).1 (x_accesses (x_account sub) [] sub)) k
  end.

(** ** Well-formed executions *)





End logs.

(** ** Storage *)












(** ** Running the listener *)

Section run.
Context `{!BuildProfile}.
Context (ds dm dst : bool).








Definition mid_storage (c : RawContext) (m : mid) : RawContext :=
  match m with
  | MLoad _ i v | MStore _ i v =>
      if ds then c else set_storage_cache (<[i := v]> (storage_cache c)) c
  | _ => c
  end.


Lemma mid_storage_step c s m :
  mid_storage (set_current_step s c) m = set_current_step s (mid_storage c m).
Proof. by destruct m; simpl; [|destruct ds..|]. Qed.








(** ** Theorems *)


End run.

(** ** Arbitrary events *)

(** The events of the EVM as a tracing runtime receives them, and their
    conversion with the filter of the listener. *)
Inductive source_event :=
| SrcRuntime (e : RuntimeTracingEvent)
| SrcGas (e : GasometerTracingEvent)
| SrcEvm (e : EvmEvent)
| SrcNew.

Definition convert (filter : StepEventFilter) (e : source_event) : Event :=
  match e with
  | SrcRuntime e => Event_Runtime (from_evm_event e filter)
  | SrcGas e => Event_Gasometer (GasometerEvent_from e)
  | SrcEvm e => Event_Evm (EvmEvent_from e)
  | SrcNew => Event_CallListNew
  end.

(** The snapshot of a cost is consistent (the gas used fits the limit). *)
Definition source_ok (e : source_event) : bool :=
  match e with
  | SrcGas (GRecordCost _ s) | SrcGas (GRecordDynamicCost _ _ _ s) =>
      snapshot_ok (Snapshot_from s)
  | _ => true
  end.

Section arbitrary.
Context `{!BuildProfile}.
Context (ds dm dst : bool).

Definition step_flags (s : RawStep) : Prop :=
  (is_Some (step_memory s) ↔ dm = false) ∧ (is_Some (step_stack s) ↔ dst = false).
Definition log_flags (log : RawStepLog) : Prop :=
  (is_Some (log_memory log) ↔ dm = false) ∧ (is_Some (log_stack log) ↔ dst = false) ∧
  (is_Some (log_storage log) ↔ ds = false).

(** The storage changes a context has collected are those of other accounts. *)
Definition context_inv (c : RawContext) : Prop :=
  global_storage_changes c !! context_address c = None ∧
  ∀ s, current_step c = Some s → step_flags s.

Record raw_inv (l : RawL) : Prop := {
  inv_flags : disable_storage l = ds ∧ disable_memory l = dm ∧ disable_stack l = dst;
  inv_contexts : Forall context_inv (raw_stack l);
  inv_logs : Forall log_flags (step_logs l);
}.

Lemma raw_inv_new : raw_inv (RawL_new ds dm dst).
Proof. by constructor. Qed.

Lemma raw_inv_stack st l :
  raw_inv l → Forall context_inv st → raw_inv (set_raw_stack st l).
Proof. intros [???] ?. by constructor. Qed.

Lemma apply_change_inv a m c : context_inv c → context_inv (apply_change a m c).
Proof.
  intros [Hc Hs]. unfold apply_change. case_decide; [by split|].
  split; [|done]. simpl. by rewrite lookup_insert_ne.
Qed.

Lemma apply_storage_changes_inv sub c :
  context_inv c → context_inv (apply_storage_changes sub c).
Proof.
  unfold apply_storage_changes. generalize (btree_iter
    (<[context_address sub:=storage_cache sub]> (global_storage_changes sub))).
  intros l. revert c. induction l as [|[a m] l IH]; intros c Hc; [done|].
  simpl. by apply IH, apply_change_inv.
Qed.

Lemma raw_inv_cost cost sn l l' : raw_inv l → record_cost cost sn l = Ret l' → raw_inv l'.
Proof.
  intros Hinv Hrun. unfold record_cost in Hrun.
  destruct (raw_stack l) as [|c st] eqn:Hst; run_inv; [done|].
  destruct Hinv as [Hf Hc Hl]. rewrite Hst in Hc. apply Forall_cons in Hc as [[Hc Hs] Hcs].
  constructor; simpl; try done. constructor; [|done].
  destruct (current_step c) as [s|] eqn:Hcur; run_inv; [|by split; [|rewrite Hcur]].
  split; [done|]. intros s' [= <-]. simpl. by apply (Hs s).
Qed.

Lemma raw_inv_step cx op pos stk mem l l' :
  raw_inv l → raw_step cx op pos stk mem l = Ret l' → raw_inv l'.
Proof.
  intros Hinv Hrun. unfold raw_step in Hrun.
  set (l1 := if new_context l then _ else l) in *.
  assert (raw_inv l1) as Hinv1.
  { subst l1. destruct (new_context l); [|done]. destruct Hinv.
    constructor; simpl; try done. by constructor. }
  clearbody l1. destruct (raw_stack l1) as [|c st] eqn:Hst; run_inv; [done|].
  destruct Hinv1 as [(Hds & Hdm & Hdst) Hc Hl]. rewrite Hst in Hc.
  apply Forall_cons in Hc as [[Hc _] Hcs].
  constructor; simpl; try done. constructor; [|done]. split; [done|].
  intros s [= <-]. rewrite Hdm, Hdst in *. unfold step_flags. simpl.
  destruct dm, dst, mem, stk; simpl in *; run_inv; simpl in *; run_inv; split; split; done.
Qed.

Lemma raw_inv_log l : raw_inv l → raw_inv (log_step l).
Proof.
  intros Hinv. unfold log_step. destruct (raw_stack l) as [|c st] eqn:Hst; [done|].
  destruct (current_step c) as [s|] eqn:Hs; [|done].
  destruct Hinv as [(Hds & Hdm & Hdst) Hc Hl]. rewrite Hst in Hc.
  apply Forall_cons in Hc as [[Hc Hcs] Hst'].
  constructor; simpl; try done.
  - by constructor.
  - apply Forall_app. split; [done|]. constructor; [|done].
    destruct (Hcs s Hs) as [Hm Hstk]. unfold log_flags. simpl. rewrite fmap_is_Some, Hds.
    split_and!; try done. by destruct ds; split.
Qed.

Lemma raw_inv_exit r rv l : raw_inv l → raw_inv (exit_context r rv l).
Proof.
  intros Hinv. unfold exit_context. destruct (raw_stack l) as [|c st] eqn:Hst; [done|].
  destruct Hinv as [Hf Hc Hl]. rewrite Hst in Hc. apply Forall_cons in Hc as [_ Hc].
  destruct st as [|p st]; simpl.
  - destruct (disable_storage l) eqn:?, r; constructor; simpl; intuition congruence.
  - apply Forall_cons in Hc as [Hp Hc].
    destruct (disable_storage l) eqn:?, r; constructor; simpl;
      auto using Forall_cons_2, apply_storage_changes_inv;
      intuition congruence.
Qed.

Lemma raw_inv_event e l l' : raw_inv l → raw_event l e = Ret l' → raw_inv l'.
Proof.
  intros Hinv Hrun. destruct e as [e|e|e|]; simpl in Hrun; run_inv; try done.
  - destruct e; simpl in Hrun; run_inv; eauto using raw_inv_cost; try done.
    by destruct Hinv.
  - destruct e as [cx op pos stk mem|res rv|a i v|a i v]; simpl in Hrun.
    + by eapply raw_inv_step.
    + apply raw_inv_log in Hinv. destruct res as [|[r|op]]; run_inv; try done.
      * by apply raw_inv_exit.
      * destruct (bool_decide _); run_inv; [|done]. by destruct Hinv.
    + destruct (raw_stack l) as [|c st] eqn:Hst; run_inv; [done|].
      destruct (disable_storage l); simpl in Hrun; run_inv; [done|].
      apply raw_inv_stack; [done|]. destruct Hinv as [_ Hc _]. rewrite Hst in Hc.
      apply Forall_cons in Hc as [[??] ?]. by constructor.
    + destruct (raw_stack l) as [|c st] eqn:Hst; run_inv; [done|].
      destruct (disable_storage l); simpl in Hrun; run_inv; [done|].
      apply raw_inv_stack; [done|]. destruct Hinv as [_ Hc _]. rewrite Hst in Hc.
      apply Forall_cons in Hc as [[??] ?]. by constructor.
Qed.

Lemma raw_inv_events evs l l' : raw_inv l → emit_all l evs = Ret l' → raw_inv l'.
Proof.
  revert l. induction evs as [|e evs IH]; intros l Hinv; simpl; [by intros [= <-]|].
  intros Hrun. run_inv. eapply IH; [|done]. by eapply raw_inv_event.
Qed.

(** One converted event never panics. *)
Lemma convert_total e l :
  raw_inv l → source_ok e = true →
  ∃ l', raw_event l (convert (raw_step_event_filter (RawL_new ds dm dst)) e) = Ret l'.
Proof.
  intros [(Hds & Hdm & Hdst) Hc _] Hok.
  destruct e as [e|e|e|]; simpl; [| |by eexists..].
  - destruct e as [cx op pos stk mem|res rv|a i v|a i v]; simpl.
    + unfold raw_step. set (l1 := if new_context l then _ else l).
      assert (disable_memory l1 = dm ∧ disable_stack l1 = dst) as [-> ->]
        by (subst l1; by destruct (new_context l)).
      destruct (raw_stack l1); [by eexists|]. destruct dm, dst; by eexists.
    + destruct res as [|[r|op]]; [by eexists..|]. destruct (bool_decide _); by eexists.
    + destruct (raw_stack l); [by eexists|]. destruct (negb _); by eexists.
    + destruct (raw_stack l); [by eexists|]. destruct (negb _); by eexists.
  - assert (∀ cost sn, snapshot_ok sn = true → ∃ l', record_cost cost sn l = Ret l') as Hrc.
    { intros cost sn Hsn. unfold record_cost. destruct (raw_stack l) as [|c st]; [by eexists|].
      destruct (current_step c); simpl; [|by eexists].
      rewrite snapshot_ok_gas by done. by eexists. }
    destruct e; simpl in *; eauto.
Qed.

Lemma convert_all_total evs l :
  raw_inv l → forallb source_ok evs = true →
  ∃ l', emit_all l
    (convert (raw_step_event_filter (RawL_new ds dm dst)) <$> evs) = Ret l'.
Proof.
  revert l. induction evs as [|e evs IH]; intros l Hinv; [by eexists|].
  cbn [forallb]. rewrite andb_true_iff. intros [He Hevs].
  destruct (convert_total e l Hinv He) as [l1 H1]. rewrite fmap_cons.
  erewrite emit_all_cons by exact H1. apply IH; [|done]. by eapply raw_inv_event.
Qed.

(** C23: the listener never panics on the events a tracing runtime makes for it:
    converted with the filter the listener asks for, whatever their order, the
    memory and stack it expects are there. *)
Theorem raw_never_panics evs :
  forallb source_ok evs = true →
  ∃ l, emit_all (RawL_new ds dm dst)
    (convert (raw_step_event_filter (RawL_new ds dm dst)) <$> evs) = Ret l.
Proof. apply convert_all_total, raw_inv_new. Qed.

(** Whatever events it gets, the listener's logs show memory, stack and
    storage exactly when they are not disabled, and the storage changes an open
    context has collected from its sub-contexts never concern its own account,
    so that adding its own storage on exit replaces none of them. *)
Theorem raw_flags_and_storage evs l :
  emit_all (RawL_new ds dm dst) evs = Ret l →
  Forall log_flags (step_logs l) ∧
  Forall (λ c, global_storage_changes c !! context_address c = None) (raw_stack l).
Proof.
  intros Hrun. destruct (raw_inv_events _ _ _ raw_inv_new Hrun) as [_ Hc Hl].
  split; [done|]. eapply Forall_impl; [exact Hc|]. by intros c [? _].
Qed.

End arbitrary.



(** ** Examples *)

Module RawExample.

Definition sd (a : H160) (opcode pc : Z) : StepData :=
  mkStepData (mkEvmContext a 1 0) (opcodes_string opcode) (Ok pc)
    (Some (mkStack [7] 1024)) (Some (mkMemory (replicate 32 Byte.x01) 32 1000)).

Definition callee : rexec :=
  XStep (sd 0xB0 0x55 0) [MGas (RecordCost 20000 (Example.snap 40000)); MStore 0xB0 1 5] []
    (XDone (sd 0xB0 0x00 1) [] (Succeed Returned) []).

Definition x : rexec :=
  XStep (sd 0xA0 0x54 0) [MGas (RecordCost 200 (Example.snap 70000)); MLoad 0xA0 3 9] []
    (XCall (sd 0xA0 0xF1 1) [MGas (RecordCost 700 (Example.snap 69000))]
       (opcodes_string 0xF1) [] [MGas (RecordStipend 2300 (Example.snap 68000))] callee
       (XDone (sd 0xA0 0xF3 2) [] (Succeed Returned) [Byte.x2a])).

(** A contract loads a slot and calls another, which calls it back; the inner call
    delegates to code that stores the slot.  [deep] is the execution of the inner calls. *)
Definition sstore : rexec :=
  XStep (sd 0xA0 0x55 0) [MStore 0xA0 3 8] [] (XDone (sd 0xA0 0x00 1) [] (Succeed Returned) []).
Definition call_then_stop (a : H160) (opcode : Z) (sub : rexec) : rexec :=
  XCall (sd a opcode 0) [] (opcodes_string opcode) [] [] sub
    (XDone (sd a 0x00 1) [] (Succeed Returned) []).
Definition deep : rexec := call_then_stop 0xB0 0xF1 (call_then_stop 0xA0 0xF4 sstore).
Definition reentrant (inner : rexec) : rexec :=
  XStep (sd 0xA0 0x54 0) [MLoad 0xA0 3 9] [] (call_then_stop 0xA0 0xF1 inner).

Definition src : list source_event :=
  [SrcGas (GRecordTransaction 21000 None);
   SrcRuntime (RStep (mkEvmContext 0xA0 1 0) 0x60 (Ok 0) {| stack_data := []; stack_limit := 1024 |}
     {| memory_data := []; memory_effective_len := 0; memory_limit := 1000 |});
   SrcGas (GRecordCost 3 (Some (Example.snap 5000)));
   SrcRuntime (RStepResult (Ok tt) [])].

End RawExample.

(** The storage that the last step shows is stale after the inner calls, although all of them
    succeeded: the context that was called back has not accessed the slot itself, so it does
    not pass on what the delegate stored.  Without the delegate call the value is passed on. *)
Lemma stale_slot :
  log_storage <$> last (x_logs false true true 1 0xA0 [] (RawExample.reentrant RawExample.deep)) =
    Some (Some {[3 := 9]}) ∧
  log_storage <$> last (x_logs false true true 1 0xA0 []
    (RawExample.reentrant (RawExample.call_then_stop 0xB0 0xF1 RawExample.sstore))) =
    Some (Some {[3 := 8]}).
Proof. split; vm_compute; reflexivity. Qed.


Lemma raw_never_panics_witness :
  ∃ l, @emit_all _ (@Raw_Listener dev) (RawL_new false false true)
    (convert (raw_step_event_filter (RawL_new false false true)) <$> RawExample.src) = Ret l.
Proof. apply (@raw_never_panics dev). vm_compute. reflexivity. Defined.

Lemma raw_flags_and_storage_witness :
  Forall (log_flags false true false)
    (step_logs (outcome_or (@emit_all _ (@Raw_Listener dev) (RawL_new false true false)
       (Event_Gasometer (RecordTransaction 0 (Example.snap 0)) :: x_events RawExample.x))
       (RawL_new false true false))).
Proof.
  apply (@raw_flags_and_storage dev false true false
    (Event_Gasometer (RecordTransaction 0 (Example.snap 0)) :: x_events RawExample.x)).
  vm_compute. reflexivity.
Defined.

