(* ===== verification/RpcTypes.v ===== *)
(** * Types of the RPC layer: client/rpc-core

    The parameters of the [trace] and [debug] endpoints (rpc-core/types,
    rpc-core/trace, rpc-core/debug), the parsing of block numbers, and the
    internal errors of the handlers. *)

From stdpp Require Import base tactics list gmap strings.
From Stdlib Require Import ZArith Lia Strings.Byte.
From S2P Require Import Prelude.
Local Open Scope Z_scope.

(** [fc_rpc::internal_err]: a formatted message, with the values it shows and
    the error it wraps. *)
Inductive RpcError :=
| internal_err (msg : string) (args : list Z)
| internal_err_from (msg : string) (cause : RpcError).

(** ** rpc-core/types *)

Inductive RequestBlockTag := Earliest | Latest | Pending.

Inductive RequestBlockId :=
| RequestBlockId_Number (n : Z)
| RequestBlockId_Hash (h : H256)
| RequestBlockId_Tag (t : RequestBlockTag).

(** The errors of [u32::from_str_radix]. *)
Inductive ParseIntError := ParseEmpty | ParseInvalidDigit | ParsePosOverflow.

(** [char::to_digit]. *)
Definition to_digit (radix : Z) (b : Byte.byte) : option Z :=
  let v := byte_val b in
  let d :=
    if (48 <=? v) && (v <=? 57) then Some (v - 48)
    else if (97 <=? v) && (v <=? 122) then Some (v - 87)
    else if (65 <=? v) && (v <=? 90) then Some (v - 55)
    else None in
  match d with
  | Some d => if d <? radix then Some d else None
  | None => None
  end.

(** The loop of [u32::from_str_radix]: the digit is checked, then the product,
    then the sum. *)
Fixpoint parse_digits (radix : Z) (acc : Z) (l : bytes) : result Z ParseIntError :=
  match l with
  | [] => Ok acc
  | b :: l =>
      match to_digit radix b with
      | None => Err ParseInvalidDigit
      | Some d =>
          if acc * radix <? 2 ^ 32 then
            if acc * radix + d <? 2 ^ 32 then parse_digits radix (acc * radix + d) l
            else Err ParsePosOverflow
          else Err ParsePosOverflow
      end
  end.

(** [u32::from_str_radix]: a leading plus sign is allowed. *)
Definition from_str_radix (radix : Z) (l : bytes) : result Z ParseIntError :=
  match l with
  | [] => Err ParseEmpty
  | [Byte.x2b] | [Byte.x2d] => Err ParseInvalidDigit
  | Byte.x2b :: l => parse_digits radix 0 l
  | l => parse_digits radix 0 l
  end.

(** [deserialize_u32_0x], on the string it reads. *)
Definition deserialize_u32_0x (buf : bytes) : result Z ParseIntError :=
  match buf with
  | Byte.x30 :: Byte.x78 :: buf => from_str_radix 16 buf
  | buf => from_str_radix 10 buf
  end.

(** ** rpc-core/trace and rpc-core/debug *)

Record FilterRequest := mkFilterRequest {
  from_block : option RequestBlockId;
  to_block : option RequestBlockId;
  from_address : option (list H160);
  to_address : option (list H160);
  after : option Z;
  count : option Z;
}.

Record TraceParams := mkTraceParams {
  params_disable_storage : option bool;
  params_disable_memory : option bool;
  params_disable_stack : option bool;
  tracer : option bytes;
  timeout : option bytes;
}.

(** ** Parsing of numerals *)

Definition digits_value (radix : Z) (ds : list Z) : Z :=
  foldl (λ acc d, acc * radix + d) 0 ds.

Definition valid_digits (radix : Z) (ds : list Z) : Prop :=
  Forall (λ d, 0 ≤ d < radix) ds.

(** The digits of a text, in either case of letters. *)
Definition reads (radix : Z) (t : bytes) (ds : list Z) : Prop :=
  Forall2 (λ b d, to_digit radix b = Some d) t ds.

Lemma to_digit_bounds radix b d : to_digit radix b = Some d → 0 ≤ d < radix.
Proof.
  unfold to_digit. repeat case_match; simplify_eq; intros [= <-];
    repeat match goal with
    | H : _ && _ = true |- _ => apply andb_true_iff in H as [?%Z.leb_le ?%Z.leb_le]
    | H : (_ <? _) = true |- _ => apply Z.ltb_lt in H
    end; lia.
Qed.

(** A decimal digit is a hexadecimal one below ten. *)
Lemma to_digit_decimal b d :
  to_digit 16 b = Some d → to_digit 10 b = if d <? 10 then Some d else None.
Proof.
  unfold to_digit.
  destruct (if _ && _ then _ else _) as [v|]; [|done].
  destruct (v <? 16); [|done]. by intros [= <-].
Qed.

(** A digit is neither a sign nor the letter of a prefix. *)
Lemma to_digit_letter b d :
  to_digit 16 b = Some d → b ≠ Byte.x2b ∧ b ≠ Byte.x2d ∧ b ≠ Byte.x78.
Proof. intros Hb. split_and!; intros ->; vm_compute in Hb; discriminate. Qed.

Lemma reads_valid radix t ds : reads radix t ds → valid_digits radix ds.
Proof. induction 1; constructor; eauto using to_digit_bounds. Qed.

Lemma reads_hex radix t ds : 2 ≤ radix ≤ 16 → reads radix t ds → reads 16 t ds.
Proof.
  intros Hr Hds. eapply Forall2_impl; [exact Hds|]. intros b d. unfold to_digit.
  destruct (if _ && _ then _ else _) as [v|]; [|done].
  destruct (Z.ltb_spec v radix); [|done]. by rewrite (proj2 (Z.ltb_lt v 16)) by lia.
Qed.

Lemma reads_decimal t ds : reads 16 t ds → valid_digits 10 ds → reads 10 t ds.
Proof.
  induction 1 as [|b d t ds Hb _ IH]; intros Hv; [constructor|].
  apply Forall_cons in Hv as [Hd Hv]. constructor; [|by apply IH].
  rewrite (to_digit_decimal _ _ Hb). by rewrite (proj2 (Z.ltb_lt d 10)) by lia.
Qed.

Lemma foldl_digits_grow radix acc ds :
  1 ≤ radix → 0 ≤ acc → valid_digits radix ds →
  acc ≤ foldl (λ acc d, acc * radix + d) acc ds.
Proof.
  intros Hr Hacc Hds. revert acc Hacc.
  induction Hds as [|d ds Hd _ IH]; intros acc Hacc; simpl; [done|].
  etrans; [|apply IH]; nia.
Qed.

Lemma parse_digits_value radix acc t ds :
  2 ≤ radix ≤ 16 → 0 ≤ acc < 2 ^ 32 → reads radix t ds →
  parse_digits radix acc t =
  let v := foldl (λ acc d, acc * radix + d) acc ds in
  if v <? 2 ^ 32 then Ok v else Err ParsePosOverflow.
Proof.
  intros Hr Hacc Hds. revert acc Hacc.
  induction Hds as [|b d t ds Hd Hds IH]; intros acc Hacc; cbn zeta.
  { simpl. by rewrite (proj2 (Z.ltb_lt acc (2 ^ 32))) by lia. }
  cbn [parse_digits foldl]. rewrite Hd. apply to_digit_bounds in Hd.
  pose proof (foldl_digits_grow radix (acc * radix + d) ds ltac:(lia) ltac:(nia)
    (reads_valid _ _ _ Hds)).
  destruct (Z.ltb_spec (acc * radix) (2 ^ 32)), (Z.ltb_spec (acc * radix + d) (2 ^ 32));
    [apply IH; lia| |lia|].
  - by rewrite (proj2 (Z.ltb_ge _ _)) by lia.
  - by rewrite (proj2 (Z.ltb_ge _ _)) by lia.
Qed.

(** Hexadecimal digits with a letter among them are no decimal numeral. *)
Lemma parse_digits_letter acc t ds :
  reads 16 t ds → ¬ valid_digits 10 ds → ∃ e, parse_digits 10 acc t = Err e.
Proof.
  intros Hds. revert acc. induction Hds as [|b d t ds Hd _ IH]; intros acc Hn.
  { destruct Hn. constructor. }
  cbn [parse_digits]. rewrite (to_digit_decimal _ _ Hd). apply to_digit_bounds in Hd.
  destruct (Z.ltb_spec d 10); [|by eexists].
  destruct (acc * 10 <? 2 ^ 32), (acc * 10 + d <? 2 ^ 32); try by eexists.
  apply IH. intros Hv. destruct Hn. constructor; [lia|done].
Qed.

(** The digits are read without a sign, and after [0x] as hexadecimal. *)
Lemma deserialize_digits (hex : bool) t ds :
  t ≠ [] → reads 16 t ds →
  deserialize_u32_0x ((if hex then bytes_of "0x" else []) ++ t) =
  parse_digits (if hex then 16 else 10) 0 t.
Proof.
  intros Hne Hds.
  assert (∀ radix, from_str_radix radix t = parse_digits radix 0 t) as Hplus.
  { intros radix. destruct Hds as [|b d t ds Hb _]; [done|].
    apply to_digit_letter in Hb as (? & ? & _). unfold from_str_radix. by destruct b. }
  transitivity (from_str_radix (if hex then 16 else 10) t); [|apply Hplus].
  destruct hex; [done|]. simpl app. unfold deserialize_u32_0x.
  destruct Hds as [|b d t ds _ [|b' d' t' ds' Hb' _]]; [done|by destruct b|].
  apply to_digit_letter in Hb' as (_ & _ & ?). destruct b; try done. by destruct b'.
Qed.

(** The string of a numeral, hexadecimal after [0x] and decimal otherwise,
    is read as its value exactly when the value fits 32 bits, and as an
    overflow otherwise. *)
Lemma numeral_read (hex : bool) t ds :
  let radix := if hex then 16 else 10 in
  t ≠ [] → reads radix t ds →
  deserialize_u32_0x ((if hex then bytes_of "0x" else []) ++ t) =
  let v := digits_value radix ds in
  if v <? 2 ^ 32 then Ok v else Err ParsePosOverflow.
Proof.
  intros radix Hne Hds. assert (2 ≤ radix ≤ 16) as Hr by (subst radix; destruct hex; lia).
  rewrite (deserialize_digits hex t ds) by eauto using reads_hex.
  by rewrite (parse_digits_value _ _ _ ds) by (done || lia).
Qed.

Lemma numeral_read_witness :
  deserialize_u32_0x (bytes_of "0x1fA") = Ok 0x1fa.
Proof.
  apply (numeral_read true (bytes_of "1fA") [1; 15; 10]); [done|].
  repeat constructor.
Defined.
