(* ===== verification/RpcRequests.v ===== *)
(** * Reading the requests: client/rpc-core/types, trace and debug

    The [Deserialize] implementations of the parameters of [trace_filter] and of the
    debug endpoints, from the JSON of a request: optional fields by their names, and
    block ids, whose variants are tried in turn. *)

From stdpp Require Import base tactics list gmap strings.
From Stdlib Require Import ZArith Lia Strings.Byte.
From S2P Require Import Prelude TraceTypes Serialization RpcTypes.
Local Open Scope Z_scope.

(** ** The readers of values *)

(** [strip_prefix("0x")], when the prefix is optional. *)
Definition strip_0x (s : bytes) : bytes :=
  match s with Byte.x30 :: Byte.x78 :: s => s | s => s end.

(** The value of [n] hexadecimal digits, with or without [0x] before them. *)
Definition fixed_hash (n : nat) (s : bytes) : option Z :=
  let s := strip_0x s in
  if decide (length s = n) then digits_value 16 <$> mapM (to_digit 16) s else None.

Definition tag_name (t : RequestBlockTag) : bytes :=
  bytes_of match t with
           | Earliest => "earliest"
           | Latest => "latest"
           | Pending => "pending"
           end.

(** The hashes of [ethereum_types] are read from strings of their length, whose prefix is
    optional in the locked version of [impl-serde], and a tag from its name. *)
Class RequestSerde := {
  h256_deserialize : Json → option H256;
  h160_deserialize : Json → option H160;
  tag_deserialize : Json → option RequestBlockTag;
  h256_deserialize_str s : h256_deserialize (JStr s) = fixed_hash 64 s;
  h160_deserialize_str s : h160_deserialize (JStr s) = fixed_hash 40 s;
  tag_deserialize_str s t : tag_deserialize (JStr s) = Some t ↔ s = tag_name t;
}.

Definition string_deserialize (j : Json) : option bytes :=
  match j with JStr s => Some s | _ => None end.
Definition bool_deserialize (j : Json) : option bool :=
  match j with JBool b => Some b | _ => None end.
Definition u32_deserialize (j : Json) : option Z :=
  match j with
  | JNum n => if decide (0 ≤ n < 2 ^ 32) then Some n else None
  | _ => None
  end.
Definition vec_deserialize {A} (f : Json → option A) (j : Json) : option (list A) :=
  match j with JSeq l => mapM f l | _ => None end.

Section requests.
Context `{!RequestSerde}.

(** [RequestBlockId], untagged: the variants in their order. *)
Definition RequestBlockId_deserialize (j : Json) : option RequestBlockId :=
  match string_deserialize j ≫= (λ buf, match deserialize_u32_0x buf with
                                         | Ok n => Some n
                                         | Err _ => None
                                         end) with
  | Some n => Some (RequestBlockId_Number n)
  | None =>
      match h256_deserialize j with
      | Some h => Some (RequestBlockId_Hash h)
      | None => RequestBlockId_Tag <$> tag_deserialize j
      end
  end.

(** The value of a field of an object. *)
Fixpoint get_field (key : string) (fields : list (string * Json)) : option Json :=
  match fields with
  | [] => None
  | (k, j) :: fields => if decide (k = key) then Some j else get_field key fields
  end.

(** An optional field: missing or [null], or a value that is read. *)
Definition optional {A} (f : Json → option A) (j : option Json) : option (option A) :=
  match j with
  | None | Some JNull => Some None
  | Some j => Some <$> f j
  end.

(** A struct is read from an object, by the names of its fields, or from an array, in
    their order.  A field that occurs twice is an error; other keys are ignored. *)
Definition struct_fields (names : list string) (j : Json) : option (list (option Json)) :=
  match j with
  | JObj fields =>
      if decide (NoDup (filter (λ key, key ∈ names) fields.*1))
      then Some ((λ name, get_field name fields) <$> names)
      else None
  | JSeq l => if decide (length l = length names) then Some (Some <$> l) else None
  | _ => None
  end.

Definition filter_fields : list string :=
  ["fromBlock"; "toBlock"; "fromAddress"; "toAddress"; "after"; "count"]%string.

Definition FilterRequest_deserialize (j : Json) : option FilterRequest :=
  fields ← struct_fields filter_fields j;
  match fields with
  | [from_block; to_block; from_address; to_address; after; count] =>
      from_block ← optional RequestBlockId_deserialize from_block;
      to_block ← optional RequestBlockId_deserialize to_block;
      from_address ← optional (vec_deserialize h160_deserialize) from_address;
      to_address ← optional (vec_deserialize h160_deserialize) to_address;
      after ← optional u32_deserialize after;
      count ← optional u32_deserialize count;
      Some (mkFilterRequest from_block to_block from_address to_address after count)
  | _ => None
  end.

Definition TraceParams_deserialize (j : Json) : option TraceParams :=
  fields ← struct_fields
    ["disableStorage"; "disableMemory"; "disableStack"; "tracer"; "timeout"]%string j;
  match fields with
  | [disable_storage; disable_memory; disable_stack; tracer; timeout] =>
      disable_storage ← optional bool_deserialize disable_storage;
      disable_memory ← optional bool_deserialize disable_memory;
      disable_stack ← optional bool_deserialize disable_stack;
      tracer ← optional string_deserialize tracer;
      timeout ← optional string_deserialize timeout;
      Some (mkTraceParams disable_storage disable_memory disable_stack tracer timeout)
  | _ => None
  end.

End requests.

(** ** What clients write *)

Definition numeral (hex : bool) (t : bytes) : bytes :=
  (if hex then bytes_of "0x" else []) ++ t.

(** The text of a hash of [n] hexadecimal digits. *)
Definition hash_text (n : nat) (s : bytes) (h : Z) : Prop :=
  ∃ prefix t ds, length t = n ∧ reads 16 t ds ∧ s = numeral prefix t ∧ h = digits_value 16 ds.

(** The number that digits are taken for, hexadecimal ones after the prefix and decimal ones
    without it. *)
Definition number_of (prefix : bool) (ds : list Z) : option Z :=
  let radix := if prefix then 16 else 10 in
  if forallb (λ d, d <? radix) ds && (digits_value radix ds <? 2 ^ 32)
  then Some (digits_value radix ds) else None.

Inductive block_id_text : bytes → RequestBlockId → Prop :=
| text_number (hex : bool) t ds :
    t ≠ [] → reads (if hex then 16 else 10) t ds →
    digits_value (if hex then 16 else 10) ds < 2 ^ 32 →
    block_id_text (numeral hex t)
      (RequestBlockId_Number (digits_value (if hex then 16 else 10) ds))
| text_hash (prefix : bool) t ds :
    length t = 64%nat → reads 16 t ds → number_of prefix ds = None →
    block_id_text (numeral prefix t) (RequestBlockId_Hash (digits_value 16 ds))
| text_tag t : block_id_text (tag_name t) (RequestBlockId_Tag t).

(** A field of an object that is absent, [null] or a value in the relation [R]. *)
Definition field_is {A} (R : Json → A → Prop) (fields : list (string * Json)) (name : string)
    (o : option A) : Prop :=
  match o with
  | Some a => ∃ j, get_field name fields = Some j ∧ j ≠ JNull ∧ R j a
  | None => get_field name fields = None ∨ get_field name fields = Some JNull
  end.

Definition block_id_json (j : Json) (id : RequestBlockId) : Prop :=
  ∃ s, j = JStr s ∧ block_id_text s id.
Definition addresses_json (j : Json) (l : list H160) : Prop :=
  ∃ texts, j = JSeq (JStr <$> texts) ∧ Forall2 (hash_text 40) texts l.
Definition u32_json (j : Json) (n : Z) : Prop := j = JNum n ∧ 0 ≤ n < 2 ^ 32.

Lemma strip_numeral prefix t ds : reads 16 t ds → strip_0x (numeral prefix t) = t.
Proof.
  intros Hds. destruct prefix; [done|]. simpl app. unfold strip_0x.
  destruct Hds as [|b d t ds _ [|b' d' t' ds' Hb' _]]; [done|by destruct b|].
  apply to_digit_letter in Hb' as (_ & _ & ?). destruct b; try done. by destruct b'.
Qed.

Lemma fixed_hash_text n s h : hash_text n s h → fixed_hash n s = Some h.
Proof.
  intros (prefix & t & ds & Hlen & Hds & -> & ->). unfold fixed_hash.
  rewrite (strip_numeral _ _ ds) by done. rewrite decide_True by done.
  by rewrite (proj2 (mapM_Some (to_digit 16) t ds) Hds).
Qed.

(** Digits that are taken for no number are refused as one. *)
Lemma number_of_none prefix t ds :
  t ≠ [] → reads 16 t ds → number_of prefix ds = None →
  ∃ e, deserialize_u32_0x (numeral prefix t) = Err e.
Proof.
  intros Hne Hds Hn. unfold number_of in Hn.
  destruct (decide (valid_digits (if prefix then 16 else 10) ds)) as [Hv|Hv].
  - assert (reads (if prefix then 16 else 10) t ds) as Hr
      by (destruct prefix; [done|by apply reads_decimal]).
    unfold numeral. rewrite (numeral_read prefix t ds) by done. cbv zeta.
    rewrite (proj2 (forallb_forall _ _)) in Hn.
    + simpl in Hn. destruct (_ <? _); [done|]. by eexists.
    + intros d Hd%list_elem_of_In. unfold valid_digits in Hv. rewrite Forall_forall in Hv. apply Z.ltb_lt.
      by destruct (Hv _ Hd).
  - destruct prefix; [by destruct Hv; eapply reads_valid|].
    unfold numeral. rewrite (deserialize_digits false t ds) by done.
    by eapply parse_digits_letter.
Qed.

Section read.
Context `{!RequestSerde}.

Lemma block_id_read s id :
  block_id_text s id → RequestBlockId_deserialize (JStr s) = Some id.
Proof.
  intros Ht. unfold RequestBlockId_deserialize. cbn [string_deserialize mbind option_bind].
  destruct Ht as [hex t ds Hne Hds Hv|prefix t ds Hlen Hds Hn|t].
  - unfold numeral. rewrite (numeral_read hex t ds) by done. cbv zeta.
    by rewrite (proj2 (Z.ltb_lt _ _) Hv).
  - assert (t ≠ []) as Hne by by destruct t.
    destruct (number_of_none prefix t ds Hne Hds Hn) as [e ->].
    rewrite h256_deserialize_str, (fixed_hash_text 64 _ (digits_value 16 ds)); [done|].
    by exists prefix, t, ds.
  - assert (tag_deserialize (JStr (tag_name t)) = Some t) as -> by by apply tag_deserialize_str.
    rewrite h256_deserialize_str. by destruct t.
Qed.

(** A hash that is taken for a number is read as the number. *)
Lemma hash_read prefix t ds :
  length t = 64%nat → reads 16 t ds →
  RequestBlockId_deserialize (JStr (numeral prefix t)) =
  Some match number_of prefix ds with
       | Some n => RequestBlockId_Number n
       | None => RequestBlockId_Hash (digits_value 16 ds)
       end.
Proof.
  intros Hlen Hds. destruct (number_of prefix ds) as [n|] eqn:Hn;
    [|by apply block_id_read, text_hash].
  unfold number_of in Hn. destruct (forallb _ _) eqn:Hall; [|done]. simpl in Hn.
  destruct (Z.ltb_spec (digits_value (if prefix then 16 else 10) ds) (2 ^ 32)); [|done].
  simplify_eq. apply block_id_read, text_number; [by destruct t| |done].
  destruct prefix; [done|]. apply reads_decimal; [done|]. apply Forall_forall.
  intros d Hd. rewrite forallb_forall in Hall.
  pose proof (reads_valid _ _ _ Hds) as Hv. unfold valid_digits in Hv.
  rewrite Forall_forall in Hv.
  destruct (Hv d Hd). apply list_elem_of_In, Hall, Z.ltb_lt in Hd. lia.
Qed.

Lemma optional_read {A} (R : Json → A → Prop) (f : Json → option A) fields name o :
  (∀ j a, R j a → f j = Some a) → field_is R fields name o →
  optional f (get_field name fields) = Some o.
Proof.
  intros Hf. destruct o as [a|]; simpl.
  - intros (j & -> & Hj & HR). destruct j; try done; simpl; by rewrite (Hf _ a).
  - by intros [-> | ->].
Qed.

Lemma addresses_read j l :
  addresses_json j l → vec_deserialize h160_deserialize j = Some l.
Proof.
  intros (texts & -> & Hall). simpl. induction Hall as [|s h texts l Hs _ IH]; [done|].
  rewrite fmap_cons. simpl. by rewrite h160_deserialize_str, (fixed_hash_text 40 s h), IH.
Qed.

Lemma u32_read j n : u32_json j n → u32_deserialize j = Some n.
Proof. intros [-> Hn]. simpl. by rewrite decide_True. Qed.

(** The JSON objects that mean a filter: its fields once each, in any order and among
    others, and absent or null where the filter has none. *)
Record filter_json (fields : list (string * Json)) (f : FilterRequest) : Prop := {
  json_once : NoDup (filter (λ key, key ∈ filter_fields) fields.*1);
  json_from_block : field_is block_id_json fields "fromBlock" (from_block f);
  json_to_block : field_is block_id_json fields "toBlock" (to_block f);
  json_from_address : field_is addresses_json fields "fromAddress" (from_address f);
  json_to_address : field_is addresses_json fields "toAddress" (to_address f);
  json_after : field_is u32_json fields "after" (after f);
  json_count : field_is u32_json fields "count" (count f);
}.

Lemma filter_json_read fields f :
  filter_json fields f → FilterRequest_deserialize (JObj fields) = Some f.
Proof.
  intros [H0 H1 H2 H3 H4 H5 H6].
  assert (∀ j id, block_id_json j id → RequestBlockId_deserialize j = Some id) as Hb.
  { intros j id (s & -> & Hs). by apply block_id_read. }
  unfold FilterRequest_deserialize, struct_fields. rewrite decide_True by done.
  cbn [filter_fields fmap list_fmap mbind option_bind].
  rewrite (optional_read _ _ _ _ _ Hb H1), (optional_read _ _ _ _ _ Hb H2).
  rewrite (optional_read _ _ _ _ _ addresses_read H3).
  rewrite (optional_read _ _ _ _ _ addresses_read H4).
  rewrite (optional_read _ _ _ _ _ u32_read H5), (optional_read _ _ _ _ _ u32_read H6).
  by destruct f.
Qed.

(** The numbers of a filter that was read are [u32]. *)
Lemma filter_json_u32 fields f :
  filter_json fields f →
  (∀ n, after f = Some n → 0 ≤ n < 2 ^ 32) ∧ (∀ n, count f = Some n → 0 ≤ n < 2 ^ 32).
Proof.
  intros [_ _ _ _ _ H5 H6]. split; intros n Hn; [rewrite Hn in H5|rewrite Hn in H6];
    [destruct H5 as (j & _ & _ & _ & ?)|destruct H6 as (j & _ & _ & _ & ?)]; done.
Qed.

(** An object that has a field of the filter twice is refused. *)
Lemma duplicate_refused key j1 j2 l1 l2 l3 :
  key ∈ filter_fields →
  FilterRequest_deserialize (JObj (l1 ++ (key, j1) :: l2 ++ (key, j2) :: l3)) = None.
Proof.
  intros Hkey. unfold FilterRequest_deserialize, struct_fields.
  rewrite decide_False; [done|]. rewrite fmap_app, fmap_cons, fmap_app, fmap_cons. cbn [fst].
  rewrite filter_app, filter_cons_True, filter_app, filter_cons_True by done.
  rewrite NoDup_app, NoDup_cons. intros (_ & _ & Hnot & _). apply Hnot.
  apply elem_of_app. right. by left.
Qed.

(** C33: a request for traces is read as it was meant: every filter whose fields are
    written once each, in any order and among others, and absent or null where the filter
    has none, with block ids as numerals, hashes or tags and hexadecimal digits in either
    case.  A field of the filter that is written twice is refused.  A block hash is read as
    a hash unless it is taken for a number, because numbers are tried first: with the
    prefix when it is below 2^32, and without it when its digits are decimal and below
    2^32 as a decimal numeral. *)
Theorem filter_request_read fields f :
  filter_json fields f →
  FilterRequest_deserialize (JObj fields) = Some f ∧
  (∀ key j1 j2 l1 l2 l3, key ∈ filter_fields →
    FilterRequest_deserialize (JObj (l1 ++ (key, j1) :: l2 ++ (key, j2) :: l3)) = None) ∧
  ∀ (prefix : bool) t ds, length t = 64%nat → reads 16 t ds →
    RequestBlockId_deserialize (JStr (numeral prefix t)) =
    Some match number_of prefix ds with
         | Some n => RequestBlockId_Number n
         | None => RequestBlockId_Hash (digits_value 16 ds)
         end.
Proof.
  intros Hf. split; [by apply filter_json_read|].
  split; [apply duplicate_refused|apply hash_read].
Qed.

End read.

(** ** Witness *)

Module RequestExample.
#[global] Instance serde : RequestSerde.
Proof.
  refine {|
    h256_deserialize := λ j, match j with JStr s => fixed_hash 64 s | _ => None end;
    h160_deserialize := λ j, match j with JStr s => fixed_hash 40 s | _ => None end;
    tag_deserialize := λ j,
      match j with
      | JStr s => list_find (λ t, s = tag_name t) [Earliest; Latest; Pending] ≫= Some ∘ snd
      | _ => None
      end;
  |}; [done|done|].
  intros s t. split.
  - intros Hs. apply bind_Some in Hs as ([i t'] & Hf & [= <-]).
    by apply list_find_Some in Hf as (_ & -> & _).
  - intros ->. by destruct t.
Defined.

Definition fields : list (string * Json) :=
  [("count", JNum 10); ("unknown", JNull); ("fromBlock", JStr (bytes_of "0x1F"));
   ("unknown", JNull); ("toBlock", JStr (bytes_of "latest"))]%string.
Definition filter : FilterRequest :=
  mkFilterRequest (Some (RequestBlockId_Number 31)) (Some (RequestBlockId_Tag Latest)) None None
    None (Some 10).
End RequestExample.

Lemma request_fields : filter_json RequestExample.fields RequestExample.filter.
Proof.
  split; simpl.
  - apply (bool_decide_unpack _). vm_compute. exact I.
  - eexists. split; [reflexivity|]. split; [discriminate|]. eexists. split; [reflexivity|].
    apply (text_number true (bytes_of "1F") [1; 15]); [discriminate| |vm_compute; reflexivity].
    repeat constructor.
  - eexists. split; [reflexivity|]. split; [discriminate|]. eexists. split; [reflexivity|].
    apply (text_tag Latest).
  - by left.
  - by left.
  - by left.
  - eexists. split; [reflexivity|]. split; [discriminate|]. split; [reflexivity|lia].
Qed.

Lemma filter_request_read_witness :
  FilterRequest_deserialize (JObj RequestExample.fields) = Some RequestExample.filter ∧
  FilterRequest_deserialize (JObj (("count", JNum 9) :: RequestExample.fields)%string) = None ∧
  RequestBlockId_deserialize (JStr (replicate 62 Byte.x30 ++ bytes_of "31")) =
  Some (RequestBlockId_Number 31).
Proof.
  destruct (filter_request_read RequestExample.fields RequestExample.filter request_fields)
    as (Hread & Hdup & Hhash).
  split; [exact Hread|]. split.
  - apply (Hdup "count"%string (JNum 9) (JNum 10) [] []). by apply (bool_decide_unpack _).
  - refine (Hhash false (replicate 62 Byte.x30 ++ bytes_of "31") (replicate 62 0 ++ [3; 1])
      eq_refl _). repeat constructor.
Defined.
