(* ===== verification/TraceCache.v ===== *)
(** * The cache task of trace_filter: client/rpc/trace/src/lib.rs

    The task owns the cached blocks and the batches that use them; it reacts to
    requests, to messages of the tracing tasks and to expired timers, in any
    order.  Each handler is a function on the state that also lists its effects
    on the outside: answers, channels closed without an answer, and tracing
    tasks that are spawned or told to give up. *)

From stdpp Require Import base tactics list gmap strings.
From Stdlib Require Import ZArith Lia Strings.Byte.
From S2P Require Import Prelude TraceTypes RpcTypes.
Local Open Scope Z_scope.

(** ** State *)

(** A response channel is known by its identity; so is the channel that stops a
    queued tracing task. *)
Abbreviation Channel := Z (only parsing).
Abbreviation TaskId := Z (only parsing).
Abbreviation Traces := (result (list TransactionTrace) RpcError) (only parsing).

Inductive CacheBlockState :=
| Pooled (started : bool) (waiting_requests : list Channel) (unqueue_sender : TaskId)
| Cached (traces : Traces).

Record CacheBlock := mkCacheBlock {
  active_batch_count : Z;
  block_state : CacheBlockState;
}.

(** [next_task] numbers the spawned tasks. *)
Record CacheTask := mkCacheTask {
  cached_blocks : gmap H256 CacheBlock;
  batches : gmap Z (list H256);
  next_batch_id : Z;
  next_task : TaskId;
}.

Definition CacheTask_new : CacheTask := mkCacheTask ∅ ∅ 0 0.

Inductive Effect :=
| SendBatchId (sender : Channel) (id : Z)
| SendTraces (sender : Channel) (traces : Traces)
| CloseChannel (sender : Channel)
| SpawnTracing (task : TaskId) (block : H256)
| DropUnqueue (task : TaskId).

Inductive CacheRequest :=
| StartBatch (sender : Channel) (blocks : list H256)
| GetTraces (sender : Channel) (block : H256)
| StopBatch (batch_id : Z).

Inductive BlockingTaskMessage :=
| Started (block_hash : H256)
| Finished (block_hash : H256) (traces : Traces).

Definition set_cached_blocks m s :=
  mkCacheTask m (batches s) (next_batch_id s) (next_task s).
Definition set_batches m s :=
  mkCacheTask (cached_blocks s) m (next_batch_id s) (next_task s).

(** Dropping a cache entry closes the channels in it. *)
Definition drop_state (st : CacheBlockState) : list Effect :=
  match st with
  | Pooled _ waiting_requests unqueue_sender =>
      (CloseChannel <$> waiting_requests) ++ [DropUnqueue unqueue_sender]
  | Cached _ => []
  end.

Definition not_batched (block : H256) : RpcError :=
  internal_err "RPC request asked a block ({}) that was not batched" [block].

(** ** Handlers *)

Section handlers.
Context `{!BuildProfile}.

(** One round of the loop of [request_start_batch]. *)
Definition start_block (block : H256) (s : CacheTask) : outcome (CacheTask * list Effect) :=
  match cached_blocks s !! block with
  | Some block_cache =>
      n ← add_w 64 (active_batch_count block_cache) 1;
      Ret (set_cached_blocks
             (<[block := mkCacheBlock n (block_state block_cache)]> (cached_blocks s)) s, [])
  | None =>
      let task := next_task s in
      Ret (mkCacheTask
             (<[block := mkCacheBlock 1 (Pooled false [] task)]> (cached_blocks s))
             (batches s) (next_batch_id s) (task + 1),
           [SpawnTracing task block])
  end.

Fixpoint start_blocks (blocks : list H256) (s : CacheTask) :
    outcome (CacheTask * list Effect) :=
  match blocks with
  | [] => Ret (s, [])
  | block :: blocks =>
      '(s, effects) ← start_block block s;
      '(s, effects') ← start_blocks blocks s;
      Ret (s, effects ++ effects')
  end.

(** [request_start_batch]; [overflowing_add(1).0] wraps around in any build. *)
Definition request_start_batch (sender : Channel) (blocks : list H256) (s : CacheTask) :
    outcome (CacheTask * list Effect) :=
  let s := set_batches (<[next_batch_id s := blocks]> (batches s)) s in
  '(s, effects) ← start_blocks blocks s;
  Ret (mkCacheTask (cached_blocks s) (batches s) ((next_batch_id s + 1) mod 2 ^ 64)
         (next_task s),
       effects ++ [SendBatchId sender (next_batch_id s)]).

(** [request_get_traces]. *)
Definition request_get_traces (sender : Channel) (block : H256) (s : CacheTask) :
    CacheTask * list Effect :=
  match cached_blocks s !! block with
  | Some block_cache =>
      match block_state block_cache with
      | Pooled started waiting_requests unqueue_sender =>
          (set_cached_blocks
             (<[block := mkCacheBlock (active_batch_count block_cache)
                  (Pooled started (waiting_requests ++ [sender]) unqueue_sender)]>
                (cached_blocks s)) s, [])
      | Cached traces => (s, [SendTraces sender traces])
      end
  | None => (s, [SendTraces sender (Err (not_batched block))])
  end.

(** The condition for an early removal. *)
Definition can_unqueue (block_cache : CacheBlock) : bool :=
  (active_batch_count block_cache =? 1) &&
  match block_state block_cache with Pooled false _ _ => true | _ => false end.

(** One round of the loop of [request_stop_batch]. *)
Definition stop_block (block : H256) (s : CacheTask) : CacheTask * list Effect :=
  match cached_blocks s !! block with
  | Some block_cache =>
      if can_unqueue block_cache then
        (set_cached_blocks (delete block (cached_blocks s)) s,
         drop_state (block_state block_cache))
      else (s, [])
  | None => (s, [])
  end.

Fixpoint stop_blocks (blocks : list H256) (s : CacheTask) : CacheTask * list Effect :=
  match blocks with
  | [] => (s, [])
  | block :: blocks =>
      let '(s, effects) := stop_block block s in
      let '(s, effects') := stop_blocks blocks s in
      (s, effects ++ effects')
  end.

(** [request_stop_batch]. *)
Definition request_stop_batch (batch_id : Z) (s : CacheTask) : CacheTask * list Effect :=
  match batches s !! batch_id with
  | Some blocks => stop_blocks blocks s
  | None => (s, [])
  end.

(** [blocking_started]. *)
Definition blocking_started (block_hash : H256) (s : CacheTask) : CacheTask :=
  match cached_blocks s !! block_hash with
  | Some block_cache =>
      match block_state block_cache with
      | Pooled _ waiting_requests unqueue_sender =>
          set_cached_blocks
            (<[block_hash := mkCacheBlock (active_batch_count block_cache)
                 (Pooled true waiting_requests unqueue_sender)]> (cached_blocks s)) s
      | Cached _ => s
      end
  | None => s
  end.

(** [blocking_finished]: the waiting channels are answered from the last, and
    the former state is dropped. *)
Definition blocking_finished (block_hash : H256) (traces : Traces) (s : CacheTask) :
    CacheTask * list Effect :=
  match cached_blocks s !! block_hash with
  | Some block_cache =>
      match block_state block_cache with
      | Pooled _ waiting_requests unqueue_sender =>
          (set_cached_blocks
             (<[block_hash := mkCacheBlock (active_batch_count block_cache) (Cached traces)]>
                (cached_blocks s)) s,
           ((λ channel, SendTraces channel traces) <$> reverse waiting_requests)
             ++ [DropUnqueue unqueue_sender])
      | Cached _ => (s, [])
      end
  | None => (s, [])
  end.

(** One round of the loop of [expired_batch]. *)
Definition expire_block (block : H256) (s : CacheTask) : outcome (CacheTask * list Effect) :=
  match cached_blocks s !! block with
  | Some block_cache =>
      n ← sub_w 64 (active_batch_count block_cache) 1;
      if n =? 0 then
        Ret (set_cached_blocks (delete block (cached_blocks s)) s,
             drop_state (block_state block_cache))
      else
        Ret (set_cached_blocks
               (<[block := mkCacheBlock n (block_state block_cache)]> (cached_blocks s)) s, [])
  | None => Ret (s, [])
  end.

Fixpoint expire_blocks (blocks : list H256) (s : CacheTask) :
    outcome (CacheTask * list Effect) :=
  match blocks with
  | [] => Ret (s, [])
  | block :: blocks =>
      '(s, effects) ← expire_block block s;
      '(s, effects') ← expire_blocks blocks s;
      Ret (s, effects ++ effects')
  end.

(** [expired_batch]. *)
Definition expired_batch (batch_id : Z) (s : CacheTask) : outcome (CacheTask * list Effect) :=
  match batches s !! batch_id with
  | Some batch => expire_blocks batch (set_batches (delete batch_id (batches s)) s)
  | None => Ret (s, [])
  end.

(** ** The event loop of [CacheTask::create]

    One round handles one ready event.  [batch_expirations] is the list of
    batches whose timers run; a timer that fires is taken off it. *)

Inductive LoopEvent :=
| OnRequest (r : CacheRequest)
| OnMessage (m : BlockingTaskMessage)
| OnExpiration (batch_id : Z).

Record Loop := mkLoop {
  inner : CacheTask;
  batch_expirations : list Z;
}.

Definition Loop_new : Loop := mkLoop CacheTask_new [].

Definition loop_round (l : Loop) (e : LoopEvent) : outcome (Loop * list Effect) :=
  match e with
  | OnRequest (StartBatch sender blocks) =>
      '(s, effects) ← request_start_batch sender blocks (inner l);
      Ret (mkLoop s (batch_expirations l), effects)
  | OnRequest (GetTraces sender block) =>
      let '(s, effects) := request_get_traces sender block (inner l) in
      Ret (mkLoop s (batch_expirations l), effects)
  | OnRequest (StopBatch batch_id) =>
      let '(s, effects) := request_stop_batch batch_id (inner l) in
      Ret (mkLoop s (batch_id :: batch_expirations l), effects)
  | OnMessage (Started block_hash) =>
      Ret (mkLoop (blocking_started block_hash (inner l)) (batch_expirations l), [])
  | OnMessage (Finished block_hash traces) =>
      let '(s, effects) := blocking_finished block_hash traces (inner l) in
      Ret (mkLoop s (batch_expirations l), effects)
  | OnExpiration batch_id =>
      '(s, effects) ← expired_batch batch_id (inner l);
      Ret (mkLoop s (list_remove_one batch_id (batch_expirations l)), effects)
  end.

(** A timer can only fire while it runs. *)
Definition enabled (l : Loop) (e : LoopEvent) : Prop :=
  match e with OnExpiration batch_id => batch_id ∈ batch_expirations l | _ => True end.

(** Runs of the loop, with the events handled and the effects, in order. *)
Inductive runs : list LoopEvent → list Effect → Loop → Prop :=
| runs_nil : runs [] [] Loop_new
| runs_snoc evs effs l e l' effs' :
    runs evs effs l → enabled l e → loop_round l e = Ret (l', effs') →
    runs (evs ++ [e]) (effs ++ effs') l'.

End handlers.
