(* ===== verification/TraceCacheSpec.v ===== *)
(** * Correctness of the cache task

    Invariants of the event loop of TraceCache.v over all its runs: the counts
    of batches never underflow and never exceed the batches that hold the block,
    a cache without batches is empty, every request for traces is answered or
    closed once, and the answers are the traces of the block asked for. *)

From stdpp Require Import base tactics list gmap strings.
From Stdlib Require Import ZArith Lia Strings.Byte.
From S2P Require Import Prelude TraceTypes RpcTypes TraceCache.
Local Open Scope Z_scope.

(** ** Counting *)

(** The occurrences of a block in a list and in all batches. *)
Definition occurs (b : H256) (l : list H256) : Z := zlen (filter (λ x, x = b) l).
Definition occurs_all (b : H256) (m : gmap Z (list H256)) : Z :=
  map_fold (λ _ l acc, occurs b l + acc) 0 m.

(** The count of a block, zero when it is not in the cache. *)
Definition cnt (s : CacheTask) (b : H256) : Z :=
  match cached_blocks s !! b with Some c => active_batch_count c | None => 0 end.

(** Every block in the cache is counted at least once. *)
Definition counted (s : CacheTask) : Prop :=
  ∀ b c, cached_blocks s !! b = Some c → 1 ≤ active_batch_count c.

Definition start_count (e : LoopEvent) : Z :=
  match e with OnRequest (StartBatch _ _) => 1 | _ => 0 end.
Definition block_count (e : LoopEvent) : Z :=
  match e with OnRequest (StartBatch _ blocks) => zlen blocks | _ => 0 end.
Definition sum (f : LoopEvent → Z) (evs : list LoopEvent) : Z :=
  foldr Z.add 0 (f <$> evs).

(** Fewer batches and blocks requested than a machine word counts. *)
Definition bounded (evs : list LoopEvent) : Prop :=
  sum start_count evs < 2 ^ 64 ∧ sum block_count evs < 2 ^ 64.

Lemma sum_app f l1 l2 : sum f (l1 ++ l2) = sum f l1 + sum f l2.
Proof.
  unfold sum. induction l1 as [|e l1 IH]; [done|].
  rewrite <-app_comm_cons, !fmap_cons. cbn [foldr]. lia.
Qed.

Lemma sum_start_nonneg evs : 0 ≤ sum start_count evs.
Proof.
  unfold sum. induction evs as [|e evs IH]; [done|]. rewrite fmap_cons. cbn [foldr].
  assert (0 ≤ start_count e) by by destruct e as [[]| |]. lia.
Qed.

Lemma sum_block_nonneg evs : 0 ≤ sum block_count evs.
Proof.
  unfold sum. induction evs as [|e evs IH]; [done|]. rewrite fmap_cons. cbn [foldr].
  assert (0 ≤ block_count e) by (destruct e as [[]| |]; simpl; lia). lia.
Qed.

Lemma sum_single f e : sum f [e] = f e.
Proof. unfold sum. simpl. lia. Qed.

Lemma occurs_cons b x l : occurs b (x :: l) = (if decide (x = b) then 1 else 0) + occurs b l.
Proof. unfold occurs. rewrite filter_cons. case_decide; simpl; lia. Qed.

Lemma occurs_nonneg b l : 0 ≤ occurs b l.
Proof. unfold occurs. lia. Qed.

Lemma occurs_length b l : occurs b l ≤ zlen l.
Proof. unfold occurs. pose proof (length_filter (λ x, x = b) l). lia. Qed.

Lemma occurs_all_insert b m id l :
  m !! id = None → occurs_all b (<[id := l]> m) = occurs b l + occurs_all b m.
Proof.
  intros Hid. unfold occurs_all. rewrite map_fold_insert_L; [done| |done].
  intros. lia.
Qed.

Lemma occurs_all_delete b m id l :
  m !! id = Some l → occurs_all b m = occurs b l + occurs_all b (delete id m).
Proof.
  intros Hid. rewrite <-(occurs_all_insert b _ id) by apply lookup_delete_eq.
  by rewrite insert_delete_id.
Qed.

Lemma occurs_all_nonneg b m : 0 ≤ occurs_all b m.
Proof.
  unfold occurs_all. apply (map_fold_weak_ind (λ acc _, 0 ≤ acc)); [done|].
  intros id l m' acc _ Hacc. pose proof (occurs_nonneg b l). lia.
Qed.

(** ** Counts over the handlers *)

Section counts.
Context `{!BuildProfile}.

Lemma cnt_insert s b n st b' :
  cnt (set_cached_blocks (<[b := mkCacheBlock n st]> (cached_blocks s)) s) b' =
  if decide (b = b') then n else cnt s b'.
Proof. unfold cnt. simpl. rewrite lookup_insert. by case_decide. Qed.

Lemma cnt_delete s b b' :
  cnt (set_cached_blocks (delete b (cached_blocks s)) s) b' =
  if decide (b = b') then 0 else cnt s b'.
Proof. unfold cnt. simpl. rewrite lookup_delete. by case_decide. Qed.

Lemma counted_insert s b n st :
  counted s → 1 ≤ n →
  counted (set_cached_blocks (<[b := mkCacheBlock n st]> (cached_blocks s)) s).
Proof.
  intros Hs Hn b' c. simpl. rewrite lookup_insert.
  case_decide; [by intros [= <-]|apply Hs].
Qed.

Lemma counted_delete s b :
  counted s → counted (set_cached_blocks (delete b (cached_blocks s)) s).
Proof.
  intros Hs b' c. simpl. rewrite lookup_delete. case_decide; [done|apply Hs].
Qed.

Lemma start_block_run b s :
  counted s → cnt s b + 1 < 2 ^ 64 →
  ∃ s' effs, start_block b s = Ret (s', effs) ∧ counted s' ∧
    batches s' = batches s ∧ next_batch_id s' = next_batch_id s ∧
    ∀ b', cnt s' b' = (if decide (b = b') then 1 else 0) + cnt s b'.
Proof.
  intros Hs Hlt. unfold start_block. unfold cnt in Hlt at 1.
  destruct (cached_blocks s !! b) as [c|] eqn:Hb.
  - rewrite add_w_ok by done. eexists _, _. split; [done|]. split_and!; try done.
    + apply counted_insert; [done|]. specialize (Hs b c Hb). lia.
    + intros b'. rewrite cnt_insert. case_decide; [|lia]. subst.
      unfold cnt. rewrite Hb. lia.
  - eexists _, _. split; [done|]. split_and!; try done.
    + intros b' c. simpl. rewrite lookup_insert. case_decide; [by intros [= <-]|apply Hs].
    + intros b'. unfold cnt. simpl. rewrite lookup_insert. case_decide; [|lia].
      subst. by rewrite Hb.
Qed.

Lemma start_blocks_run bl s :
  counted s → (∀ b, cnt s b + occurs b bl < 2 ^ 64) →
  ∃ s' effs, start_blocks bl s = Ret (s', effs) ∧ counted s' ∧
    batches s' = batches s ∧ next_batch_id s' = next_batch_id s ∧
    ∀ b, cnt s' b = occurs b bl + cnt s b.
Proof.
  revert s. induction bl as [|b bl IH]; intros s Hs Hlt; [by eexists _, _|].
  destruct (start_block_run b s Hs) as (s1 & e1 & H1 & Hs1 & Hb1 & Hn1 & Hc1).
  { specialize (Hlt b). rewrite occurs_cons, decide_True in Hlt by done.
    pose proof (occurs_nonneg b bl). lia. }
  destruct (IH s1 Hs1) as (s2 & e2 & H2 & Hs2 & Hb2 & Hn2 & Hc2).
  { intros b'. specialize (Hlt b'). rewrite occurs_cons in Hlt. rewrite Hc1. lia. }
  exists s2, (e1 ++ e2). cbn [start_blocks]. rewrite H1. cbn [mbind outcome_bind].
  rewrite H2. split_and!; [done|done|congruence|congruence|].
  intros b'. rewrite Hc2, Hc1, occurs_cons. lia.
Qed.

Lemma stop_block_run b s s' effs :
  counted s → stop_block b s = (s', effs) →
  counted s' ∧ batches s' = batches s ∧ next_batch_id s' = next_batch_id s ∧
  ∀ b', cnt s' b' ≤ cnt s b'.
Proof.
  intros Hs. unfold stop_block. destruct (cached_blocks s !! b) as [c|] eqn:Hb;
    [|intros [= <- <-]; done].
  destruct (can_unqueue c); intros [= <- <-]; [|done].
  split_and!; [by apply counted_delete|done..|]. intros b'. rewrite cnt_delete.
  case_decide; [|done]. subst. unfold cnt. rewrite Hb. specialize (Hs b' c Hb). lia.
Qed.

Lemma stop_blocks_run bl s s' effs :
  counted s → stop_blocks bl s = (s', effs) →
  counted s' ∧ batches s' = batches s ∧ next_batch_id s' = next_batch_id s ∧
  ∀ b, cnt s' b ≤ cnt s b.
Proof.
  revert s s' effs. induction bl as [|b bl IH]; intros s s' effs Hs; simpl.
  { by intros [= <- <-]. }
  destruct (stop_block b s) as [s1 e1] eqn:H1.
  destruct (stop_blocks bl s1) as [s2 e2] eqn:H2. intros [= <- <-].
  destruct (stop_block_run b s s1 e1 Hs H1) as (Hs1 & Hb1 & Hn1 & Hc1).
  destruct (IH s1 s2 e2 Hs1 H2) as (Hs2 & Hb2 & Hn2 & Hc2).
  split_and!; [done|congruence|congruence|]. intros b'. etrans; [apply Hc2|apply Hc1].
Qed.

Lemma expire_block_run b s :
  counted s →
  ∃ s' effs, expire_block b s = Ret (s', effs) ∧ counted s' ∧
    batches s' = batches s ∧ next_batch_id s' = next_batch_id s ∧
    ∀ b', cnt s' b' = 0 `max` (cnt s b' - (if decide (b = b') then 1 else 0)).
Proof.
  intros Hs. unfold expire_block.
  assert (∀ b', 0 ≤ cnt s b') as Hnn.
  { intros b'. unfold cnt. destruct (cached_blocks s !! b') as [c|] eqn:E; [|done].
    specialize (Hs b' c E). lia. }
  destruct (cached_blocks s !! b) as [c|] eqn:Hb.
  - pose proof (Hs b c Hb). rewrite sub_w_ok by lia. cbn [mbind outcome_bind].
    destruct (Z.eqb_spec (active_batch_count c - 1) 0).
    + eexists _, _. split; [done|]. split_and!; [by apply counted_delete|done..|].
      intros b'. rewrite cnt_delete. specialize (Hnn b').
      case_decide; [subst; unfold cnt; rewrite Hb|]; lia.
    + eexists _, _. split; [done|]. split_and!; [apply counted_insert; [done|lia]|done..|].
      intros b'. rewrite cnt_insert. specialize (Hnn b').
      case_decide; [subst; unfold cnt; rewrite Hb|]; lia.
  - eexists _, _. split_and!; [done..|]. intros b'. specialize (Hnn b').
    case_decide; [subst; unfold cnt; rewrite Hb; lia|lia].
Qed.

Lemma expire_blocks_run bl s :
  counted s →
  ∃ s' effs, expire_blocks bl s = Ret (s', effs) ∧ counted s' ∧
    batches s' = batches s ∧ next_batch_id s' = next_batch_id s ∧
    ∀ b, cnt s' b = 0 `max` (cnt s b - occurs b bl).
Proof.
  revert s. induction bl as [|b bl IH]; intros s Hs.
  { eexists _, _. split_and!; [done..|]. intros b. change (occurs b []) with 0.
    unfold cnt. destruct (cached_blocks s !! b) as [c|] eqn:E; [|done].
    specialize (Hs b c E). lia. }
  destruct (expire_block_run b s Hs) as (s1 & e1 & H1 & Hs1 & Hb1 & Hn1 & Hc1).
  destruct (IH s1 Hs1) as (s2 & e2 & H2 & Hs2 & Hb2 & Hn2 & Hc2).
  exists s2, (e1 ++ e2). cbn [expire_blocks]. rewrite H1. cbn [mbind outcome_bind].
  rewrite H2. split_and!; [done|done|congruence|congruence|].
  intros b'. rewrite Hc2, Hc1, occurs_cons. pose proof (occurs_nonneg b' bl).
  case_decide; lia.
Qed.

(** ** The invariant of the loop *)

Record loop_inv (evs : list LoopEvent) (l : Loop) : Prop := {
  li_counted : counted (inner l);
  li_bound : ∀ b, cnt (inner l) b ≤ occurs_all b (batches (inner l));
  li_ids : ∀ id, is_Some (batches (inner l) !! id) → id < next_batch_id (inner l);
  li_next : next_batch_id (inner l) = sum start_count evs;
  li_blocks : ∀ b, occurs_all b (batches (inner l)) ≤ sum block_count evs;
}.

(** A round that leaves the batches alone and raises no count. *)
Lemma inv_quiet evs e l l' :
  loop_inv evs l → start_count e = 0 → block_count e = 0 →
  counted (inner l') → batches (inner l') = batches (inner l) →
  next_batch_id (inner l') = next_batch_id (inner l) →
  (∀ b, cnt (inner l') b ≤ cnt (inner l) b) → loop_inv (evs ++ [e]) l'.
Proof.
  intros [Hc Hb Hi Hn Ho] Hs Hbc Hc' Hba Hne Hcnt.
  constructor; rewrite ?sum_app, ?sum_single, ?Hs, ?Hbc, ?Hba, ?Hne, ?Z.add_0_r; try done.
  intros b. etrans; [apply Hcnt|apply Hb].
Qed.

Lemma round_start evs l sender blocks :
  loop_inv evs l → bounded (evs ++ [OnRequest (StartBatch sender blocks)]) →
  ∃ l' effs, loop_round l (OnRequest (StartBatch sender blocks)) = Ret (l', effs) ∧
    loop_inv (evs ++ [OnRequest (StartBatch sender blocks)]) l'.
Proof.
  intros [Hc Hb Hi Hn Ho]. unfold bounded. rewrite !sum_app, !sum_single. simpl.
  intros [Hs1 Hs2]. set (s := inner l) in *. unfold request_start_batch.
  set (s0 := set_batches (<[next_batch_id s := blocks]> (batches s)) s).
  assert (batches s !! next_batch_id s = None) as Hfresh.
  { destruct (batches s !! next_batch_id s) eqn:E; [|done].
    pose proof (Hi (next_batch_id s)) as Hlt. rewrite E in Hlt.
    assert (next_batch_id s < next_batch_id s) by eauto. lia. }
  destruct (start_blocks_run blocks s0) as (s1 & effs & Hrun & Hc1 & Hb1 & Hn1 & Hcnt).
  - done.
  - intros b. change (cnt s0 b) with (cnt s b). specialize (Hb b). specialize (Ho b).
    pose proof (occurs_length b blocks). lia.
  - rewrite Hrun. eexists _, _. split; [done|].
    constructor; simpl; rewrite ?Hb1, ?Hn1; simpl.
    + exact Hc1.
    + intros b. rewrite occurs_all_insert by done.
      change (cnt (mkCacheTask (cached_blocks s1) _ _ _) b) with (cnt s1 b).
      rewrite Hcnt. specialize (Hb b). change (cnt s0 b) with (cnt s b). lia.
    + intros id Hid. rewrite Z.mod_small by (pose proof (sum_start_nonneg evs); lia).
      rewrite lookup_insert in Hid. case_decide; [lia|]. specialize (Hi id Hid). lia.
    + rewrite sum_app, sum_single. simpl.
      rewrite Z.mod_small by (pose proof (sum_start_nonneg evs); lia). lia.
    + intros b. rewrite occurs_all_insert, sum_app, sum_single by done. simpl.
      specialize (Ho b). pose proof (occurs_length b blocks). lia.
Qed.

Lemma round_expire evs l batch_id :
  loop_inv evs l →
  ∃ l' effs, loop_round l (OnExpiration batch_id) = Ret (l', effs) ∧
    loop_inv (evs ++ [OnExpiration batch_id]) l'.
Proof.
  intros Hinv. pose proof Hinv as [Hc Hb Hi Hn Ho]. simpl. unfold expired_batch.
  set (s := inner l) in *. destruct (batches s !! batch_id) as [bl|] eqn:Hid.
  - destruct (expire_blocks_run bl (set_batches (delete batch_id (batches s)) s))
      as (s1 & effs & Hrun & Hc1 & Hb1 & Hn1 & Hcnt); [done|].
    rewrite Hrun. eexists _, _. split; [done|].
    constructor; simpl; rewrite ?sum_app, ?sum_single, ?Hb1, ?Hn1; simpl; rewrite ?Z.add_0_r.
    + done.
    + intros b. rewrite Hcnt. specialize (Hb b).
      rewrite (occurs_all_delete b _ batch_id bl Hid) in Hb.
      pose proof (occurs_all_nonneg b (delete batch_id (batches s))).
      change (cnt (set_batches _ s) b) with (cnt s b). lia.
    + intros id. rewrite lookup_delete. case_decide; [by intros [??]|apply Hi].
    + done.
    + intros b. specialize (Ho b). rewrite (occurs_all_delete b _ batch_id bl Hid) in Ho.
      pose proof (occurs_nonneg b bl). lia.
  - eexists _, _. split; [done|]. by apply (inv_quiet evs _ l).
Qed.

Lemma round_ok evs l e :
  loop_inv evs l → bounded (evs ++ [e]) →
  ∃ l' effs, loop_round l e = Ret (l', effs) ∧ loop_inv (evs ++ [e]) l'.
Proof.
  intros Hinv Hbd. destruct e as [[sender blocks|sender block|batch_id]|[b|b tr]|batch_id].
  - by apply round_start.
  - simpl. unfold request_get_traces. set (s := inner l) in *.
    destruct (cached_blocks s !! block) as [c|] eqn:Hb;
      [destruct (block_state c) eqn:Hst|];
      (eexists _, _; split; [done|]; apply (inv_quiet evs _ l); try done; simpl).
    + apply counted_insert; [apply (li_counted _ _ Hinv)|].
      by apply (li_counted _ _ Hinv block c).
    + intros b'. rewrite cnt_insert. case_decide; [subst; unfold cnt|done].
      fold s. by rewrite Hb.
    + apply (li_counted _ _ Hinv).
    + apply (li_counted _ _ Hinv).
  - simpl. unfold request_stop_batch. set (s := inner l) in *.
    destruct (batches s !! batch_id) as [bl|].
    + destruct (stop_blocks bl s) as [s1 effs] eqn:Hstop. eexists _, _. split; [done|].
      destruct (stop_blocks_run bl s s1 effs (li_counted _ _ Hinv) Hstop) as (?&?&?&?).
      by apply (inv_quiet evs _ l).
    + eexists _, _. split; [done|]. apply (inv_quiet evs _ l); try done.
      apply (li_counted _ _ Hinv).
  - simpl. eexists _, _. split; [done|]. unfold blocking_started. set (s := inner l) in *.
    apply (inv_quiet evs _ l); try done; simpl; fold s;
      (destruct (cached_blocks s !! b) as [c|] eqn:Hb; [destruct (block_state c) eqn:Hst|]);
      try done; try apply (li_counted _ _ Hinv).
    + apply counted_insert; [apply (li_counted _ _ Hinv)|].
      by apply (li_counted _ _ Hinv b c).
    + intros b'. rewrite cnt_insert. case_decide; [subst; unfold cnt|done]. by rewrite Hb.
  - simpl. unfold blocking_finished. set (s := inner l) in *.
    destruct (cached_blocks s !! b) as [c|] eqn:Hb; [destruct (block_state c) eqn:Hst|];
      (eexists _, _; split; [done|]; apply (inv_quiet evs _ l); try done; simpl);
      try apply (li_counted _ _ Hinv).
    + apply counted_insert; [apply (li_counted _ _ Hinv)|].
      by apply (li_counted _ _ Hinv b c).
    + intros b'. rewrite cnt_insert. case_decide; [subst; unfold cnt|done].
      fold s. by rewrite Hb.
  - by apply round_expire.
Qed.

End counts.

(** ** Channels *)

(** The channels of the requests for traces, in the order of the requests. *)
Definition requested (evs : list LoopEvent) : list Z :=
  omap (λ e, match e with OnRequest (GetTraces c _) => Some c | _ => None end) evs.

(** The channels answered and those closed without an answer. *)
Definition answered (effs : list Effect) : list Z :=
  omap (λ e, match e with SendTraces c _ => Some c | _ => None end) effs.
Definition closed (effs : list Effect) : list Z :=
  omap (λ e, match e with CloseChannel c => Some c | _ => None end) effs.

Definition waiting_of (c : CacheBlock) : list Z :=
  match block_state c with Pooled _ ws _ => ws | Cached _ => [] end.
Definition waiting_in (m : gmap H256 CacheBlock) : list Z :=
  mjoin ((λ x, waiting_of x.2) <$> map_to_list m).
Definition waiting (s : CacheTask) : list Z := waiting_in (cached_blocks s).

Lemma waiting_insert m b c :
  m !! b = None → waiting_in (<[b := c]> m) ≡ₚ waiting_of c ++ waiting_in m.
Proof.
  intros Hb. unfold waiting_in. by rewrite map_to_list_insert by done.
Qed.

Lemma waiting_delete m b c :
  m !! b = Some c → waiting_in m ≡ₚ waiting_of c ++ waiting_in (delete b m).
Proof.
  intros Hb. rewrite <-waiting_insert by apply lookup_delete_eq.
  by rewrite insert_delete_id.
Qed.

Lemma waiting_update m b c c' :
  m !! b = Some c →
  waiting_in (<[b := c']> m) ≡ₚ waiting_of c' ++ waiting_in (delete b m).
Proof.
  intros Hb. rewrite <-waiting_insert by apply lookup_delete_eq.
  by rewrite insert_delete_eq.
Qed.

Lemma waiting_same m b c c' :
  m !! b = Some c → waiting_of c' = waiting_of c →
  waiting_in (<[b := c']> m) ≡ₚ waiting_in m.
Proof.
  intros Hb Heq. rewrite (waiting_update m b c c' Hb), (waiting_delete m b c Hb).
  by rewrite Heq.
Qed.

(** The channels accounted for by effects and by a state. *)
Definition accounted (effs : list Effect) (s : CacheTask) : list Z :=
  answered effs ++ closed effs ++ waiting s.

Lemma answered_app l1 l2 : answered (l1 ++ l2) = answered l1 ++ answered l2.
Proof. apply omap_app. Qed.
Lemma closed_app l1 l2 : closed (l1 ++ l2) = closed l1 ++ closed l2.
Proof. apply omap_app. Qed.
Lemma answered_close ws : answered (CloseChannel <$> ws) = [].
Proof. by induction ws. Qed.
Lemma closed_close ws : closed (CloseChannel <$> ws) = ws.
Proof. induction ws as [|w ws IH]; [done|]. rewrite fmap_cons. simpl. by f_equal. Qed.
Lemma answered_send tr ws : answered ((λ c, SendTraces c tr) <$> ws) = ws.
Proof. induction ws as [|w ws IH]; [done|]. rewrite fmap_cons. simpl. by f_equal. Qed.
Lemma closed_send tr ws : closed ((λ c, SendTraces c tr) <$> ws) = [].
Proof. by induction ws. Qed.

Lemma accounted_app effs1 effs2 s :
  accounted (effs1 ++ effs2) s ≡ₚ answered effs1 ++ closed effs1 ++ accounted effs2 s.
Proof. unfold accounted. rewrite answered_app, closed_app. solve_Permutation. Qed.

(** Removing a block closes the channels that wait for it. *)
Lemma accounted_delete s b c :
  cached_blocks s !! b = Some c →
  accounted (drop_state (block_state c))
    (set_cached_blocks (delete b (cached_blocks s)) s) ≡ₚ waiting s.
Proof.
  intros Hb. unfold waiting. rewrite (waiting_delete _ b c Hb). unfold waiting_of.
  unfold accounted. destruct (block_state c) as [x ws t|tr]; [|done]. cbn [drop_state].
  rewrite answered_app, closed_app, answered_close, closed_close. simpl.
  by rewrite app_nil_r.
Qed.

(** Assignments that keep the waiting channels. *)
Lemma accounted_same s b c c' :
  cached_blocks s !! b = Some c → waiting_of c' = waiting_of c →
  accounted [] (set_cached_blocks (<[b := c']> (cached_blocks s)) s) ≡ₚ waiting s.
Proof. intros. by apply (waiting_same _ b c c'). Qed.

Section channels.
Context `{!BuildProfile}.

Lemma start_blocks_channels bl s s' effs :
  start_blocks bl s = Ret (s', effs) → accounted effs s' ≡ₚ waiting s.
Proof.
  revert s s' effs. induction bl as [|b bl IH]; intros s s' effs Hrun; simpl in Hrun.
  { by run_inv. }
  run_inv. destruct x as [s1 e1]. run_inv. destruct x as [s2 e2]. run_inv.
  rewrite accounted_app. erewrite IH by done.
  match goal with H : start_block b s = _ |- _ => unfold start_block in H end.
  destruct (cached_blocks s !! b) as [c|] eqn:Hb; run_inv.
  - by apply (accounted_same s b c).
  - by apply (waiting_insert (cached_blocks s) b (mkCacheBlock 1 (Pooled false [] _))).
Qed.

Lemma stop_blocks_channels bl s s' effs :
  stop_blocks bl s = (s', effs) → accounted effs s' ≡ₚ waiting s.
Proof.
  revert s s' effs. induction bl as [|b bl IH]; intros s s' effs; simpl.
  { by intros [= <- <-]. }
  destruct (stop_block b s) as [s1 e1] eqn:H1.
  destruct (stop_blocks bl s1) as [s2 e2] eqn:H2. intros [= <- <-].
  rewrite accounted_app, (IH _ _ _ H2). unfold stop_block in H1.
  destruct (cached_blocks s !! b) as [c|] eqn:Hb; [|by simplify_eq].
  destruct (can_unqueue c); simplify_eq; [|done]. by apply accounted_delete.
Qed.

Lemma expire_blocks_channels bl s s' effs :
  expire_blocks bl s = Ret (s', effs) → accounted effs s' ≡ₚ waiting s.
Proof.
  revert s s' effs. induction bl as [|b bl IH]; intros s s' effs Hrun; simpl in Hrun.
  { by run_inv. }
  run_inv. destruct x as [s1 e1]. run_inv. destruct x as [s2 e2]. run_inv.
  rewrite accounted_app. erewrite IH by done.
  match goal with H : expire_block b s = _ |- _ => unfold expire_block in H end.
  destruct (cached_blocks s !! b) as [c|] eqn:Hb; run_inv; [|done].
  case_match; run_inv; [by apply accounted_delete|by apply (accounted_same s b c)].
Qed.

(** One round: what was requested is answered, closed or waits. *)
Lemma round_channels l e l' effs :
  loop_round l e = Ret (l', effs) →
  accounted effs (inner l') ≡ₚ requested [e] ++ waiting (inner l).
Proof.
  intros Hrun. destruct e as [[sender blocks|sender block|batch_id]|[b|b tr]|batch_id];
    simpl in Hrun.
  - run_inv. destruct x as [s1 e1]. unfold request_start_batch in *. run_inv.
    destruct x as [s2 e2]. run_inv. simpl.
    rewrite <-(start_blocks_channels blocks _ _ _ ltac:(eassumption)).
    unfold accounted. rewrite answered_app, closed_app. simpl. by rewrite !app_nil_r.
  - unfold request_get_traces in Hrun.
    destruct (cached_blocks (inner l) !! block) as [c|] eqn:Hb; [|by run_inv].
    destruct (block_state c) as [x ws t|tr] eqn:Hst; run_inv; [|done].
    unfold accounted, waiting. simpl. rewrite (waiting_update _ block c) by done.
    rewrite (waiting_delete _ block c Hb). unfold waiting_of. rewrite Hst. simpl.
    solve_Permutation.
  - destruct (request_stop_batch batch_id (inner l)) as [s1 e1] eqn:Hs. run_inv.
    unfold request_stop_batch in Hs. destruct (batches (inner l) !! batch_id).
    + by apply stop_blocks_channels in Hs.
    + by simplify_eq.
  - run_inv. unfold blocking_started. simpl.
    destruct (cached_blocks (inner l) !! b) as [c|] eqn:Hb; [|done].
    destruct (block_state c) as [x ws t|tr] eqn:Hst; [|done].
    apply (accounted_same _ b c); [done|]. unfold waiting_of. by rewrite Hst.
  - destruct (blocking_finished b tr (inner l)) as [s1 e1] eqn:Hs. run_inv.
    unfold blocking_finished in Hs.
    destruct (cached_blocks (inner l) !! b) as [c|] eqn:Hb; [|by simplify_eq].
    destruct (block_state c) as [x ws t|tr'] eqn:Hst; simplify_eq; [|done].
    unfold accounted, waiting. simpl. rewrite (waiting_update _ b c) by done.
    rewrite (waiting_delete _ b c Hb). unfold waiting_of. rewrite Hst. simpl.
    rewrite answered_app, closed_app, answered_send, closed_send. simpl.
    rewrite reverse_Permutation. solve_Permutation.
  - run_inv. destruct x as [s1 e1]. run_inv. unfold expired_batch in *.
    destruct (batches (inner l) !! batch_id) as [bl|]; run_inv; [|done].
    match goal with H : expire_blocks _ _ = _ |- _ =>
      by apply expire_blocks_channels in H end.
Qed.

End channels.

(** ** Closed channels *)

Section closings.
Context `{!BuildProfile}.
(** Which channel asked for which block. *)
Context (P : H256 → Z → Prop).

Definition waiters (m : gmap H256 CacheBlock) : Prop :=
  map_Forall (λ b c, Forall (P b) (waiting_of c)) m.

(** The channels that effects close asked for one of the blocks. *)
Definition closings (bl : list H256) (effs : list Effect) : Prop :=
  Forall (λ ch, ∃ b, b ∈ bl ∧ P b ch) (closed effs).

Lemma waiters_same m b n c :
  waiters m → m !! b = Some c → waiters (<[b := mkCacheBlock n (block_state c)]> m).
Proof. intros Hm Hb. apply map_Forall_insert_2; [|done]. exact (Hm b c Hb). Qed.

Lemma closings_drop m b c bl :
  waiters m → m !! b = Some c → b ∈ bl → closings bl (drop_state (block_state c)).
Proof.
  intros Hm Hb Hin. pose proof (Hm b c Hb) as Hc. unfold waiting_of in Hc. simpl in Hc.
  unfold closings. destruct (block_state c) as [x ws t|tr]; [|constructor].
  cbn [drop_state]. rewrite closed_app, closed_close, app_nil_r.
  eapply Forall_impl; [exact Hc|]. eauto.
Qed.

Lemma closings_app b bl effs effs' :
  closings [b] effs → closings bl effs' → closings (b :: bl) (effs ++ effs').
Proof.
  unfold closings. rewrite closed_app, Forall_app. intros H1 H2.
  split; eapply Forall_impl; try eassumption; intros ch (b' & Hb' & HP); exists b'.
  - apply list_elem_of_singleton in Hb' as ->. split; [left|done].
  - split; [by right|done].
Qed.

Lemma start_blocks_closings bl s s' effs :
  waiters (cached_blocks s) → start_blocks bl s = Ret (s', effs) →
  waiters (cached_blocks s') ∧ closed effs = [].
Proof.
  revert s s' effs. induction bl as [|b bl IH]; intros s s' effs Hw Hrun; simpl in Hrun.
  { by run_inv. }
  run_inv. destruct x as [s1 e1]. run_inv. destruct x as [s2 e2]. run_inv.
  rewrite closed_app.
  match goal with H : start_block b s = _ |- _ => unfold start_block in H end.
  destruct (cached_blocks s !! b) as [c|] eqn:Hb; run_inv; (eapply IH; [|done]); simpl.
  - by apply waiters_same.
  - apply map_Forall_insert_2; [constructor|done].
Qed.

Lemma stop_blocks_closings bl s s' effs :
  waiters (cached_blocks s) → stop_blocks bl s = (s', effs) →
  waiters (cached_blocks s') ∧ closings bl effs.
Proof.
  revert s s' effs. induction bl as [|b bl IH]; intros s s' effs Hw; simpl.
  { intros [= <- <-]. split; [done|constructor]. }
  destruct (stop_block b s) as [s1 e1] eqn:H1.
  destruct (stop_blocks bl s1) as [s2 e2] eqn:H2. intros [= <- <-].
  assert (waiters (cached_blocks s1) ∧ closings [b] e1) as [Hw1 Hc1].
  { unfold stop_block in H1.
    destruct (cached_blocks s !! b) as [c|] eqn:Hb; [|simplify_eq; split; [done|constructor]].
    destruct (can_unqueue c); simplify_eq; [|split; [done|constructor]]. simpl.
    split; [by apply map_Forall_delete|]. eapply closings_drop; [done|done|left]. }
  destruct (IH s1 s2 e2 Hw1 H2). split; [done|]. by apply closings_app.
Qed.

Lemma expire_blocks_closings bl s s' effs :
  waiters (cached_blocks s) → expire_blocks bl s = Ret (s', effs) →
  waiters (cached_blocks s') ∧ closings bl effs.
Proof.
  revert s s' effs. induction bl as [|b bl IH]; intros s s' effs Hw Hrun; simpl in Hrun.
  { run_inv. split; [done|constructor]. }
  run_inv. destruct x as [s1 e1]. run_inv. destruct x as [s2 e2]. run_inv.
  assert (waiters (cached_blocks s1) ∧ closings [b] e1) as [Hw1 Hc1].
  { match goal with H : expire_block b s = _ |- _ => unfold expire_block in H end.
    destruct (cached_blocks s !! b) as [c|] eqn:Hb; run_inv; [|split; [done|constructor]].
    case_match; run_inv; simpl.
    - split; [by apply map_Forall_delete|]. eapply closings_drop; [done|done|left].
    - split; [by apply waiters_same|constructor]. }
  match goal with H : expire_blocks bl s1 = _ |- _ => apply IH in H as [? ?]; [|done] end.
  split; [done|]. by apply closings_app.
Qed.

(** The event stops or ends a batch that holds the block. *)
Definition ends_batch (l : Loop) (e : LoopEvent) (b : H256) : Prop :=
  ∃ id blocks, (e = OnRequest (StopBatch id) ∨ e = OnExpiration id) ∧
    batches (inner l) !! id = Some blocks ∧ b ∈ blocks.

Lemma round_closings l e l' effs :
  waiters (cached_blocks (inner l)) → (∀ ch b, e = OnRequest (GetTraces ch b) → P b ch) →
  loop_round l e = Ret (l', effs) →
  waiters (cached_blocks (inner l')) ∧
  Forall (λ ch, ∃ b, ends_batch l e b ∧ P b ch) (closed effs).
Proof.
  intros Hw He Hrun.
  destruct e as [[sender blocks|sender block|batch_id]|[b|b tr]|batch_id]; simpl in *.
  - run_inv. destruct x as [s1 e1]. unfold request_start_batch in *. run_inv.
    destruct x as [s2 e2]. run_inv. simpl. rewrite closed_app.
    match goal with H : start_blocks _ _ = _ |- _ => apply start_blocks_closings in H as [? ->] end;
      [|done]. split; [done|constructor].
  - unfold request_get_traces in Hrun.
    destruct (cached_blocks (inner l) !! block) as [c|] eqn:Hb;
      [|run_inv; split; [done|constructor]].
    pose proof (Hw block c Hb) as Hc. unfold waiting_of in Hc. simpl in Hc.
    destruct (block_state c) as [x ws t|tr]; run_inv; (split; [|constructor]); [|done]. simpl.
    apply map_Forall_insert_2; [|done]. simpl. apply Forall_app. split; [done|].
    constructor; [by apply He|constructor].
  - destruct (request_stop_batch batch_id (inner l)) as [s1 e1] eqn:Hs. run_inv.
    unfold request_stop_batch in Hs. destruct (batches (inner l) !! batch_id) as [bl|] eqn:Hbl.
    + apply stop_blocks_closings in Hs as [Hw' Hc]; [|done]. split; [done|].
      eapply Forall_impl; [exact Hc|]. intros ch (b & Hb & HP). exists b. split; [|done].
      exists batch_id, bl. auto.
    + simplify_eq. split; [done|constructor].
  - run_inv. split; [|constructor]. unfold blocking_started. simpl.
    destruct (cached_blocks (inner l) !! b) as [c|] eqn:Hb; [|done].
    pose proof (Hw b c Hb) as Hc. unfold waiting_of in Hc. simpl in Hc.
    destruct (block_state c) as [x ws t|tr]; [|done]. simpl. by apply map_Forall_insert_2.
  - destruct (blocking_finished b tr (inner l)) as [s1 e1] eqn:Hs. run_inv.
    unfold blocking_finished in Hs.
    destruct (cached_blocks (inner l) !! b) as [c|] eqn:Hb;
      [|simplify_eq; split; [done|constructor]].
    destruct (block_state c) as [x ws t|tr']; simplify_eq; [|split; [done|constructor]].
    simpl. rewrite closed_app, closed_send. split; [|constructor].
    apply map_Forall_insert_2; [constructor|done].
  - run_inv. destruct x as [s1 e1]. run_inv. unfold expired_batch in *.
    destruct (batches (inner l) !! batch_id) as [bl|] eqn:Hbl; run_inv;
      [|split; [done|constructor]].
    match goal with H : expire_blocks _ _ = _ |- _ =>
      apply expire_blocks_closings in H as [Hw' Hc]; [|done] end.
    split; [done|]. eapply Forall_impl; [exact Hc|]. intros ch (b & Hb & HP).
    exists b. split; [|done]. exists batch_id, bl. auto.
Qed.

End closings.

(** ** Answers *)

Section answers.
Context `{!BuildProfile}.
(** The result of tracing each block, and the block each channel asks for. *)
Context (trace : H256 → result (list TransactionTrace) RpcError) (asked : Z → H256).

Definition event_ok (e : LoopEvent) : Prop :=
  match e with
  | OnRequest (GetTraces c b) => asked c = b
  | OnMessage (Finished b tr) => tr = trace b
  | _ => True
  end.

Definition state_ok (b : H256) (st : CacheBlockState) : Prop :=
  match st with
  | Pooled _ ws _ => Forall (λ w, asked w = b) ws
  | Cached tr => tr = trace b
  end.

Definition cache_ok (m : gmap H256 CacheBlock) : Prop :=
  map_Forall (λ b c, state_ok b (block_state c)) m.

Definition answer_ok (eff : Effect) : Prop :=
  match eff with
  | SendTraces c tr => tr = trace (asked c) ∨ tr = Err (not_batched (asked c))
  | _ => True
  end.

Lemma cache_ok_insert m b n st :
  cache_ok m → state_ok b st → cache_ok (<[b := mkCacheBlock n st]> m).
Proof. intros Hm Hst. by apply map_Forall_insert_2. Qed.

Lemma drop_state_ok st : Forall answer_ok (drop_state st).
Proof.
  destruct st as [x ws t|tr]; simpl; [|done]. apply Forall_app. split; [|by repeat constructor].
  apply Forall_fmap, Forall_true. done.
Qed.

Lemma start_blocks_ok bl s s' effs :
  cache_ok (cached_blocks s) → start_blocks bl s = Ret (s', effs) →
  cache_ok (cached_blocks s') ∧ Forall answer_ok effs.
Proof.
  revert s s' effs. induction bl as [|b bl IH]; intros s s' effs Hok Hrun; simpl in Hrun.
  { by run_inv. }
  run_inv. destruct x as [s1 e1]. run_inv. destruct x as [s2 e2]. run_inv.
  match goal with H : start_block b s = _ |- _ => unfold start_block in H end.
  destruct (cached_blocks s !! b) as [c|] eqn:Hb; run_inv.
  - eapply IH; [|done]. simpl. apply cache_ok_insert; [done|]. by apply (Hok b c).
  - match goal with H : start_blocks bl _ = _ |- _ => apply IH in H as [? ?] end.
    + split; [done|]. by constructor.
    + simpl. apply cache_ok_insert; [done|constructor].
Qed.

Lemma stop_blocks_ok bl s s' effs :
  cache_ok (cached_blocks s) → stop_blocks bl s = (s', effs) →
  cache_ok (cached_blocks s') ∧ Forall answer_ok effs.
Proof.
  revert s s' effs. induction bl as [|b bl IH]; intros s s' effs Hok; simpl.
  { by intros [= <- <-]. }
  destruct (stop_block b s) as [s1 e1] eqn:H1.
  destruct (stop_blocks bl s1) as [s2 e2] eqn:H2. intros [= <- <-].
  assert (cache_ok (cached_blocks s1) ∧ Forall answer_ok e1) as [Hok1 He1].
  { unfold stop_block in H1. destruct (cached_blocks s !! b) as [c|]; [|by simplify_eq].
    destruct (can_unqueue c); simplify_eq; [|done]. simpl.
    split; [by apply map_Forall_delete|apply drop_state_ok]. }
  destruct (IH s1 s2 e2 Hok1 H2). split; [done|]. by apply Forall_app.
Qed.

Lemma expire_blocks_ok bl s s' effs :
  cache_ok (cached_blocks s) → expire_blocks bl s = Ret (s', effs) →
  cache_ok (cached_blocks s') ∧ Forall answer_ok effs.
Proof.
  revert s s' effs. induction bl as [|b bl IH]; intros s s' effs Hok Hrun; simpl in Hrun.
  { by run_inv. }
  run_inv. destruct x as [s1 e1]. run_inv. destruct x as [s2 e2]. run_inv.
  assert (cache_ok (cached_blocks s1) ∧ Forall answer_ok e1) as [Hok1 He1].
  { match goal with H : expire_block b s = _ |- _ => unfold expire_block in H end.
    destruct (cached_blocks s !! b) as [c|] eqn:Hb; run_inv; [|done].
    case_match; run_inv; simpl.
    - split; [by apply map_Forall_delete|apply drop_state_ok].
    - split; [|done]. apply cache_ok_insert; [done|]. by apply (Hok b c). }
  match goal with H : expire_blocks bl s1 = _ |- _ => apply IH in H as [? ?]; [|done] end.
  split; [done|]. by apply Forall_app.
Qed.

Lemma round_answers l e l' effs :
  event_ok e → cache_ok (cached_blocks (inner l)) → loop_round l e = Ret (l', effs) →
  cache_ok (cached_blocks (inner l')) ∧ Forall answer_ok effs.
Proof.
  intros He Hok Hrun.
  destruct e as [[sender blocks|sender block|batch_id]|[b|b tr]|batch_id]; simpl in *.
  - run_inv. destruct x as [s1 e1]. unfold request_start_batch in *. run_inv.
    destruct x as [s2 e2]. run_inv. simpl.
    match goal with H : start_blocks _ _ = _ |- _ => apply start_blocks_ok in H as [? ?] end;
      [|done]. split; [done|]. apply Forall_app. split; [done|]. by repeat constructor.
  - unfold request_get_traces in Hrun.
    destruct (cached_blocks (inner l) !! block) as [c|] eqn:Hb;
      [|run_inv; split; [done|]; constructor; [by right|done]].
    pose proof (Hok block c Hb) as Hc. simpl in Hc.
    destruct (block_state c) as [x ws t|tr]; run_inv; simpl in Hc.
    + split; [|done]. simpl. apply cache_ok_insert; [done|]. simpl.
      apply Forall_app. split; [done|]. by constructor.
    + split; [done|]. constructor; [by left|done].
  - destruct (request_stop_batch batch_id (inner l)) as [s1 e1] eqn:Hs. run_inv.
    unfold request_stop_batch in Hs. destruct (batches (inner l) !! batch_id).
    + by eapply stop_blocks_ok.
    + by simplify_eq.
  - run_inv. split; [|done]. unfold blocking_started. simpl.
    destruct (cached_blocks (inner l) !! b) as [c|] eqn:Hb; [|done].
    pose proof (Hok b c Hb) as Hc. simpl in Hc.
    destruct (block_state c) as [x ws t|tr]; [|done]. simpl. by apply cache_ok_insert.
  - destruct (blocking_finished b tr (inner l)) as [s1 e1] eqn:Hs. run_inv.
    unfold blocking_finished in Hs.
    destruct (cached_blocks (inner l) !! b) as [c|] eqn:Hb; [|by simplify_eq].
    pose proof (Hok b c Hb) as Hc. simpl in Hc.
    destruct (block_state c) as [x ws t|tr']; simplify_eq; [|done]. simpl in *.
    split; [by apply cache_ok_insert|]. apply Forall_app. split; [|by repeat constructor].
    apply Forall_fmap. rewrite reverse_Permutation.
    eapply Forall_impl; [exact Hc|]. intros w Hw. left. by rewrite Hw.
  - run_inv. destruct x as [s1 e1]. run_inv. unfold expired_batch in *.
    destruct (batches (inner l) !! batch_id) as [bl|]; run_inv; [|done].
    match goal with H : expire_blocks _ _ = _ |- _ =>
      by apply expire_blocks_ok in H end.
Qed.

End answers.

(** ** Theorems *)

Section theorems.
Context `{!BuildProfile}.

Lemma bounded_prefix evs e : bounded (evs ++ [e]) → bounded evs.
Proof.
  unfold bounded. rewrite !sum_app.
  pose proof (sum_start_nonneg [e]). pose proof (sum_block_nonneg [e]). lia.
Qed.

Lemma runs_inv evs effs l : runs evs effs l → bounded evs → loop_inv evs l.
Proof.
  induction 1 as [|evs effs l e l' effs' _ IH _ Hround]; intros Hbd.
  - constructor; simpl; try done.
    intros id [? ?]. done.
  - destruct (round_ok evs l e (IH (bounded_prefix _ _ Hbd)) Hbd) as (l1 & e1 & H1 & H2).
    congruence.
Qed.

(** C21: the event loop never panics: whatever events it has handled, each event
    that can happen next is handled (no count of batches over- or underflows),
    as long as fewer batches and blocks than 2^64 have been requested. *)
Theorem cache_never_panics evs effs l e :
  runs evs effs l → enabled l e → bounded (evs ++ [e]) →
  ∃ l' effs', loop_round l e = Ret (l', effs') ∧ runs (evs ++ [e]) (effs ++ effs') l'.
Proof.
  intros Hruns Hen Hbd.
  destruct (round_ok evs l e) as (l' & effs' & Hround & _); [|done|].
  { eapply runs_inv; [done|]. by eapply bounded_prefix. }
  exists l', effs'. split; [done|]. by econstructor.
Qed.

(** C5: in every reachable state the count of a cached block is at least one and
    at most its number of occurrences in the batches that have not expired; so
    once all batches have expired the cache is empty. *)
Theorem cache_counts evs effs l :
  runs evs effs l → bounded evs →
  (∀ b c, cached_blocks (inner l) !! b = Some c →
     1 ≤ active_batch_count c ≤ occurs_all b (batches (inner l))) ∧
  (batches (inner l) = ∅ → cached_blocks (inner l) = ∅).
Proof.
  intros Hruns Hbd. destruct (runs_inv evs effs l Hruns Hbd) as [Hc Hb _ _ _].
  assert (∀ b c, cached_blocks (inner l) !! b = Some c →
     1 ≤ active_batch_count c ≤ occurs_all b (batches (inner l))) as Hcnt.
  { intros b c Hbc. split; [by eapply Hc|]. specialize (Hb b). unfold cnt in Hb.
    by rewrite Hbc in Hb. }
  split; [done|]. intros Hempty. apply map_empty. intros b.
  destruct (cached_blocks (inner l) !! b) as [c|] eqn:Hbc; [|done].
  specialize (Hcnt b c Hbc). rewrite Hempty in Hcnt.
  change (occurs_all b ∅) with 0 in Hcnt. lia.
Qed.

Lemma runs_channels evs effs l :
  runs evs effs l →
  requested evs ≡ₚ answered effs ++ closed effs ++ waiting (inner l).
Proof.
  induction 1 as [|evs effs l e l' effs' _ IH _ Hround]; [done|].
  unfold requested. rewrite omap_app. change (omap _ evs) with (requested evs).
  change (omap _ [e]) with (requested [e]).
  rewrite answered_app, closed_app, IH.
  pose proof (round_channels l e l' effs' Hround) as Hch. unfold accounted in Hch.
  transitivity (answered effs ++ closed effs ++ requested [e] ++ waiting (inner l));
    [solve_Permutation|]. rewrite <-Hch. solve_Permutation.
Qed.

(** A channel was given up in a run: it had asked for a block of a batch that was stopped or
    expired after it asked. *)
Definition given_up (evs : list LoopEvent) (ch : Z) : Prop :=
  ∃ evs1 e evs2 effs1 l1 b, evs = evs1 ++ e :: evs2 ∧ runs evs1 effs1 l1 ∧
    ends_batch l1 e b ∧ OnRequest (GetTraces ch b) ∈ evs1.

Lemma given_up_app evs evs' ch : given_up evs ch → given_up (evs ++ evs') ch.
Proof.
  intros (evs1 & e & evs2 & effs1 & l1 & b & -> & Hup). exists evs1, e, (evs2 ++ evs'), effs1, l1, b.
  by rewrite <-app_assoc.
Qed.

Lemma runs_closings evs effs l :
  runs evs effs l →
  waiters (λ b ch, OnRequest (GetTraces ch b) ∈ evs) (cached_blocks (inner l)) ∧
  Forall (given_up evs) (closed effs).
Proof.
  induction 1 as [|evs effs l e l' effs' Hruns [Hw Hc] _ Hround]; [by split|].
  destruct (round_closings (λ b ch, OnRequest (GetTraces ch b) ∈ evs ++ [e]) l e l' effs')
    as [Hw' Hc']; [|by intros ch b ->; apply elem_of_app; right; left|done|].
  { intros b c Hb. eapply Forall_impl; [exact (Hw b c Hb)|]. intros ch Hch.
    apply elem_of_app. by left. }
  split; [done|]. rewrite closed_app. apply Forall_app. split.
  - eapply Forall_impl; [exact Hc|]. intros ch. apply given_up_app.
  - eapply Forall_impl; [exact Hc'|]. intros ch (b & Hb & Hin).
    exists evs, e, [], effs, l, b. split; [done|]. split; [done|]. split; [done|].
    apply elem_of_app in Hin as [?|Hin%list_elem_of_singleton]; [done|].
    destruct Hb as (id & bl & [-> | ->] & _); done.
Qed.

(** C19: no request for traces is lost or answered twice: at any time the channels
    of all requests are those answered, those closed and those that wait for a
    block to be traced, each as often as it was requested; and a channel is closed without
    an answer only when a batch that holds the block it asked for is stopped or expires. *)
Theorem cache_answers_once evs effs l :
  runs evs effs l →
  requested evs ≡ₚ answered effs ++ closed effs ++ waiting (inner l) ∧
  Forall (given_up evs) (closed effs).
Proof. intros Hruns. split; [by apply runs_channels|by eapply runs_closings]. Qed.

(** C20: the traces sent to a channel are the result of tracing the block it asked
    for, or the error that no batch holds the block. *)
Theorem cache_answers_right trace asked evs effs l :
  runs evs effs l → Forall (event_ok trace asked) evs →
  Forall (answer_ok trace asked) effs.
Proof.
  intros Hruns Hevs.
  enough (cache_ok trace asked (cached_blocks (inner l)) ∧
    Forall (answer_ok trace asked) effs) by tauto.
  induction Hruns as [|evs effs l e l' effs' _ IH _ Hround]; [done|].
  apply Forall_app in Hevs as [Hevs [He _]%Forall_cons]. destruct (IH Hevs) as [Hok Heffs].
  destruct (round_answers trace asked l e l' effs' He Hok Hround) as [Hok' Heffs'].
  split; [done|]. by apply Forall_app.
Qed.

(** The states of the run below. *)
Definition pooled_once (b : H256) (task : Z) : gmap H256 CacheBlock :=
  {[b := mkCacheBlock 1 (Pooled false [] task)]}.

Lemma round_start_new b c m id task tm :
  0 ≤ id → id + 1 < 2 ^ 64 →
  loop_round (mkLoop (mkCacheTask ∅ m id task) tm) (OnRequest (StartBatch c [b])) =
  Ret (mkLoop (mkCacheTask (pooled_once b task) (<[id := [b]]> m) (id + 1) (task + 1)) tm,
       [SpawnTracing task b; SendBatchId c id]).
Proof.
  intros Hid Hlt. simpl. unfold request_start_batch. simpl. unfold start_block. simpl.
  rewrite lookup_empty. simpl. by rewrite Z.mod_small by lia.
Qed.

Lemma round_stop_once b m id n task tm :
  m !! id = Some [b] →
  loop_round (mkLoop (mkCacheTask (pooled_once b task) m n (task + 1)) tm)
    (OnRequest (StopBatch id)) =
  Ret (mkLoop (mkCacheTask ∅ m n (task + 1)) (id :: tm), [DropUnqueue task]).
Proof.
  intros Hid. simpl. unfold request_stop_batch. simpl. rewrite Hid. simpl.
  unfold stop_block, pooled_once. simpl. rewrite lookup_singleton_eq. simpl.
  by rewrite delete_singleton_eq.
Qed.

Lemma round_expire_once b m id n task tm :
  m !! id = Some [b] →
  loop_round (mkLoop (mkCacheTask (pooled_once b task) m n (task + 1)) tm)
    (OnExpiration id) =
  Ret (mkLoop (mkCacheTask ∅ (delete id m) n (task + 1)) (list_remove_one id tm),
       [DropUnqueue task]).
Proof.
  intros Hid. simpl. unfold expired_batch. simpl. rewrite Hid. simpl.
  unfold expire_block, pooled_once. simpl. rewrite lookup_singleton_eq. simpl.
  by rewrite delete_singleton_eq.
Qed.

(** C37: a block that was removed early, when its batch was stopped, and requested
    again before that batch expired is removed by the expiration although the
    second batch still uses it: the request of the second batch for its traces
    is refused as not batched. *)
Theorem cache_early_removal b c1 c2 c3 :
  ∃ effs l,
  runs [OnRequest (StartBatch c1 [b]); OnRequest (StopBatch 0);
        OnRequest (StartBatch c2 [b]); OnExpiration 0; OnRequest (GetTraces c3 b)] effs l ∧
  batches (inner l) !! 1 = Some [b] ∧
  SendTraces c3 (Err (not_batched b)) ∈ effs.
Proof.
  pose proof (runs_snoc _ _ _ (OnRequest (StartBatch c1 [b])) _ _ runs_nil I
    (round_start_new b c1 ∅ 0 0 [] ltac:(done) ltac:(done))) as H1.
  pose proof (runs_snoc _ _ _ (OnRequest (StopBatch 0)) _ _ H1 I
    (round_stop_once b (<[0 := [b]]> ∅) 0 1 0 [] eq_refl)) as H2.
  pose proof (runs_snoc _ _ _ (OnRequest (StartBatch c2 [b])) _ _ H2 I
    (round_start_new b c2 (<[0 := [b]]> ∅) 1 1 [0] ltac:(done) ltac:(done))) as H3.
  pose proof (runs_snoc _ _ _ (OnExpiration 0) _ _ H3 (list_elem_of_here 0 [])
    (round_expire_once b (<[1 := [b]]> (<[0 := [b]]> ∅)) 0 2 1 [0] eq_refl)) as H4.
  eexists _, _. split_and!.
  - exact (runs_snoc _ _ _ (OnRequest (GetTraces c3 b)) _ _ H4 I eq_refl).
  - done.
  - apply elem_of_app. right. by left.
Qed.

End theorems.

(** ** An example run *)

(** Runs the loop on a list of events; a timer that does not run cannot fire. *)
Fixpoint execute `{!BuildProfile} (l : Loop) (evs : list LoopEvent) :
    outcome (Loop * list Effect) :=
  match evs with
  | [] => Ret (l, [])
  | e :: evs =>
      if match e with
         | OnExpiration batch_id => bool_decide (batch_id ∈ batch_expirations l)
         | _ => true
         end
      then '(l, effs) ← loop_round l e; '(l, effs') ← execute l evs; Ret (l, effs ++ effs')
      else Panic
  end.

Lemma execute_runs `{!BuildProfile} evs0 effs0 l evs l' effs :
  runs evs0 effs0 l → execute l evs = Ret (l', effs) →
  runs (evs0 ++ evs) (effs0 ++ effs) l'.
Proof.
  revert evs0 effs0 l l' effs. induction evs as [|e evs IH]; intros evs0 effs0 l l' effs Hr Hx.
  { simpl in Hx. run_inv. by rewrite !app_nil_r. }
  cbn [execute] in Hx.
  assert (enabled l e) as Hen.
  { destruct e as [r|m|id]; try done. simpl. by case_bool_decide. }
  destruct (match e with OnExpiration _ => _ | _ => true end); [|done].
  run_inv. destruct x as [l1 e1]. run_inv. destruct x as [l2 e2]. run_inv.
  rewrite (app_assoc effs0), (cons_middle e evs0 evs), (app_assoc evs0).
  eapply IH; [|done]. by econstructor.
Qed.

Module CacheExample.
#[local] Existing Instance dev.
Definition evs : list LoopEvent :=
  [OnRequest (StartBatch 10 [5; 6]); OnRequest (GetTraces 11 5); OnMessage (Started 5);
   OnRequest (StartBatch 12 [6]); OnMessage (Finished 5 (Ok [])); OnRequest (GetTraces 13 5);
   OnRequest (GetTraces 14 7); OnRequest (StopBatch 0); OnExpiration 0;
   OnRequest (GetTraces 15 6)].
Definition final : Loop * list Effect :=
  outcome_or (execute Loop_new evs) (Loop_new, []).
Lemma run : runs evs (final.2) (final.1).
Proof. apply (execute_runs [] [] Loop_new); [constructor|]. vm_compute. reflexivity. Qed.
Definition asked (c : Z) : H256 := if c =? 14 then 7 else if c =? 15 then 6 else 5.
End CacheExample.

Lemma cache_never_panics_witness :
  ∃ l' effs', @loop_round dev CacheExample.final.1 (OnRequest (StopBatch 1)) = Ret (l', effs') ∧
    @runs dev (CacheExample.evs ++ [OnRequest (StopBatch 1)])
      (CacheExample.final.2 ++ effs') l'.
Proof.
  apply (@cache_never_panics dev); [apply CacheExample.run|exact I|].
  split; vm_compute; reflexivity.
Defined.

Lemma cache_counts_witness :
  (∀ b c, cached_blocks (inner CacheExample.final.1) !! b = Some c →
     1 ≤ active_batch_count c ≤ occurs_all b (batches (inner CacheExample.final.1))) ∧
  (batches (inner CacheExample.final.1) = ∅ →
   cached_blocks (inner CacheExample.final.1) = ∅).
Proof.
  apply (@cache_counts dev CacheExample.evs CacheExample.final.2);
    [apply CacheExample.run|split; vm_compute; reflexivity].
Defined.

Lemma cache_answers_once_witness :
  [11; 13; 14; 15] ≡ₚ [11; 13; 14] ++ [] ++ [15] ∧
  @given_up dev (CacheExample.evs ++ [OnRequest (StopBatch 1)]) 15.
Proof.
  split.
  - apply (@cache_answers_once dev CacheExample.evs CacheExample.final.2
      CacheExample.final.1 CacheExample.run).
  - destruct (@cache_answers_once dev (CacheExample.evs ++ [OnRequest (StopBatch 1)])
      (CacheExample.final.2 ++ [CloseChannel 15; DropUnqueue 1])
      (mkLoop (mkCacheTask ∅ {[1 := [6]]} 2 2) [1])) as [_ Hc].
    + apply (runs_snoc _ _ _ (OnRequest (StopBatch 1)) _ _ CacheExample.run I).
      vm_compute. reflexivity.
    + apply Forall_cons in Hc as [Hc _]. exact Hc.
Defined.

Lemma cache_answers_right_witness :
  Forall (answer_ok (λ _, Ok []) CacheExample.asked) CacheExample.final.2.
Proof.
  apply (@cache_answers_right dev _ _ CacheExample.evs _ _ CacheExample.run).
  repeat constructor.
Defined.
