(* ===== verification/CacheSystem.v ===== *)
(** * The cache task with its tracing tasks: client/rpc/trace/src/lib.rs

    [request_start_batch] spawns an asynchronous task per block it adds to the
    cache.  The task waits for a permit of the semaphore or for its entry to be
    dropped, sends [Started], traces the block in a blocking task and sends
    [Finished] over a bounded channel to the event loop.  The permits are shared
    with the handlers of the debug module.  This file puts the event loop of
    TraceCache.v and those tasks together and shows that the system never gets
    stuck while a request waits. *)

From stdpp Require Import base tactics list gmap strings.
From Stdlib Require Import ZArith Lia Strings.Byte.
From S2P Require Import Prelude TraceTypes RpcTypes TraceCache TraceCacheSpec.
Local Open Scope Z_scope.

(** ** State *)

(** How far a tracing task is: at its [select!], before its first [send], in
    [spawn_blocking], before its second [send], and returned. *)
Inductive TaskStage :=
| Queued
| Permitted
| Tracing
| Traced (result : result (list TransactionTrace) RpcError)
| Ended.

(** [dropped] holds the tasks whose [unqueue_sender] was dropped, [free_permits]
    the permits of the semaphore nobody holds, [debug_permits] those held by the
    debug module, and [messages] the content of the channel [blocking_tx]. *)
Record System := mkSystem {
  event_loop : Loop;
  tasks : gmap Z (H256 * TaskStage);
  dropped : gset Z;
  messages : list BlockingTaskMessage;
  free_permits : nat;
  debug_permits : nat;
}.

(** [CacheTask::create] with a semaphore of [permits] permits. *)
Definition System_new (permits : nat) : System :=
  mkSystem Loop_new ∅ ∅ [] permits 0.

(** [mpsc::channel(blocking_permits.available_permits() * 2)] *)
Definition channel_capacity (permits : nat) : nat := permits * 2.

(** ** Steps of the tracing tasks *)

Inductive TaskAction :=
| Unqueue (task : Z)
| AcquirePermit (task : Z)
| SendStarted (task : Z)
| FinishTracing (task : Z) (result : result (list TransactionTrace) RpcError)
| SendFinished (task : Z)
| DebugAcquire
| DebugRelease.

Definition set_stage (t : Z) (b : H256) (stage : TaskStage) (s : System) : System :=
  mkSystem (event_loop s) (<[t := (b, stage)]> (tasks s)) (dropped s) (messages s)
    (free_permits s) (debug_permits s).
Definition send (m : BlockingTaskMessage) (s : System) : System :=
  mkSystem (event_loop s) (tasks s) (dropped s) (messages s ++ [m])
    (free_permits s) (debug_permits s).
Definition set_permits (free debug : nat) (s : System) : System :=
  mkSystem (event_loop s) (tasks s) (dropped s) (messages s) free debug.

(** One step of the task spawned by [request_start_batch], or of a handler of
    the debug module as far as the semaphore is concerned; [None] when the step
    has to wait.  The permit is released when the task returns, after its last
    message was accepted. *)
Definition task_step (capacity : nat) (s : System) (a : TaskAction) : option System :=
  match a with
  | Unqueue t =>
      match tasks s !! t with
      | Some (b, Queued) =>
          if decide (t ∈ dropped s) then Some (set_stage t b Ended s) else None
      | _ => None
      end
  | AcquirePermit t =>
      match tasks s !! t, free_permits s with
      | Some (b, Queued), S n =>
          Some (set_permits n (debug_permits s) (set_stage t b Permitted s))
      | _, _ => None
      end
  | SendStarted t =>
      match tasks s !! t with
      | Some (b, Permitted) =>
          if decide (length (messages s) < capacity)%nat
          then Some (send (Started b) (set_stage t b Tracing s)) else None
      | _ => None
      end
  | FinishTracing t result =>
      match tasks s !! t with
      | Some (b, Tracing) => Some (set_stage t b (Traced result) s)
      | _ => None
      end
  | SendFinished t =>
      match tasks s !! t with
      | Some (b, Traced result) =>
          if decide (length (messages s) < capacity)%nat
          then Some (set_permits (S (free_permits s)) (debug_permits s)
                       (send (Finished b result) (set_stage t b Ended s)))
          else None
      | _ => None
      end
  | DebugAcquire =>
      match free_permits s with
      | S n => Some (set_permits n (S (debug_permits s)) s)
      | O => None
      end
  | DebugRelease =>
      match debug_permits s with
      | S n => Some (set_permits (S (free_permits s)) n s)
      | O => None
      end
  end.

(** ** Steps of the event loop *)

(** The effects of a round on the tasks: [tokio::spawn], and the drop of an
    [unqueue_sender]. *)
Definition spawn_effect (T : gmap Z (H256 * TaskStage)) (e : Effect) :=
  match e with SpawnTracing t b => <[t := (b, Queued)]> T | _ => T end.
Definition drop_effect (D : gset Z) (e : Effect) :=
  match e with DropUnqueue t => {[t]} ∪ D | _ => D end.

Abbreviation spawn_effects T effs := (foldl spawn_effect T effs).
Abbreviation drop_effects D effs := (foldl drop_effect D effs).

Definition react `{!BuildProfile} (s : System) (e : LoopEvent) :
    outcome (System * list Effect) :=
  '(l, effects) ← loop_round (event_loop s) e;
  Ret (mkSystem l (spawn_effects (tasks s) effects) (drop_effects (dropped s) effects)
         (messages s) (free_permits s) (debug_permits s), effects).

Definition set_messages (q : list BlockingTaskMessage) (s : System) : System :=
  mkSystem (event_loop s) (tasks s) (dropped s) q (free_permits s) (debug_permits s).

(** ** Runs *)

Section system.
Context `{!BuildProfile} (permits : nat).
Abbreviation capacity := (channel_capacity permits).

(** What the environment decides: requests, timers, and work of the debug
    module. *)
Definition from_outside (e : LoopEvent) : bool :=
  match e with OnMessage _ => false | _ => true end.

(** What the system does on its own: messages are handled, tasks advance, and
    handlers of the debug module return their permits. *)
Inductive internal : System → list LoopEvent → list Effect → System → Prop :=
| internal_message s m q s' effs :
    messages s = m :: q → react (set_messages q s) (OnMessage m) = Ret (s', effs) →
    internal s [OnMessage m] effs s'
| internal_task s a s' :
    a ≠ DebugAcquire → task_step capacity s a = Some s' → internal s [] [] s'.

Inductive system_runs : list LoopEvent → list Effect → System → Prop :=
| system_new : system_runs [] [] (System_new permits)
| system_outside evs effs s e s' effs' :
    system_runs evs effs s → from_outside e = true → enabled (event_loop s) e →
    react s e = Ret (s', effs') → system_runs (evs ++ [e]) (effs ++ effs') s'
| system_debug evs effs s s' :
    system_runs evs effs s → task_step capacity s DebugAcquire = Some s' →
    system_runs evs effs s'
| system_internal evs effs s evs' effs' s' :
    system_runs evs effs s → internal s evs' effs' s' →
    system_runs (evs ++ evs') (effs ++ effs') s'.

(** Sequences of [n] internal steps. *)
Inductive drains : nat → System → list LoopEvent → list Effect → System → Prop :=
| drains_O s : drains O s [] [] s
| drains_S n s evs effs s' evs' effs' s'' :
    internal s evs effs s' → drains n s' evs' effs' s'' →
    drains (S n) s (evs ++ evs') (effs ++ effs') s''.

Definition quiescent (s : System) : Prop := ∀ evs effs s', ¬ internal s evs effs s'.

End system.

(** ** Counting over the tasks *)

Definition total (f : TaskStage → nat) (T : gmap Z (H256 * TaskStage)) : nat :=
  sum_list_with (λ x, f x.2.2) (map_to_list T).

Lemma total_insert f T t b stage :
  T !! t = None → total f (<[t := (b, stage)]> T) = (f stage + total f T)%nat.
Proof. intros Ht. unfold total. by rewrite map_to_list_insert by done. Qed.

Lemma total_update f T t b stage stage' :
  T !! t = Some (b, stage) →
  (total f (<[t := (b, stage')]> T) + f stage = total f T + f stage')%nat.
Proof.
  intros Ht. rewrite <-(insert_delete_id T t (b, stage)) at 2 by done.
  rewrite <-insert_delete_eq, !total_insert by apply lookup_delete_eq. lia.
Qed.

Lemma total_lookup f T t b stage : T !! t = Some (b, stage) → (f stage ≤ total f T)%nat.
Proof. intros Ht. pose proof (total_update f T t b stage stage Ht) as Hu.
  rewrite <-(insert_delete_id T t (b, stage)), total_insert by (done || apply lookup_delete_eq).
  lia.
Qed.

Lemma total_zero f T :
  (∀ t b stage, T !! t = Some (b, stage) → f stage = 0%nat) → total f T = 0%nat.
Proof.
  intros Hf. unfold total.
  assert (Forall (λ x : Z * (H256 * TaskStage), f x.2.2 = 0%nat) (map_to_list T)) as Hall.
  { apply Forall_forall. intros [t [b stage]] Hin%elem_of_map_to_list. by eapply Hf. }
  induction Hall as [|x l Hx _ IH]; simpl; [done|]. by rewrite Hx, IH.
Qed.

Lemma total_pos f T :
  (0 < total f T)%nat → ∃ t b stage, T !! t = Some (b, stage) ∧ (0 < f stage)%nat.
Proof.
  unfold total. setoid_rewrite <-elem_of_map_to_list.
  induction (map_to_list T) as [|[t [b stage]] l IH]; simpl; [lia|]. intros Hpos.
  destruct (decide (0 < f stage)%nat); [exists t, b, stage; split; [left|done]|].
  destruct IH as (t' & b' & stage' & Hin & ?); [lia|].
  exists t', b', stage'. split; [by right|done].
Qed.

(** The permits a task holds. *)
Definition holds (stage : TaskStage) : nat :=
  match stage with Queued | Ended => 0 | Permitted | Tracing | Traced _ => 1 end.

(** The steps a task has still to take, messages included. *)
Definition remaining (stage : TaskStage) : nat :=
  match stage with Queued => 6 | Permitted => 5 | Tracing => 3 | Traced _ => 2 | Ended => 0 end.

(** ** Every pooled block has a task at work *)

(** The entry of a pooled block holds the sender of a task for that block, and
    if the task has returned, its result is on its way. *)
Record linked (T : gmap Z (H256 * TaskStage)) (D : gset Z) (q : list BlockingTaskMessage)
    (c : CacheTask) : Prop := {
  linked_entry : ∀ b n started ws t,
    cached_blocks c !! b = Some (mkCacheBlock n (Pooled started ws t)) →
    (t ∉ D) ∧ ∃ stage, T !! t = Some (b, stage) ∧
      (stage = Ended → ∃ tr, Finished b tr ∈ q);
  linked_tasks : ∀ t, is_Some (T !! t) → t < next_task c;
  linked_dropped : ∀ t, t ∈ D → t < next_task c;
}.

(** The same entry with another count, status or list of requests. *)
Lemma linked_update T D q c b n started ws t n' started' ws' :
  linked T D q c → cached_blocks c !! b = Some (mkCacheBlock n (Pooled started ws t)) →
  linked T D q (set_cached_blocks
    (<[b := mkCacheBlock n' (Pooled started' ws' t)]> (cached_blocks c)) c).
Proof.
  intros [He Ht Hd] Hb. constructor; simpl; [|done..].
  intros b' m st w t'. rewrite lookup_insert. case_decide; [|apply He].
  intros [= <- <- <- <-]. subst. by eapply He.
Qed.

(** An entry that is not pooled. *)
Lemma linked_cached T D q c b n tr :
  linked T D q c → linked T D q (set_cached_blocks
    (<[b := mkCacheBlock n (Cached tr)]> (cached_blocks c)) c).
Proof.
  intros [He Ht Hd]. constructor; simpl; [|done..].
  intros b' m st w t'. rewrite lookup_insert. case_decide; [done|apply He].
Qed.

Lemma linked_delete T D q c b :
  linked T D q c → linked T D q (set_cached_blocks (delete b (cached_blocks c)) c).
Proof.
  intros [He Ht Hd]. constructor; simpl; [|done..].
  intros b' m st w t'. rewrite lookup_delete. case_decide; [done|apply He].
Qed.

(** Once no entry holds the sender of a task it may be dropped. *)
Lemma linked_drop T D q c c' b n started ws t :
  linked T D q c → cached_blocks c !! b = Some (mkCacheBlock n (Pooled started ws t)) →
  linked T D q c' → next_task c' = next_task c →
  (∀ b' n st ws t, cached_blocks c' !! b' = Some (mkCacheBlock n (Pooled st ws t)) → b' ≠ b) →
  linked T ({[t]} ∪ D) q c'.
Proof.
  intros [He Ht _] Hb [He' Ht' Hd'] Hn Hne.
  destruct (He _ _ _ _ _ Hb) as (_ & stage & HT & _).
  constructor; [|done|].
  - intros b' m st w t' Hb'. destruct (He' _ _ _ _ _ Hb') as (HD & stage' & HT' & Hq).
    split; [|by eauto]. apply not_elem_of_union. split; [|done].
    intros ->%elem_of_singleton. simplify_eq. by eapply Hne.
  - intros t' [->%elem_of_singleton|?]%elem_of_union; [|by apply Hd'].
    rewrite Hn. apply Ht. by rewrite HT.
Qed.

Lemma drop_state_spawn T st : spawn_effects T (drop_state st) = T.
Proof.
  destruct st as [started ws t|tr]; [|done]. simpl. rewrite foldl_app. simpl.
  by induction ws.
Qed.

Lemma drop_state_drop D st :
  drop_effects D (drop_state st) =
  match st with Pooled _ _ t => {[t]} ∪ D | Cached _ => D end.
Proof.
  destruct st as [started ws t|tr]; [|done]. simpl. rewrite foldl_app. simpl.
  f_equal. by induction ws.
Qed.

(** Removing an entry. *)
Lemma linked_remove T D q c b e :
  linked T D q c → cached_blocks c !! b = Some e →
  linked (spawn_effects T (drop_state (block_state e)))
    (drop_effects D (drop_state (block_state e))) q
    (set_cached_blocks (delete b (cached_blocks c)) c).
Proof.
  intros Hl Hb. rewrite drop_state_spawn, drop_state_drop.
  destruct e as [n [started ws t|tr]]; simpl; [|by apply linked_delete].
  eapply linked_drop; [done|done|by apply linked_delete|done|].
  intros b' m st w t' Hb' ->. simpl in Hb'. by rewrite lookup_delete_eq in Hb'.
Qed.

(** The same entry with another count. *)
Lemma linked_count T D q c b e n :
  linked T D q c → cached_blocks c !! b = Some e →
  linked T D q (set_cached_blocks
    (<[b := mkCacheBlock n (block_state e)]> (cached_blocks c)) c).
Proof.
  intros Hl Hb. destruct e as [m [started ws t|tr]]; simpl.
  - by eapply linked_update.
  - by apply linked_cached.
Qed.

Lemma linked_spawn T D q c b bs id :
  linked T D q c →
  linked (<[next_task c := (b, Queued)]> T) D q
    (mkCacheTask (<[b := mkCacheBlock 1 (Pooled false [] (next_task c))]> (cached_blocks c))
       bs id (next_task c + 1)).
Proof.
  intros [He Ht Hd]. constructor; simpl.
  - intros b' n st ws t. rewrite lookup_insert. case_decide.
    + intros [= <- <- <- <-]. subst. split; [intros ?%Hd; lia|].
      exists Queued. by rewrite lookup_insert_eq.
    + intros Hb'. destruct (He _ _ _ _ _ Hb') as (? & stage & HT & ?).
      split; [done|]. exists stage. rewrite lookup_insert_ne; [done|].
      intros Heq. assert (t < next_task c) by (apply Ht; by rewrite HT). lia.
  - intros t. rewrite lookup_insert. case_decide; [lia|]. intros ?%Ht. lia.
  - intros t ?%Hd. lia.
Qed.

(** ** Every handler keeps the link *)

Lemma linked_same T D q c c' :
  linked T D q c → cached_blocks c' = cached_blocks c → next_task c' = next_task c →
  linked T D q c'.
Proof. intros [He Ht Hd] Hc Hn. constructor; by rewrite ?Hc, ?Hn. Qed.

Section handlers.
Context `{!BuildProfile}.

(** What a round guarantees: the link, and that no permit changes hands. *)
Definition keeps (q : list BlockingTaskMessage) (c c' : CacheTask) (effs : list Effect) : Prop :=
  ∀ T D, linked T D q c →
    linked (spawn_effects T effs) (drop_effects D effs) q c' ∧
    total holds (spawn_effects T effs) = total holds T.

Lemma keeps_nil q c : keeps q c c [].
Proof. by intros T D. Qed.

Lemma keeps_app q c c' c'' effs effs' :
  keeps q c c' effs → keeps q c' c'' effs' → keeps q c c'' (effs ++ effs').
Proof.
  intros H1 H2 T D Hl. rewrite !foldl_app. destruct (H1 T D Hl) as [Hl1 <-]. by apply H2.
Qed.

Lemma keeps_remove q c b e :
  cached_blocks c !! b = Some e →
  keeps q c (set_cached_blocks (delete b (cached_blocks c)) c) (drop_state (block_state e)).
Proof.
  intros Hb T D Hl. split; [by apply linked_remove|]. by rewrite drop_state_spawn.
Qed.

Lemma start_blocks_linked q bl c c' effs :
  start_blocks bl c = Ret (c', effs) → keeps q c c' effs.
Proof.
  revert c c' effs. induction bl as [|b bl IH]; intros c c' effs Hrun; simpl in Hrun.
  { run_inv. apply keeps_nil. }
  run_inv. destruct x as [c1 effs1]. run_inv. destruct x as [c2 effs2]. run_inv.
  eapply keeps_app; [|by apply IH]. clear IH. intros T D Hl.
  unfold start_block in *. destruct (cached_blocks c !! b) as [e|] eqn:Hb; run_inv; simpl.
  - split; [by apply linked_count|done].
  - split; [by apply linked_spawn|]. rewrite total_insert; [done|].
    apply eq_None_not_Some. intros ?%(linked_tasks _ _ _ _ Hl). lia.
Qed.

Lemma stop_blocks_linked q bl c c' effs :
  stop_blocks bl c = (c', effs) → keeps q c c' effs.
Proof.
  revert c c' effs. induction bl as [|b bl IH]; intros c c' effs; simpl.
  { intros [= <- <-]. apply keeps_nil. }
  destruct (stop_block b c) as [c1 effs1] eqn:H1.
  destruct (stop_blocks bl c1) as [c2 effs2] eqn:H2. intros [= <- <-].
  eapply keeps_app; [|by apply IH]. intros T D Hl. unfold stop_block in H1.
  destruct (cached_blocks c !! b) as [e|] eqn:Hb; [|by simplify_eq].
  destruct (can_unqueue e); simplify_eq; [by apply keeps_remove|done].
Qed.

Lemma expire_blocks_linked q bl c c' effs :
  expire_blocks bl c = Ret (c', effs) → keeps q c c' effs.
Proof.
  revert c c' effs. induction bl as [|b bl IH]; intros c c' effs Hrun; simpl in Hrun.
  { run_inv. apply keeps_nil. }
  run_inv. destruct x as [c1 effs1]. run_inv. destruct x as [c2 effs2]. run_inv.
  eapply keeps_app; [|by apply IH]. clear IH. intros T D Hl.
  unfold expire_block in *. destruct (cached_blocks c !! b) as [e|] eqn:Hb; run_inv; [|done].
  destruct (_ =? 0); run_inv; [by apply keeps_remove|]. split; [by apply linked_count|done].
Qed.

(** The answers to waiting channels. *)
Lemma sends_spawn T tr ws : spawn_effects T ((λ c, SendTraces c tr) <$> ws) = T.
Proof. by induction ws. Qed.
Lemma sends_drop D tr ws : drop_effects D ((λ c, SendTraces c tr) <$> ws) = D.
Proof. by induction ws. Qed.

(** A round for a request or a timer. *)
Lemma outside_linked q l e l' effs :
  from_outside e = true → loop_round l e = Ret (l', effs) →
  keeps q (inner l) (inner l') effs.
Proof.
  intros He Hrun. destruct e as [[sender blocks|sender block|id]|m|id]; simpl in Hrun; [..|done|].
  - run_inv. destruct x as [c effs1]. run_inv. unfold request_start_batch in *. run_inv.
    destruct x as [c1 effs1]. run_inv. intros T D Hl.
    rewrite !foldl_app. simpl. edestruct start_blocks_linked as [Hl' Hh]; [done| |].
    { by apply (linked_same _ _ _ (inner l)). }
    split; [|done]. by apply (linked_same _ _ _ c1).
  - destruct (request_get_traces sender block (inner l)) as [c effs1] eqn:Hget. run_inv.
    intros T D Hl. unfold request_get_traces in Hget.
    destruct (cached_blocks (inner l) !! block) as [[n [started ws t|tr]]|] eqn:Hb;
      simplify_eq/=; [|done..]. split; [by eapply linked_update|done].
  - destruct (request_stop_batch id (inner l)) as [c effs1] eqn:Hstop. run_inv.
    unfold request_stop_batch in Hstop. simpl.
    destruct (batches (inner l) !! id); [|simplify_eq; apply keeps_nil].
    by eapply stop_blocks_linked.
  - run_inv. destruct x as [c effs1]. run_inv. unfold expired_batch in *. simpl.
    destruct (batches (inner l) !! id); run_inv; [|apply keeps_nil].
    intros T D Hl. eapply expire_blocks_linked; [done|]. by apply (linked_same _ _ _ (inner l)).
Qed.

(** A message other than the result of a pooled block. *)
Lemma linked_pop T D m q c :
  linked T D (m :: q) c →
  (∀ b tr, m = Finished b tr → ∀ n st ws t,
     cached_blocks c !! b ≠ Some (mkCacheBlock n (Pooled st ws t))) → linked T D q c.
Proof.
  intros [He Ht Hd] Hne. constructor; [|done..]. intros b n st ws t Hb.
  destruct (He _ _ _ _ _ Hb) as (HD & stage & HT & Hq). split; [done|].
  exists stage. split; [done|]. intros [tr [<-|]%elem_of_cons]%Hq; [|by eauto].
  by destruct (Hne b tr eq_refl n st ws t).
Qed.

(** Handling the first message of the channel. *)
Lemma message_linked T D m q l l' effs :
  loop_round l (OnMessage m) = Ret (l', effs) → linked T D (m :: q) (inner l) →
  spawn_effects T effs = T ∧ linked T (drop_effects D effs) q (inner l').
Proof.
  intros Hrun Hl. destruct m as [b|b tr]; simpl in Hrun.
  - run_inv. simpl. split; [done|]. apply (linked_pop _ _ (Started b)); [|done].
    unfold blocking_started.
    destruct (cached_blocks (inner l) !! b) as [[n [started ws t|tr]]|] eqn:Hb; try done.
    simpl. by eapply linked_update.
  - destruct (blocking_finished b tr (inner l)) as [c effs1] eqn:Hfin. run_inv. simpl.
    unfold blocking_finished in Hfin.
    destruct (cached_blocks (inner l) !! b) as [[n [started ws t|tr']]|] eqn:Hb;
      simplify_eq/=; try by (split; [done|]; eapply linked_pop; [done|];
      intros ?? Heq ????; simplify_eq; by rewrite Hb).
    rewrite !foldl_app. simpl. rewrite sends_spawn, sends_drop. split; [done|].
    assert (∀ n' st ws' t',
      cached_blocks (set_cached_blocks (<[b := mkCacheBlock n (Cached tr)]>
        (cached_blocks (inner l))) (inner l)) !! b ≠ Some (mkCacheBlock n' (Pooled st ws' t')))
      as Hno by (intros ????; simpl; by rewrite lookup_insert_eq).
    eapply (linked_pop _ _ (Finished b tr)); [|intros ?? Heq; simplify_eq; exact Hno].
    eapply linked_drop; [done|done|by apply linked_cached|done|].
    intros b' ???? Hb' ->. by eapply Hno.
Qed.

End handlers.

(** ** Invariant and measure *)

Record system_inv (permits : nat) (s : System) : Prop := {
  inv_linked : linked (tasks s) (dropped s) (messages s) (inner (event_loop s));
  inv_permits : (free_permits s + debug_permits s + total holds (tasks s))%nat = permits;
}.

(** The internal steps the system can still take, at most. *)
Definition pending (s : System) : nat :=
  total remaining (tasks s) + length (messages s) + debug_permits s.

(** Advancing a task whose entry, if any, stays served. *)
Lemma linked_stage T D q q' c t b stage stage' :
  linked T D q c → T !! t = Some (b, stage) →
  (∀ m, m ∈ q → m ∈ q') →
  (stage' = Ended → t ∈ D ∨ ∃ tr, Finished b tr ∈ q') →
  linked (<[t := (b, stage')]> T) D q' c.
Proof.
  intros [He Ht Hd] HT Hq Hend. constructor; [| |done].
  - intros b' n st ws t' Hb'. destruct (He _ _ _ _ _ Hb') as (HD & stage1 & HT1 & Hq1).
    split; [done|]. rewrite lookup_insert. case_decide as Heq.
    + subst t'. simplify_eq. exists stage'. split; [done|]. intros Hs.
      destruct (Hend Hs) as [?|?]; done.
    + exists stage1. split; [done|]. intros Hs. destruct (Hq1 Hs) as [tr Htr].
      exists tr. by apply Hq.
  - intros t'. rewrite lookup_insert. case_decide; [|apply Ht].
    intros _. subst. apply Ht. by rewrite HT.
Qed.

(** A step of a task keeps the invariant; unless it is the debug module taking a
    permit, fewer steps are pending. *)
Lemma task_step_inv permits s a s' :
  system_inv permits s → task_step (channel_capacity permits) s a = Some s' →
  system_inv permits s' ∧ event_loop s' = event_loop s ∧
  (a ≠ DebugAcquire → (pending s' < pending s)%nat).
Proof.
  intros [Hl Hp] Hstep. unfold pending.
  destruct a as [t|t|t|t tr|t| |]; simpl in Hstep;
    try (destruct (tasks s !! t) as [[b stage]|] eqn:Ht; [|done];
      destruct stage; try done;
      pose proof (λ st, total_update holds (tasks s) t b _ st Ht) as Hh;
      pose proof (λ st, total_update remaining (tasks s) t b _ st Ht) as Hr).
  - case_decide; simplify_eq/=. specialize (Hh Ended). specialize (Hr Ended). simpl in *.
    split; [|split; [done|lia]]. constructor; simpl; [|lia].
    eapply linked_stage; [done|done|done|by left].
  - destruct (free_permits s) as [|n] eqn:Hf; simplify_eq/=.
    specialize (Hh Permitted). specialize (Hr Permitted). simpl in *.
    split; [|split; [done|lia]]. constructor; simpl; [|lia]. by eapply linked_stage.
  - case_decide; simplify_eq/=. specialize (Hh Tracing). specialize (Hr Tracing).
    simpl in *. rewrite length_app. simpl.
    split; [|split; [done|lia]]. constructor; simpl; [|lia].
    eapply linked_stage; [done|done| |done]. intros m ?. apply elem_of_app. by left.
  - simplify_eq/=. specialize (Hh (Traced tr)). specialize (Hr (Traced tr)). simpl in *.
    split; [|split; [done|lia]]. constructor; simpl; [|lia]. by eapply linked_stage.
  - case_decide; simplify_eq/=. specialize (Hh Ended). specialize (Hr Ended).
    simpl in *. rewrite length_app. simpl.
    split; [|split; [done|lia]]. constructor; simpl; [|lia].
    eapply linked_stage; [done|done| |]; [intros m ?; apply elem_of_app; by left|].
    intros _. right. exists result. apply elem_of_app. right. left.
  - destruct (free_permits s) as [|n] eqn:Hf; simplify_eq/=. split; [|done].
    constructor; simpl; [done|lia].
  - destruct (debug_permits s) as [|n] eqn:Hf; simplify_eq/=.
    split; [|split; [done|lia]]. constructor; simpl; [done|lia].
Qed.

Section system.
Context `{!BuildProfile} (permits : nat).

Lemma internal_inv s evs effs s' :
  system_inv permits s → internal permits s evs effs s' →
  system_inv permits s' ∧ (pending s' < pending s)%nat.
Proof.
  intros Hinv Hint. revert Hinv.
  destruct Hint as [s m q s' effs Hm Hreact|s a s' Ha Hstep]; intros Hinv.
  - destruct Hinv as [Hl Hp]. unfold react in Hreact. run_inv. destruct x as [l effs2].
    run_inv. simpl in *. rewrite Hm in Hl.
    destruct (message_linked _ _ _ _ _ _ _ ltac:(eassumption) Hl) as [Hsp Hl'].
    split; [constructor; simpl; by rewrite ?Hsp|]. unfold pending. simpl.
    rewrite Hsp, Hm. simpl. lia.
  - destruct (task_step_inv _ _ _ _ Hinv Hstep) as (? & _ & ?). auto.
Qed.

(** The internal steps are steps of the event loop or leave it alone. *)
Lemma internal_runs s evs effs s' evs0 effs0 :
  runs evs0 effs0 (event_loop s) → internal permits s evs effs s' →
  runs (evs0 ++ evs) (effs0 ++ effs) (event_loop s').
Proof.
  intros Hr Hint. revert Hr.
  destruct Hint as [s m q s' effs Hm Hreact|s a s' Ha Hstep]; intros Hr.
  - unfold react in Hreact. run_inv. destruct x as [l effs2]. run_inv. simpl in *.
    by eapply runs_snoc.
  - rewrite !app_nil_r. destruct a; simpl in Hstep; repeat case_match; by simplify_eq/=.
Qed.

Lemma system_runs_inv evs effs s :
  system_runs permits evs effs s → system_inv permits s ∧ runs evs effs (event_loop s).
Proof.
  induction 1 as [|evs effs s e s' effs' _ [Hinv Hr] Ho Hen Hreact
    |evs effs s s' _ [Hinv Hr] Hstep|evs effs s evs' effs' s' _ [Hinv Hr] Hint].
  - split; [|constructor]. constructor; simpl; [|unfold total; rewrite map_to_list_empty; simpl; lia].
    constructor; simpl; [by intros ????? ?|by intros t [? ?]|set_solver].
  - unfold react in Hreact. run_inv. destruct x as [l effs1]. run_inv. destruct Hinv as [Hl Hp].
    split; [|by eapply runs_snoc]. simpl in *.
    destruct (outside_linked _ _ _ _ _ Ho ltac:(eassumption) _ _ Hl) as [Hl' Hh].
    constructor; simpl; [done|]. by rewrite Hh.
  - destruct (task_step_inv _ _ _ _ Hinv Hstep) as (? & -> & _). done.
  - split; [by eapply internal_inv|by eapply internal_runs].
Qed.

(** Tasks that hold a permit can always advance once the channel is empty. *)
Lemma holder_steps s t b stage :
  (0 < permits)%nat → messages s = [] → tasks s !! t = Some (b, stage) → (0 < holds stage)%nat →
  ∃ a s', a ≠ DebugAcquire ∧ task_step (channel_capacity permits) s a = Some s'.
Proof.
  intros Hpos Hm Ht Hh.
  assert (length (messages s) < channel_capacity permits)%nat as Hcap.
  { rewrite Hm. unfold channel_capacity. simpl. lia. }
  destruct stage; simpl in Hh; try lia.
  - exists (SendStarted t). eexists. split; [done|]. simpl. rewrite Ht. by rewrite decide_True.
  - exists (FinishTracing t (Ok [])). eexists. split; [done|]. simpl. by rewrite Ht.
  - exists (SendFinished t). eexists. split; [done|]. simpl. rewrite Ht. by rewrite decide_True.
Qed.

(** While steps are pending, one of them is possible. *)
Lemma progress s :
  (0 < permits)%nat → system_inv permits s → (0 < pending s)%nat →
  ∃ evs effs s', internal permits s evs effs s'.
Proof.
  intros Hpos [_ Hp] Hpend. unfold pending in Hpend.
  destruct (messages s) as [|m q] eqn:Hm; simpl in Hpend.
  2: { assert (∃ s' effs, react (set_messages q s) (OnMessage m) = Ret (s', effs))
         as (s' & effs & Hr).
       { unfold react. destruct m as [b|b tr]; simpl; [by eauto|].
         destruct (blocking_finished _ _ _); simpl; by eauto. }
       eexists _, _, _. by eapply internal_message. }
  enough (∃ a s', a ≠ DebugAcquire ∧ task_step (channel_capacity permits) s a = Some s')
    as (a & s' & ? & ?) by (eexists _, _, _; by eapply internal_task).
  destruct (debug_permits s) as [|debug] eqn:Hd.
  2: { exists DebugRelease. eexists. split; [done|]. simpl. by rewrite Hd. }
  destruct (decide (0 < total holds (tasks s))%nat) as [(t & b & stage & Ht & Hh)%total_pos|].
  { by eapply holder_steps. }
  destruct (total_pos remaining (tasks s)) as (t & b & stage & Ht & Hr); [lia|].
  pose proof (total_lookup holds (tasks s) t b stage Ht).
  destruct stage; simpl in *; try lia. destruct (free_permits s) as [|free] eqn:Hf; [lia|].
  exists (AcquirePermit t). eexists. split; [done|]. simpl. by rewrite Ht, Hf.
Qed.

(** Without pending steps no channel waits. *)
Lemma done_no_waiting s :
  system_inv permits s → pending s = 0%nat → waiting (inner (event_loop s)) = [].
Proof.
  intros [[He _ _] _] Hpend. unfold pending in Hpend. unfold waiting, waiting_in.
  assert (Forall (λ x : H256 * CacheBlock, waiting_of x.2 = [])
    (map_to_list (cached_blocks (inner (event_loop s))))) as Hall.
  { apply Forall_forall. intros [b [n [st ws t|tr]]] Hin; [exfalso|done].
    apply elem_of_map_to_list in Hin. destruct (He _ _ _ _ _ Hin) as (_ & stage & HT & Hq).
    pose proof (total_lookup remaining (tasks s) t b stage HT).
    destruct stage; simpl in *; try lia. destruct (Hq eq_refl) as [tr Htr].
    destruct (messages s); simpl in *; [by apply elem_of_nil in Htr|lia]. }
  induction Hall as [|x l Hx _ IH]; [done|]. rewrite fmap_cons. simpl. by rewrite Hx.
Qed.

(** No internal step closes a channel. *)
Lemma internal_closes_none s evs effs s' : internal permits s evs effs s' → closed effs = [].
Proof.
  intros [? m q s1 effs1 _ Hreact|? a s1 _ _]; [|done]. unfold react in Hreact. run_inv.
  destruct x as [l effs2]. run_inv.
  edestruct (round_closings (λ _ _, True)) as [_ Hc]; [| |done|].
  { intros b c _. by apply Forall_true. }
  { done. }
  destruct (closed effs1) as [|ch chs]; [done|].
  apply Forall_cons in Hc as [(b & (id & bl & [?|?] & _) & _) _]; done.
Qed.

(** What a sequence of internal steps keeps. *)
Lemma drains_inv n s evs effs s' evs0 effs0 :
  drains permits n s evs effs s' → system_inv permits s → runs evs0 effs0 (event_loop s) →
  system_inv permits s' ∧ (n + pending s' ≤ pending s)%nat ∧
  runs (evs0 ++ evs) (effs0 ++ effs) (event_loop s') ∧ requested evs = [] ∧ closed effs = [].
Proof.
  intros Hd. revert evs0 effs0. induction Hd as [|n s evs effs s1 evs' effs' s2 Hint _ IH];
    intros evs0 effs0 Hinv Hr.
  { rewrite !app_nil_r. auto with lia. }
  destruct (internal_inv _ _ _ _ Hinv Hint) as [Hinv1 Hlt].
  destruct (IH _ _ Hinv1 (internal_runs _ _ _ _ _ _ Hr Hint)) as (Hinv2 & ? & Hr2 & Hreq & Hcl).
  rewrite <-!app_assoc in Hr2. split_and!; [done|lia|done| |].
  - unfold requested in *. rewrite omap_app, Hreq, app_nil_r. by destruct Hint.
  - by rewrite closed_app, Hcl, (internal_closes_none _ _ _ _ Hint).
Qed.

(** Nothing is left to do: every tracing task has returned, no message is queued, the
    semaphore has all its permits, and no request waits. *)
Record idle (s : System) : Prop := {
  idle_tasks t b stage : tasks s !! t = Some (b, stage) → stage = Ended;
  idle_messages : messages s = [];
  idle_permits : free_permits s = permits;
  idle_waiting : waiting (inner (event_loop s)) = [];
}.

Lemma done_idle s : system_inv permits s → pending s = 0%nat → idle s.
Proof.
  intros Hinv Hpend. pose proof (done_no_waiting s Hinv Hpend) as Hw.
  destruct Hinv as [_ Hp]. unfold pending in Hpend.
  assert (∀ t b stage, tasks s !! t = Some (b, stage) → stage = Ended) as Hended.
  { intros t b stage Ht. pose proof (total_lookup remaining (tasks s) t b stage Ht).
    destruct stage; simpl in *; done || lia. }
  split; [done| | |done].
  - destruct (messages s); [done|simpl in *; lia].
  - rewrite (total_zero holds (tasks s)) in Hp; [lia|]. intros t b stage Ht.
    by rewrite (Hended _ _ _ Ht).
Qed.

Lemma drains_done s :
  (0 < permits)%nat → system_inv permits s →
  ∃ n evs effs s', drains permits n s evs effs s' ∧ pending s' = 0%nat.
Proof.
  intros Hpos. induction (Nat.lt_wf_0_projected pending s) as [s _ IH]. intros Hinv.
  destruct (decide (0 < pending s)%nat) as [Hlt|]; [|].
  - destruct (progress s Hpos Hinv Hlt) as (evs & effs & s1 & Hint).
    destruct (internal_inv _ _ _ _ Hinv Hint) as [Hinv1 Hlt1].
    destruct (IH s1 Hlt1 Hinv1) as (n & evs' & effs' & s' & Hd & Hdone).
    eexists _, _, _, s'. split; [by eapply drains_S|done].
  - eexists O, [], [], s. split; [constructor|lia].
Qed.

(** C12: no request for traces waits for ever.  From every state the cache task and
    its tracing tasks can reach, with any requests, expirations and debug work in
    between and at least one permit: the system stops after at most [pending]
    internal steps (messages handled, permits taken and returned, blocks traced), in
    whatever order they happen; it does come to a stop; and when it stops every tracing
    task has returned, no message is queued, all permits are free, and every request for
    traces made so far has been answered, except those closed before, each because a batch
    that holds its block was stopped or expired. *)
Theorem cache_liveness evs effs s :
  (0 < permits)%nat → system_runs permits evs effs s →
  (∀ n evs' effs' s', drains permits n s evs' effs' s' →
     (n ≤ pending s)%nat ∧
     (quiescent permits s' →
      idle s' ∧ requested evs ≡ₚ answered (effs ++ effs') ++ closed effs ∧
      Forall (given_up evs) (closed effs))) ∧
  (∃ n evs' effs' s', drains permits n s evs' effs' s' ∧ quiescent permits s').
Proof.
  intros Hpos [Hinv Hr]%system_runs_inv. split.
  - intros n evs' effs' s' Hd.
    destruct (drains_inv _ _ _ _ _ _ _ Hd Hinv Hr) as (Hinv' & Hn & Hr' & Hreq & Hcl).
    split; [lia|]. intros Hq. assert (idle s') as Hidle.
    { apply done_idle; [done|]. destruct (decide (0 < pending s')%nat) as [Hlt|]; [|lia].
      destruct (progress s' Hpos Hinv' Hlt) as (? & ? & ? & Hint). by destruct (Hq _ _ _ Hint). }
    split; [done|]. split; [|by eapply runs_closings].
    pose proof (runs_channels _ _ _ Hr') as Hch. destruct Hidle as [_ _ _ Hw].
    rewrite Hw, closed_app, Hcl in Hch.
    unfold requested in *. by rewrite omap_app, Hreq, !app_nil_r in Hch.
  - destruct (drains_done s Hpos Hinv) as (n & evs' & effs' & s' & Hd & Hdone).
    eexists n, evs', effs', s'. split; [done|]. intros ??? Hint.
    destruct (drains_inv _ _ _ _ _ _ _ Hd Hinv Hr) as (Hinv' & _).
    destruct (internal_inv _ _ _ _ Hinv' Hint). lia.
Qed.

End system.

(** ** An instance *)

Module SystemExample.
#[local] Existing Instance dev.

(** One permit, which the debug module holds; two blocks, one of them awaited. *)
Definition evs : list LoopEvent :=
  [OnRequest (StartBatch 10 [5; 6]); OnRequest (GetTraces 11 5)].

Definition s0 : System :=
  default (System_new 1) (task_step (channel_capacity 1) (System_new 1) DebugAcquire).
Definition r1 := outcome_or (react s0 (OnRequest (StartBatch 10 [5; 6]))) (s0, []).
Definition r2 := outcome_or (react r1.1 (OnRequest (GetTraces 11 5))) (s0, []).

Lemma example_run : system_runs 1 evs (r1.2 ++ r2.2) r2.1.
Proof.
  apply (system_outside _ [_] r1.2 r1.1); [|done|done|vm_compute; reflexivity].
  apply (system_outside _ [] [] s0); [|done|done|vm_compute; reflexivity].
  apply (system_debug _ [] [] (System_new 1)); [constructor|vm_compute; reflexivity].
Qed.

Lemma state : debug_permits r2.1 = 1%nat ∧ waiting (inner (event_loop r2.1)) = [11] ∧
  pending r2.1 = 13%nat.
Proof. by vm_compute. Qed.

End SystemExample.

Lemma cache_liveness_witness :
  ∃ n evs' effs' s', let effs := SystemExample.r1.2 ++ SystemExample.r2.2 in
    @drains dev 1 n SystemExample.r2.1 evs' effs' s' ∧ (n ≤ 13)%nat ∧ idle 1 s' ∧
    [11] ≡ₚ answered (effs ++ effs').
Proof.
  destruct (@cache_liveness dev 1 SystemExample.evs _ _ ltac:(lia) SystemExample.example_run)
    as [Hall (n & evs' & effs' & s' & Hd & Hq)].
  destruct (Hall n evs' effs' s' Hd) as [Hn Hch].
  destruct SystemExample.state as (_ & _ & Hp). rewrite Hp in Hn.
  destruct (Hch Hq) as (Hidle & Hans & _).
  change (closed (SystemExample.r1.2 ++ SystemExample.r2.2)) with (@nil Z) in Hans.
  rewrite app_nil_r in Hans. exists n, evs', effs', s'. exact (conj Hd (conj Hn (conj Hidle Hans))).
Defined.
