(* ===== verification/TraceFilter.v ===== *)
(** * The trace_filter endpoint: client/rpc/trace/src/lib.rs

    The handler [Trace::filter] with its pagination ([fetch_traces]), and the
    tracing of one block ([CacheTask::cache_block]).  The client (headers, best
    block), the cache task seen through its requester, the storage overrides and
    the runtime API are parameters. *)

From stdpp Require Import base tactics list gmap strings.
From Stdlib Require Import ZArith Lia Strings.Byte.
From S2P Require Import Prelude Trees EvmEvents TraceTypes CallList CallTree CallListSpec.
From S2P Require Import CallTracer Formatters RpcTypes TraceCache.
Local Open Scope Z_scope.

(** ** The requester of the cache task *)

(** [CacheRequester::start_batch]: whether the request was sent, and the answer
    ([None] when the channel was closed). *)
Definition requester_start_batch (sent : result unit Z) (response : option Z) :
    result Z RpcError :=
  match sent with
  | Err e =>
      Err (internal_err "Failed to send request to the trace cache task. Error : {:?}" [e])
  | Ok _ =>
      match response with
      | None =>
          Err (internal_err "Trace cache task closed the response channel. Error : {:?}" [])
      | Some batch_id => Ok batch_id
      end
  end.

(** [CacheRequester::get_traces]. *)
Definition requester_get_traces (sent : result unit Z)
    (response : option (result (list TransactionTrace) RpcError)) :
    result (list TransactionTrace) RpcError :=
  match sent with
  | Err e =>
      Err (internal_err "Failed to send request to the trace cache task. Error : {:?}" [e])
  | Ok _ =>
      match response with
      | None =>
          Err (internal_err "Trace cache task closed the response channel. Error : {:?}" [])
      | Some (Err e) => Err (internal_err_from "Failed to replay block. Error : {:?}" e)
      | Some (Ok traces) => Ok traces
      end
  end.

(** [CacheRequester::stop_batch]: a request that could not be sent is dropped. *)
Definition requester_stop_batch (sent : result unit Z) : unit :=
  let _ :=
    match sent with
    | Err e =>
        Err (internal_err "Failed to send request to the trace cache task. Error : {:?}" [e])
    | Ok u => Ok u
    end in tt.

(** ** Pagination *)

Definition listed (addresses : list H160) (a : H160) : bool :=
  bool_decide (addresses = []) || bool_decide (a ∈ addresses).

(** The filter on the addresses of a trace. *)
Definition matches (from_address to_address : list H160) (trace : TransactionTrace) : bool :=
  match tt_action trace with
  | Action_Call _ from _ _ to _ => listed from_address from && listed to_address to
  | Action_Create _ from _ _ _ => listed from_address from && bool_decide (to_address = [])
  | Action_Suicide address _ _ => listed from_address address && bool_decide (to_address = [])
  end.

Definition over_maximum (max_count : Z) : RpcError :=
  internal_err "the amount of traces goes over the maximum ({}), please use 'after' and 'count' in your request"
    [max_count].

Section handlers.
(** The requester of the cache task, as far as the handler sees it. *)
Context (start_batch : list H256 → result Z RpcError).
Context (get_traces : H256 → result (list TransactionTrace) RpcError).

(** The body of the loop of [fetch_traces] and the rest of its rounds, with the
    amount of traces ([i64], negative before the ["after"] marker), the traces
    so far, and the requests that are made. *)
Fixpoint fetch_loop (max_count : Z) (req : FilterRequest) (cnt : Z) (traces_amount : Z)
    (traces : list TransactionTrace) (block_hashes : list H256) :
    result (list TransactionTrace) RpcError * list H256 :=
  match block_hashes with
  | [] => (Ok traces, [])
  | block_hash :: block_hashes =>
      match get_traces block_hash with
      | Err e => (Err e, [block_hash])
      | Ok block_traces =>
          let block_traces :=
            filter (λ t, matches (default [] (from_address req)) (default [] (to_address req)) t)
              block_traces in
          let traces_amount := traces_amount + zlen block_traces in
          let '(stop, traces) :=
            if 0 <? traces_amount then
              let block_traces :=
                if traces_amount <? zlen block_traces
                then drop (Z.to_nat (zlen block_traces - traces_amount)) block_traces
                else block_traces in
              (cnt <=? traces_amount, traces ++ block_traces)
            else (false, traces) in
          if stop : bool then
            match count req with
            | None => (Err (over_maximum max_count), [block_hash])
            | Some _ => (Ok (take (Z.to_nat cnt) traces), [block_hash])
            end
          else
            let '(res, reqs) :=
              fetch_loop max_count req cnt traces_amount traces block_hashes in
            (res, block_hash :: reqs)
      end
  end.

(** [Trace::fetch_traces]: the result, and the blocks whose traces it asked for. *)
Definition fetch_traces (max_count : Z) (req : FilterRequest) (block_hashes : list H256)
    (cnt : Z) : result (list TransactionTrace) RpcError * list H256 :=
  fetch_loop max_count req cnt (- default 0 (after req)) [] block_hashes.

(** ** The endpoint *)

(** The chain as the client shows it: the best block, and the header's hash at a
    height (an error of the database, no header, or the hash). *)
Context (best_number : Z) (header_hash : Z → result (option H256) Z).

(** [Trace::block_id]. *)
Definition block_id (id : option RequestBlockId) : result Z RpcError :=
  match id with
  | Some (RequestBlockId_Number n) => Ok n
  | None | Some (RequestBlockId_Tag Latest) => Ok best_number
  | Some (RequestBlockId_Tag Earliest) => Ok 0
  | Some (RequestBlockId_Tag Pending) => Err (internal_err "'pending' is not supported" [])
  | Some (RequestBlockId_Hash _) => Err (internal_err "Block hash not supported" [])
  end.

(** The hashes of the blocks at the given heights, genesis excluded. *)
Fixpoint collect_hashes (heights : list Z) : result (list H256) RpcError :=
  match heights with
  | [] => Ok []
  | h :: heights =>
      if h =? 0 then collect_hashes heights
      else
        match header_hash h with
        | Err e => Err (internal_err "Error when fetching block {} header : {:?}" [h; e])
        | Ok None => Err (internal_err "Block with height {} don't exist" [h])
        | Ok (Some block_hash) =>
            block_hashes ←? collect_hashes heights; Ok (block_hash :: block_hashes)
        end
  end.

(** The range [from..=to]. *)
Definition range_inclusive (from to : Z) : list Z := seqZ from (to - from + 1).

(** [Trace::filter]: the result and the requests made to the cache task. *)
Definition trace_filter (max_count : Z) (req : FilterRequest) :
    result (list TransactionTrace) RpcError * list CacheRequest :=
  match block_id (from_block req) with
  | Err e => (Err e, [])
  | Ok from =>
      match block_id (to_block req) with
      | Err e => (Err e, [])
      | Ok to =>
          let cnt := default max_count (count req) in
          if max_count <? cnt then
            (Err (internal_err "count ({}) can't be greater than maximum ({})"
                    [cnt; max_count]), [])
          else
            match collect_hashes (range_inclusive from to) with
            | Err e => (Err e, [])
            | Ok block_hashes =>
                match start_batch block_hashes with
                | Err e => (Err e, [StartBatch 0 block_hashes])
                | Ok batch_id =>
                    let '(res, asked) := fetch_traces max_count req block_hashes cnt in
                    (res, [StartBatch 0 block_hashes] ++ (GetTraces 0 <$> asked)
                            ++ [StopBatch batch_id])
                end
            end
      end
  end.

End handlers.

(** ** Tracing a block *)

Definition reverted_bytes : bytes := bytes_of "Reverted".

(** The completion of a trace with the data of its block. *)
Definition complete_trace (eth_block_hash : H256) (height : Z) (transaction_hash : H256)
    (trace : TransactionTrace) : TransactionTrace := {|
  tt_action := tt_action trace;
  tt_block_hash := eth_block_hash;
  tt_block_number := height;
  tt_output :=
    match tt_output trace with
    | TraceOutput_Error error =>
        if decide (error = bytes_of "execution reverted")
        then TraceOutput_Error reverted_bytes
        else TraceOutput_Error error
    | output => output
    end;
  tt_subtraces := tt_subtraces trace;
  tt_trace_address := tt_trace_address trace;
  tt_transaction_hash := transaction_hash;
  tt_transaction_position := tt_transaction_position trace;
|}.

(** One round of the loop that fills the missing data. *)
Definition fill_trace (eth_block_hash : H256) (height : Z) (eth_transactions : list H256)
    (trace : TransactionTrace) : result TransactionTrace RpcError :=
  match eth_transactions !! Z.to_nat (tt_transaction_position trace) with
  | None =>
      Err (internal_err
        "Bug: A transaction has been replayed while it shouldn't (in block {})." [height])
  | Some transaction_hash =>
      Ok (complete_trace eth_block_hash height transaction_hash trace)
  end.

Fixpoint fill_traces (eth_block_hash : H256) (height : Z) (eth_transactions : list H256)
    (traces : list TransactionTrace) : result (list TransactionTrace) RpcError :=
  match traces with
  | [] => Ok []
  | trace :: traces =>
      trace ←? fill_trace eth_block_hash height eth_transactions trace;
      traces ←? fill_traces eth_block_hash height eth_transactions traces;
      Ok (trace :: traces)
  end.

Section cache_block.
Context `{!BuildProfile}.
(** The header of a block (height and parent), its Ethereum block (hash and the
    hashes of its transactions) as the storage override of its schema gives it,
    its extrinsics, and the runtime API: initialising a block on top of its
    parent, and replaying the extrinsics, which emits events and may fail. *)
Context {Extrinsic : Type}.
Context (header : H256 → result (option (Z * H256)) Z).
Context (eth_data : H256 → option (option (H256 * list H256))).
Context (body : H256 → result (option (list Extrinsic)) Z).
Context (initialize_block : H256 → H256 → list Event * result unit Z).
Context (trace_block : H256 → list Extrinsic → list H256 →
  list Event * result (result unit Z) Z).

(** The closure [f] of [cache_block]: the events it emits and its result. *)
Definition replay (parent substrate_hash : H256) (height : Z) (extrinsics : list Extrinsic)
    (eth_tx_hashes : list H256) : list Event * result unit RpcError :=
  let '(events1, r1) := initialize_block parent substrate_hash in
  match r1 with
  | Err e => (events1, Err (internal_err "Runtime api access error: {:?}" [e]))
  | Ok _ =>
      let '(events2, r2) := trace_block parent extrinsics eth_tx_hashes in
      (events1 ++ events2,
       match r2 with
       | Err e => Err (internal_err "Blockchain error when replaying block {} : {:?}" [height; e])
       | Ok (Err e) =>
           Err (internal_err "Internal runtime error when replaying block {} : {:?}" [height; e])
       | Ok (Ok _) => Ok tt
       end)
  end.

(** [CacheTask::cache_block]. *)
Definition cache_block (substrate_hash : H256) :
    outcome (result (list TransactionTrace) RpcError) :=
  match header substrate_hash with
  | Err e =>
      Ret (Err (internal_err "Error when fetching substrate block {} header : {:?}"
                  [substrate_hash; e]))
  | Ok None => Ret (Err (internal_err "Subtrate block {} don't exist" [substrate_hash]))
  | Ok (Some (height, parent)) =>
      match eth_data substrate_hash with
      | None => Ret (Err (internal_err "No storage override at {:?}" [substrate_hash]))
      | Some None =>
          Ret (Err (internal_err "Failed to get Ethereum block data for Substrate block {}"
                      [substrate_hash]))
      | Some (Some (eth_block_hash, eth_transactions)) =>
          match body substrate_hash with
          | Err e =>
              Ret (Err (internal_err
                "Blockchain error when fetching extrinsics of block {} : {:?}" [height; e]))
          | Ok None =>
              Ret (Err (internal_err "Could not find block {} when fetching extrinsics."
                          [height]))
          | Ok (Some extrinsics) =>
              '(proxy, r) ← using_listener Listener_default
                (replay parent substrate_hash height extrinsics eth_transactions);
              match r with
              | Err e => Ret (Err e)
              | Ok _ =>
                  match trace_filter_format proxy with
                  | None => Ret (Err (internal_err "Fail to format proxy" []))
                  | Some traces =>
                      Ret (fill_traces eth_block_hash height eth_transactions traces)
                  end
              end
          end
      end
  end.

(** The result the tracing task sends: a panic of the blocking task is an error. *)
Definition tracing_task_result (substrate_hash : H256) :
    result (list TransactionTrace) RpcError :=
  match cache_block substrate_hash with
  | Ret r => r
  | Panic => Err (internal_err "Tracing Substrate block {} panicked : {:?}" [substrate_hash])
  end.

End cache_block.

(** ** Pagination is a slice of the matching traces *)

Section pagination.
Context (get_traces : H256 → result (list TransactionTrace) RpcError).
Context (traces_of : H256 → list TransactionTrace).

(** All traces of the blocks that match the request, in order. *)
Definition matching (req : FilterRequest) (blocks : list H256) : list TransactionTrace :=
  mjoin ((λ b, filter (λ t, matches (default [] (from_address req))
    (default [] (to_address req)) t) (traces_of b)) <$> blocks).

(** The answer for the traces after the first [skip] of [all]. *)
Definition page (max_count : Z) (req : FilterRequest) (cnt : Z) (skip : nat)
    (all : list TransactionTrace) : result (list TransactionTrace) RpcError :=
  match count req with
  | Some _ => Ok (take (Z.to_nat cnt) (drop skip all))
  | None =>
      let amount := zlen all - Z.of_nat skip in
      if (0 <? amount) && (cnt <=? amount) then Err (over_maximum max_count)
      else Ok (drop skip all)
  end.

(** Dropping across two lists, the way the loop does it. *)
Lemma drop_across {A} (skip : nat) (l1 l2 : list A) :
  let amount := zlen l1 - Z.of_nat skip + zlen l2 in
  0 < amount →
  drop skip (l1 ++ l2) =
  drop skip l1 ++ (if amount <? zlen l2 then drop (Z.to_nat (zlen l2 - amount)) l2 else l2).
Proof.
  intros amount Hpos. rewrite drop_app. f_equal.
  destruct (Z.ltb_spec amount (zlen l2)).
  - f_equal. lia.
  - by replace (skip - length l1)%nat with 0%nat by lia.
Qed.

Lemma fetch_loop_page max_count req cnt skip pre blocks :
  0 ≤ cnt →
  (∀ b, b ∈ blocks → get_traces b = Ok (traces_of b)) →
  (zlen pre - Z.of_nat skip ≤ 0 ∨ zlen pre - Z.of_nat skip < cnt) →
  (fetch_loop get_traces max_count req cnt (zlen pre - Z.of_nat skip) (drop skip pre)
     blocks).1 = page max_count req cnt skip (pre ++ matching req blocks).
Proof.
  intros Hcnt. revert pre. induction blocks as [|b blocks IH]; intros pre Hget Hpre.
  { cbn [fetch_loop fst]. unfold matching, page. simpl. rewrite app_nil_r.
    destruct (count req).
    - f_equal. rewrite take_ge; [done|]. rewrite length_drop. lia.
    - destruct (Z.ltb_spec 0 (zlen pre - Z.of_nat skip)),
        (Z.leb_spec cnt (zlen pre - Z.of_nat skip)); simpl; try done. lia. }
  cbn [fetch_loop]. rewrite (Hget b) by left. cbn zeta.
  unfold matching. rewrite fmap_cons. cbn [mjoin list_join].
  change (mjoin (_ <$> blocks)) with (matching req blocks). rewrite app_assoc.
  set (bt := filter _ (traces_of b)). set (pre' := pre ++ bt).
  assert (zlen pre - Z.of_nat skip + zlen bt = zlen pre' - Z.of_nat skip) as Hlen.
  { unfold pre'. rewrite length_app. lia. }
  assert (zlen pre' - Z.of_nat skip ≤ 0 → drop skip pre' = drop skip pre) as Hnone.
  { intros Hle. rewrite !drop_ge; [done|lia|]. unfold pre' in Hle.
    rewrite length_app in Hle. lia. }
  pose proof (drop_across skip pre bt) as Hacross. cbn zeta in Hacross. fold pre' in Hacross.
  rewrite Hlen in *.
  assert (∀ b0, b0 ∈ blocks → get_traces b0 = Ok (traces_of b0)) as Hget'
    by (intros; apply Hget; by right).
  destruct (Z.ltb_spec 0 (zlen pre' - Z.of_nat skip)) as [Hpos|Hneg]; cbv zeta iota beta.
  - rewrite <-Hacross by done.
    destruct (Z.leb_spec cnt (zlen pre' - Z.of_nat skip)) as [Hstop|Hgo].
    + unfold page. destruct (count req); cbn [fst].
      * f_equal. rewrite drop_app_le by lia. rewrite take_app_le; [done|].
        rewrite length_drop. lia.
      * rewrite length_app. pose proof (Nat2Z.is_nonneg (length (matching req blocks))).
        rewrite (proj2 (Z.ltb_lt _ _)), (proj2 (Z.leb_le _ _)) by lia. done.
    + specialize (IH pre' Hget' ltac:(lia)).
      destruct (fetch_loop _ _ _ _ _ _ _) as [res reqs]. exact IH.
  - rewrite <-Hnone by lia. specialize (IH pre' Hget' ltac:(lia)).
    destruct (fetch_loop _ _ _ _ _ _ _) as [res reqs]. exact IH.
Qed.

Lemma fetch_traces_page max_count req blocks cnt :
  0 ≤ cnt → 0 ≤ default 0 (after req) →
  (∀ b, b ∈ blocks → get_traces b = Ok (traces_of b)) →
  (fetch_traces get_traces max_count req blocks cnt).1 =
  page max_count req cnt (Z.to_nat (default 0 (after req))) (matching req blocks).
Proof.
  intros Hcnt Hafter Hget. unfold fetch_traces.
  pose proof (fetch_loop_page max_count req cnt (Z.to_nat (default 0 (after req))) []
    blocks Hcnt Hget) as Hpage.
  rewrite drop_nil in Hpage. simpl in Hpage. rewrite Z2Nat.id in Hpage by done.
  apply Hpage. lia.
Qed.

End pagination.

(** The blocks asked for are the first ones of the range. *)
Lemma fetch_loop_prefix get_traces max_count req cnt amount traces blocks :
  (fetch_loop get_traces max_count req cnt amount traces blocks).2 `prefix_of` blocks.
Proof.
  revert amount traces. induction blocks as [|b blocks IH]; intros amount traces; [done|].
  cbn [fetch_loop]. destruct (get_traces b) as [bt|e];
    [|apply prefix_cons, prefix_nil].
  cbn zeta. match goal with |- context [fetch_loop get_traces max_count req cnt ?a _ blocks] =>
    destruct (if 0 <? a then _ else _) as [stop tr]; specialize (IH a tr);
    destruct (fetch_loop get_traces max_count req cnt a tr blocks) end.
  destruct stop; [destruct (count req); apply prefix_cons, prefix_nil|by apply prefix_cons].
Qed.

(** The filter of a request. *)
Definition request_matches (req : FilterRequest) (t : TransactionTrace) : Prop :=
  matches (default [] (from_address req)) (default [] (to_address req)) t = true.

(** The traces kept of one block. *)
Definition kept (amount : Z) (bt : list TransactionTrace) : list TransactionTrace :=
  if amount <? zlen bt then drop (Z.to_nat (zlen bt - amount)) bt else bt.

Lemma kept_length amount (traces bt : list TransactionTrace) :
  zlen traces = Z.max 0 amount → 0 < amount + zlen bt →
  zlen (traces ++ kept (amount + zlen bt) bt) = amount + zlen bt.
Proof.
  intros Hlen Hpos. unfold kept. rewrite length_app.
  destruct (Z.ltb_spec (amount + zlen bt) (zlen bt)); rewrite ?length_drop; lia.
Qed.

(** Whatever the cache answers: the traces are as many as the amount counts, so
    that no more than [cnt] of them are returned. *)
Lemma fetch_loop_bounded get_traces max_count req cnt amount traces blocks out :
  0 ≤ cnt → zlen traces = Z.max 0 amount → (amount ≤ 0 ∨ amount < cnt) →
  Forall (request_matches req) traces →
  (fetch_loop get_traces max_count req cnt amount traces blocks).1 = Ok out →
  zlen out ≤ cnt ∧ (count req = None → out = [] ∨ zlen out < cnt) ∧
  Forall (request_matches req) out.
Proof.
  intros Hcnt. revert amount traces.
  induction blocks as [|b blocks IH]; intros amount traces Hlen Hlt Hall.
  { intros [= <-]. split; [lia|]. split; [|done]. intros _. destruct traces; [by left|right; simpl in *; lia]. }
  cbn [fetch_loop]. destruct (get_traces b) as [bt|e]; [|done]. cbn zeta.
  set (bf := filter _ bt).
  assert (Forall (request_matches req) bf) as Hbf.
  { apply Forall_forall. intros t [Ht _]%list_elem_of_filter. by apply Is_true_eq_true in Ht. }
  fold (kept (amount + zlen bf) bf).
  destruct (Z.ltb_spec 0 (amount + zlen bf)) as [Hpos|Hneg]; cbv zeta iota beta.
  - pose proof (kept_length amount traces bf Hlen Hpos) as Hk.
    assert (Forall (request_matches req) (traces ++ kept (amount + zlen bf) bf)) as Hall'.
    { apply Forall_app. split; [done|]. unfold kept. destruct (_ <? _); [|done].
      by apply Forall_drop. }
    destruct (Z.leb_spec cnt (amount + zlen bf)).
    + destruct (count req) eqn:Hc; [|done]. intros [= <-]. split; [rewrite length_take; lia|].
      split; [done|by apply Forall_take].
    + specialize (IH (amount + zlen bf) _ ltac:(rewrite Hk; lia) ltac:(lia) Hall').
      destruct (fetch_loop _ _ _ _ _ _ _) as [res reqs]. exact IH.
  - specialize (IH (amount + zlen bf) traces ltac:(lia) ltac:(lia) Hall).
    destruct (fetch_loop _ _ _ _ _ _ _) as [res reqs]. exact IH.
Qed.

Lemma collect_hashes_length header_hash heights hashes :
  collect_hashes header_hash heights = Ok hashes → (length hashes ≤ length heights)%nat.
Proof.
  revert hashes. induction heights as [|h heights IH]; intros hashes; simpl; [by intros [= <-]|].
  destruct (h =? 0); [intros ?%IH; lia|].
  destruct (header_hash h) as [[hash|]|]; try done.
  destruct (collect_hashes header_hash heights) as [hs|]; [|done].
  intros [= <-]. specialize (IH hs eq_refl). simpl. lia.
Qed.

Section endpoint.
Context (start_batch : list H256 → result Z RpcError).
Context (get_traces : H256 → result (list TransactionTrace) RpcError).
Context (best_number : Z) (header_hash : Z → result (option H256) Z).

Lemma collect_hashes_ok hash_at heights :
  (∀ h, h ∈ heights → h ≠ 0 → header_hash h = Ok (Some (hash_at h))) →
  collect_hashes header_hash heights = Ok (hash_at <$> filter (λ h, h ≠ 0) heights).
Proof.
  induction heights as [|h heights IH]; intros Hh; [done|].
  cbn [collect_hashes]. rewrite filter_cons.
  assert (∀ h0, h0 ∈ heights → h0 ≠ 0 → header_hash h0 = Ok (Some (hash_at h0))) as Hh'
    by (intros; apply Hh; [by right|done]).
  destruct (Z.eqb_spec h 0) as [->|Hne]; [by apply IH|].
  rewrite decide_True by done. rewrite (Hh h), (IH Hh'); [done|left|done].
Qed.

Lemma filter_slice hash_at traces_of batch_id max_count req from to :
  block_id best_number (from_block req) = Ok from →
  block_id best_number (to_block req) = Ok to →
  0 ≤ default max_count (count req) ≤ max_count → 0 ≤ default 0 (after req) →
  (∀ h, from ≤ h ≤ to → h ≠ 0 → header_hash h = Ok (Some (hash_at h)) ∧
     get_traces (hash_at h) = Ok (traces_of (hash_at h))) →
  (∀ bs, start_batch bs = Ok batch_id) →
  let blocks := hash_at <$> filter (λ h, h ≠ 0) (range_inclusive from to) in
  (trace_filter start_batch get_traces best_number header_hash max_count req).1 =
  page max_count req (default max_count (count req)) (Z.to_nat (default 0 (after req)))
    (matching traces_of req blocks).
Proof.
  intros Hfrom Hto Hcount Hafter Hblocks Hstart blocks. unfold trace_filter.
  rewrite Hfrom, Hto. cbn zeta. rewrite (proj2 (Z.ltb_ge _ _)) by lia.
  assert (∀ h, h ∈ range_inclusive from to → from ≤ h ≤ to) as Hrange.
  { intros h. unfold range_inclusive. rewrite elem_of_seqZ. lia. }
  rewrite (collect_hashes_ok hash_at) by (intros h Hh Hne; by apply Hblocks; [apply Hrange|]).
  fold blocks. rewrite Hstart.
  rewrite <-(fetch_traces_page get_traces traces_of); [|lia|done|].
  - by destruct (fetch_traces _ _ _ _ _).
  - intros b (h & -> & [Hne Hin]%list_elem_of_filter)%list_elem_of_fmap.
    by apply Hblocks; [apply Hrange|].
Qed.

(** C6: when the blocks of the range exist and can be traced, [trace_filter]
    answers with a slice of the traces that match the addresses, block by block
    and genesis excluded: those after the first [after], at most [count] of
    them.  Without a [count] it answers with all of them, or with an error when
    they are as many as the maximum. *)
Theorem trace_filter_slice hash_at traces_of batch_id max_count req from to :
  block_id best_number (from_block req) = Ok from →
  block_id best_number (to_block req) = Ok to →
  0 ≤ default max_count (count req) ≤ max_count → 0 ≤ default 0 (after req) →
  (∀ h, from ≤ h ≤ to → h ≠ 0 → header_hash h = Ok (Some (hash_at h)) ∧
     get_traces (hash_at h) = Ok (traces_of (hash_at h))) →
  (∀ bs, start_batch bs = Ok batch_id) →
  let blocks := hash_at <$> filter (λ h, h ≠ 0) (range_inclusive from to) in
  (trace_filter start_batch get_traces best_number header_hash max_count req).1 =
  page max_count req (default max_count (count req)) (Z.to_nat (default 0 (after req)))
    (matching traces_of req blocks).
Proof. apply filter_slice. Qed.

(** Whatever goes wrong, a batch that was started is stopped: the requests to
    the cache task are either none, a refused [StartBatch], or a [StartBatch],
    requests for the traces of the first blocks of the batch in order, and the
    [StopBatch] of that batch. *)
Theorem trace_filter_stops_batch max_count req :
  let '(res, reqs) := trace_filter start_batch get_traces best_number header_hash
                        max_count req in
  (reqs = [] ∧ ∃ e, res = Err e) ∨
  ∃ hashes,
    (∃ e, start_batch hashes = Err e ∧ res = Err e ∧ reqs = [StartBatch 0 hashes]) ∨
    (∃ batch_id asked, start_batch hashes = Ok batch_id ∧ asked `prefix_of` hashes ∧
       reqs = StartBatch 0 hashes :: (GetTraces 0 <$> asked) ++ [StopBatch batch_id]).
Proof.
  unfold trace_filter.
  destruct (block_id _ (from_block req)) as [from|e]; [|left; eauto].
  destruct (block_id _ (to_block req)) as [to|e]; [|left; eauto]. cbn zeta.
  destruct (max_count <? _); [left; eauto|].
  destruct (collect_hashes _ _) as [hashes|e]; [|left; eauto].
  destruct (start_batch hashes) as [id|e] eqn:Hstart.
  - destruct (fetch_traces _ _ _ _ _) as [res asked] eqn:Hf. right. exists hashes. right.
    exists id, asked. split_and!; [done| |done].
    pose proof (fetch_loop_prefix get_traces max_count req (default max_count (count req))
      (- default 0 (after req)) [] hashes) as Hpre.
    unfold fetch_traces in Hf. by rewrite Hf in Hpre.
  - right. exists hashes. left. eauto.
Qed.

(** Whatever the cache task and the database answer, [trace_filter] answers with at
    most [count] traces and never more than the maximum the node allows, all of them
    with matching addresses; without a [count], fewer than the maximum.  It asks the
    cache at most once per block of the range, besides starting and stopping its
    batch. *)
Theorem trace_filter_bounded max_count req :
  0 ≤ max_count → 0 ≤ default max_count (count req) → 0 ≤ default 0 (after req) →
  let '(res, reqs) := trace_filter start_batch get_traces best_number header_hash
                        max_count req in
  (∀ traces, res = Ok traces →
     zlen traces ≤ default max_count (count req) ≤ max_count ∧
     (count req = None → traces = [] ∨ zlen traces < max_count) ∧
     Forall (request_matches req) traces) ∧
  (∀ from to, block_id best_number (from_block req) = Ok from →
     block_id best_number (to_block req) = Ok to →
     zlen reqs ≤ Z.max 0 (to - from + 1) + 2).
Proof.
  intros Hmax Hcnt Hafter. unfold trace_filter.
  destruct (block_id _ (from_block req)) as [from|e]; [|split; [done|]; intros; simplify_eq; done].
  destruct (block_id _ (to_block req)) as [to|e]; [|split; [done|]; intros; simplify_eq; done].
  cbn zeta. destruct (Z.ltb_spec max_count (default max_count (count req))).
  { split; [done|]. simpl. lia. }
  destruct (collect_hashes _ _) as [hashes|e] eqn:Hcol; [|split; [done|]; simpl; lia].
  destruct (start_batch hashes) as [id|e]; [|split; [done|]; simpl; lia].
  destruct (fetch_traces _ _ _ _ _) as [res asked] eqn:Hf. split.
  - intros traces ->. split_and!; try done.
    all: edestruct (fetch_loop_bounded get_traces max_count req (default max_count (count req))
      (- default 0 (after req)) [] hashes traces) as (? & Hnone & ?); try done; try (simpl; lia);
      try (unfold fetch_traces in Hf; by rewrite Hf).
    intros Hc. rewrite Hc in Hnone. by apply Hnone.
  - intros from' to' [= <-] [= <-]. simpl. rewrite length_app, length_fmap. simpl.
    pose proof (fetch_loop_prefix get_traces max_count req (default max_count (count req))
      (- default 0 (after req)) [] hashes) as Hpre.
    unfold fetch_traces in Hf. rewrite Hf in Hpre. apply prefix_length in Hpre.
    apply collect_hashes_length in Hcol. unfold range_inclusive in Hcol.
    rewrite length_seqZ in Hcol. simpl in Hpre. lia.
Qed.

End endpoint.

Definition with_after (req : FilterRequest) (a : Z) : FilterRequest :=
  mkFilterRequest (from_block req) (to_block req) (from_address req) (to_address req)
    (Some a) (count req).

Definition ok_or_nil {A} (r : result (list A) RpcError) : list A :=
  match r with Ok l => l | Err _ => [] end.

Lemma take_add_drop {A} (l : list A) n m : take n l ++ take m (drop n l) = take (n + m) l.
Proof. by rewrite take_take_drop. Qed.

(** Reading page after page, with [count] traces each and [after] advanced by
    [count], gives every matching trace once, in order. *)
Theorem trace_filter_pages get_traces traces_of max_count req n blocks m :
  count req = Some (Z.of_nat n) →
  (∀ b, b ∈ blocks → get_traces b = Ok (traces_of b)) →
  mjoin ((λ k, ok_or_nil (fetch_traces get_traces max_count
    (with_after req (Z.of_nat (k * n))) blocks (Z.of_nat n)).1) <$> seq 0 m) =
  take (m * n) (matching traces_of req blocks).
Proof.
  intros Hn Hget. induction m as [|m IH]; [done|].
  rewrite seq_S, fmap_app, join_app, IH. simpl. rewrite app_nil_r.
  rewrite (fetch_traces_page get_traces traces_of) by (simpl; done || lia).
  unfold page. simpl. rewrite Hn. simpl. rewrite !Nat2Z.id.
  change (matching traces_of (with_after req _) blocks) with (matching traces_of req blocks).
  rewrite take_add_drop. f_equal. lia.
Qed.

(** A request without [count] is refused as soon as there are exactly as many
    matching traces as the maximum, although they do not go over it. *)
Theorem trace_filter_exact_maximum get_traces traces_of req blocks max_count :
  count req = None → after req = None → 0 < max_count →
  (∀ b, b ∈ blocks → get_traces b = Ok (traces_of b)) →
  zlen (matching traces_of req blocks) = max_count →
  (fetch_traces get_traces max_count req blocks max_count).1 = Err (over_maximum max_count).
Proof.
  intros Hc Ha Hmax Hget Hlen.
  rewrite (fetch_traces_page get_traces traces_of) by (rewrite ?Ha; simpl; done || lia).
  unfold page. rewrite Hc, Ha, Hlen. simpl.
  rewrite (proj2 (Z.ltb_lt _ _)), (proj2 (Z.leb_le _ _)) by lia. done.
Qed.

(** ** Witnesses *)

Module FilterExample.
Definition suicide_trace (a : H160) (n : Z) : TransactionTrace :=
  mkTransactionTrace (Action_Suicide a 0 0) 0 n (TraceOutput_Result TraceResult_Suicide) 0 [] 0 0.
Definition traces_of (b : H256) : list TransactionTrace :=
  [suicide_trace 1 b; suicide_trace 2 b; suicide_trace 1 (b + 1)].
Definition get (b : H256) : result (list TransactionTrace) RpcError := Ok (traces_of b).
Definition hash_at (h : Z) : H256 := h * 10.
Definition header (h : Z) : result (option H256) Z := Ok (Some (hash_at h)).
Definition start (bs : list H256) : result Z RpcError := Ok 7.
Definition req (a c : option Z) : FilterRequest :=
  mkFilterRequest (Some (RequestBlockId_Tag Earliest)) (Some (RequestBlockId_Number 3))
    (Some [1]) None a c.
End FilterExample.

Lemma trace_filter_slice_witness :
  (trace_filter FilterExample.start FilterExample.get 9 FilterExample.header 100
     (FilterExample.req (Some 1) (Some 3))).1 =
  Ok [FilterExample.suicide_trace 1 11; FilterExample.suicide_trace 1 20;
      FilterExample.suicide_trace 1 21].
Proof.
  apply (trace_filter_slice FilterExample.start FilterExample.get 9 FilterExample.header
    FilterExample.hash_at FilterExample.traces_of 7 100
    (FilterExample.req (Some 1) (Some 3)) 0 3); simpl; done || lia.
Defined.

Lemma trace_filter_pages_witness :
  mjoin ((λ k, ok_or_nil (fetch_traces FilterExample.get 100
    (with_after (FilterExample.req None (Some 2)) (Z.of_nat (k * 2))) [10; 20] 2).1)
    <$> seq 0 3) =
  take 6 (matching FilterExample.traces_of (FilterExample.req None (Some 2)) [10; 20]).
Proof.
  apply (trace_filter_pages FilterExample.get FilterExample.traces_of 100
    (FilterExample.req None (Some 2)) 2 [10; 20] 3); done.
Defined.

Lemma trace_filter_exact_maximum_witness :
  (fetch_traces FilterExample.get 4 (FilterExample.req None None) [10; 20] 4).1 =
  Err (over_maximum 4).
Proof.
  apply (trace_filter_exact_maximum FilterExample.get FilterExample.traces_of); done.
Defined.

(** A cache that answers some blocks with an error and others with too many traces. *)
Lemma trace_filter_bounded_witness :
  let get b := if b =? 10 then Ok (FilterExample.traces_of b) else Err (not_batched b) in
  let '(res, reqs) := trace_filter FilterExample.start get 9 FilterExample.header 100
    (FilterExample.req None (Some 1)) in
  zlen (ok_or_nil res) ≤ 1 ∧ zlen reqs ≤ 6.
Proof.
  intros get.
  pose proof (trace_filter_bounded FilterExample.start get 9 FilterExample.header 100
    (FilterExample.req None (Some 1)) ltac:(lia) ltac:(simpl; lia) ltac:(simpl; lia)) as Hb.
  destruct (trace_filter _ _ _ _ _ _) as [res reqs]. destruct Hb as [Hres Hreqs]. split.
  - destruct res as [l|e]; [|simpl; lia]. by destruct (Hres l eq_refl) as [[Hle _] _].
  - pose proof (Hreqs 0 3 eq_refl eq_refl). lia.
Defined.
