(* ===== verification/CacheBlockSpec.v ===== *)
(** * Tracing a block for the cache

    The theorems on [cache_block] of TraceFilter.v: the traces of a block are the
    calls of its transactions, each with the data of its block and transaction;
    and where the code departs from that. *)

From stdpp Require Import base tactics list gmap strings.
From Stdlib Require Import ZArith Lia Strings.Byte.
From S2P Require Import Prelude Trees EvmEvents TraceTypes CallList CallTree CallListSpec.
From S2P Require Import CallTracer Formatters RpcTypes TraceCache TraceFilter.
Local Open Scope Z_scope.

Lemma fill_traces_ok bh height hashes (hash_of : TransactionTrace → H256) l :
  (∀ t, t ∈ l → hashes !! Z.to_nat (tt_transaction_position t) = Some (hash_of t)) →
  fill_traces bh height hashes l =
  Ok ((λ t, complete_trace bh height (hash_of t) t) <$> l).
Proof.
  induction l as [|t l IH]; intros Hl; [done|].
  cbn [fill_traces]. unfold fill_trace. rewrite (Hl t) by left.
  rewrite IH by (intros; apply Hl; by right). done.
Qed.

(** The traces of the trees of a block, whose positions are given. *)
Definition placed_traces (ps : list (nat * rose BlockscoutCall)) : list TransactionTrace :=
  mjoin ((λ x, to_transaction_trace x.1 <$> preorder x.2) <$> ps).

Definition completed_traces (bh : H256) (height : Z)
    (ps : list (nat * H256 * rose BlockscoutCall)) : list TransactionTrace :=
  mjoin ((λ x, (λ b, complete_trace bh height x.1.2 (to_transaction_trace x.1.1 b))
    <$> preorder x.2) <$> ps).

Lemma fill_placed bh height hashes ps :
  Forall (λ x, Z.of_nat x.1.1 < 2 ^ 32 ∧ hashes !! x.1.1 = Some x.1.2) ps →
  fill_traces bh height hashes (placed_traces ((λ x, (x.1.1, x.2)) <$> ps)) =
  Ok (completed_traces bh height ps).
Proof.
  intros Hps.
  rewrite (fill_traces_ok bh height hashes
    (λ t, default 0 (hashes !! Z.to_nat (tt_transaction_position t)))).
  - f_equal. unfold placed_traces, completed_traces.
    induction Hps as [|[[i h] t] ps [Hi Hh] _ IH]; [done|]. rewrite !fmap_cons.
    cbn [mjoin list_join fst snd]. rewrite fmap_app. f_equal; [|exact IH].
    rewrite <-list_fmap_compose. apply list_fmap_ext. intros k b _. unfold compose. simpl.
    rewrite Z.mod_small by (simpl in Hi; lia). rewrite Nat2Z.id. simpl in Hh. by rewrite Hh.
  - intros t Ht. unfold placed_traces in Ht.
    apply list_elem_of_join in Ht as (l & Hin & Hl).
    apply list_elem_of_fmap in Hl as ([i t'] & -> & Hx).
    apply list_elem_of_fmap in Hx as ([[i' h] u] & [= -> ->] & Hx).
    apply list_elem_of_fmap in Hin as (b & -> & _).
    rewrite Forall_forall in Hps. destruct (Hps _ Hx) as [Hi Hh]. simpl in *.
    rewrite Z.mod_small by lia. rewrite Nat2Z.id, Hh. done.
Qed.

Section theorems.
Context `{!BuildProfile}.
Context {Extrinsic : Type}.
Context (header : H256 → result (option (Z * H256)) Z).
Context (eth_data : H256 → option (option (H256 * list H256))).
Context (body : H256 → result (option (list Extrinsic)) Z).
Context (initialize_block : H256 → H256 → list Event * result unit Z).
Context (trace_block : H256 → list Extrinsic → list H256 →
  list Event * result (result unit Z) Z).

Abbreviation cache_block :=
  (cache_block header eth_data body initialize_block trace_block).

(** A block whose data is available and whose replay succeeds with the events
    [evs]. *)
Definition replays (sh parent : H256) (height : Z) (bh : H256) (hashes : list H256)
    (evs : list Event) : Prop :=
  ∃ extrinsics,
    header sh = Ok (Some (height, parent)) ∧
    eth_data sh = Some (Some (bh, hashes)) ∧
    body sh = Ok (Some extrinsics) ∧
    initialize_block parent sh = ([], Ok tt) ∧
    trace_block parent extrinsics hashes = (evs, Ok (Ok tt)).

Lemma cache_block_replays sh parent height bh hashes evs s :
  replays sh parent height bh hashes evs →
  emit_all Listener_default evs = Ret s →
  cache_block sh =
  match trace_filter_format s with
  | None => Ret (Err (internal_err "Fail to format proxy" []))
  | Some traces => Ret (fill_traces bh height hashes traces)
  end.
Proof.
  intros (exts & Hh & He & Hb & Hi & Ht) Hrun.
  unfold TraceFilter.cache_block. rewrite Hh, He, Hb. unfold replay. rewrite Hi, Ht.
  unfold using_listener. simpl. by rewrite Hrun.
Qed.

Lemma format_maps_trees s txs :
  entries s = block_maps 0 0 txs →
  trace_filter_format s =
  Some (placed_traces (imap pair (block_trees 0 0 txs))).
Proof.
  intros He. unfold trace_filter_format. rewrite He, block_maps_nonempty. f_equal.
  unfold placed_traces. f_equal. rewrite fmap_imap.
  transitivity (imap (λ i (l : list BlockscoutCall), to_transaction_trace i <$> l)
    (preorder <$> block_trees 0 0 txs : list (list BlockscoutCall)));
    [|by rewrite imap_fmap].
  by rewrite <-block_maps_values, imap_fmap.
Qed.

Lemma block_trees_length n old txs : length (block_trees n old txs) = length txs.
Proof.
  revert n old. induction txs as [|tx txs IH]; intros n old; [done|].
  cbn [block_trees length]. by rewrite IH.
Qed.

Lemma cache_block_run sh parent height bh hashes txs :
  replays sh parent height bh hashes (block_events txs) →
  forallb tx_ok txs = true → block_size txs < 2 ^ 32 →
  length hashes = length txs →
  cache_block sh =
  Ret (Ok (completed_traces bh height
    (imap (λ i x, ((i, x.1), x.2)) (zip hashes (block_trees 0 0 txs))))).
Proof.
  intros Hrep Hok Hlt Hlen. destruct (block_run txs Hok Hlt) as (s & Hrun & He & _).
  rewrite (cache_block_replays _ _ _ _ _ _ _ Hrep Hrun), (format_maps_trees s txs He).
  f_equal. rewrite <-(fill_placed bh height hashes).
  - f_equal. f_equal. rewrite fmap_imap.
    rewrite <-(snd_zip hashes (block_trees 0 0 txs)) at 1
      by (rewrite block_trees_length; lia).
    by rewrite imap_fmap.
  - apply Forall_lookup. intros k [[i h] t] Hk. rewrite list_lookup_imap in Hk.
    destruct (zip hashes (block_trees 0 0 txs) !! k) as [[h' t']|] eqn:Hz; [|done].
    simpl in Hk. injection Hk as -> -> ->.
    pose proof (lookup_lt_Some _ _ _ Hz) as Hlt'. rewrite length_zip, block_trees_length in Hlt'.
    apply lookup_zip_Some in Hz as [Hz _]. simpl. split; [|done].
    pose proof (block_size_length txs). lia.
Qed.

(** C9: the traces cached for a block are the calls of its transactions, in order
    and in pre-order, each with the hash and number of the block and with the
    position and hash of its own transaction. *)
Theorem cache_block_traces sh parent height bh hashes txs :
  replays sh parent height bh hashes (block_events txs) →
  forallb tx_ok txs = true → block_size txs < 2 ^ 32 →
  length hashes = length txs →
  cache_block sh =
  Ret (Ok (completed_traces bh height
    (imap (λ i x, ((i, x.1), x.2)) (zip hashes (block_trees 0 0 txs))))).
Proof. apply cache_block_run. Qed.

Lemma tx_tree_later n old old' tx : 1 ≤ n → tx_tree n old tx = tx_tree n old' tx.
Proof. intros Hn. unfold tx_tree. by rewrite !extra_cost_later. Qed.

(** The listener after two transactions with an announcement between them that
    nothing follows. *)
Lemma shifted_run tx1 tx3 :
  tx_ok tx1 = true → tx_ok tx3 = true → tx_size tx1 + tx_size tx3 < 2 ^ 32 →
  ∃ s c, emit_all Listener_default
      (block_events [tx1] ++ Event_CallListNew :: block_events [tx3]) = Ret s ∧
    entries s = [index_map 0 (preorder (tx_tree 0 0 tx1)); ∅;
                 index_map (tx_size tx1) (preorder (tx_tree (tx_size tx1) c tx3))].
Proof.
  intros H1 H3 Hlt. pose proof (tx_size_pos tx1). pose proof (tx_size_pos tx3).
  assert (∀ tx, block_size [tx] = tx_size tx) as Hsize
    by (intros; unfold block_size; simpl; lia).
  destruct (block_run_state tx1 []) as (sk & c & ct & Hrun);
    [simpl; by rewrite H1|rewrite Hsize; lia|].
  erewrite emit_all_app_Ret by exact Hrun. rewrite Hsize.
  rewrite (emit_all_cons _ (between EarlyTransact false false c
    (block_maps 0 0 [tx1] ++ [∅]) (tx_size tx1) [] ct false)) by done.
  destruct (later_txs_run [tx3] false c (block_maps 0 0 [tx1] ++ [∅]) (tx_size tx1) ct)
    as (sk2 & c2 & ct2 & Hrun2); [simpl; by rewrite H3|lia|rewrite Hsize; lia|].
  eexists _, c. split; [exact Hrun2|]. done.
Qed.

(** A transaction whose replay emits nothing but its announcement shifts the
    ones after it: the traces of the third transaction are given the position
    and the hash of the second. *)
Theorem cache_block_shifted sh parent height bh h1 h2 h3 tx1 tx3 :
  replays sh parent height bh [h1; h2; h3]
    (block_events [tx1] ++ Event_CallListNew :: block_events [tx3]) →
  tx_ok tx1 = true → tx_ok tx3 = true → tx_size tx1 + tx_size tx3 < 2 ^ 32 →
  ∃ t1 t3, t1 = tx_tree 0 0 tx1 ∧
    t3 = tx_tree (tx_size tx1) (tx_cost 0 (tx_pre tx1)) tx3 ∧
    cache_block sh =
    Ret (Ok (completed_traces bh height [((0%nat, h1), t1); ((1%nat, h2), t3)])).
Proof.
  intros Hrep H1 H3 Hlt. eexists _, _. split; [reflexivity|]. split; [reflexivity|].
  destruct (shifted_run tx1 tx3 H1 H3 Hlt) as (s & c & Hrun & He).
  rewrite (cache_block_replays _ _ _ _ _ _ _ Hrep Hrun).
  assert (trace_filter_format s = Some (placed_traces
    [(0%nat, tx_tree 0 0 tx1); (1%nat, tx_tree (tx_size tx1) c tx3)])) as ->.
  { unfold trace_filter_format. rewrite He.
    rewrite filter_cons, decide_True by apply index_map_preorder_nonempty.
    rewrite filter_cons, decide_False by (intros Hne; by apply Hne).
    rewrite filter_cons, decide_True, filter_nil by apply index_map_preorder_nonempty.
    set (m1 := index_map 0 _). set (m3 := index_map (tx_size tx1) _).
    change (Some (mjoin [to_transaction_trace 0 <$> btree_values m1;
                         to_transaction_trace 1 <$> btree_values m3]) =
            Some (mjoin [to_transaction_trace 0 <$> preorder (tx_tree 0 0 tx1);
                         to_transaction_trace 1 <$>
                           preorder (tx_tree (tx_size tx1) c tx3)])).
    subst m1 m3. by rewrite !btree_values_index_map. }
  f_equal. pose proof (tx_size_pos tx1).
  rewrite (tx_tree_later _ (tx_cost 0 (tx_pre tx1)) c) by lia.
  apply (fill_placed bh height [h1; h2; h3]
    [((0%nat, h1), tx_tree 0 0 tx1); ((1%nat, h2), tx_tree (tx_size tx1) c tx3)]).
  by repeat constructor.
Qed.

(** A legacy transaction that ends without its root context being seen to
    exit leaves no trace in a block: [cache_block] does not finish the last
    transaction, while finishing it would record its root call. *)
Theorem cache_block_unfinished sh parent height bh hashes ca tr i tg st cx :
  let evs := [Event_CallListNew; Event_Evm (EvmEvent_Call ca tr i tg st cx)] in
  replays sh parent height bh hashes evs →
  cache_block sh = Ret (Ok []) ∧
  ∃ trace,
    (s ← emit_all Listener_default evs; s ← finish_transaction s;
     Ret (trace_filter_format s)) = Ret (Some [trace]).
Proof.
  intros evs Hrep. split.
  - by rewrite (cache_block_replays _ _ _ _ _ evs _ Hrep eq_refl).
  - subst evs. destruct st; eexists; vm_compute; reflexivity.
Qed.

End theorems.

(** ** Witnesses *)

Module CacheBlockExample.
Definition header (h : H256) : result (option (Z * H256)) Z := Ok (Some (12, h - 1)).
Definition eth (hashes : list H256) (h : H256) : option (option (H256 * list H256)) :=
  Some (Some (h + 1000, hashes)).
Definition body (h : H256) : result (option (list unit)) Z := Ok (Some [tt]).
Definition init (p h : H256) : list Event * result unit Z := ([], Ok tt).
Definition trace (evs : list Event) (p : H256) (exts : list unit) (hashes : list H256) :
    list Event * result (result unit Z) Z := (evs, Ok (Ok tt)).
Definition block (hashes : list H256) (evs : list Event) :=
  @cache_block dev unit header (eth hashes) body init (trace evs).
End CacheBlockExample.

Lemma cache_block_traces_witness :
  CacheBlockExample.block [71; 72] (block_events [Example.tx; Example.failed]) 50 =
  Ret (Ok (completed_traces 1050 12
    (imap (λ i x, ((i, x.1), x.2))
       (zip [71; 72] (block_trees 0 0 [Example.tx; Example.failed]))))).
Proof.
  apply (@cache_block_traces dev unit CacheBlockExample.header
    (CacheBlockExample.eth [71; 72]) CacheBlockExample.body CacheBlockExample.init
    (CacheBlockExample.trace (block_events [Example.tx; Example.failed])) 50 49).
  - exists [tt]. by split_and!.
  - vm_compute. reflexivity.
  - vm_compute. reflexivity.
  - reflexivity.
Defined.

Lemma cache_block_shifted_witness :
  ∃ t1 t3, t1 = tx_tree 0 0 Example.tx ∧
    t3 = tx_tree (tx_size Example.tx) (tx_cost 0 (tx_pre Example.tx)) Example.failed ∧
    CacheBlockExample.block [71; 72; 73]
      (block_events [Example.tx] ++ Event_CallListNew :: block_events [Example.failed]) 50 =
    Ret (Ok (completed_traces 1050 12 [((0%nat, 71), t1); ((1%nat, 72), t3)])).
Proof.
  apply (@cache_block_shifted dev unit CacheBlockExample.header
    (CacheBlockExample.eth [71; 72; 73]) CacheBlockExample.body CacheBlockExample.init
    (CacheBlockExample.trace
       (block_events [Example.tx] ++ Event_CallListNew :: block_events [Example.failed]))
    50 49 12 1050 71 72 73).
  - exists [tt]. by split_and!.
  - vm_compute. reflexivity.
  - vm_compute. reflexivity.
  - vm_compute. reflexivity.
Defined.

Lemma cache_block_unfinished_witness :
  CacheBlockExample.block [71]
    [Event_CallListNew; Event_Evm (EvmEvent_Call 0xA0 None [] None false (Example.ctx 0xA0 1 0))]
    50 = Ret (Ok []).
Proof.
  apply (@cache_block_unfinished dev unit CacheBlockExample.header
    (CacheBlockExample.eth [71]) CacheBlockExample.body CacheBlockExample.init
    (CacheBlockExample.trace
       [Event_CallListNew;
        Event_Evm (EvmEvent_Call 0xA0 None [] None false (Example.ctx 0xA0 1 0))])
    50 49 12 1050 [71] 0xA0 None [] None false (Example.ctx 0xA0 1 0)).
  exists [tt]. by split_and!.
Defined.
