(* ===== verification/DebugRpc.v ===== *)
(** * The debug endpoints: client/rpc/debug/src/lib.rs

    [debug_traceTransaction] and [debug_traceBlock]: the choice of the tracer,
    the replay of a transaction or a block in the runtime with a listener
    installed, and the formatting of what it heard.  The client, the databases
    and the runtime API are parameters; the runtime API is given by the events
    its calls emit and by their results. *)

From stdpp Require Import base tactics list gmap strings.
From Stdlib Require Import ZArith Lia Strings.Byte.
From S2P Require Import Prelude Trees EvmEvents TraceTypes CallList CallTree CallListSpec.
From S2P Require Import CallTracer Formatters RawListener RpcTypes.
Local Open Scope Z_scope.

Inductive TracerInput := TracerInput_None | TracerInput_Blockscout | TracerInput_CallTracer.

Inductive BlockId :=
| BlockId_Number (n : Z)
| BlockId_Hash (h : H256).

Inductive RequesterInput :=
| RequesterInput_Transaction (h : H256)
| RequesterInput_Block (id : RequestBlockId).

Inductive Response :=
| Response_Single (t : SingleTrace)
| Response_Block (ts : list SingleTrace).

Definition block_id_arg (id : BlockId) : Z :=
  match id with BlockId_Number n => n | BlockId_Hash h => h end.

(** ** Parameters of a request *)

Definition BLOCKSCOUT_JS_CODE_HASH : Z := 0x94d9f08796f91eb13a2e82a6066882f7.
Definition BLOCKSCOUT_JS_CODE_HASH_V2 : Z := 0x89db13694675692951673a1e6e18ff02.

(** [DebugHandler::handle_params]; [twox_128] is the host's hash function, its 16
    bytes read as a number. *)
Definition handle_params (twox_128 : bytes → Z) (params : option TraceParams) :
    result (TracerInput * TraceType) RpcError :=
  match params with
  | Some params =>
      match tracer params with
      | Some tracer =>
          let hash := twox_128 tracer in
          let tracer :=
            if (hash =? BLOCKSCOUT_JS_CODE_HASH) || (hash =? BLOCKSCOUT_JS_CODE_HASH_V2)
            then Some TracerInput_Blockscout
            else if decide (tracer = bytes_of "callTracer") then Some TracerInput_CallTracer
            else None in
          match tracer with
          | Some tracer => Ok (tracer, TraceType_CallList)
          | None =>
              Err (internal_err "javascript based tracing is not available (hash :{:?})" [hash])
          end
      | None =>
          Ok (TracerInput_None,
              TraceType_Raw (default false (params_disable_storage params))
                (default false (params_disable_memory params))
                (default false (params_disable_stack params)))
      end
  | None => Ok (TracerInput_None, TraceType_Raw false false false)
  end.

Definition tracer_bug : RpcError :=
  internal_err "Bug: failed to resolve the tracer format." [].
Definition empty_trace : RpcError := internal_err "Trace result is empty." [].
Definition unsupported_trace_type : RpcError :=
  internal_err "Bug: `handle_transaction_request` does not support {:?}." [].
Definition call_list_only : RpcError :=
  internal_err "debug_traceBlock functions currently only support callList mode (enabled by providing `{{'tracer': 'callTracer'}}` in the request)."
    [].

Section handlers.
Context `{!BuildProfile}.
Context {Extrinsic EthTransaction : Type}.
(** The host's hash, the client, the Frontier database and storage overrides:
    the best block; the block of an Ethereum block hash; the Ethereum block and
    index of a transaction; the header (with its parent) at a block; the hashes
    of the Ethereum transactions of a block and the Ethereum transactions
    themselves ([None] without a storage override); the extrinsics. *)
Context (twox_128 : bytes → Z).
Context (best_number : Z).
Context (load_hash : H256 → result (option BlockId) RpcError).
Context (load_transactions : H256 → result (option (H256 * nat)) RpcError).
Context (header : BlockId → result (option (H256 * H256)) Z).
Context (transaction_hashes : BlockId → option (option (list H256))).
Context (eth_transactions : BlockId → option (option (list EthTransaction))).
Context (body : BlockId → result (option (list Extrinsic)) Z).
(** The runtime API: version of the debug API at a block, initialisation of a
    block (by its hash) on its parent, and the replays. *)
Context (api_version : H256 → result (option Z) Z).
Context (initialize_block : H256 → H256 → list Event * result unit Z).
Context (trace_block : H256 → list Extrinsic → list H256 →
  list Event * result (result unit Z) Z).
Context (trace_transaction : H256 → list Extrinsic → EthTransaction →
  list Event * result (result unit Z) Z).
(** Before version 4 only legacy transactions can be traced. *)
Context (legacy : EthTransaction → bool).
Context (trace_transaction_before_version_4 : H256 → list Extrinsic → EthTransaction →
  list Event * result (result unit Z) Z).

(** The block a request refers to. *)
Definition reference_block (id : RequestBlockId) : result BlockId RpcError :=
  match id with
  | RequestBlockId_Number n => Ok (BlockId_Number n)
  | RequestBlockId_Tag Latest => Ok (BlockId_Number best_number)
  | RequestBlockId_Tag Earliest => Ok (BlockId_Number 0)
  | RequestBlockId_Tag Pending => Err (internal_err "'pending' blocks are not supported" [])
  | RequestBlockId_Hash eth_hash =>
      match load_hash eth_hash with
      | Ok (Some id) => Ok id
      | Ok None => Err (internal_err "Block hash not found" [])
      | Err e => Err e
      end
  end.

(** Runs two calls of the runtime API one after the other. *)
Definition after_initialize (parent hash : H256)
    (next : list Event * result unit RpcError) : list Event * result unit RpcError :=
  let '(events, r) := initialize_block parent hash in
  match r with
  | Err e => (events, Err (internal_err "Runtime api access error: {:?}" [e]))
  | Ok _ => (events ++ next.1, next.2)
  end.

(** The closure [f] of [handle_block_request]. *)
Definition replay_block (parent hash : H256) (reference_id : BlockId)
    (exts : list Extrinsic) (eth_tx_hashes : list H256) :
    list Event * result unit RpcError :=
  after_initialize parent hash
    (let '(events, r) := trace_block parent exts eth_tx_hashes in
     (events,
      match r with
      | Err e => Err (internal_err "Blockchain error when replaying block {} : {:?}"
                        [block_id_arg reference_id; e])
      | Ok (Err e) => Err (internal_err "Internal runtime error when replaying block {} : {:?}"
                             [block_id_arg reference_id; e])
      | Ok (Ok _) => Ok tt
      end)).

(** [DebugHandler::handle_block_request]. *)
Definition handle_block_request (request_block_id : RequestBlockId)
    (params : option TraceParams) : outcome (result Response RpcError) :=
  match handle_params twox_128 params with
  | Err e => Ret (Err e)
  | Ok (tracer_input, trace_type) =>
  match reference_block request_block_id with
  | Err e => Ret (Err e)
  | Ok reference_id =>
  match header reference_id with
  | Err _ | Ok None => Ret (Err (internal_err "Block header not found" []))
  | Ok (Some (hash, parent)) =>
  match transaction_hashes reference_id with
  | None =>
      Ret (Err (internal_err "No storage override at {:?}" [block_id_arg reference_id]))
  | Some statuses =>
      let eth_tx_hashes := default [] statuses in
      if decide (eth_tx_hashes = []) then Ret (Ok (Response_Block []))
      else
        match body reference_id with
        | Err e => Ret (Err (internal_err "Fail to read blockchain db: {:?}" [e]))
        | Ok exts =>
            let f := replay_block parent hash reference_id (default [] exts) eth_tx_hashes in
            match trace_type with
            | TraceType_CallList =>
                '(proxy, r) ← using_listener Listener_default f;
                match r with
                | Err e => Ret (Err e)
                | Ok _ =>
                    proxy ← finish_transaction proxy;
                    match tracer_input with
                    | TracerInput_CallTracer =>
                        response ← call_tracer_format proxy;
                        Ret match response with
                            | Some response => Ok (Response_Block response)
                            | None => Err empty_trace
                            end
                    | _ => Ret (Err tracer_bug)
                    end
                end
            | _ => Ret (Err call_list_only)
            end
        end
  end end end end.

(** The closure [f] of [handle_transaction_request]. *)
Definition replay_transaction (parent hash : H256) (version : Z) (exts : list Extrinsic)
    (transaction : EthTransaction) : list Event * result unit RpcError :=
  after_initialize parent hash
    (if 4 <=? version then
       let '(events, r) := trace_transaction parent exts transaction in
       (events,
        match r with
        | Err e => Err (internal_err "Runtime api access error (version {:?}): {:?}" [version; e])
        | Ok (Err e) => Err (internal_err "DispatchError: {:?}" [e])
        | Ok (Ok _) => Ok tt
        end)
     else if legacy transaction then
       let '(events, r) := trace_transaction_before_version_4 parent exts transaction in
       (events,
        match r with
        | Err e => Err (internal_err "Runtime api access error (legacy): {:?}" [e])
        | Ok (Err e) => Err (internal_err "DispatchError: {:?}" [e])
        | Ok (Ok _) => Ok tt
        end)
     else
       ([], Err (internal_err "Bug: pre-london runtime expects legacy transactions" []))).

(** The end of [handle_transaction_request]: the transaction is replayed by [f]
    with the listener of the trace type, and formatted for the tracer. *)
Definition trace_with (tracer_input : TracerInput) (trace_type : TraceType)
    (f : list Event * result unit RpcError) : outcome (result Response RpcError) :=
  match trace_type with
  | TraceType_Raw disable_storage disable_memory disable_stack =>
      '(proxy, r) ← using_listener (RawL_new disable_storage disable_memory disable_stack) f;
      match r with
      | Err e => Ret (Err e)
      | Ok _ =>
          Ret match raw_format proxy with
              | Some t => Ok (Response_Single t)
              | None => Err (internal_err "Fail to format proxy" [])
              end
      end
  | TraceType_CallList =>
      '(proxy, r) ← using_listener Listener_default f;
      match r with
      | Err e => Ret (Err e)
      | Ok _ =>
          proxy ← finish_transaction proxy;
          match tracer_input with
          | TracerInput_Blockscout =>
              Ret match blockscout_format proxy with
                  | Some t => Ok (Response_Single t)
                  | None => Err empty_trace
                  end
          | TracerInput_CallTracer =>
              res ← call_tracer_format proxy;
              match res with
              | None => Ret (Err empty_trace)
              | Some res =>
                  match last res with
                  | Some t => Ret (Ok (Response_Single t))
                  | None => Panic
                  end
              end
          | TracerInput_None => Ret (Err tracer_bug)
          end
      end
  | TraceType_Block =>
      Ret (Err unsupported_trace_type)
  end.

(** [DebugHandler::handle_transaction_request]. *)
Definition handle_transaction_request (transaction_hash : H256)
    (params : option TraceParams) : outcome (result Response RpcError) :=
  match handle_params twox_128 params with
  | Err e => Ret (Err e)
  | Ok (tracer_input, trace_type) =>
  match load_transactions transaction_hash with
  | Err e => Ret (Err e)
  | Ok None => Ret (Err (internal_err "Transaction hash not found" []))
  | Ok (Some (block_hash, index)) =>
  match load_hash block_hash with
  | Err e => Ret (Err e)
  | Ok None => Ret (Err (internal_err "Block hash not found" []))
  | Ok (Some reference_id) =>
  match header reference_id with
  | Err _ | Ok None => Ret (Err (internal_err "Block header not found" []))
  | Ok (Some (hash, parent)) =>
  match body reference_id with
  | Err e => Ret (Err (internal_err "Fail to read blockchain db: {:?}" [e]))
  | Ok exts =>
  match api_version parent with
  | Err _ | Ok None => Ret (Err (internal_err "Runtime api version call failed (trace)" []))
  | Ok (Some version) =>
  match eth_transactions reference_id with
  | None =>
      Ret (Err (internal_err "No storage override at {:?}" [block_id_arg reference_id]))
  | Some block =>
      match block ≫= lookup index with
      | Some transaction =>
          trace_with tracer_input trace_type
            (replay_transaction parent hash version (default [] exts) transaction)
      | None => Ret (Err (internal_err "Runtime block call failed" []))
      end
  end end end end end end end.

(** ** The service task and the endpoints *)

(** The answer to a request: a panic of the blocking task is an error. *)
Definition task_answer (input : RequesterInput) (params : option TraceParams) :
    result Response RpcError :=
  let r :=
    match input with
    | RequesterInput_Transaction transaction_hash =>
        handle_transaction_request transaction_hash params
    | RequesterInput_Block request_block_id => handle_block_request request_block_id params
    end in
  match r with
  | Ret r => r
  | Panic => Err (internal_err "Internal error on spawned task : {:?}" [])
  end.

(** What an endpoint gets from the task: the request could not be sent, the
    channel was dropped, or the answer. *)
Inductive Delivery :=
| SendFailed (e : Z)
| ChannelDropped
| Answered (r : result Response RpcError).

Definition receive (d : Delivery) : result Response RpcError :=
  match d with
  | SendFailed e => Err (internal_err "failed to send request to debug service : {:?}" [e])
  | ChannelDropped => Err (internal_err "debug service dropped the channel : {:?}" [])
  | Answered r => r
  end.

(** [Debug::trace_transaction]. *)
Definition rpc_trace_transaction (d : Delivery) : outcome (result SingleTrace RpcError) :=
  match receive d with
  | Ok (Response_Single res) => Ret (Ok res)
  | Ok (Response_Block _) => Panic
  | Err e => Ret (Err e)
  end.

(** [Debug::trace_block]. *)
Definition rpc_trace_block (d : Delivery) : outcome (result (list SingleTrace) RpcError) :=
  match receive d with
  | Ok (Response_Block res) => Ret (Ok res)
  | Ok (Response_Single _) => Panic
  | Err e => Ret (Err e)
  end.

End handlers.
