(* ===== verification/DebugSpec.v ===== *)
(** * Correctness of the debug endpoints

    The theorems on DebugRpc.v: what [debug_traceTransaction] and
    [debug_traceBlock] answer for each tracer when the replay of the runtime is
    that of well-formed executions, which panics can reach a client, and which
    of the errors marked as bugs in the code a client can get. *)

From stdpp Require Import base tactics list gmap strings.
From Stdlib Require Import ZArith Lia Strings.Byte.
From S2P Require Import Prelude Trees EvmEvents TraceTypes CallList CallTree CallListSpec.
From S2P Require Import CallTracer Formatters RawListener RawSpec RpcTypes DebugRpc.
Local Open Scope Z_scope.

(** A call list request always has a format: [handle_params] pairs the call list
    with a tracer, and the raw trace with none. *)
Lemma handle_params_pairs twox params ti ty :
  handle_params twox params = Ok (ti, ty) →
  (ty = TraceType_CallList ∧ (ti = TracerInput_Blockscout ∨ ti = TracerInput_CallTracer)) ∨
  (ti = TracerInput_None ∧ ∃ ds dm dst, ty = TraceType_Raw ds dm dst).
Proof.
  unfold handle_params. destruct params as [params|]; [|intros [= <- <-]; eauto 6].
  destruct (tracer params) as [t|]; [|intros [= <- <-]; eauto 6].
  destruct (_ || _); [intros [= <- <-]; eauto|].
  case_decide; [intros [= <- <-]; eauto|done].
Qed.

(** The trace of a transaction for a tracer of the call list. *)
Definition call_list_answer (ti : TracerInput) (t : rose BlockscoutCall) : SingleTrace :=
  match ti with
  | TracerInput_Blockscout => TransactionTrace_CallList (Call_Blockscout <$> preorder t)
  | _ => nested t
  end.

(** The result of [CallTracer::format] is never an empty list. *)
Lemma call_tracer_format_nonempty s res : call_tracer_format s = Ret (Some res) → res ≠ [].
Proof.
  unfold call_tracer_format. cbn zeta. intros Hrun. run_inv. by case_match; simplify_eq.
Qed.

Section theorems.
Context `{!BuildProfile}.
Context {Extrinsic EthTransaction : Type}.
Context (twox_128 : bytes → Z).
Context (best_number : Z).
Context (load_hash : H256 → result (option BlockId) RpcError).
Context (load_transactions : H256 → result (option (H256 * nat)) RpcError).
Context (header : BlockId → result (option (H256 * H256)) Z).
Context (transaction_hashes : BlockId → option (option (list H256))).
Context (eth_transactions : BlockId → option (option (list EthTransaction))).
Context (body : BlockId → result (option (list Extrinsic)) Z).
Context (api_version : H256 → result (option Z) Z).
Context (initialize_block : H256 → H256 → list Event * result unit Z).
Context (trace_block : H256 → list Extrinsic → list H256 →
  list Event * result (result unit Z) Z).
Context (trace_transaction : H256 → list Extrinsic → EthTransaction →
  list Event * result (result unit Z) Z).
Context (legacy : EthTransaction → bool).
Context (trace_transaction_before_version_4 : H256 → list Extrinsic → EthTransaction →
  list Event * result (result unit Z) Z).

Abbreviation handle_transaction_request :=
  (handle_transaction_request twox_128 load_hash load_transactions header eth_transactions
     body api_version initialize_block trace_transaction legacy
     trace_transaction_before_version_4).
Abbreviation handle_block_request :=
  (handle_block_request twox_128 best_number load_hash header transaction_hashes body
     initialize_block trace_block).
Abbreviation task_answer :=
  (task_answer twox_128 best_number load_hash load_transactions header transaction_hashes
     eth_transactions body api_version initialize_block trace_block trace_transaction legacy
     trace_transaction_before_version_4).

(** The transaction of a hash is found in a block whose data is available, and
    its replay by a runtime of version 4 or later, or of a legacy transaction by
    an older one, succeeds with the events [evs]. *)
Definition transaction_replays (h : H256) (evs : list Event) : Prop :=
  ∃ block_hash index id hash parent exts version txs tx,
    load_transactions h = Ok (Some (block_hash, index)) ∧
    load_hash block_hash = Ok (Some id) ∧
    header id = Ok (Some (hash, parent)) ∧
    body id = Ok exts ∧
    api_version parent = Ok (Some version) ∧
    eth_transactions id = Some (Some txs) ∧ txs !! index = Some tx ∧
    initialize_block parent hash = ([], Ok tt) ∧
    ((4 ≤ version ∧ trace_transaction parent (default [] exts) tx = (evs, Ok (Ok tt))) ∨
     (version < 4 ∧ legacy tx = true ∧
      trace_transaction_before_version_4 parent (default [] exts) tx = (evs, Ok (Ok tt)))).

(** A block with transactions, whose data is available and whose replay succeeds
    with the events [evs]. *)
Definition block_replays (rid : RequestBlockId) (evs : list Event) : Prop :=
  ∃ id hash parent hashes exts,
    reference_block best_number load_hash rid = Ok id ∧
    header id = Ok (Some (hash, parent)) ∧
    transaction_hashes id = Some (Some hashes) ∧ hashes ≠ [] ∧
    body id = Ok exts ∧
    initialize_block parent hash = ([], Ok tt) ∧
    trace_block parent (default [] exts) hashes = (evs, Ok (Ok tt)).

Lemma transaction_request_replays h evs params ti ty :
  transaction_replays h evs → handle_params twox_128 params = Ok (ti, ty) →
  handle_transaction_request h params = trace_with ti ty (evs, Ok tt).
Proof.
  intros (bh & i & id & hash & parent & exts & v & txs & tx & Ht & Hl & Hh & Hb & Hv & He & Htx
    & Hi & Hrun) Hp.
  unfold DebugRpc.handle_transaction_request.
  rewrite Hp, Ht, Hl, Hh, Hb, Hv, He. simpl. rewrite Htx. f_equal.
  unfold replay_transaction, after_initialize. rewrite Hi.
  destruct Hrun as [[Hv4 ->]|(Hv4 & -> & ->)].
  - by rewrite (proj2 (Z.leb_le _ _) Hv4).
  - by rewrite (proj2 (Z.leb_gt _ _) Hv4).
Qed.

Lemma block_request_replays rid evs params ti ty s :
  block_replays rid evs → handle_params twox_128 params = Ok (ti, ty) →
  emit_all Listener_default evs = Ret s →
  handle_block_request rid params =
  match ty with
  | TraceType_CallList =>
      s ← finish_transaction s;
      match ti with
      | TracerInput_CallTracer =>
          response ← call_tracer_format s;
          Ret match response with
              | Some response => Ok (Response_Block response)
              | None => Err empty_trace
              end
      | _ => Ret (Err tracer_bug)
      end
  | _ => Ret (Err call_list_only)
  end.
Proof.
  intros (id & hash & parent & hashes & exts & Hr & Hh & Ht & Hne & Hb & Hi & Hrun) Hp Hs.
  unfold DebugRpc.handle_block_request. rewrite Hp, Hr, Hh, Ht. simpl.
  rewrite decide_False, Hb by done. unfold replay_block, after_initialize. rewrite Hi, Hrun.
  unfold using_listener. simpl. by rewrite Hs.
Qed.

(** C3: debug_traceTransaction with a tracer answers, for a transaction whose
    replay is a well-formed execution, the calls of that execution: nested for
    callTracer, in pre-order for the script of the explorer. *)
Theorem debug_transaction_calls h params ti tx :
  transaction_replays h (tx_events tx) →
  handle_params twox_128 params = Ok (ti, TraceType_CallList) →
  tx_ok tx = true → tx_size tx < 2 ^ 32 →
  handle_transaction_request h params =
  Ret (Ok (Response_Single (call_list_answer ti (tx_tree 0 0 tx)))).
Proof.
  intros Hrep Hp Hok Hlt. rewrite (transaction_request_replays _ _ _ _ _ Hrep Hp).
  destruct (single_tx_run tx Hok Hlt) as (s & Hrun & He & Hs & Ho).
  unfold trace_with, using_listener. cbn [fst snd]. rewrite Hrun. cbn [mbind outcome_bind].
  rewrite finish_transaction_idle by done. cbn [mbind outcome_bind].
  destruct (handle_params_pairs _ _ _ _ Hp) as [[_ [-> | ->]]|(_ & ? & ? & ? & ?)]; [..|done].
  - unfold blockscout_format. rewrite He. change (last [?m]) with (Some m). cbv beta iota.
    by rewrite btree_values_index_map.
  - unfold call_tracer_format. rewrite He.
    rewrite filter_cons, decide_True, filter_nil by apply index_map_preorder_nonempty.
    rewrite (format_trees _ [tx_tree 0 0 tx]); [done|]. constructor; [|constructor].
    split; [apply tx_tree_addressed|by rewrite btree_values_index_map].
Qed.

(** Debug_traceBlock with callTracer answers the nested calls of the
    transactions of the block, one per transaction and in order. *)
Theorem debug_block_calls rid params txs :
  block_replays rid (block_events txs) →
  handle_params twox_128 params = Ok (TracerInput_CallTracer, TraceType_CallList) →
  txs ≠ [] → forallb tx_ok txs = true → block_size txs < 2 ^ 32 →
  handle_block_request rid params =
  Ret (Ok (Response_Block (nested <$> block_trees 0 0 txs))).
Proof.
  intros Hrep Hp Hne Hok Hlt. destruct (block_run txs Hok Hlt) as (s & Hrun & He & Hs & Ho).
  rewrite (block_request_replays _ _ _ _ _ _ Hrep Hp Hrun).
  rewrite finish_transaction_idle by done. cbn [mbind outcome_bind].
  unfold call_tracer_format.
  rewrite He, block_maps_nonempty, (format_trees _ _ (block_maps_trees 0 0 txs)).
  by destruct txs.
Qed.


(** The script of the explorer, which debug_traceTransaction accepts, makes
    debug_traceBlock replay the block and then answer the error the code reserves
    for a bug. *)
Theorem debug_block_blockscout rid params evs s :
  block_replays rid evs →
  handle_params twox_128 params = Ok (TracerInput_Blockscout, TraceType_CallList) →
  emit_all Listener_default evs = Ret s →
  (∃ s', finish_transaction s = Ret s') →
  handle_block_request rid params = Ret (Err tracer_bug).
Proof.
  intros Hrep Hp Hrun [s' Hs]. rewrite (block_request_replays _ _ _ _ _ _ Hrep Hp Hrun).
  by rewrite Hs.
Qed.

(** The answers have the form the endpoints expect. *)
Lemma trace_with_single ti ty f r :
  trace_with ti ty f = Ret (Ok r) → ∃ t, r = Response_Single t.
Proof.
  unfold trace_with. intros Hr. destruct ty as [ds dm dst| |]; [| |done].
  - apply bind_Ret_inv in Hr as ([l [u|e]] & _ & Hr); [|done].
    injection Hr as <-. by eexists.
  - apply bind_Ret_inv in Hr as ([l [u|e]] & _ & Hr); [|done].
    apply bind_Ret_inv in Hr as (l' & _ & Hr). destruct ti; [done| |].
    + destruct (blockscout_format l'); [|done]. injection Hr as <-. by eexists.
    + apply bind_Ret_inv in Hr as ([res|] & _ & Hr); [|done].
      destruct (last res); [|done]. injection Hr as <-. by eexists.
Qed.

Lemma transaction_request_single h params r :
  handle_transaction_request h params = Ret (Ok r) → ∃ t, r = Response_Single t.
Proof.
  unfold DebugRpc.handle_transaction_request. intros Hr.
  repeat match type of Hr with
  | trace_with _ _ _ = _ => fail 1
  | match ?x with _ => _ end = _ => destruct x; try discriminate Hr
  end. by eapply trace_with_single.
Qed.

Lemma block_request_list rid params r :
  handle_block_request rid params = Ret (Ok r) → ∃ ts, r = Response_Block ts.
Proof.
  unfold DebugRpc.handle_block_request. intros Hr.
  repeat match type of Hr with
  | Ret (Ok (Response_Block ?l)) = _ => injection Hr as <-; by exists l
  | _ ≫= _ = _ => apply bind_Ret_inv in Hr as (? & _ & Hr); cbv beta zeta in Hr
  | match ?x with _ => _ end = _ => destruct x; try discriminate Hr
  | Ret (match ?x with _ => _ end) = _ => destruct x; try discriminate Hr
  end.
Qed.

(** The [unreachable!] of the two endpoints is unreachable: whatever the
    client, the databases and the runtime do, a transaction request is answered
    with one trace or an error and a block request with a list or an error, and
    the endpoints return. *)
Theorem debug_endpoints_return h rid params :
  (∃ r, rpc_trace_transaction (Answered (task_answer (RequesterInput_Transaction h) params))
        = Ret r) ∧
  (∃ r, rpc_trace_block (Answered (task_answer (RequesterInput_Block rid) params)) = Ret r).
Proof.
  unfold rpc_trace_transaction, rpc_trace_block, DebugRpc.task_answer. cbn [receive]. split.
  - destruct (handle_transaction_request h params) as [[r|e]|] eqn:Hr; [|by eexists..].
    apply transaction_request_single in Hr as [t ->]. by eexists.
  - destruct (handle_block_request rid params) as [[r|e]|] eqn:Hr; [|by eexists..].
    apply block_request_list in Hr as [ts ->]. by eexists.
Qed.

(** For the trace type and tracer a request selects, the end of a transaction
    request never answers an error the code marks as a bug, once the replay
    succeeded, and the [expect] on the result of callTracer is not what panics:
    a panic comes from the listener or from the formatter. *)
Theorem debug_transaction_no_bug params ti ty evs :
  handle_params twox_128 params = Ok (ti, ty) →
  trace_with ti ty (evs, Ok tt) ≠ Ret (Err tracer_bug) ∧
  trace_with ti ty (evs, Ok tt) ≠ Ret (Err unsupported_trace_type) ∧
  (trace_with ti ty (evs, Ok tt) = Panic →
   match ty with
   | TraceType_Raw ds dm dst => emit_all (RawL_new ds dm dst) evs = Panic
   | _ => (s ← emit_all Listener_default evs; s ← finish_transaction s;
           call_tracer_format s) = Panic
   end).
Proof.
  intros Hp. unfold trace_with, using_listener. cbn [fst snd].
  destruct (handle_params_pairs _ _ _ _ Hp) as [[-> Hti]|(-> & ds & dm & dst & ->)].
  - destruct (emit_all Listener_default evs) as [s|]; [|done]. cbn [mbind outcome_bind].
    destruct (finish_transaction s) as [s'|]; [|by destruct Hti as [-> | ->]].
    cbn [mbind outcome_bind]. destruct Hti as [-> | ->].
    + by destruct (blockscout_format s').
    + destruct (call_tracer_format s') as [[res|]|] eqn:Hres; [|done..].
      cbn [mbind outcome_bind]. destruct (last res) eqn:Hlast; [done|].
      apply last_None in Hlast. by apply call_tracer_format_nonempty in Hres.
  - by destruct (emit_all (RawL_new ds dm dst) evs).
Qed.

End theorems.

(** ** Witnesses *)

Module DebugExample.
Definition params (t : string) : option TraceParams :=
  Some (mkTraceParams None (Some true) None (Some (bytes_of t)) None).
Definition load_hash (h : H256) : result (option BlockId) RpcError :=
  Ok (Some (BlockId_Hash (h + 1))).
Definition load_transactions (h : H256) : result (option (H256 * nat)) RpcError :=
  Ok (Some (500, 1%nat)).
Definition header (id : BlockId) : result (option (H256 * H256)) Z :=
  Ok (Some (block_id_arg id, block_id_arg id - 1)).
Definition hashes (id : BlockId) : option (option (list H256)) := Some (Some [71; 72]).
Definition eth_transactions (id : BlockId) : option (option (list Z)) := Some (Some [81; 82]).
Definition body (id : BlockId) : result (option (list unit)) Z := Ok (Some [tt]).
Definition api_version (h : H256) : result (option Z) Z := Ok (Some 4).
Definition init (p h : H256) : list Event * result unit Z := ([], Ok tt).
Definition replay {A B} (evs : list Event) (p : H256) (exts : list A) (x : B) :
    list Event * result (result unit Z) Z := (evs, Ok (Ok tt)).
Definition legacy (t : Z) : bool := false.
(** A hash that takes the script of the explorer to its known hash. *)
Definition twox (l : bytes) : Z :=
  if decide (l = bytes_of "script") then BLOCKSCOUT_JS_CODE_HASH else 0.

Definition transaction_request (evs : list Event) :=
  @handle_transaction_request dev unit Z twox load_hash load_transactions header
    eth_transactions body api_version init (replay evs) legacy (replay evs).
Definition block_request (evs : list Event) :=
  @handle_block_request dev unit twox 9 load_hash header hashes body init (replay evs).

Lemma transaction_ok evs h :
  transaction_replays load_hash load_transactions header eth_transactions body api_version
    init (replay evs) legacy (replay evs) h evs.
Proof.
  exists 500, 1%nat, (BlockId_Hash 501), 501, 500, (Some [tt]), 4, [81; 82], 82.
  split_and!; try reflexivity. left. split; [lia|reflexivity].
Qed.

Lemma block_ok evs :
  block_replays 9 load_hash header hashes body init (replay evs)
    (RequestBlockId_Tag Latest) evs.
Proof.
  exists (BlockId_Number 9), 9, 8, [71; 72], (Some [tt]). by split_and!.
Qed.
End DebugExample.

Lemma debug_transaction_calls_witness :
  DebugExample.transaction_request (tx_events Example.tx) 3
    (DebugExample.params "callTracer") =
  Ret (Ok (Response_Single (nested (tx_tree 0 0 Example.tx)))).
Proof.
  apply (@debug_transaction_calls dev unit Z DebugExample.twox DebugExample.load_hash
    DebugExample.load_transactions DebugExample.header DebugExample.eth_transactions
    DebugExample.body DebugExample.api_version DebugExample.init _ DebugExample.legacy _
    3 (DebugExample.params "callTracer") TracerInput_CallTracer Example.tx
    (DebugExample.transaction_ok _ _)); vm_compute; reflexivity.
Defined.

Lemma debug_block_calls_witness :
  DebugExample.block_request (block_events [Example.tx; Example.failed])
    (RequestBlockId_Tag Latest) (DebugExample.params "callTracer") =
  Ret (Ok (Response_Block (nested <$> block_trees 0 0 [Example.tx; Example.failed]))).
Proof.
  apply (@debug_block_calls dev unit DebugExample.twox 9 DebugExample.load_hash
    DebugExample.header DebugExample.hashes DebugExample.body DebugExample.init _
    (RequestBlockId_Tag Latest) (DebugExample.params "callTracer")
    [Example.tx; Example.failed] (DebugExample.block_ok _)); [|done|..];
    vm_compute; reflexivity.
Defined.


Lemma debug_block_blockscout_witness :
  DebugExample.block_request [Event_CallListNew] (RequestBlockId_Tag Latest)
    (DebugExample.params "script") = Ret (Err tracer_bug).
Proof.
  eapply (@debug_block_blockscout dev unit DebugExample.twox 9 DebugExample.load_hash
    DebugExample.header DebugExample.hashes DebugExample.body DebugExample.init _
    (RequestBlockId_Tag Latest) (DebugExample.params "script") [Event_CallListNew] _
    (DebugExample.block_ok _)); [vm_compute; reflexivity|reflexivity|].
  eexists. reflexivity.
Defined.

Lemma debug_transaction_no_bug_witness :
  @trace_with dev TracerInput_CallTracer TraceType_CallList (tx_events Example.tx, Ok tt)
    ≠ Ret (Err tracer_bug).
Proof.
  apply (@debug_transaction_no_bug dev DebugExample.twox (DebugExample.params "callTracer")
    TracerInput_CallTracer TraceType_CallList (tx_events Example.tx)).
  vm_compute. reflexivity.
Defined.
