(* ===== verification/ResponseJson.v ===== *)
(** * The answers of the debug endpoints can be written

    The serializers of traces fail on byte strings that are not UTF-8, and an object
    with two fields of one name loses one of them.  Neither happens to an answer of
    [debug_traceTransaction] or [debug_traceBlock], whatever the listeners are given
    and whichever tracer is asked for. *)

From stdpp Require Import base tactics list gmap strings sorting.
From Stdlib Require Import ZArith Lia Strings.Byte.
From S2P Require Import Prelude Trees EvmEvents TraceTypes Serialization CallList CallListTypes.
From S2P Require Import CallTree CallListSpec CallTracer TraceJson Formatters RawListener.
From S2P Require Import RpcTypes TraceFilter DebugRpc DebugSpec.
Local Open Scope Z_scope.

(** ** Objects without repeated fields *)

Fixpoint json_distinct (j : Json) : Prop :=
  match j with
  | JSeq l => foldr (λ x P, json_distinct x ∧ P) True l
  | JObj f => NoDup f.*1 ∧ foldr (λ x P, json_distinct x.2 ∧ P) True f
  | _ => True
  end.

(** The values of fields. *)
Abbreviation distinct_values f := (Forall (λ x : string * Json, json_distinct x.2) f).

Lemma json_distinct_seq l : json_distinct (JSeq l) ↔ Forall json_distinct l.
Proof.
  simpl. induction l as [|j l IH]; simpl; [by split; [constructor|]|].
  by rewrite Forall_cons, IH.
Qed.

Lemma json_distinct_obj f : json_distinct (JObj f) ↔ NoDup f.*1 ∧ distinct_values f.
Proof.
  simpl. assert (foldr (λ x P, json_distinct x.2 ∧ P) True f ↔ distinct_values f) as ->; [|done].
  induction f as [|j f IH]; simpl; [by split; [constructor|]|]. by rewrite Forall_cons, IH.
Qed.

(** A serializer that succeeds, with an object without repeated fields. *)
Definition writes (r : result Json SerError) : Prop := ∃ j, r = Ok j ∧ json_distinct j.

Lemma map_result_writes {A} (f : A → result Json SerError) l :
  Forall (λ a, writes (f a)) l → ∃ js, map_result f l = Ok js ∧ Forall json_distinct js.
Proof.
  induction 1 as [|a l (j & Hj & Hd) _ (js & Hjs & IH)]; [exists []; by split|].
  exists (j :: js). split; [|by constructor]. unfold map_result in *. by rewrite Hj, Hjs.
Qed.

Lemma map_result_writes_inv {A} (f : A → result Json SerError) l js :
  map_result f l = Ok js → Forall json_distinct js → Forall (λ a, writes (f a)) l.
Proof.
  revert js. induction l as [|a l IH]; intros js Hl Hd; [constructor|].
  apply map_result_cons in Hl as (j & js' & Hj & Hjs & ->). apply Forall_cons in Hd as [Hd1 Hd2].
  constructor; [by exists j|by eapply IH].
Qed.

(** ** Messages *)

Definition readable (m : bytes) : Prop := is_Some (utf8_decode m).

Lemma string_serialize_readable m : readable m → string_serialize m = Ok (JStr m).
Proof. unfold string_serialize. by intros [cps ->]. Qed.

Lemma readable_ascii m : is_ascii m = true → readable m.
Proof. intros Hm. unfold readable. by rewrite utf8_decode_ascii. Qed.

(** The messages of an entry of the call list. *)
Definition entry_readable (b : BlockscoutCall) : Prop :=
  match bc_inner b with
  | CallInner_Call _ _ _ (CallResult_Error e) => readable e
  | CallInner_Create _ (CreateResult_Error e) => readable e
  | _ => True
  end.

(** Keys that are known are compared. *)
Ltac keys := apply (bool_decide_unpack _); vm_compute; exact I.

Section writes.
Context `{!Unicode, !EthereumSerde}.

Lemma nums_distinct l : json_distinct (JSeq (JNum <$> l)).
Proof. apply json_distinct_seq, Forall_fmap, Forall_true. done. Qed.

Lemma call_result_writes r :
  match r with CallResult_Error e => readable e | _ => True end →
  ∃ k j, CallResult_serialize r = Ok [field k j] ∧ (k = "output" ∨ k = "error")%string ∧
    json_distinct j.
Proof.
  destruct r as [b|e]; intros Hr.
  - exists "output"%string, (bytes_0x_serialize b). split; [done|]. by split; [left|].
  - exists "error"%string, (JStr e). simpl. rewrite string_serialize_readable by done.
    split; [done|]. by split; [right|].
Qed.

Lemma call_result_fields r f :
  CallResult_serialize r = Ok f →
  ∃ k j, f = [field k j] ∧ (k = "output" ∨ k = "error")%string ∧ json_distinct j.
Proof.
  destruct r as [b|e]; simpl.
  - intros <-%Ok_inj. eexists _, _. split; [done|]. by split; [left|].
  - destruct (string_serialize e) as [j|] eqn:Hs; [|done]. apply string_serialize_Ok in Hs as ->.
    intros <-%Ok_inj. eexists _, _. split; [done|]. by split; [right|].
Qed.

Lemma blockscout_writes b : entry_readable b → writes (BlockscoutCall_serialize b).
Proof.
  intros Hb. unfold BlockscoutCall_serialize, entry_readable in *.
  assert (∃ f, BlockscoutCallInner_serialize (bc_inner b) = Ok f ∧
    NoDup (["from"; "traceAddress"; "value"; "gas"; "gasUsed"]%string ++ f.*1) ∧
    distinct_values f) as (f & -> & Hk & Hf).
  { destruct (bc_inner b) as [t d i r|i r|w d]; cbn [BlockscoutCallInner_serialize].
    - destruct (call_result_writes r) as (k & j & -> & Hk & Hj); [by destruct r|].
      eexists. split; [done|]. split; [destruct Hk as [-> | ->]; keys|].
      cbn [app]. repeat (constructor; [done|]). constructor.
    - destruct r as [e|a c]; cbn [CreateResult_serialize];
        [rewrite string_serialize_readable by done|]; (eexists; split; [done|]; split; [keys|]);
        repeat (constructor; [done|]); constructor.
    - eexists. split; [done|]. split; [keys|]. repeat (constructor; [done|]). constructor. }
  eexists. split; [done|]. apply json_distinct_obj. split.
  - by rewrite fmap_app.
  - cbn [app]. constructor; [done|]. constructor; [apply nums_distinct|].
    repeat (constructor; [done|]). done.
Qed.

(** The fields of the kinds of nested calls. *)
Lemma tracer_inner_fields i f :
  CallTracerInner_serialize i = Ok f →
  NoDup (["from"; "traceAddress"; "gas"; "gasUsed"]%string ++ f.*1 ++ ["calls"]%string) ∧
  distinct_values f.
Proof.
  assert (∀ op j, opcode_serialize op = Ok j → json_distinct j) as Hop.
  { intros op j. unfold opcode_serialize. destruct (utf8_decode op); [|done]. by intros <-%Ok_inj. }
  destruct i as [op d i r v|op i d o e v|op d v]; cbn [CallTracerInner_serialize];
    destruct (opcode_serialize op) as [j|] eqn:Hj; try done; apply Hop in Hj.
  - destruct (CallResult_serialize r) as [g|] eqn:Hr; [|done]. intros <-%Ok_inj.
    apply call_result_fields in Hr as (k & u & -> & Hk & Hu).
    split; [destruct v, Hk as [-> | ->]; keys|].
    destruct v; repeat (constructor; [done|]); constructor.
  - destruct e as [e|]; cbn [option_string_serialize];
      [destruct (string_serialize e) as [u|] eqn:Hu; [apply string_serialize_Ok in Hu as ->|]|];
      destruct o; simpl; try done; intros <-%Ok_inj; (split; [destruct d; keys|]);
      destruct d; repeat (constructor; [done|]); constructor.
  - intros <-%Ok_inj. split; [keys|]. repeat (constructor; [done|]). constructor.
Qed.

Lemma tracer_serialize_eq from addr gas used inner calls :
  CallTracerCall_serialize (mkCallTracerCall from addr gas used inner calls) =
  (inner ←? CallTracerInner_serialize inner;
   calls ←? map_result Call_serialize calls;
   Ok (JObj ([field "from" (JH160 from)] ++
             opt_field "traceAddress" ((λ a, JSeq (JNum <$> a)) <$> addr) ++
             [field "gas" (JU256 gas); field "gasUsed" (JU256 used)] ++ inner ++
             calls_field calls))).
Proof. done. Qed.

Lemma tracer_writes from addr gas used inner calls :
  writes (CallTracerCall_serialize (mkCallTracerCall from addr gas used inner calls)) ↔
  (∃ f, CallTracerInner_serialize inner = Ok f) ∧
  Forall (λ c, writes (Call_serialize c)) calls.
Proof.
  rewrite tracer_serialize_eq. split.
  - intros (j & Hj & Hd). destruct (CallTracerInner_serialize inner) as [f|]; [|done].
    split; [by eexists|]. destruct (map_result _ _) as [js|] eqn:Hjs; [|done].
    apply Ok_inj in Hj as <-. eapply map_result_writes_inv; [exact Hjs|].
    apply json_distinct_obj in Hd as [_ Hd]. rewrite !Forall_app in Hd.
    destruct Hd as (_ & _ & _ & _ & Hd). destruct js as [|j js]; [constructor|].
    cbn [calls_field] in Hd. apply Forall_cons in Hd as [Hd _]. by apply json_distinct_seq in Hd.
  - intros [[f Hf] Hcalls]. destruct (tracer_inner_fields _ _ Hf) as [Hk Hv].
    destruct (map_result_writes _ _ Hcalls) as (js & Hjs & Hd). unfold writes.
    rewrite Hf, Hjs. eexists. split; [done|]. apply json_distinct_obj.
    split.
    + eapply sublist_NoDup; [exact Hk|]. rewrite !fmap_app.
      apply (sublist_app ["from"%string] ["from"%string]); [done|].
      apply (sublist_app _ ["traceAddress"%string]);
        [destruct addr; [done|apply sublist_nil_l]|].
      apply (sublist_app _ ["gas"; "gasUsed"]%string); [done|].
      apply sublist_app; [done|]. destruct js; [apply sublist_nil_l|done].
    + rewrite !Forall_app. split_and!.
      * by repeat constructor.
      * destruct addr; [|constructor]. constructor; [apply nums_distinct|constructor].
      * by repeat constructor.
      * done.
      * destruct js; [constructor|]. constructor; [|constructor]. by apply json_distinct_seq.
Qed.

End writes.

(** ** The formatters *)

Lemma perm_insert_by {A} (less : A → A → bool) x l : insert_by less x l ≡ₚ x :: l.
Proof.
  induction l as [|y l IH]; simpl; [done|]. destruct (less y x); [|done].
  rewrite IH. apply Permutation_swap.
Qed.
Lemma perm_sort_by {A} (less : A → A → bool) l : sort_by less l ≡ₚ l.
Proof. induction l as [|x l IH]; simpl; [done|]. by rewrite perm_insert_by, IH. Qed.

Section formatters.
Context `{!Unicode, !EthereumSerde}.

Abbreviation call_writes := (λ c, writes (CallTracerCall_serialize c)).
Abbreviation single_writes := (λ t, writes (SingleTrace_serialize t)).

Lemma to_call_tracer_writes b : entry_readable b → call_writes (to_call_tracer b).
Proof.
  intros Hb. apply tracer_writes. split; [|constructor]. unfold entry_readable in Hb.
  destruct (bc_inner b) as [t d i r|i r|w d]; cbn [call_tracer_inner CallTracerInner_serialize].
  - rewrite call_type_name_serialize.
    destruct (call_result_writes r) as (k & j & -> & _); [by destruct r|]. by eexists.
  - rewrite create_name_serialize. destruct r as [e|a c]; simpl; [|by eexists].
    rewrite string_serialize_readable by done. by eexists.
  - rewrite selfdestruct_name_serialize. by eexists.
Qed.

Lemma push_call_writes l c : call_writes l → call_writes c → call_writes (push_call l c).
Proof.
  intros Hl Hc. destruct c as [from addr gas used inner calls].
  apply tracer_writes in Hc as [Hi Hcalls]. apply tracer_writes. split; [done|].
  apply Forall_app. split; [done|]. by apply Forall_singleton.
Qed.

Lemma remove_trace_address_writes c : call_writes c → call_writes (remove_trace_address c).
Proof. destruct c. intros Hc%tracer_writes. by apply tracer_writes. Qed.

Lemma pop_and_push_writes fuel l l' :
  Forall call_writes l → pop_and_push fuel l = Ret l' → Forall call_writes l'.
Proof.
  revert l. induction fuel as [|fuel IH]; intros l Hl Hrun; simpl in Hrun; [by simplify_eq|].
  destruct (1 <? length l)%nat; [|by simplify_eq].
  destruct l as [|c l _] using rev_ind; [done|]. rewrite last_snoc, removelast_last in Hrun.
  apply Forall_app in Hl as [Hl [Hc _]%Forall_cons].
  apply bind_Ret_inv in Hrun as ([i|] & _ & Hrun); [|by eapply IH].
  eapply IH; [|exact Hrun]. apply Forall_alter; [done|]. intros d Hd Hdw.
  exact (push_call_writes _ _ (remove_trace_address_writes _ Hc) Hdw).
Qed.

Lemma format_entry_writes m t :
  Forall entry_readable (btree_values m) → format_entry m = Ret (Some t) → single_writes t.
Proof.
  intros Hm Hrun. unfold format_entry in Hrun. apply bind_Ret_inv in Hrun as (l & Hl & Hrun).
  assert (Forall call_writes (to_call_tracer <$> btree_values m)) as Hw.
  { apply Forall_fmap. eapply Forall_impl; [exact Hm|]. apply to_call_tracer_writes. }
  assert (Forall call_writes l) as Hlw.
  { destruct (1 <? _)%nat; [|by simplify_eq]. eapply pop_and_push_writes; [|exact Hl].
    by rewrite perm_sort_by. }
  destruct l as [|c [|c' l]]; simplify_eq/=. apply remove_trace_address_writes.
  by apply Forall_cons in Hlw as [Hlw _].
Qed.

Lemma format_entries_writes ms ts :
  Forall (λ m, Forall entry_readable (btree_values m)) ms → format_entries ms = Ret ts →
  Forall single_writes ts.
Proof.
  intros Hms. revert ts. induction Hms as [|m ms Hm _ IH]; intros ts Hrun; simpl in Hrun;
    [simplify_eq; constructor|].
  apply bind_Ret_inv in Hrun as (t & Ht & Hrun). apply bind_Ret_inv in Hrun as (ts' & Hts & Hrun).
  injection Hrun as <-. apply Forall_app. split; [|by apply IH].
  destruct t as [t|]; [|constructor]. apply Forall_singleton. by eapply format_entry_writes.
Qed.

(** The messages of all entries of a listener. *)
Definition entries_readable (s : CallListListener) : Prop :=
  Forall (λ m, Forall entry_readable (btree_values m)) (entries s).

Lemma call_tracer_format_writes s ts :
  entries_readable s → call_tracer_format s = Ret (Some ts) → Forall single_writes ts.
Proof.
  intros Hs Hrun. unfold call_tracer_format in Hrun.
  apply bind_Ret_inv in Hrun as (ts' & Hts & Hrun). destruct ts'; [done|]. injection Hrun as <-.
  eapply format_entries_writes; [|exact Hts].
  apply Forall_forall. intros m [_ Hm]%list_elem_of_filter.
  unfold entries_readable in Hs. rewrite Forall_forall in Hs. by apply Hs.
Qed.

Lemma blockscout_format_writes s t :
  entries_readable s → blockscout_format s = Some t → single_writes t.
Proof.
  intros Hs. unfold blockscout_format. destruct (last (entries s)) as [m|] eqn:Hm; [|done].
  intros [= <-]. apply last_Some in Hm as [l Hl]. unfold entries_readable in Hs.
  rewrite Hl in Hs. apply Forall_app in Hs as [_ [Hs _]%Forall_cons].
  destruct (map_result_writes Call_serialize (Call_Blockscout <$> btree_values m))
    as (js & Hjs & Hd).
  { apply Forall_fmap. eapply Forall_impl; [exact Hs|]. apply blockscout_writes. }
  unfold writes. cbn [SingleTrace_serialize]. rewrite Hjs. eexists. split; [done|].
  by apply json_distinct_seq.
Qed.

(** Block traces, with any hashes and numbers. *)
Definition output_readable (o : TransactionTraceOutput) : Prop :=
  match o with TraceOutput_Error e => readable e | _ => True end.

Lemma block_trace_writes t : output_readable (tt_output t) → writes (TransactionTrace_serialize t).
Proof.
  intros Ho. unfold TransactionTrace_serialize.
  assert (∃ k j, TransactionTraceOutput_serialize (tt_output t) = Ok [field k j] ∧
    (k = "result" ∨ k = "error")%string ∧ json_distinct j) as (k & j & -> & Hk & Hj).
  { destruct (tt_output t) as [r|e]; simpl in *.
    - eexists _, _. split; [done|]. split; [by left|].
      destruct r; [..|done]; apply json_distinct_obj; (split; [keys|by repeat constructor]).
    - rewrite string_serialize_readable by done. eexists _, _. split; [done|]. by split; [right|]. }
  eexists. split; [done|]. apply json_distinct_obj. split.
  - destruct (tt_action t), Hk as [-> | ->]; keys.
  - rewrite !Forall_app. split_and!.
    + assert (∀ a, distinct_values (TransactionTraceAction_serialize a)) as Ha; [|apply Ha].
      intros [|[]|]; cbn [TransactionTraceAction_serialize]; rewrite !Forall_cons, Forall_nil;
        (split; [done|]); (split; [|done]); apply json_distinct_obj; (split; [keys|]);
        by rewrite ?Forall_cons, Forall_nil.
    + by repeat constructor.
    + by repeat constructor.
    + constructor; [done|]. constructor; [apply nums_distinct|]. by repeat constructor.
Qed.

Lemma trace_output_readable b : entry_readable b → output_readable (trace_output b).
Proof.
  unfold entry_readable, trace_output. by destruct (bc_inner b) as [??? []|? []|].
Qed.

End formatters.

(** ** The call list listener *)

(** What a runtime emits: messages of exits and names of opcodes are Rust strings, and
    storage keys have 256 bits. *)
Definition reason_readable (r : ExitReason) : Prop :=
  match r with Error (OtherError m) => readable m | _ => True end.
Definition event_writable (e : Event) : Prop :=
  match e with
  | Event_Evm (EvmEvent_Exit reason _) => reason_readable reason
  | Event_Runtime (StepResult (Err (Exit reason)) _) => reason_readable reason
  | Event_Runtime (Step _ opcode _ _ _) => readable opcode
  | Event_Runtime (SLoad _ index _ | SStore _ index _) => uint 256 index
  | _ => True
  end.

Lemma btree_values_Forall {A} (P : A → Prop) (m : gmap Z A) :
  Forall P (btree_values m) ↔ map_Forall (λ _, P) m.
Proof.
  unfold btree_values, btree_iter. rewrite Forall_fmap, merge_sort_Permutation.
  rewrite map_Forall_to_list. split; intros Hf; (eapply Forall_impl; [exact Hf|]); by intros [].
Qed.

Lemma error_message_readable e : reason_readable (Error e) → readable (error_message e).
Proof. intros He. destruct e; try by apply readable_ascii. done. Qed.

Lemma call_result_readable r rv :
  reason_readable r → match call_result r rv with CallResult_Error e => readable e | _ => True end.
Proof.
  intros Hr. destruct r as [[]|e| |]; try done; try by apply readable_ascii.
  by apply error_message_readable.
Qed.

Lemma create_result_readable a r rv :
  reason_readable r →
  match create_result a r rv with CreateResult_Error e => readable e | _ => True end.
Proof.
  intros Hr. destruct r as [|e| |]; try done; try by apply readable_ascii.
  by apply error_message_readable.
Qed.

Record listener_readable (s : CallListListener) : Prop := {
  listener_entries : entries_readable s;
  listener_step : ∀ x, step_result_entry s = Some x → entry_readable x.2;
}.

Lemma same_readable s s' :
  entries s' = entries s → step_result_entry s' = step_result_entry s →
  listener_readable s → listener_readable s'.
Proof. intros E1 E2 [H1 H2]. constructor; [unfold entries_readable|]; by rewrite ?E1, ?E2. Qed.

Lemma insert_entry_readable k b s :
  entry_readable b → listener_readable s → listener_readable (insert_entry k b s).
Proof.
  intros Hb [He Hs]. unfold entries_readable in He.
  constructor; [|by rewrite (proj2 (proj2 (insert_entry_fields _ _ _)))].
  unfold entries_readable, insert_entry.
  destruct (entries s) as [|m E _] using rev_ind; simpl.
  - apply Forall_singleton, btree_values_Forall. by apply map_Forall_singleton.
  - rewrite last_snoc, alter_last_snoc. simpl. apply Forall_app in He as [He [Hm _]%Forall_cons].
    apply Forall_app. split; [done|]. apply Forall_singleton, btree_values_Forall.
    apply map_Forall_insert_2; [done|]. by apply btree_values_Forall.
Qed.

Section listener.
Context `{!BuildProfile}.

Lemma pop_readable r rv s s' popped :
  reason_readable r → listener_readable s →
  pop_context_to_entry r rv s = Ret (s', popped) →
  listener_readable s' ∧ ∀ x, popped = Some x → entry_readable x.2.
Proof.
  intros Hr Hs Hrun. unfold pop_context_to_entry in Hrun.
  destruct (context_stack s) as [|c st]; run_inv; [done|].
  split; [by apply (same_readable s)|]. intros y [= <-].
  destruct (context_type c); [by apply call_result_readable|by apply create_result_readable].
Qed.

Lemma next_address_readable s s' a :
  listener_readable s → next_trace_address s = Ret (s', a) → listener_readable s'.
Proof.
  intros Hs Hrun. unfold next_trace_address in Hrun.
  destruct (context_stack s); run_inv; [done|]. by apply (same_readable s).
Qed.

Lemma push_readable ct f a v d t s s' :
  listener_readable s → push_context ct f a v d t s = Ret s' → listener_readable s'.
Proof.
  intros Hs Hrun. unfold push_context in Hrun. run_inv. by apply (same_readable s).
Qed.

Lemma finish_readable s s' :
  listener_readable s → finish_transaction s = Ret s' → listener_readable s'.
Proof.
  intros Hs Hrun. unfold finish_transaction in Hrun.
  assert (listener_readable (set_context_stack [] s)) as Hs1 by by apply (same_readable s).
  assert (∀ k b n s1, entry_readable b → listener_readable s1 →
    listener_readable (set_entries_next_index n (insert_entry k b s1))) as Hins.
  { intros k b n s1 Hb Hs'. apply (same_readable (insert_entry k b s1)); [done..|].
    by apply insert_entry_readable. }
  destruct (last (context_stack s)) as [c|]; [run_inv|].
  - apply Hins; [|done]. destruct (context_type c); by apply readable_ascii.
  - destruct (record_transaction_event_only _); run_inv; [|done]. apply Hins; [|done].
    by apply readable_ascii.
Qed.

Lemma on_exit_readable r rv s s' :
  reason_readable r → listener_readable s → on_exit r rv s = Ret s' → listener_readable s'.
Proof.
  intros Hr Hs Hrun. unfold on_exit in Hrun.
  set (s1 := set_record_transaction_event_only false s) in *.
  assert (listener_readable s1) as Hs1 by by apply (same_readable s). clearbody s1.
  run_inv. destruct x as [s2 entry].
  destruct (step_result_entry s1) as [x|] eqn:Hstep; simplify_eq/=.
  - destruct x as [k b]. run_inv. apply insert_entry_readable; [by apply (listener_step s1 Hs1 (k, b))|].
    destruct Hs1. by constructor.
  - edestruct pop_readable as [Hs2 Hx]; [exact Hr|exact Hs1|done|].
    destruct entry as [[k b]|]; run_inv; [|done].
    apply insert_entry_readable; [by apply (Hx (k, b))|done].
Qed.

Lemma transact_readable ct ca v d a s s' :
  listener_readable s → transact ct ca v d a s = Ret s' → listener_readable s'.
Proof.
  intros Hs Hrun. unfold transact in Hrun. run_inv. apply (same_readable x); [done..|].
  eapply push_readable; [|done]. by apply (same_readable s).
Qed.

(** [on_call] and [on_create] skip the context or push one. *)
Lemma open_readable ct f v d t s s' :
  listener_readable s →
  (if negb (skip_next_context s) then
     '(s, a) ← next_trace_address s; push_context ct (f s) a v d t s
   else Ret (set_skip_next_context false s)) = Ret s' → listener_readable s'.
Proof.
  intros Hs Hrun. destruct (negb _); run_inv; [|by apply (same_readable s)].
  destruct x as [s1 a]. eapply push_readable; [|done]. by eapply next_address_readable.
Qed.

Lemma on_suicide_readable a t b s s' :
  listener_readable s → on_suicide a t b s = Ret s' → listener_readable s'.
Proof.
  intros Hs Hrun. unfold on_suicide in Hrun. run_inv. destruct x as [s1 addr]. run_inv.
  eapply (same_readable (insert_entry _ _ s1)); [done..|].
  apply insert_entry_readable; [done|by eapply next_address_readable].
Qed.

Lemma evm_readable e s s' :
  event_writable (Event_Evm e) → listener_readable s → evm_event s e = Ret s' →
  listener_readable s'.
Proof.
  intros He Hs Hrun. pose proof (λ b, same_readable s (set_record_transaction_event_only b s)
    eq_refl eq_refl Hs) as Hs1. destruct e; simpl in Hrun.
  - unfold on_call in Hrun. by eapply (open_readable _
      (λ s, match context_stack s with parent :: _ => to parent | [] => _ end)), Hrun.
  - unfold on_create in Hrun. by eapply (open_readable _ (λ _, _)), Hrun.
  - by eapply on_suicide_readable.
  - by eapply on_exit_readable.
  - by eapply transact_readable.
  - by eapply transact_readable.
  - by eapply transact_readable.
  - simplify_eq. by apply (same_readable s).
Qed.

Lemma runtime_readable e s s' :
  event_writable (Event_Runtime e) → listener_readable s → runtime_event s e = Ret s' →
  listener_readable s'.
Proof.
  intros He Hs Hrun. destruct e as [|[|[reason|opcode]] rv| |]; simpl in Hrun; run_inv; try done.
  - destruct x as [s1 popped]. edestruct pop_readable as [Hs1 Hx]; [exact He|exact Hs|done|].
    destruct popped as [x|]; [|by run_inv]. specialize (Hx x eq_refl).
    destruct x as [k b], (version s1); run_inv; [|by apply insert_entry_readable].
    destruct Hs1. constructor; simpl; [done|]. by intros x [= <-].
  - destruct (ContextType_from opcode) as [[]|]; run_inv; [by apply (same_readable s)|done..].
Qed.

Lemma gasometer_readable e s s' :
  listener_readable s → gasometer_event s e = Ret s' → listener_readable s'.
Proof.
  intros Hs Hrun. destruct e; simpl in Hrun; run_inv; try done;
    try (destruct (context_stack s); run_inv; [done|]); by apply (same_readable s).
Qed.

Lemma listener_event_readable e s s' :
  event_writable e → listener_readable s → listener_event s e = Ret s' → listener_readable s'.
Proof.
  intros He Hs Hrun. destruct e as [e|e|e|]; simpl in Hrun.
  - by eapply evm_readable.
  - by eapply gasometer_readable.
  - by eapply runtime_readable.
  - destruct (negb _); run_inv; [|by apply (same_readable s)].
    edestruct (finish_readable s x) as [H1 H2]; [done..|]. constructor; [|done].
    unfold entries_readable. simpl. apply Forall_app. split; [done|]. by apply Forall_singleton.
Qed.

Lemma events_readable evs s s' :
  Forall event_writable evs → listener_readable s → emit_all s evs = Ret s' →
  listener_readable s'.
Proof.
  intros Hevs. revert s. induction Hevs as [|e evs He _ IH]; intros s Hs Hrun; simpl in Hrun.
  - by simplify_eq.
  - run_inv. eapply IH; [|done]. by eapply listener_event_readable.
Qed.

Lemma default_readable : listener_readable Listener_default.
Proof. constructor; [constructor|done]. Qed.

End listener.

(** ** The raw listener *)

Abbreviation keys_typed := (map_Forall (λ k (_ : H256), uint 256 k)).

Definition log_writable (log : RawStepLog) : Prop :=
  readable (log_op log) ∧ ∀ m, log_storage log = Some m → keys_typed m.
Definition context_writable (c : RawContext) : Prop :=
  (∀ st, current_step c = Some st → readable (step_opcode st)) ∧ keys_typed (storage_cache c).

Record raw_writable (l : RawL) : Prop := {
  raw_contexts : Forall context_writable (raw_stack l);
  raw_logs : Forall log_writable (step_logs l);
}.

Lemma apply_change_writable a m c : context_writable c → context_writable (apply_change a m c).
Proof.
  intros [Hs Hk]. unfold apply_change. case_decide; [|done]. split; [done|].
  simpl. intros k v Hv. unfold update_cache in Hv. rewrite map_lookup_imap in Hv.
  apply bind_Some in Hv as (v' & Hv' & _). by apply (Hk k v').
Qed.

Lemma apply_changes_writable sub c :
  context_writable c → context_writable (apply_storage_changes sub c).
Proof.
  unfold apply_storage_changes. generalize (btree_iter
    (<[context_address sub:=storage_cache sub]> (global_storage_changes sub))).
  intros l. revert c. induction l as [|[a m] l IH]; intros c Hc; [done|].
  simpl. by apply IH, apply_change_writable.
Qed.

Lemma raw_stack_writable st l :
  raw_writable l → Forall context_writable st → raw_writable (set_raw_stack st l).
Proof. intros [??] ?. by constructor. Qed.

Section raw.
Context `{!BuildProfile}.

Lemma record_cost_writable cost sn l l' :
  raw_writable l → record_cost cost sn l = Ret l' → raw_writable l'.
Proof.
  intros Hl Hrun. unfold record_cost in Hrun.
  destruct (raw_stack l) as [|c st] eqn:Hst; run_inv; [done|]. destruct Hl as [Hc Hl].
  rewrite Hst in Hc. apply Forall_cons in Hc as [[Hs Hk] Hcs]. constructor; simpl; [|done].
  constructor; [|done]. destruct (current_step c) as [s|] eqn:Hcur; run_inv; [|by split; [rewrite Hcur|]].
  split; [|done]. intros s' [= <-]. by apply (Hs s).
Qed.

Lemma raw_step_writable cx op pos stk mem l l' :
  readable op → raw_writable l → raw_step cx op pos stk mem l = Ret l' → raw_writable l'.
Proof.
  intros Hop Hl Hrun. unfold raw_step in Hrun.
  set (l1 := if new_context l then _ else l) in *.
  assert (raw_writable l1) as Hl1.
  { subst l1. destruct (new_context l); [|done]. destruct Hl. constructor; simpl; [|done].
    constructor; [|done]. by split; [|apply map_Forall_empty]. }
  clearbody l1. destruct (raw_stack l1) as [|c st] eqn:Hst; run_inv; [done|].
  destruct Hl1 as [Hc Hl1]. rewrite Hst in Hc. apply Forall_cons in Hc as [[_ Hk] Hcs].
  constructor; simpl; [|done]. constructor; [|done]. split; [|done]. by intros s [= <-].
Qed.

Lemma log_step_writable l : raw_writable l → raw_writable (log_step l).
Proof.
  intros Hl. unfold log_step. destruct (raw_stack l) as [|c st] eqn:Hst; [done|].
  destruct (current_step c) as [s|] eqn:Hs; [|done]. destruct Hl as [Hc Hl].
  rewrite Hst in Hc. apply Forall_cons in Hc as [[Hop Hk] Hcs]. constructor; simpl.
  - by constructor.
  - apply Forall_app. split; [done|]. apply Forall_singleton. split; [by apply Hop|].
    simpl. by destruct (disable_storage l); intros m [= <-].
Qed.

Lemma exit_context_writable r rv l : raw_writable l → raw_writable (exit_context r rv l).
Proof.
  intros Hl. unfold exit_context. destruct (raw_stack l) as [|c st] eqn:Hst; [done|].
  destruct Hl as [Hc Hl]. rewrite Hst in Hc. apply Forall_cons in Hc as [_ Hc].
  destruct st as [|p st]; simpl.
  - destruct (disable_storage l), r; by constructor.
  - apply Forall_cons in Hc as [Hp Hc].
    destruct (disable_storage l), r; constructor; simpl;
      auto using Forall_cons_2, apply_changes_writable.
Qed.

Lemma raw_event_writable e l l' :
  event_writable e → raw_writable l → raw_event l e = Ret l' → raw_writable l'.
Proof.
  assert (∀ i v, uint 256 i → raw_writable l →
    match raw_stack l with
    | context :: stack =>
        if negb (disable_storage l) then
          Ret (set_raw_stack
            (set_storage_cache (<[i := v]> (storage_cache context)) context :: stack) l)
        else Ret l
    | [] => Ret l
    end = Ret l' → raw_writable l') as Hstore.
  { intros i v Hi Hl Hrun. destruct (raw_stack l) as [|c st] eqn:Hst; run_inv; [done|].
    destruct (negb _); run_inv; [|done]. apply raw_stack_writable; [done|].
    destruct Hl as [Hc _]. rewrite Hst in Hc. apply Forall_cons in Hc as [[Hop Hk] Hcs].
    constructor; [|done]. split; [done|]. by apply map_Forall_insert_2. }
  intros He Hl Hrun. destruct e as [e|e|e|]; simpl in Hrun; run_inv; try done.
  - destruct e; simpl in Hrun; run_inv; eauto using record_cost_writable; try done. by destruct Hl.
  - destruct e as [cx op pos stk mem|res rv|a i v|a i v]; simpl in Hrun.
    + by eapply raw_step_writable.
    + apply log_step_writable in Hl. destruct res as [|[r|op]]; run_inv; try done.
      * by apply exit_context_writable.
      * destruct (bool_decide _); run_inv; [|done]. by destruct Hl.
    + by eapply Hstore.
    + by eapply Hstore.
Qed.

Lemma raw_events_writable evs l l' :
  Forall event_writable evs → raw_writable l → emit_all l evs = Ret l' → raw_writable l'.
Proof.
  intros Hevs. revert l. induction Hevs as [|e evs He _ IH]; intros l Hl Hrun; simpl in Hrun.
  - by simplify_eq.
  - run_inv. eapply IH; [|done]. by eapply raw_event_writable.
Qed.

End raw.

Section raw_format.
Context `{!Unicode, !EthereumSerde}.

Lemma storage_distinct m : keys_typed m → json_distinct (storage_serialize m).
Proof.
  intros Hm. apply json_distinct_obj. split.
  - unfold storage_serialize. rewrite <-list_fmap_compose.
    assert (NoDup (btree_iter m).*1) as Hnd.
    { unfold btree_iter. rewrite merge_sort_Permutation. apply NoDup_fst_map_to_list. }
    assert (Forall (uint 256) (btree_iter m).*1) as Hk.
    { apply Forall_fmap. apply (btree_iter_Forall (λ k _, uint 256 k) m Hm). }
    change (fst ∘ _) with ((λ k, String.string_of_list_byte (h256_string k)) ∘ @fst Z Z).
    rewrite list_fmap_compose. apply NoDup_fmap_2_strong; [|done].
    rewrite Forall_forall in Hk. intros x y Hx Hy Heq.
    apply h256_string_inj; [by apply Hk..|].
    rewrite <-(String.list_byte_of_string_of_list_byte (h256_string x)), Heq.
    apply String.list_byte_of_string_of_list_byte.
  - apply Forall_fmap, Forall_true. done.
Qed.

Lemma log_writes l : log_writable l → writes (RawStepLog_serialize l).
Proof.
  intros [[cps Hop] Hst]. unfold RawStepLog_serialize, opcode_serialize. rewrite Hop.
  eexists. split; [done|]. apply json_distinct_obj. split.
  - destruct (log_memory l), (log_stack l), (log_storage l); keys.
  - assert (∀ m, json_distinct (seq_h256_serialize (Some m))) as Hw.
    { intros m. apply json_distinct_seq, Forall_fmap, Forall_true. done. }
    rewrite !Forall_app. split_and!.
    + by repeat constructor.
    + destruct (log_memory l); [|constructor]. constructor; [apply Hw|constructor].
    + by repeat constructor.
    + destruct (log_stack l); [|constructor]. constructor; [apply Hw|constructor].
    + destruct (log_storage l); [|constructor].
      constructor; [by apply storage_distinct, Hst|constructor].
Qed.

Lemma raw_format_writes l t :
  raw_writable l → raw_format l = Some t → writes (SingleTrace_serialize t).
Proof.
  intros [_ Hl] [= <-]. destruct (map_result_writes RawStepLog_serialize (step_logs l))
    as (js & Hjs & Hd).
  { eapply Forall_impl; [exact Hl|]. apply log_writes. }
  unfold writes. cbn [SingleTrace_serialize]. rewrite Hjs. eexists. split; [done|].
  apply json_distinct_obj. split; [keys|]. constructor; [done|]. constructor; [done|].
  constructor; [by apply json_distinct_seq|constructor].
Qed.

End raw_format.

(** ** The endpoints *)

Section endpoints.
Context `{!BuildProfile, !Unicode, !EthereumSerde}.

Abbreviation single_writes := (λ t, writes (SingleTrace_serialize t)).

(** The listener of a replay, once the transaction is finished. *)
Lemma finished_readable {R} (f : list Event * R) l r s :
  Forall event_writable f.1 → using_listener Listener_default f = Ret (l, r) →
  finish_transaction l = Ret s → entries_readable s.
Proof.
  intros Hf Hl Hs. apply bind_Ret_inv in Hl as (l' & Hl & [= <- _]).
  eapply listener_entries, finish_readable; [|exact Hs].
  by eapply events_readable; [exact Hf|apply default_readable|].
Qed.

Lemma trace_with_writes ti ty f t :
  Forall event_writable f.1 → trace_with ti ty f = Ret (Ok (Response_Single t)) → single_writes t.
Proof.
  intros Hf Hrun. unfold trace_with, using_listener in Hrun. destruct ty as [ds dm dst| |]; [| |done].
  - apply bind_Ret_inv in Hrun as ([l [u|e]] & Hl & Hrun); [|done].
    apply bind_Ret_inv in Hl as (l' & Hl & [= <- _]). injection Hrun as <-.
    apply (raw_format_writes l'); [|done].
    eapply raw_events_writable; [exact Hf| |exact Hl]. by repeat constructor.
  - apply bind_Ret_inv in Hrun as ([l [u|e]] & Hl & Hrun); [|done].
    apply bind_Ret_inv in Hrun as (s & Hs & Hrun).
    pose proof (finished_readable _ _ _ _ Hf Hl Hs) as Hx.
    destruct ti; [done| |].
    + destruct (blockscout_format s) eqn:Hfmt; simplify_eq. by eapply blockscout_format_writes.
    + apply bind_Ret_inv in Hrun as ([res|] & Hres & Hrun); [|done]. destruct (last res) as [t'|] eqn:Hlast; simplify_eq.
      eapply call_tracer_format_writes in Hx; [|done]. apply last_Some in Hlast as [k ->].
      by apply Forall_app in Hx as [_ [Hx _]%Forall_cons].
Qed.

Context {Extrinsic EthTransaction : Type}.
Context (twox_128 : bytes → Z).
Context (best_number : Z).
Context (load_hash : H256 → result (option BlockId) RpcError).
Context (load_transactions : H256 → result (option (H256 * nat)) RpcError).
Context (header : BlockId → result (option (H256 * H256)) Z).
Context (transaction_hashes : BlockId → option (option (list H256))).
Context (eth_transactions : BlockId → option (option (list EthTransaction))).
Context (body : BlockId → result (option (list Extrinsic)) Z).
Context (api_version : H256 → result (option Z) Z).
Context (initialize_block : H256 → H256 → list Event * result unit Z).
Context (trace_block : H256 → list Extrinsic → list H256 →
  list Event * result (result unit Z) Z).
Context (trace_transaction : H256 → list Extrinsic → EthTransaction →
  list Event * result (result unit Z) Z).
Context (legacy : EthTransaction → bool).
Context (trace_transaction_before_version_4 : H256 → list Extrinsic → EthTransaction →
  list Event * result (result unit Z) Z).

(** The runtime API emits what a runtime can emit. *)
Context (initialize_writable : ∀ p h, Forall event_writable (initialize_block p h).1).
Context (block_writable : ∀ p x h, Forall event_writable (trace_block p x h).1).
Context (transaction_writable : ∀ p x t, Forall event_writable (trace_transaction p x t).1).
Context (legacy_writable : ∀ p x t,
  Forall event_writable (trace_transaction_before_version_4 p x t).1).

Abbreviation handle_transaction_request :=
  (handle_transaction_request twox_128 load_hash load_transactions header eth_transactions
     body api_version initialize_block trace_transaction legacy
     trace_transaction_before_version_4).
Abbreviation handle_block_request :=
  (handle_block_request twox_128 best_number load_hash header transaction_hashes body
     initialize_block trace_block).
Abbreviation task_answer :=
  (task_answer twox_128 best_number load_hash load_transactions header transaction_hashes
     eth_transactions body api_version initialize_block trace_block trace_transaction legacy
     trace_transaction_before_version_4).

Lemma after_initialize_writable p h next :
  Forall event_writable next.1 →
  Forall event_writable (after_initialize initialize_block p h next).1.
Proof.
  intros Hn. unfold after_initialize. pose proof (initialize_writable p h) as Hi.
  destruct (initialize_block p h) as [evs [u|e]]; simpl in *; [|done]. by apply Forall_app.
Qed.

Lemma replay_transaction_writable p h v x t :
  Forall event_writable (replay_transaction initialize_block trace_transaction legacy
    trace_transaction_before_version_4 p h v x t).1.
Proof.
  apply after_initialize_writable. pose proof (transaction_writable p x t) as Ht.
  pose proof (legacy_writable p x t) as Hl. destruct (4 <=? v).
  - by destruct (trace_transaction p x t).
  - destruct (legacy t); [|constructor].
    by destruct (trace_transaction_before_version_4 p x t).
Qed.

Lemma replay_block_writable p h id x hs :
  Forall event_writable (replay_block initialize_block trace_block p h id x hs).1.
Proof.
  apply after_initialize_writable. pose proof (block_writable p x hs) as Hb.
  by destruct (trace_block p x hs).
Qed.

Lemma transaction_request_writes h params t :
  handle_transaction_request h params = Ret (Ok (Response_Single t)) → single_writes t.
Proof.
  unfold DebugRpc.handle_transaction_request. intros Hr.
  repeat match type of Hr with
  | trace_with _ _ _ = _ => fail 1
  | match ?x with _ => _ end = _ => destruct x; try discriminate Hr
  end. eapply trace_with_writes; [|exact Hr]. apply replay_transaction_writable.
Qed.

Lemma block_request_writes rid params ts :
  handle_block_request rid params = Ret (Ok (Response_Block ts)) → Forall single_writes ts.
Proof.
  unfold DebugRpc.handle_block_request. intros Hr.
  repeat match type of Hr with
  | Ret (Ok (Response_Block [])) = _ => injection Hr as <-; constructor
  | _ ≫= _ = _ => fail 1
  | match ?x with _ => _ end = _ => destruct x; try discriminate Hr
  end. apply bind_Ret_inv in Hr as ([l [u|e]] & Hl & Hr); [|done].
  apply bind_Ret_inv in Hr as (s & Hs & Hr). destruct t; [done..|].
  apply bind_Ret_inv in Hr as ([res|] & Hres & Hr); [|done]. injection Hr as <-.
  eapply call_tracer_format_writes; [|exact Hres].
  eapply finished_readable; [apply replay_block_writable|exact Hl|exact Hs].
Qed.

(** The debug endpoints return, and an answer they give can be written as JSON without
    an error and without two fields of one name, for every tracer and whatever the
    client, the databases and the runtime's replay do. *)
Theorem debug_answers_written h rid params :
  (∃ r, rpc_trace_transaction (Answered (task_answer (RequesterInput_Transaction h) params))
        = Ret r ∧ ∀ t, r = Ok t → writes (SingleTrace_serialize t)) ∧
  (∃ r, rpc_trace_block (Answered (task_answer (RequesterInput_Block rid) params)) = Ret r ∧
        ∀ ts, r = Ok ts → Forall (λ t, writes (SingleTrace_serialize t)) ts).
Proof.
  unfold rpc_trace_transaction, rpc_trace_block, DebugRpc.task_answer. cbn [receive]. split.
  - destruct (handle_transaction_request h params) as [[r|e]|] eqn:Hr;
      [|by eexists; split; [done|]..].
    destruct (transaction_request_single _ _ _ _ _ _ _ _ _ _ _ _ _ _ Hr) as [t ->].
    eexists. split; [done|]. intros t' [= <-]. by eapply transaction_request_writes.
  - destruct (handle_block_request rid params) as [[r|e]|] eqn:Hr; [|by eexists; split; [done|]..].
    destruct (block_request_list _ _ _ _ _ _ _ _ _ _ _ Hr) as [ts ->].
    eexists. split; [done|]. intros ts' [= <-]. by eapply block_request_writes.
Qed.

End endpoints.

(** ** The traces of blocks *)

Section blocks.
Context `{!BuildProfile, !Unicode, !EthereumSerde}.
Context {Extrinsic : Type}.
Context (header : H256 → result (option (Z * H256)) Z).
Context (eth_data : H256 → option (option (H256 * list H256))).
Context (body : H256 → result (option (list Extrinsic)) Z).
Context (initialize_block : H256 → H256 → list Event * result unit Z).
Context (trace_block : H256 → list Extrinsic → list H256 →
  list Event * result (result unit Z) Z).
Context (initialize_writable : ∀ p h, Forall event_writable (initialize_block p h).1).
Context (block_writable : ∀ p x h, Forall event_writable (trace_block p x h).1).

Lemma complete_trace_readable bh n th t :
  output_readable (tt_output t) → output_readable (tt_output (complete_trace bh n th t)).
Proof.
  simpl. destruct (tt_output t) as [r|e]; [done|]. case_decide; [|done]. intros _.
  by apply readable_ascii.
Qed.

Lemma fill_traces_readable bh n hs l ts :
  Forall (λ t, output_readable (tt_output t)) l → fill_traces bh n hs l = Ok ts →
  Forall (λ t, output_readable (tt_output t)) ts.
Proof.
  intros Hl. revert ts. induction Hl as [|t l Ht _ IH]; intros ts Hrun; simpl in Hrun;
    [simplify_eq; constructor|].
  unfold fill_trace in Hrun. destruct (hs !! _); [|done].
  destruct (fill_traces bh n hs l) as [ts'|]; [|done]. injection Hrun as <-.
  constructor; [by apply complete_trace_readable|by apply IH].
Qed.

Lemma trace_filter_format_readable s ts :
  entries_readable s → trace_filter_format s = Some ts →
  Forall (λ t, output_readable (tt_output t)) ts.
Proof.
  intros Hs [= <-]. apply Forall_forall. intros t Ht. apply list_elem_of_join in Ht as (l & Ht & Hl).
  apply list_elem_of_lookup_1 in Hl as [i Hi]. rewrite list_lookup_imap in Hi.
  apply fmap_Some in Hi as (m & Hm & ->). apply list_elem_of_fmap in Ht as (b & -> & Hb).
  apply list_elem_of_lookup_2, list_elem_of_filter in Hm as [_ Hm].
  unfold entries_readable in Hs. rewrite Forall_forall in Hs. specialize (Hs m Hm).
  rewrite Forall_forall in Hs. by apply trace_output_readable, Hs.
Qed.

(** The traces the cache keeps of a block can be written. *)
Theorem cache_traces_written h ts :
  cache_block header eth_data body initialize_block trace_block h = Ret (Ok ts) →
  Forall (λ t, writes (TransactionTrace_serialize t)) ts.
Proof.
  unfold cache_block. intros Hr.
  repeat match type of Hr with
  | _ ≫= _ = _ => fail 1
  | match ?x with _ => _ end = _ => destruct x; try discriminate Hr
  end. apply bind_Ret_inv in Hr as ([s [u|e]] & Hs & Hr); [|done].
  apply bind_Ret_inv in Hs as (s' & Hs & [= <- _]).
  destruct (trace_filter_format s') as [l'|] eqn:Hl; [|done]. injection Hr as Hr.
  assert (entries_readable s') as Hread.
  { eapply listener_entries, events_readable; [|apply default_readable|exact Hs].
    unfold replay. match goal with |- context [initialize_block ?p ?h] =>
      pose proof (initialize_writable p h) as Hi; destruct (initialize_block p h) as [e1 [u1|r1]] end;
      [|done].
    match goal with |- context [trace_block ?p ?x ?hs] =>
      pose proof (block_writable p x hs) as Hb; destruct (trace_block p x hs) end.
    simpl. by apply Forall_app. }
  eapply Forall_impl; [|intros t; apply block_trace_writes].
  eapply fill_traces_readable; [|exact Hr]. by eapply trace_filter_format_readable.
Qed.

End blocks.

(** ** Witnesses *)

Module WrittenExample.
Definition evs : list Event :=
  [Event_Evm (EvmEvent_TransactCall 1 2 3 [] 10);
   Event_Evm (EvmEvent_Exit (Error (OtherError (bytes_of "no"))) [])].
Lemma evs_writable : Forall event_writable evs.
Proof. constructor; [done|]. constructor; [by apply readable_ascii|]. constructor. Qed.
End WrittenExample.

Lemma debug_answers_written_witness :
  ∃ t, DebugExample.transaction_request WrittenExample.evs 7 (DebugExample.params "callTracer") =
    Ret (Ok (Response_Single t)) ∧ writes (SingleTrace_serialize t).
Proof.
  destruct (@debug_answers_written dev JsonExample.unicode JsonExample.serde unit Z
    DebugExample.twox 9 DebugExample.load_hash DebugExample.load_transactions
    DebugExample.header DebugExample.hashes DebugExample.eth_transactions DebugExample.body
    DebugExample.api_version DebugExample.init (DebugExample.replay WrittenExample.evs)
    (DebugExample.replay WrittenExample.evs) DebugExample.legacy
    (DebugExample.replay WrittenExample.evs) (λ _ _, List.Forall_nil _)
    (λ _ _ _, WrittenExample.evs_writable) (λ _ _ _, WrittenExample.evs_writable)
    (λ _ _ _, WrittenExample.evs_writable) 7 (RequestBlockId_Tag Latest)
    (DebugExample.params "callTracer")) as [(r & Hr & Hw) _].
  eexists. split; [vm_compute; reflexivity|].
  apply Hw. vm_compute in Hr. injection Hr as <-. reflexivity.
Defined.
