(* ===== verification/Blocks.v ===== *)
(** * Blocks as the consensus engines see them

    Headers, digests and import parameters: what the engines under
    node/consensus-transition use of the framework's types.  A digest item is
    abstract; the digests of an engine are given by a class with the laws of its
    encoding. *)

From stdpp Require Import base tactics list.
From Stdlib Require Import ZArith.
From S2P Require Import Prelude.
Local Open Scope Z_scope.

Abbreviation Slot := Z (only parsing).

(** A header; [roots] stands for the fields the engines do not look at. *)
Record BlockHeader (DigestItem : Type) := mkHeader {
  number : Z;
  header_parent : H256;
  roots : Z;
  logs : list DigestItem;
}.
Arguments mkHeader {_}.
Arguments number {_}.
Arguments header_parent {_}.
Arguments roots {_}.
Arguments logs {_}.

Definition set_logs {D} (l : list D) (h : BlockHeader D) : BlockHeader D :=
  mkHeader (number h) (header_parent h) (roots h) l.

Lemma set_logs_set {D} (l l' : list D) h : set_logs l (set_logs l' h) = set_logs l h.
Proof. done. Qed.
Lemma set_logs_self {D} (h : BlockHeader D) : set_logs (logs h) h = h.
Proof. by destruct h. Qed.

Inductive BlockOrigin := OriginOwn | OriginNetwork.
Inductive ForkChoiceStrategy := LongestChain.

(** The epochs of Babe as the framework's tree of epoch changes names them: an
    epoch that a block of the chain has signaled, or the first one, which starts
    with its first block. *)
Record EpochIdentifier := mkEpochIdentifier {
  epoch_position : Z;
  epoch_hash : H256;
  epoch_number : Z;
}.
Record EpochHeader := mkEpochHeader { start_slot : Slot; end_slot : Slot }.
Inductive ViableEpochDescriptor :=
| UnimportedGenesis (slot : Slot)
| Signaled (identifier : EpochIdentifier) (header : EpochHeader).

(** [BlockImportParams]; [changes] are the storage changes a local proposal
    brings with it, and [intermediate] is what the map of intermediates holds for
    Babe's import ([BabeIntermediate] at [INTERMEDIATE_KEY]), the only key used. *)
Record BlockImportParams (DigestItem Extrinsic : Type) := mkParams {
  origin : BlockOrigin;
  header : BlockHeader DigestItem;
  post_digests : list DigestItem;
  params_body : option (list Extrinsic);
  changes : option Z;
  finalized : bool;
  fork_choice : option ForkChoiceStrategy;
  post_hash : option H256;
  intermediate : option ViableEpochDescriptor;
}.
Arguments mkParams {_ _}.
Arguments origin {_ _}.
Arguments header {_ _}.
Arguments post_digests {_ _}.
Arguments params_body {_ _}.
Arguments changes {_ _}.
Arguments finalized {_ _}.
Arguments fork_choice {_ _}.
Arguments post_hash {_ _}.
Arguments intermediate {_ _}.

(** [BlockImportParams::new]. *)
Definition params_new {D X} (o : BlockOrigin) (h : BlockHeader D) : BlockImportParams D X :=
  mkParams o h [] None None false None None None.

(** The header of the block that is imported: with its post-digests. *)
Definition post_header {D X} (p : BlockImportParams D X) : BlockHeader D :=
  set_logs (logs (header p) ++ post_digests p) (header p).

(** [Vec::pop]. *)
Definition pop {A} (l : list A) : option (list A * A) :=
  match reverse l with
  | [] => None
  | a :: l => Some (reverse l, a)
  end.

Lemma pop_snoc {A} (l : list A) a : pop (l ++ [a]) = Some (l, a).
Proof. unfold pop. by rewrite reverse_snoc, reverse_involutive. Qed.

Lemma pop_Some {A} (l l' : list A) a : pop l = Some (l', a) ↔ l = l' ++ [a].
Proof.
  split; [|intros ->; apply pop_snoc].
  destruct l as [|b l _] using rev_ind; [done|]. rewrite pop_snoc. by intros [= -> ->].
Qed.

(** The digests of Aura: [CompatibleDigestItem] of the framework.  A pre-digest
    holds a slot and a seal a signature; both are read back as they were
    written, and a seal is not a pre-digest. *)
Class AuraDigest (DigestItem Signature : Type) := {
  as_aura_pre_digest : DigestItem → option Slot;
  as_aura_seal : DigestItem → option Signature;
  aura_pre_digest : Slot → DigestItem;
  aura_seal : Signature → DigestItem;
  as_pre_digest_pre s : 0 ≤ s < 2 ^ 64 → as_aura_pre_digest (aura_pre_digest s) = Some s;
  as_seal_seal sig : as_aura_seal (aura_seal sig) = Some sig;
  as_pre_digest_seal sig : as_aura_pre_digest (aura_seal sig) = None;
}.
