(* ===== verification/Aura.v ===== *)
(** * The Aura engine: node/consensus-transition/aura/src

    The author of a slot, the claim and the seal of a block by the worker
    (lib.rs), and the verification of a block by the import queue
    (import_queue.rs).  The keystore, the signature scheme, the hash of a header,
    the runtime API and the providers of inherent data are parameters. *)

From stdpp Require Import base tactics list strings.
From Stdlib Require Import ZArith Lia Strings.Byte.
From S2P Require Import Prelude Blocks.
Local Open Scope Z_scope.

Inductive CompatibilityMode :=
| CompatibilityNone
| UseInitializeBlock (until : Z).

Inductive CheckForEquivocation := EquivocationYes | EquivocationNo.

Definition check_for_equivocation (c : CheckForEquivocation) : bool :=
  match c with EquivocationYes => true | EquivocationNo => false end.

(** Errors of the framework are numbers. *)
Inductive AuraError :=
| MultipleHeaders
| NoDigestFound
| HeaderUnsealed (h : H256)
| HeaderBadSeal (h : H256)
| SlotAuthorNotFound
| BadSignature (h : H256)
| AuraClient (e : Z)
| UnknownInherentError (id : Z)
| AuraInherent (e : Z).

(** [sp_consensus::Error], as far as the engine makes them. *)
Inductive ConsensusError :=
| InvalidAuthoritiesSet
| CannotSign (public : bytes) (e : option Z)
| InvalidSignature (signature : bytes) (public : bytes).

(** The errors of [verify] are strings: the format and what it shows. *)
Inductive VerifyError :=
| CouldNotFetchAuthorities (parent : H256) (e : ConsensusError)
| VerifyAura (e : AuraError)
| VerifyApi (e : Z)
| TooFarInTheFuture (h : H256).

Section aura.
Context `{!BuildProfile}.
Context {DigestItem Signature AuthorityId Extrinsic : Type}.
Context `{!AuraDigest DigestItem Signature}.

(** ** lib.rs *)

(** [slot_author]. *)
Definition slot_author (slot : Slot) (authorities : list AuthorityId) :
    outcome (option AuthorityId) :=
  if decide (zlen authorities = 0) then Ret None
  else
    let idx := slot mod zlen authorities in
    if idx <=? 2 ^ 64 - 1 then
      match authorities !! Z.to_nat idx with
      | Some current_author => Ret (Some current_author)
      | None => Panic
      end
    else Panic.

(** The loop of [find_pre_digest]. *)
Fixpoint find_pre_digest_loop (pre_digest : option Slot) (l : list DigestItem) :
    result (option Slot) AuraError :=
  match l with
  | [] => Ok pre_digest
  | log :: l =>
      match as_aura_pre_digest log, pre_digest with
      | Some _, Some _ => Err MultipleHeaders
      | None, _ => find_pre_digest_loop pre_digest l
      | s, None => find_pre_digest_loop s l
      end
  end.

Definition find_pre_digest (h : BlockHeader DigestItem) : result Slot AuraError :=
  if number h =? 0 then Ok 0
  else
    pre_digest ←? find_pre_digest_loop None (logs h);
    match pre_digest with
    | Some slot => Ok slot
    | None => Err NoDigestFound
    end.

(** The runtime API: [initialize_block] on a parent for a block number, and the
    authorities at the parent, possibly after it. *)
Context (initialize_block : H256 → Z → result unit Z).
Context (runtime_authorities : H256 → option Z → result (list AuthorityId) Z).

(** [authorities]. *)
Definition authorities (compatibility_mode : CompatibilityMode) (parent_hash : H256)
    (context_block_number : Z) : result (list AuthorityId) ConsensusError :=
  let initialized :=
    match compatibility_mode with
    | CompatibilityNone => Ok None
    | UseInitializeBlock until =>
        if context_block_number <? until then
          match initialize_block parent_hash context_block_number with
          | Ok _ => Ok (Some context_block_number)
          | Err _ => Err InvalidAuthoritiesSet
          end
        else Ok None
    end in
  ctx ←? initialized;
  match runtime_authorities parent_hash ctx with
  | Ok a => Ok a
  | Err _ => Err InvalidAuthoritiesSet
  end.

Context (header_hash : BlockHeader DigestItem → H256).
Context (compatibility_mode : CompatibilityMode).

(** [AuraWorker::epoch_data]: the authorities of the block after [h]. *)
Definition epoch_data (h : BlockHeader DigestItem) :
    outcome (result (list AuthorityId) ConsensusError) :=
  next ← add_u32 (number h) 1;
  Ret (authorities compatibility_mode (header_hash h) next).

(** The keystore: whether it has the key of an authority, and the signature with
    it, as bytes; [to_raw_vec] and the conversion of bytes to a signature. *)
Context (has_keys : AuthorityId → bool).
Context (sign_with : AuthorityId → H256 → result (option bytes) Z).
Context (to_raw_vec : AuthorityId → bytes).
Context (signature_try_from : bytes → option Signature).

(** [AuraWorker::claim_slot]. *)
Definition claim_slot (slot : Slot) (epoch_data : list AuthorityId) :
    outcome (option AuthorityId) :=
  expected_author ← slot_author slot epoch_data;
  Ret match expected_author with
      | Some p => if has_keys p then Some p else None
      | None => None
      end.

(** [AuraWorker::pre_digest_data]. *)
Definition pre_digest_data (slot : Slot) : list DigestItem := [aura_pre_digest slot].

(** [AuraWorker::block_import_params]. *)
Definition block_import_params (h : BlockHeader DigestItem) (hash : H256)
    (body : list Extrinsic) (storage_changes : Z) (public : AuthorityId) :
    result (BlockImportParams DigestItem Extrinsic) ConsensusError :=
  match sign_with public hash with
  | Err e => Err (CannotSign (to_raw_vec public) (Some e))
  | Ok None => Err (CannotSign (to_raw_vec public) None)
  | Ok (Some signature) =>
      match signature_try_from signature with
      | None => Err (InvalidSignature signature (to_raw_vec public))
      | Some signature =>
          let p : BlockImportParams DigestItem Extrinsic := params_new OriginOwn h in
          Ok {|
            origin := origin p;
            header := header p;
            post_digests := post_digests p ++ [aura_seal signature];
            params_body := Some body;
            changes := Some storage_changes;
            finalized := finalized p;
            fork_choice := Some LongestChain;
            post_hash := post_hash p;
            intermediate := intermediate p;
          |}
      end
  end.

(** [AuraWorker::should_backoff]; the strategy gets the number and slot of the
    chain head, the last finalized number and the slot. *)
Definition should_backoff (strategy : option (Z → Slot → Z → Slot → bool))
    (finalized_number : Z) (slot : Slot) (chain_head : BlockHeader DigestItem) : bool :=
  match strategy with
  | Some strategy =>
      match find_pre_digest chain_head with
      | Ok chain_head_slot => strategy (number chain_head) chain_head_slot finalized_number slot
      | Err _ => false
      end
  | None => false
  end.

(** ** import_queue.rs *)

Context (verify_signature : Signature → H256 → AuthorityId → bool).
(** [check_equivocation] of the framework: whether a proof was found. *)
Context (check_equivocation :
  Slot → Slot → BlockHeader DigestItem → AuthorityId → result bool Z).

Inductive CheckedHeader :=
| Checked (h : BlockHeader DigestItem) (slot : Slot) (seal : DigestItem)
| Deferred (h : BlockHeader DigestItem) (slot : Slot).

(** [check_header]. *)
Definition check_header (slot_now : Slot) (h : BlockHeader DigestItem) (hash : H256)
    (authorities : list AuthorityId) (equivocation : CheckForEquivocation) :
    outcome (result CheckedHeader AuraError) :=
  match pop (logs h) with
  | None => Ret (Err (HeaderUnsealed hash))
  | Some (rest, seal) =>
      let h := set_logs rest h in
      match as_aura_seal seal with
      | None => Ret (Err (HeaderBadSeal hash))
      | Some sig =>
          match find_pre_digest h with
          | Err e => Ret (Err e)
          | Ok slot =>
              if slot_now <? slot then
                Ret (Ok (Deferred (set_logs (logs h ++ [seal]) h) slot))
              else
                expected_author ← slot_author slot authorities;
                match expected_author with
                | None => Ret (Err SlotAuthorNotFound)
                | Some expected_author =>
                    let pre_hash := header_hash h in
                    if verify_signature sig pre_hash expected_author then
                      if check_for_equivocation equivocation then
                        match check_equivocation slot_now slot h expected_author with
                        | Err e => Ret (Err (AuraClient e))
                        | Ok _ => Ret (Ok (Checked h slot seal))
                        end
                      else Ret (Ok (Checked h slot seal))
                    else Ret (Err (BadSignature hash))
                end
          end
      end
  end.

(** The providers of inherent data, the check of the inherents by the runtime
    (its verdict and its errors, an identifier and a value each), and the
    handling of such an error by the providers. *)
Context {Provider InherentData : Type}.
Context (create_inherent_data_providers : H256 → result Provider Z).
Context (create_inherent_data : Provider → result InherentData Z).
Context (provider_slot : Provider → Slot).
Context (aura_replace_inherent_data : InherentData → Slot → InherentData).
Context (try_handle_error : Provider → Z → Z → option (result unit Z)).
Context (can_author_with : H256 → bool).
Context (has_block_builder_api_2 : H256 → result bool Z).
Context (runtime_check_inherents :
  H256 → BlockOrigin → BlockHeader DigestItem * list Extrinsic → InherentData →
  result (bool * list (Z * Z)) Z).

(** The loop over the errors of [check_inherents]. *)
Fixpoint handle_inherent_errors (p : Provider) (l : list (Z * Z)) : result unit AuraError :=
  match l with
  | [] => Ok tt
  | (i, e) :: l =>
      match try_handle_error p i e with
      | Some (Ok _) => handle_inherent_errors p l
      | Some (Err e) => Err (AuraInherent e)
      | None => Err (UnknownInherentError i)
      end
  end.

(** [AuraVerifier::check_inherents]. *)
Definition check_inherents (block : BlockHeader DigestItem * list Extrinsic)
    (block_id : H256) (inherent_data : InherentData) (p : Provider) (o : BlockOrigin) :
    result unit AuraError :=
  if can_author_with block_id then
    match runtime_check_inherents block_id o block inherent_data with
    | Err e => Err (AuraClient e)
    | Ok (ok, errors) => if ok then Ok tt else handle_inherent_errors p errors
    end
  else Ok tt.

(** The part of [verify] after the header was checked: the body, when there is
    one, must pass the check of the inherents. *)
Definition verify_body (block : BlockImportParams DigestItem Extrinsic) (parent_hash : H256)
    (pre_header : BlockHeader DigestItem) (slot : Slot) (inherent_data : InherentData)
    (p : Provider) : result unit VerifyError :=
  match params_body block with
  | None => Ok tt
  | Some inner_body =>
      match has_block_builder_api_2 parent_hash with
      | Err e => Err (VerifyApi e)
      | Ok false => Ok tt
      | Ok true =>
          match check_inherents (pre_header, inner_body) parent_hash
                  (aura_replace_inherent_data inherent_data slot) p (origin block) with
          | Err e => Err (VerifyAura e)
          | Ok _ => Ok tt
          end
      end
  end.

(** [AuraVerifier::verify]. *)
Definition aura_verify (equivocation : CheckForEquivocation)
    (block : BlockImportParams DigestItem Extrinsic) :
    outcome (result (BlockImportParams DigestItem Extrinsic) VerifyError) :=
  let hash := header_hash (header block) in
  let parent_hash := header_parent (header block) in
  match authorities compatibility_mode parent_hash (number (header block)) with
  | Err e => Ret (Err (CouldNotFetchAuthorities parent_hash e))
  | Ok authorities =>
  match create_inherent_data_providers parent_hash with
  | Err e => Ret (Err (VerifyAura (AuraClient e)))
  | Ok providers =>
  match create_inherent_data providers with
  | Err e => Ret (Err (VerifyAura (AuraInherent e)))
  | Ok inherent_data =>
      slot_now ← add_u64 (provider_slot providers) 1;
      checked_header ← check_header slot_now (header block) hash authorities equivocation;
      Ret match checked_header with
          | Err e => Err (VerifyAura e)
          | Ok (Checked pre_header slot seal) =>
              _ ←? verify_body block parent_hash pre_header slot inherent_data providers;
              Ok {|
                origin := origin block;
                header := pre_header;
                post_digests := post_digests block ++ [seal];
                params_body := params_body block;
                changes := changes block;
                finalized := finalized block;
                fork_choice := Some LongestChain;
                post_hash := Some hash;
                intermediate := intermediate block;
              |}
          | Ok (Deferred _ _) => Err (TooFarInTheFuture hash)
          end
  end end end.

End aura.
