(* ===== verification/AuraSpec.v ===== *)
(** * Correctness of the Aura engine

    The theorems on Aura.v: the authors of consecutive slots take turns, a header
    is accepted exactly when it is sealed by the author of its slot, and what a
    node authors every node with the same view of the chain accepts. *)

From stdpp Require Import base tactics list strings.
From Stdlib Require Import ZArith Lia Strings.Byte.
From S2P Require Import Prelude Blocks Aura.
Local Open Scope Z_scope.

Section lemmas.
Context `{!BuildProfile}.
Context {DigestItem Signature AuthorityId : Type}.
Context `{!AuraDigest DigestItem Signature}.

Lemma slot_author_lookup slot (l : list AuthorityId) :
  l ≠ [] → zlen l ≤ 2 ^ 64 →
  ∃ a, slot_author slot l = Ret (Some a) ∧ l !! Z.to_nat (slot mod zlen l) = Some a.
Proof.
  intros Hne Hlt. assert (0 < zlen l) by (destruct l; [done|simpl; lia]).
  pose proof (Z.mod_pos_bound slot (zlen l) ltac:(lia)).
  unfold slot_author. rewrite decide_False by lia.
  rewrite (proj2 (Z.leb_le _ _)) by lia.
  destruct (lookup_lt_is_Some_2 l (Z.to_nat (slot mod zlen l))) as [a Ha]; [lia|].
  rewrite Ha. by exists a.
Qed.

Lemma slot_author_inv slot (l : list AuthorityId) a :
  slot_author slot l = Ret (Some a) → l !! Z.to_nat (slot mod zlen l) = Some a.
Proof.
  unfold slot_author. case_decide; [done|]. destruct (_ <=? _); [|done].
  destruct (l !! _); [|done]. by intros [= ->].
Qed.

(** The loop of [find_pre_digest] over the pre-digests among the logs. *)
Lemma find_pre_digest_loop_spec pre (l : list DigestItem) :
  find_pre_digest_loop pre l =
  match option_list pre ++ omap as_aura_pre_digest l with
  | [] => Ok None
  | [s] => Ok (Some s)
  | _ => Err MultipleHeaders
  end.
Proof.
  revert pre. induction l as [|log l IH]; intros pre; simpl.
  { by destruct pre. }
  destruct (as_aura_pre_digest log) as [s|]; destruct pre as [s'|]; simpl; rewrite ?IH; done.
Qed.

Lemma find_pre_digest_spec (h : BlockHeader DigestItem) :
  find_pre_digest h =
  if number h =? 0 then Ok 0
  else match omap as_aura_pre_digest (logs h) with
       | [] => Err NoDigestFound
       | [s] => Ok s
       | _ => Err MultipleHeaders
       end.
Proof.
  unfold find_pre_digest. destruct (number h =? 0); [done|].
  rewrite find_pre_digest_loop_spec. simpl.
  by destruct (omap _ _) as [|s [|s' l]].
Qed.

(** The slot of a header is that of its one Aura pre-digest; a header with
    none or several is refused, and only genesis needs none. *)
Theorem find_pre_digest_one (h : BlockHeader DigestItem) s :
  find_pre_digest h = Ok s ↔
  (number h = 0 ∧ s = 0) ∨
  (number h ≠ 0 ∧ ∃ l1 d l2, logs h = l1 ++ d :: l2 ∧ as_aura_pre_digest d = Some s ∧
     Forall (λ d, as_aura_pre_digest d = None) (l1 ++ l2)).
Proof.
  rewrite find_pre_digest_spec. destruct (Z.eqb_spec (number h) 0) as [H0|H0].
  { split; [intros [= <-]; by left|]. intros [[_ ->]|[? _]]; done. }
  assert (∀ l, omap as_aura_pre_digest l = [] ↔
    Forall (λ d : DigestItem, as_aura_pre_digest d = None) l) as Hnil.
  { induction l as [|d l IHl]; simpl; [by split|].
    destruct (as_aura_pre_digest d) eqn:Hd; rewrite Forall_cons; [intuition congruence|].
    rewrite <-IHl. tauto. }
  split.
  - intros Hs. right. split; [done|]. revert Hs. generalize (logs h). intros l.
    induction l as [|d l IHl]; simpl; [done|].
    destruct (as_aura_pre_digest d) as [s'|] eqn:Hd.
    + change (list_omap _ _ ?f l) with (omap f l).
      destruct (omap as_aura_pre_digest l) eqn:Hl; [|done]. intros [= ->]. apply Hnil in Hl.
      by exists [], d, l.
    + intros Hs. destruct (IHl Hs) as (l1 & d' & l2 & -> & ? & ?).
      exists (d :: l1), d', l2. split_and!; [done..|]. simpl. by constructor.
  - intros [[? _]|(_ & l1 & d & l2 & -> & Hd & Hall)]; [done|].
    apply Forall_app in Hall as [H1 H2]. rewrite omap_app. simpl.
    rewrite Hd. change (list_omap _ _ ?f l2) with (omap f l2).
    by rewrite (proj2 (Hnil l1) H1), (proj2 (Hnil l2) H2).
Qed.

(** In as many consecutive slots as there are authorities, each of them is
    the author once: the authors are the list of authorities, rotated. *)
Theorem slot_authors_rotate slot (l : list AuthorityId) :
  l ≠ [] → zlen l ≤ 2 ^ 64 →
  let k := Z.to_nat (slot mod zlen l) in
  (λ i, slot_author (slot + Z.of_nat i) l) <$> seq 0 (length l) =
  (λ a, Ret (Some a)) <$> (drop k l ++ take k l).
Proof.
  intros Hne Hlt k. assert (0 < zlen l) as Hpos by (destruct l; [done|simpl; lia]).
  pose proof (Z.mod_pos_bound slot (zlen l) Hpos) as Hk.
  apply list_eq. intros i. rewrite !list_lookup_fmap.
  destruct (decide (i < length l)%nat) as [Hi|Hi]; last first.
  { rewrite lookup_seq_ge by lia. rewrite lookup_ge_None_2; [done|].
    rewrite length_app, length_drop, length_take. lia. }
  rewrite lookup_seq_lt by done. simpl.
  destruct (slot_author_lookup (slot + Z.of_nat i) l Hne Hlt) as (a & -> & Ha).
  assert ((drop k l ++ take k l) !! i = Some a) as ->; [|done].
  rewrite <-Ha, <-Z.add_mod_idemp_l by lia.
  destruct (decide (k + i < length l)%nat) as [Hlo|Hhi].
  - rewrite lookup_app_l by (rewrite length_drop; lia). rewrite lookup_drop.
    rewrite Z.mod_small by lia. f_equal. lia.
  - rewrite lookup_app_r by (rewrite length_drop; lia). rewrite length_drop.
    rewrite lookup_take_lt by lia.
    replace (slot mod zlen l + Z.of_nat i)
      with (slot mod zlen l + Z.of_nat i - zlen l + 1 * zlen l) by lia.
    rewrite Z.mod_add, Z.mod_small by lia. f_equal. lia.
Qed.

End lemmas.

Section verification.
Context `{!BuildProfile}.
Context {DigestItem Signature AuthorityId Extrinsic : Type}.
Context `{!AuraDigest DigestItem Signature}.
Context (initialize_block : H256 → Z → result unit Z).
Context (runtime_authorities : H256 → option Z → result (list AuthorityId) Z).
Context (header_hash : BlockHeader DigestItem → H256).
Context (mode : CompatibilityMode).
Context (has_keys : AuthorityId → bool).
Context (sign_with : AuthorityId → H256 → result (option bytes) Z).
Context (to_raw_vec : AuthorityId → bytes).
Context (signature_try_from : bytes → option Signature).
Context (verify_signature : Signature → H256 → AuthorityId → bool).
Context (check_equivocation :
  Slot → Slot → BlockHeader DigestItem → AuthorityId → result bool Z).
Context {Provider InherentData : Type}.
Context (create_inherent_data_providers : H256 → result Provider Z).
Context (create_inherent_data : Provider → result InherentData Z).
Context (provider_slot : Provider → Slot).
Context (aura_replace_inherent_data : InherentData → Slot → InherentData).
Context (try_handle_error : Provider → Z → Z → option (result unit Z)).
Context (can_author_with : H256 → bool).
Context (has_block_builder_api_2 : H256 → result bool Z).
Context (runtime_check_inherents :
  H256 → BlockOrigin → BlockHeader DigestItem * list Extrinsic → InherentData →
  result (bool * list (Z * Z)) Z).

Abbreviation check_header := (check_header header_hash verify_signature check_equivocation).
Abbreviation epoch_data :=
  (epoch_data initialize_block runtime_authorities header_hash mode).
Abbreviation authorities := (authorities initialize_block runtime_authorities mode).
Abbreviation verify_body :=
  (verify_body aura_replace_inherent_data try_handle_error can_author_with
     has_block_builder_api_2 runtime_check_inherents).
Abbreviation aura_verify :=
  (aura_verify initialize_block runtime_authorities header_hash mode verify_signature
     check_equivocation create_inherent_data_providers create_inherent_data provider_slot
     aura_replace_inherent_data try_handle_error can_author_with has_block_builder_api_2
     runtime_check_inherents).
Abbreviation block_import_params :=
  (block_import_params sign_with to_raw_vec signature_try_from).

(** A seal of a header by the author of its slot. *)
Definition sealed_by (l : list AuthorityId) (pre : BlockHeader DigestItem) (slot : Slot)
    (seal : DigestItem) (a : AuthorityId) : Prop :=
  find_pre_digest pre = Ok slot ∧ l !! Z.to_nat (slot mod zlen l) = Some a ∧
  ∃ sig, as_aura_seal seal = Some sig ∧ verify_signature sig (header_hash pre) a = true.

Lemma check_header_inv slot_now h hash l eqv pre slot seal :
  check_header slot_now h hash l eqv = Ret (Ok (Checked pre slot seal)) →
  h = set_logs (logs pre ++ [seal]) pre ∧ slot ≤ slot_now ∧
  ∃ a, sealed_by l pre slot seal a ∧
    (eqv = EquivocationYes → ∃ b, check_equivocation slot_now slot pre a = Ok b).
Proof.
  unfold Aura.check_header. destruct (pop (logs h)) as [[rest seal']|] eqn:Hpop; [|done].
  apply pop_Some in Hpop. destruct (as_aura_seal seal') as [sig|] eqn:Hsig; [|done].
  destruct (find_pre_digest (set_logs rest h)) as [s|] eqn:Hs; [|done].
  destruct (Z.ltb_spec slot_now s) as [|Hle]; [done|]. intros Hrun.
  apply bind_Ret_inv in Hrun as ([a|] & Ha & Hrun); [|done]. apply slot_author_inv in Ha.
  destruct (verify_signature sig _ a) eqn:Hv; [|done].
  assert (pre = set_logs rest h ∧ slot = s ∧ seal = seal' ∧
    (eqv = EquivocationYes →
     ∃ b, check_equivocation slot_now s (set_logs rest h) a = Ok b)) as (-> & -> & -> & Heq).
  { destruct eqv; simpl in Hrun; [|by simplify_eq].
    destruct (check_equivocation _ _ _ a) eqn:Hc; simplify_eq. by eauto 6. }
  split; [|split; [done|]].
  - simpl. rewrite set_logs_set, <-Hpop. by rewrite set_logs_self.
  - exists a. split; [|done]. by repeat split; try done; exists sig.
Qed.

Lemma check_header_accepts slot_now pre seal hash l eqv slot a :
  zlen l ≤ 2 ^ 64 → slot ≤ slot_now → sealed_by l pre slot seal a →
  (eqv = EquivocationYes → ∃ b, check_equivocation slot_now slot pre a = Ok b) →
  check_header slot_now (set_logs (logs pre ++ [seal]) pre) hash l eqv =
  Ret (Ok (Checked pre slot seal)).
Proof.
  intros Hlen Hle (Hs & Ha & sig & Hsig & Hv) Heq. unfold Aura.check_header. simpl.
  rewrite pop_snoc, Hsig, set_logs_set, set_logs_self, Hs.
  rewrite (proj2 (Z.ltb_ge _ _) Hle).
  destruct (slot_author_lookup slot l) as (a' & Ha' & Hl); [by intros ->|done|].
  simplify_eq. rewrite Ha'. simpl. rewrite Hv.
  destruct eqv; [|done]. simpl. by destruct Heq as [b ->].
Qed.

(** A header passes [check_header] exactly when its last log is a seal of
    the rest by the author of its slot, the slot is not in the future, and the
    search for equivocations, where it is made, does not fail. *)
Theorem check_header_checked slot_now h hash l eqv pre slot seal :
  zlen l ≤ 2 ^ 64 →
  check_header slot_now h hash l eqv = Ret (Ok (Checked pre slot seal)) ↔
  h = set_logs (logs pre ++ [seal]) pre ∧ slot ≤ slot_now ∧
  ∃ a, sealed_by l pre slot seal a ∧
    (eqv = EquivocationYes → ∃ b, check_equivocation slot_now slot pre a = Ok b).
Proof.
  intros Hlen. split; [apply check_header_inv|].
  intros (-> & Hle & a & Hseal & Heq). by eapply check_header_accepts.
Qed.

(** C8: a block that [verify] lets through was sealed by the author of its slot
    among the authorities at its parent, its slot is at most one ahead, its
    inherents passed their check wherever this is made (a block without a body, an
    older API and a skipped check pass), and the block to import is the one that was
    received: the same body, and its header and seal together the header whose
    hash is recorded. *)
Theorem aura_verify_sound eqv block block' :
  aura_verify eqv block = Ret (Ok block') →
  ∃ l p d slot seal a,
    authorities (header_parent (header block)) (number (header block)) = Ok l ∧
    create_inherent_data_providers (header_parent (header block)) = Ok p ∧
    create_inherent_data p = Ok d ∧
    sealed_by l (header block') slot seal a ∧ slot ≤ provider_slot p + 1 ∧
    verify_body block (header_parent (header block)) (header block') slot d p = Ok tt ∧
    header block = set_logs (logs (header block') ++ [seal]) (header block') ∧
    post_digests block' = post_digests block ++ [seal] ∧
    params_body block' = params_body block ∧
    post_hash block' = Some (header_hash (header block)).
Proof.
  unfold Aura.aura_verify. destruct (Aura.authorities _ _ _ _ _) as [l|] eqn:Hl; [|done].
  destruct (create_inherent_data_providers _) as [p|] eqn:Hp; [|done].
  destruct (create_inherent_data p) as [d|] eqn:Hd; [|done]. intros Hrun.
  apply bind_Ret_inv in Hrun as (now & Hnow & Hrun).
  apply bind_Ret_inv in Hrun as ([[pre slot seal|]|] & Hc & Hrun); [|done..].
  destruct (Aura.verify_body _ _ _ _ _ _ _ _ _ _ _) as [[]|] eqn:Hb; [|done].
  injection Hrun as <-. apply check_header_inv in Hc as (Hh & Hle & a & Hseal & _).
  exists l, p, d, slot, seal, a. simpl. split_and!; try done.
  revert Hnow. unfold add_w. pose proof (Z.mod_le (provider_slot p + 1) (2 ^ 64)).
  destruct (Z.ltb_spec (provider_slot p + 1) (2 ^ 64)); [intros [= <-]; lia|].
  destruct overflow_checks; [done|]. intros [= <-]. lia.
Qed.

(** The signatures of the keystore verify. *)
Definition keystore_signs : Prop :=
  ∀ a m raw sig, sign_with a m = Ok (Some raw) → signature_try_from raw = Some sig →
    verify_signature sig m a = true.

(** What [block_import_params] makes of a claimed slot is sealed by its author. *)
Lemma authored_sealed l slot a h rest (body : list Extrinsic) sc params :
  keystore_signs → 0 ≤ slot < 2 ^ 64 → number h ≠ 0 →
  claim_slot has_keys slot l = Ret (Some a) →
  logs h = pre_digest_data slot ++ rest → omap as_aura_pre_digest rest = [] →
  block_import_params h (header_hash h) body sc a = Ok params →
  ∃ seal, header params = h ∧ post_digests params = [seal] ∧ sealed_by l h slot seal a ∧
    as_aura_pre_digest seal = None.
Proof.
  intros Hks Hslot Hnum Hclaim Hlogs Hrest Hparams.
  unfold Aura.block_import_params in Hparams.
  destruct (sign_with a (header_hash h)) as [[raw|]|] eqn:Hsign; [|done..].
  destruct (signature_try_from raw) as [sig|] eqn:Hraw; [|done]. injection Hparams as <-.
  unfold claim_slot in Hclaim. apply bind_Ret_inv in Hclaim as ([a'|] & Ha & Hclaim); [|done].
  destruct (has_keys a'); simplify_eq. apply slot_author_inv in Ha.
  exists (aura_seal sig). split; [done|]. split; [done|].
  split; [|apply as_pre_digest_seal]. split; [|split; [done|]].
  - rewrite find_pre_digest_spec, (proj2 (Z.eqb_neq _ _)) by done.
    rewrite Hlogs, omap_app, Hrest. simpl. by rewrite as_pre_digest_pre by done.
  - exists sig. split; [apply as_seal_seal|by eapply Hks].
Qed.

(** What [verify] makes of [block], whose header is [pre] with the seal of the author [a] of
    its slot: it is imported as the header and the seal, unless the clock is more than one
    slot behind, the search for equivocations fails, or the inherents are refused. *)
Definition sealed_verdict (eqv : CheckForEquivocation)
    (block : BlockImportParams DigestItem Extrinsic) (pre : BlockHeader DigestItem)
    (seal : DigestItem) (slot : Slot) (a : AuthorityId) (p : Provider) (d : InherentData) :
    result (BlockImportParams DigestItem Extrinsic) VerifyError :=
  let slot_now := provider_slot p + 1 in
  if decide (slot_now < slot) then Err (TooFarInTheFuture (header_hash (header block)))
  else
    match (if check_for_equivocation eqv then check_equivocation slot_now slot pre a
           else Ok false) with
    | Err e => Err (VerifyAura (AuraClient e))
    | Ok _ =>
        match verify_body block (header_parent pre) pre slot d p with
        | Err e => Err e
        | Ok _ =>
            Ok {| origin := origin block; header := pre;
                  post_digests := post_digests block ++ [seal];
                  params_body := params_body block; changes := changes block;
                  finalized := finalized block; fork_choice := Some LongestChain;
                  post_hash := Some (header_hash (header block));
                  intermediate := intermediate block |}
        end
    end.

Lemma sealed_verify eqv block pre seal l slot a p d :
  zlen l ≤ 2 ^ 64 → authorities (header_parent pre) (number pre) = Ok l →
  sealed_by l pre slot seal a → header block = set_logs (logs pre ++ [seal]) pre →
  create_inherent_data_providers (header_parent pre) = Ok p → create_inherent_data p = Ok d →
  provider_slot p + 1 < 2 ^ 64 →
  aura_verify eqv block = Ret (sealed_verdict eqv block pre seal slot a p d).
Proof.
  intros Hlen Hauth (Hs & Ha & sig & Hsig & Hv) Hblock Hp Hd Hnow.
  unfold Aura.aura_verify, sealed_verdict. rewrite Hblock. cbn [set_logs number header_parent].
  rewrite Hauth, Hp, Hd. rewrite add_w_ok by lia. cbn [mbind outcome_bind].
  unfold Aura.check_header. cbn [set_logs logs].
  rewrite pop_snoc, Hsig, set_logs_set, set_logs_self, Hs.
  destruct (Z.ltb_spec (provider_slot p + 1) slot); [by rewrite decide_True by done|].
  rewrite decide_False by lia.
  destruct (slot_author_lookup slot l) as (a' & Ha' & Hl); [by intros ->|done|].
  simplify_eq. rewrite Ha'. cbn [mbind outcome_bind]. rewrite Hv.
  destruct (check_for_equivocation eqv); [destruct (check_equivocation _ _ _ _); [|done]|];
    cbn [mbind outcome_bind]; by destruct (Aura.verify_body _ _ _ _ _ _ _ _ _ _ _).
Qed.

(** A sealed header passes [verify] wherever its authorities are read and its
    inherents are acceptable, not more than one slot early. *)
Lemma sealed_verified eqv block pre seal l slot a p d :
  zlen l ≤ 2 ^ 64 → authorities (header_parent pre) (number pre) = Ok l →
  sealed_by l pre slot seal a → header block = set_logs (logs pre ++ [seal]) pre →
  create_inherent_data_providers (header_parent pre) = Ok p → create_inherent_data p = Ok d →
  slot ≤ provider_slot p + 1 < 2 ^ 64 →
  (eqv = EquivocationYes → ∃ b, check_equivocation (provider_slot p + 1) slot pre a = Ok b) →
  verify_body block (header_parent pre) pre slot d p = Ok tt →
  aura_verify eqv block =
  Ret (Ok {| origin := origin block; header := pre;
             post_digests := post_digests block ++ [seal];
             params_body := params_body block; changes := changes block;
             finalized := finalized block; fork_choice := Some LongestChain;
             post_hash := Some (header_hash (header block));
             intermediate := intermediate block |}).
Proof.
  intros Hlen Hauth Hseal Hblock Hp Hd Hnow Heq Hbody.
  rewrite (sealed_verify eqv block pre seal l slot a p d) by (done || lia).
  unfold sealed_verdict. rewrite decide_False by lia. rewrite Hbody.
  destruct eqv; [|done]. simpl. by destruct Heq as [b ->].
Qed.

(** C7: what becomes of a block that a node authored in a slot it claimed, at a node that
    reads the same authorities at the parent and can make its inherent data.  It is
    imported with the header and seal of the author, unless the clock there is more than
    one slot behind, the search for equivocations fails, or the inherents are refused:
    nothing else refuses it, and each of these has its error. *)
Theorem aura_author_verify parent l slot a h rest (body : list Extrinsic) sc params eqv block
    p d :
  keystore_signs → zlen l ≤ 2 ^ 64 → 0 ≤ slot < 2 ^ 64 →
  0 ≤ number parent → number parent + 1 < 2 ^ 32 →
  epoch_data parent = Ret (Ok l) → claim_slot has_keys slot l = Ret (Some a) →
  number h = number parent + 1 → header_parent h = header_hash parent →
  logs h = pre_digest_data slot ++ rest → omap as_aura_pre_digest rest = [] →
  block_import_params h (header_hash h) body sc a = Ok params →
  header block = post_header params →
  create_inherent_data_providers (header_hash parent) = Ok p →
  create_inherent_data p = Ok d →
  provider_slot p + 1 < 2 ^ 64 →
  header params = h ∧
  ∃ seal, post_digests params = [seal] ∧
    aura_verify eqv block = Ret (sealed_verdict eqv block h seal slot a p d).
Proof.
  intros Hks Hlen Hslot Hn Hn32 Hepoch Hclaim Hnum Hpar Hlogs Hrest Hparams Hblock Hp Hd Hnow.
  unfold Aura.epoch_data in Hepoch. rewrite add_w_ok in Hepoch by lia.
  injection Hepoch as Hauth. rewrite <-Hnum, <-Hpar in *.
  destruct (authored_sealed l slot a h rest body sc params) as (seal & Hh & Hd' & Hseal & _);
    [done || lia..|].
  split; [done|]. exists seal. split; [done|].
  unfold post_header in Hblock. rewrite Hh, Hd' in Hblock.
  by apply (sealed_verify _ _ _ _ l slot a p d).
Qed.

(** Two nodes that read the same authorities and hold no common key never
    both claim a slot. *)
Theorem claim_slot_exclusive (keys1 keys2 : AuthorityId → bool) slot l a1 a2 :
  (∀ a, keys1 a && keys2 a = false) →
  claim_slot keys1 slot l = Ret (Some a1) → claim_slot keys2 slot l ≠ Ret (Some a2).
Proof.
  intros Hdisj H1 H2. unfold claim_slot in *.
  apply bind_Ret_inv in H1 as ([b1|] & Hb1 & H1); [|done].
  apply bind_Ret_inv in H2 as ([b2|] & Hb2 & H2); [|done].
  rewrite Hb1 in Hb2. simplify_eq. specialize (Hdisj b2).
  destruct (keys1 b2), (keys2 b2); simplify_eq.
Qed.

End verification.

(** ** Witnesses *)

Module AuraExample.

(** Digest items with the slot and the signature in clear, and a signature that
    shows the signer and the message. *)
Inductive item := PreRuntime (slot : Z) | Seal (sig : Z * Z) | Other.
#[global] Instance digest : AuraDigest item (Z * Z).
Proof.
  refine {|
    as_aura_pre_digest := λ d, match d with PreRuntime s => Some s | _ => None end;
    as_aura_seal := λ d, match d with Seal s => Some s | _ => None end;
    aura_pre_digest := PreRuntime;
    aura_seal := Seal;
  |}; done.
Defined.

Definition auths : list Z := [11; 12; 13].
Definition runtime_authorities (p : H256) (n : option Z) : result (list Z) Z := Ok auths.
Definition initialize_block (p : H256) (n : Z) : result unit Z := Ok tt.
Definition hash (h : BlockHeader item) : H256 := number h * 1000 + zlen (logs h).
Definition has_keys (a : Z) : bool := a =? 12.
Definition sign_with (a : Z) (m : H256) : result (option bytes) Z :=
  if (a =? 12) && (m =? 5002) then Ok (Some [Byte.x0c]) else Ok None.
Definition to_raw_vec (a : Z) : bytes := [].
Definition try_from (b : bytes) : option (Z * Z) :=
  match b with [Byte.x0c] => Some (12, 5002) | _ => None end.
Definition verify (sig : Z * Z) (m : H256) (a : Z) : bool :=
  (sig.1 =? a) && (sig.2 =? m).
Definition equivocation (now slot : Slot) (h : BlockHeader item) (a : Z) : result bool Z :=
  Ok false.
Definition providers (p : H256) : result Z Z := Ok 100.
Definition inherent_data (p : Z) : result Z Z := Ok 0.
Definition slot (p : Z) : Slot := p.
Definition replace (d : Z) (s : Slot) : Z := s.
Definition try_handle (p : Z) (i e : Z) : option (result unit Z) := None.
Definition can_author (p : H256) : bool := true.
Definition api (p : H256) : result bool Z := Ok true.
Definition check (p : H256) (o : BlockOrigin) (b : BlockHeader item * list Z) (d : Z) :
    result (bool * list (Z * Z)) Z := Ok (d =? 100, []).

Definition parent : BlockHeader item := mkHeader 4 0 0 [].
Definition h : BlockHeader item := mkHeader 5 (hash parent) 0 [PreRuntime 100; Other].
Definition seal : item := Seal (12, 5002).
Definition params : BlockImportParams item Z :=
  mkParams OriginOwn h [seal] (Some [7]) (Some 1) false (Some LongestChain) None None.
Definition block : BlockImportParams item Z :=
  mkParams OriginNetwork (post_header params) [] (Some [7]) None false None None None.
Definition imported : BlockImportParams item Z :=
  mkParams OriginNetwork h [seal] (Some [7]) None false (Some LongestChain)
    (Some (hash (post_header params))) None.

Definition run_verify :=
  @aura_verify dev item (Z * Z) Z Z digest initialize_block runtime_authorities hash
    CompatibilityNone verify equivocation Z Z providers inherent_data slot replace
    try_handle can_author api check EquivocationYes.

Lemma sealed : sealed_by hash verify auths h 100 seal 12.
Proof. split; [done|]. split; [done|]. by exists (12, 5002). Qed.

Lemma signs : keystore_signs sign_with try_from verify.
Proof.
  intros a m raw sig. unfold sign_with.
  destruct (Z.eqb_spec a 12) as [->|]; [|done]. destruct (Z.eqb_spec m 5002) as [->|]; [|done].
  by intros [= <-] [= <-].
Qed.

End AuraExample.

Lemma slot_authors_rotate_witness :
  (λ i, slot_author (100 + Z.of_nat i) AuraExample.auths) <$> seq 0 3 =
  [Ret (Some 12); Ret (Some 13); Ret (Some 11)].
Proof. apply (slot_authors_rotate 100 AuraExample.auths); vm_compute; done. Defined.

Lemma check_header_checked_witness :
  check_header AuraExample.hash AuraExample.verify AuraExample.equivocation 101
    (set_logs (logs AuraExample.h ++ [AuraExample.seal]) AuraExample.h) 0 AuraExample.auths
    EquivocationYes = Ret (Ok (Checked AuraExample.h 100 AuraExample.seal)).
Proof.
  apply (check_header_checked AuraExample.hash AuraExample.verify AuraExample.equivocation);
    [vm_compute; done|].
  split; [reflexivity|]. split; [lia|]. exists 12. split; [apply AuraExample.sealed|].
  by exists false.
Defined.

Lemma aura_verify_sound_witness :
  ∃ slot seal a, sealed_by AuraExample.hash AuraExample.verify AuraExample.auths
    AuraExample.h slot seal a ∧ slot ≤ 101.
Proof.
  destruct (@aura_verify_sound dev AuraExample.item (Z * Z) Z Z AuraExample.digest AuraExample.initialize_block
    AuraExample.runtime_authorities AuraExample.hash CompatibilityNone AuraExample.verify
    AuraExample.equivocation Z Z AuraExample.providers AuraExample.inherent_data
    AuraExample.slot AuraExample.replace AuraExample.try_handle AuraExample.can_author
    AuraExample.api AuraExample.check EquivocationYes AuraExample.block AuraExample.imported)
    as (l & p & d & slot & seal & a & Hl & Hp & _ & Hs & Hle & _);
    [vm_compute; reflexivity|].
  injection Hl as <-. injection Hp as <-. by exists slot, seal, a.
Defined.

Lemma aura_author_verify_witness :
  AuraExample.run_verify AuraExample.block = Ret (Ok AuraExample.imported).
Proof.
  destruct (@aura_author_verify dev AuraExample.item (Z * Z) Z Z AuraExample.digest AuraExample.initialize_block
    AuraExample.runtime_authorities AuraExample.hash CompatibilityNone AuraExample.has_keys
    AuraExample.sign_with AuraExample.to_raw_vec AuraExample.try_from AuraExample.verify
    AuraExample.equivocation Z Z AuraExample.providers AuraExample.inherent_data
    AuraExample.slot AuraExample.replace AuraExample.try_handle AuraExample.can_author
    AuraExample.api AuraExample.check AuraExample.parent AuraExample.auths 100 12
    AuraExample.h [AuraExample.Other] [7] 1 AuraExample.params EquivocationYes
    AuraExample.block 100 0 AuraExample.signs) as (_ & seal & Hseal & Hv);
    [vm_compute; discriminate|lia|vm_compute; discriminate|vm_compute; reflexivity..|].
  injection Hseal as <-. etransitivity; [exact Hv|]. vm_compute. reflexivity.
Defined.

Lemma claim_slot_exclusive_witness :
  claim_slot (λ a, a =? 13) 100 AuraExample.auths ≠ Ret (Some 13).
Proof.
  apply (claim_slot_exclusive AuraExample.has_keys (λ a, a =? 13) 100 AuraExample.auths 12 13).
  - intros a. unfold AuraExample.has_keys.
    destruct (Z.eqb_spec a 12) as [->|]; [reflexivity|reflexivity].
  - vm_compute. reflexivity.
Defined.
