(* ===== verification/AuraChain.v ===== *)
(** * Chains of Aura blocks: node/consensus-transition/aura/src

    Nodes that take turns: in every slot the framework's slot worker asks the
    engine of a node to claim the slot on the head of the chain, and a node that
    can claim it authors a block.  What is true of every chain that can arise:
    its blocks are sealed by the authors of their slots, are refused only for a
    late clock, an equivocation or their inherents, and no authority authors more
    often than its turns. *)

From stdpp Require Import base tactics list sorting strings.
From Stdlib Require Import ZArith Lia Strings.Byte.
From S2P Require Import Prelude Blocks Aura AuraSpec.
Local Open Scope Z_scope.

(** ** Turns in a window *)

(** Distinct numbers of one residue in a window of [m] rounds are at most [m]. *)
Lemma residues_bound (l : list Z) t m n k :
  0 < n → NoDup l → Forall (λ s, t ≤ s < t + Z.of_nat m * n ∧ s mod n = k) l →
  (length l ≤ m)%nat.
Proof.
  intros Hn Hnd Hall.
  rewrite <-(length_fmap (λ s, Z.to_nat ((s - t) `div` n)) l), <-(length_seq m 0).
  rewrite Forall_forall in Hall.
  apply submseteq_length, NoDup_submseteq.
  - apply NoDup_fmap_2_strong; [|done]. intros s1 s2 H1 H2 Heq.
    destruct (Hall s1 H1) as [Hw1 Hk1], (Hall s2 H2) as [Hw2 Hk2].
    pose proof (Z.div_mod s1 n ltac:(lia)). pose proof (Z.div_mod s2 n ltac:(lia)).
    pose proof (Z.div_mod (s1 - t) n ltac:(lia)). pose proof (Z.div_mod (s2 - t) n ltac:(lia)).
    pose proof (Z.mod_pos_bound (s1 - t) n Hn). pose proof (Z.mod_pos_bound (s2 - t) n Hn).
    pose proof (Z.div_pos (s1 - t) n). pose proof (Z.div_pos (s2 - t) n).
    assert ((s1 - t) `div` n = (s2 - t) `div` n) by lia.
    assert (s1 `div` n = s2 `div` n) by nia. nia.
  - intros x (s & -> & Hs)%list_elem_of_fmap. destruct (Hall s Hs) as [Hw _].
    apply elem_of_seq. pose proof (Z.div_pos (s - t) n).
    pose proof (Z.div_lt_upper_bound (s - t) n (Z.of_nat m)). lia.
Qed.

Section chain.
Context `{!BuildProfile}.
Context {DigestItem Signature AuthorityId Extrinsic Node : Type}.
Context `{!AuraDigest DigestItem Signature}.
Context (initialize_block : H256 → Z → result unit Z).
Context (runtime_authorities : H256 → option Z → result (list AuthorityId) Z).
Context (header_hash : BlockHeader DigestItem → H256).
Context (mode : CompatibilityMode).
(** The keystore of each node. *)
Context (has_keys : Node → AuthorityId → bool).
Context (sign_with : Node → AuthorityId → H256 → result (option bytes) Z).
Context (to_raw_vec : AuthorityId → bytes).
Context (signature_try_from : bytes → option Signature).
Context (verify_signature : Signature → H256 → AuthorityId → bool).

Abbreviation Header := (BlockHeader DigestItem).
Abbreviation epoch_data := (epoch_data initialize_block runtime_authorities header_hash mode).
Abbreviation sealed_by := (sealed_by header_hash verify_signature).

Context (genesis : Header).

(** The head of a chain, which is given newest first and without genesis. *)
Definition tip (c : list Header) : Header := default genesis (head c).

(** The chains that can arise, with the next slot: a slot passes without a block, or
    a node claims it on the head and its block is added. *)
Inductive chain_runs : list Header → Slot → Prop :=
| runs_genesis s : 0 ≤ s → chain_runs [] s
| runs_skip c s : chain_runs c s → chain_runs c (s + 1)
| runs_author c s node auths a h rest (body : list Extrinsic) sc params :
    chain_runs c s →
    epoch_data (tip c) = Ret (Ok auths) →
    claim_slot (has_keys node) s auths = Ret (Some a) →
    number h = number (tip c) + 1 → header_parent h = header_hash (tip c) →
    logs h = pre_digest_data s ++ rest → omap as_aura_pre_digest rest = [] →
    block_import_params (sign_with node) to_raw_vec signature_try_from h (header_hash h) body
      sc a = Ok params →
    chain_runs (post_header params :: c) (s + 1).

(** The slot a header carries. *)
Definition slot_of (h : Header) : Slot :=
  match find_pre_digest h with Ok s => s | Err _ => 0 end.

(** The authorities of the block after [parent]. *)
Definition authorities_after (parent : Header) : result (list AuthorityId) ConsensusError :=
  authorities initialize_block runtime_authorities mode (header_hash parent) (number parent + 1).

(** A header that [a] has sealed, as the author of its slot among [l]. *)
Definition authored_by (l : list AuthorityId) (a : AuthorityId) (h : Header) : Prop :=
  ∃ pre seal, h = set_logs (logs pre ++ [seal]) pre ∧ sealed_by l pre (slot_of h) seal a.

(** A block on [parent], sealed by the author of its slot among the authorities after
    [parent]. *)
Definition block_on (parent h : Header) : Prop :=
  header_parent h = header_hash parent ∧ find_pre_digest h = Ok (slot_of h) ∧
  ∃ l a, authorities_after parent = Ok l ∧ authored_by l a h.

(** The invariant of a chain. *)
Record chain_inv (c : list Header) (s : Slot) : Prop := {
  inv_slot : 0 ≤ s;
  inv_blocks i h : c !! i = Some h →
    number h = zlen c - Z.of_nat i ∧ block_on (default genesis (c !! S i)) h;
  inv_slots : StronglySorted (λ h1 h2, slot_of h2 < slot_of h1) c;
  inv_past : Forall (λ h, slot_of h < s) c;
}.

(** The keystores' signatures verify. *)
Context (keystores_sign : ∀ node,
  keystore_signs (sign_with node) signature_try_from verify_signature).
Context (genesis_number : number genesis = 0).

Lemma epoch_data_after h auths :
  number h + 1 < 2 ^ 32 → epoch_data h = Ret (Ok auths) → authorities_after h = Ok auths.
Proof.
  intros Hn. unfold Aura.epoch_data, authorities_after. rewrite add_w_ok by done. simpl. congruence.
Qed.

(** The header of a sealed block carries the slot of what was sealed. *)
Lemma post_header_slot pre seal s :
  number pre ≠ 0 → find_pre_digest pre = Ok s → as_aura_pre_digest seal = None →
  find_pre_digest (set_logs (logs pre ++ [seal]) pre) = Ok s.
Proof.
  intros Hn Hs Hseal. rewrite find_pre_digest_spec in *. simpl.
  rewrite (proj2 (Z.eqb_neq _ _)) in * by done. rewrite omap_app. simpl.
  by rewrite Hseal, app_nil_r.
Qed.

Lemma tip_number c s : chain_inv c s → number (tip c) = zlen c.
Proof.
  intros Hinv. destruct c as [|h c]; [done|].
  destruct (inv_blocks _ _ Hinv 0 h eq_refl) as [Hn _]. unfold tip. simpl in *. lia.
Qed.

Lemma parent_number c s i h :
  chain_inv c s → c !! i = Some h →
  number (default genesis (c !! S i)) + 1 = zlen c - Z.of_nat i.
Proof.
  intros Hinv Hi. destruct (c !! S i) as [p|] eqn:Hp; simpl.
  - destruct (inv_blocks _ _ Hinv _ p Hp) as [Hn _]. lia.
  - apply lookup_ge_None in Hp. apply lookup_lt_Some in Hi. lia.
Qed.

Lemma chain_inv_author l c s h seal a :
  chain_inv c s → authorities_after (tip c) = Ok l →
  number h = number (tip c) + 1 → header_parent h = header_hash (tip c) →
  sealed_by l h s seal a → as_aura_pre_digest seal = None →
  chain_inv (set_logs (logs h ++ [seal]) h :: c) (s + 1).
Proof.
  intros Hinv Hauth Hnum Hpar Hsealed Hseal. pose proof (tip_number _ _ Hinv) as Htip.
  set (h' := set_logs (logs h ++ [seal]) h).
  assert (find_pre_digest h' = Ok s) as Hfind.
  { apply post_header_slot; [lia|apply Hsealed|done]. }
  assert (slot_of h' = s) as Hslot by (unfold slot_of; by rewrite Hfind).
  destruct Hinv as [Hs Hblocks Hslots Hpast]. constructor; [lia| | |].
  - intros [|i] b Hb; simpl in Hb.
    + injection Hb as <-. split; [simpl; lia|]. split; [|split].
      * simpl. rewrite Hpar. unfold tip. by rewrite head_lookup.
      * by rewrite Hslot.
      * exists l, a. split; [rewrite <-Hauth; unfold tip; by rewrite head_lookup|].
        exists h, seal. by rewrite Hslot.
    + destruct (Hblocks i b Hb) as [Hn Hon]. split; [simpl; lia|done].
  - constructor; [done|]. rewrite Hslot. done.
  - constructor; [lia|]. eapply Forall_impl; [exact Hpast|]. simpl. lia.
Qed.

Lemma chain_runs_inv c s :
  chain_runs c s → s ≤ 2 ^ 64 → zlen c < 2 ^ 32 → chain_inv c s.
Proof.
  induction 1 as [s Hs|c s Hrun IH
    |c s node auths a h rest body sc params Hrun IH Hepoch Hclaim Hnum Hpar Hlogs Hrest Hparams];
    intros Hlt Hlen.
  - constructor; [done|done|constructor|constructor].
  - destruct IH as [Hs Hblocks Hslots Hpast]; [lia|lia|]. constructor; [lia|done|done|].
    eapply Forall_impl; [exact Hpast|]. simpl. lia.
  - simpl in Hlen. specialize (IH ltac:(lia) ltac:(lia)).
    pose proof (tip_number _ _ IH) as Htip. pose proof (inv_slot _ _ IH).
    apply epoch_data_after in Hepoch; [|lia].
    destruct (authored_sealed header_hash (has_keys node) (sign_with node) to_raw_vec
      signature_try_from verify_signature auths s a h rest body sc params)
      as (seal & Hh & Hd & Hsealed & Hseal); [done || lia..|].
    unfold post_header. rewrite Hh, Hd. by eapply chain_inv_author.
Qed.

(** In a window of [m] rounds of [l], no more than [m] blocks of the chain are authored by
    one of [l]. *)
Lemma chain_inv_turns l a t m c s bs :
  chain_inv c s → NoDup l → bs `sublist_of` c →
  Forall (λ h, t ≤ slot_of h < t + Z.of_nat m * zlen l ∧ authored_by l a h) bs →
  (length bs ≤ m)%nat.
Proof.
  intros Hinv Hnd Hsub Hbs. destruct bs as [|h0 bs]; [simpl; lia|].
  assert (∀ h, authored_by l a h → l !! Z.to_nat (slot_of h mod zlen l) = Some a) as Hpos
    by (by intros h (pre & seal & _ & _ & Ha & _)).
  destruct (Forall_cons_1 _ _ _ Hbs) as [[_ Hh0] _]. pose proof (Hpos _ Hh0) as Hl0.
  assert (0 < zlen l) as Hl by (apply lookup_lt_Some in Hl0; lia).
  rewrite <-(length_fmap slot_of).
  apply (residues_bound _ t m (zlen l) (slot_of h0 mod zlen l)); [done| |].
  - eapply sublist_NoDup; [|by apply fmap_sublist].
    pose proof (inv_slots _ _ Hinv) as Hss. clear -Hss.
    induction Hss as [|h c Hss IH Hall]; csimpl; constructor; [|done].
    intros (h' & Heq & Hh')%list_elem_of_fmap. rewrite Forall_forall in Hall.
    specialize (Hall h' Hh'). simpl in Hall. lia.
  - apply Forall_fmap. eapply Forall_impl; [exact Hbs|]. intros h [Hw Hh].
    split; [done|]. pose proof (NoDup_lookup l _ _ a Hnd (Hpos _ Hh) Hl0).
    pose proof (Z.mod_pos_bound (slot_of h) (zlen l) Hl).
    pose proof (Z.mod_pos_bound (slot_of h0) (zlen l) Hl). lia.
Qed.

(** What an importing node has of its own. *)
Context (check_equivocation : Slot → Slot → Header → AuthorityId → result bool Z).
Context {Provider InherentData : Type}.
Context (create_inherent_data_providers : H256 → result Provider Z).
Context (create_inherent_data : Provider → result InherentData Z).
Context (provider_slot : Provider → Slot).
Context (aura_replace_inherent_data : InherentData → Slot → InherentData).
Context (try_handle_error : Provider → Z → Z → option (result unit Z)).
Context (can_author_with : H256 → bool).
Context (has_block_builder_api_2 : H256 → result bool Z).
Context (runtime_check_inherents :
  H256 → BlockOrigin → Header * list Extrinsic → InherentData → result (bool * list (Z * Z)) Z).

Abbreviation verify_body :=
  (verify_body aura_replace_inherent_data try_handle_error can_author_with
     has_block_builder_api_2 runtime_check_inherents).
Abbreviation aura_verify :=
  (aura_verify initialize_block runtime_authorities header_hash mode verify_signature
     check_equivocation create_inherent_data_providers create_inherent_data provider_slot
     aura_replace_inherent_data try_handle_error can_author_with has_block_builder_api_2
     runtime_check_inherents).

Abbreviation sealed_verdict :=
  (sealed_verdict header_hash check_equivocation provider_slot aura_replace_inherent_data
     try_handle_error can_author_with has_block_builder_api_2 runtime_check_inherents).

(** C26: of every chain that nodes build by claiming slots, whatever the authorities the
    runtime gives after each block: the blocks are numbered in order and linked to their
    parents, their slots increase, and each is sealed by the authority whose turn its slot
    is among those after its parent.  Of the blocks authored under one list of distinct
    authorities in a window of [m] rounds of it, no authority has more than [m].  A node
    that can make its inherent data imports every block of the chain, as its header and
    seal, unless its clock is more than one slot behind, its search for equivocations fails
    or it refuses the inherents. *)
Theorem aura_chain c s :
  chain_runs c s → s ≤ 2 ^ 64 → zlen c < 2 ^ 32 →
  chain_inv c s ∧
  (∀ l a t m bs, NoDup l → bs `sublist_of` c →
     Forall (λ h, t ≤ slot_of h < t + Z.of_nat m * zlen l ∧ authored_by l a h) bs →
     (length bs ≤ m)%nat) ∧
  (∀ i h, c !! i = Some h → ∃ l pre seal a,
     authorities_after (default genesis (c !! S i)) = Ok l ∧
     h = set_logs (logs pre ++ [seal]) pre ∧ sealed_by l pre (slot_of h) seal a ∧
     ∀ eqv block p d, zlen l ≤ 2 ^ 64 → header block = h →
       create_inherent_data_providers (header_parent h) = Ok p → create_inherent_data p = Ok d →
       provider_slot p + 1 < 2 ^ 64 →
       aura_verify eqv block = Ret (sealed_verdict eqv block pre seal (slot_of h) a p d)).
Proof.
  intros Hrun Hs Hlen. pose proof (chain_runs_inv _ _ Hrun Hs Hlen) as Hinv.
  split; [done|]. split; [intros l a t m bs; by apply chain_inv_turns with (s := s)|].
  intros i h Hi.
  destruct (inv_blocks _ _ Hinv i h Hi)
    as (Hn & Hpar & _ & l & a & Hl & pre & seal & Hh & Hseal).
  exists l, pre, seal, a. do 3 (split; [done|]).
  intros eqv block p d Hlen64 Hblock Hp Hd Hnow.
  assert (header_parent h = header_parent pre) as Hpp by (by rewrite Hh).
  apply (sealed_verify _ _ _ _ _ _ _ _ _ _ _ _ _ _ eqv block pre seal l);
    [done| |done|by rewrite Hblock|by rewrite <-Hpp|done|done].
  assert (number (default genesis (c !! S i)) + 1 = number pre) as <-.
  { replace (number pre) with (number h) by (by rewrite Hh). rewrite Hn.
    by apply (parent_number _ s _ h). }
  by rewrite <-Hpp, Hpar.
Qed.

End chain.

(** ** Witness: two nodes, two blocks with authorities of their own, and an empty slot *)

Module ChainExample.
Import AuraExample.

(** A node holds the key of its own number. *)
Definition keys (node a : Z) : bool := a =? node.
Definition sign (node a : Z) (m : H256) : result (option bytes) Z :=
  if (a =? 12) && (node =? 12) && (m =? 1001) then Ok (Some [Byte.x0c])
  else if (a =? 13) && (node =? 13) && (m =? 2001) then Ok (Some [Byte.x0d]) else Ok None.
Definition from_raw (b : bytes) : option (Z * Z) :=
  match b with [Byte.x0c] => Some (12, 1001) | [Byte.x0d] => Some (13, 2001) | _ => None end.

Definition genesis : BlockHeader item := mkHeader 0 0 0 [].
Definition h1 : BlockHeader item := mkHeader 1 (hash genesis) 0 [PreRuntime 100].
Definition block1 : BlockHeader item := set_logs [PreRuntime 100; Seal (12, 1001)] h1.
Definition h2 : BlockHeader item := mkHeader 2 (hash block1) 0 [PreRuntime 101].
Definition block2 : BlockHeader item := set_logs [PreRuntime 101; Seal (13, 2001)] h2.
(** The first block changes the authorities. *)
Definition changing (p : H256) (n : option Z) : result (list Z) Z :=
  Ok (if p =? hash genesis then [11; 12; 13] else [11; 13]).
Definition import (h : BlockHeader item) : BlockImportParams item Z :=
  mkParams OriginNetwork h [] (Some [7]) None false None None None.
Definition providers (p : H256) : result Z Z := Ok 101.
Definition check (p : H256) (o : BlockOrigin) (b : BlockHeader item * list Z) (d : Z) :
    result (bool * list (Z * Z)) Z := Ok (d =? 101, []).
Definition run_verify :=
  @aura_verify dev item (Z * Z) Z Z digest initialize_block changing hash
    CompatibilityNone verify equivocation Z Z providers inherent_data slot replace
    try_handle can_author api check EquivocationYes.

Lemma keystores node : keystore_signs (sign node) from_raw verify.
Proof.
  intros a m raw sig. unfold sign.
  destruct (Z.eqb_spec a 12) as [->|]; simpl.
  - destruct (_ =? _), (Z.eqb_spec m 1001) as [->|]; try done. by intros [= <-] [= <-].
  - destruct (Z.eqb_spec a 13) as [->|], (node =? 13), (Z.eqb_spec m 2001) as [->|]; try done.
    by intros [= <-] [= <-].
Qed.

Lemma runs :
  @chain_runs dev item (Z * Z) Z Z Z digest initialize_block changing hash
    CompatibilityNone keys sign to_raw_vec from_raw genesis [block2; block1] 103.
Proof.
  apply (runs_skip _ _ _ _ _ _ _ _ _ _ 102).
  apply (runs_author initialize_block changing hash CompatibilityNone keys sign
    to_raw_vec from_raw genesis [block1] 101 13 [11; 13] 13 h2 [] [7] 0
    (mkParams OriginOwn h2 [Seal (13, 2001)] (Some [7]) (Some 0) false (Some LongestChain)
       None None)); try reflexivity.
  apply (runs_author initialize_block changing hash CompatibilityNone keys sign
    to_raw_vec from_raw genesis [] 100 12 auths 12 h1 [] [7] 0
    (mkParams OriginOwn h1 [Seal (12, 1001)] (Some [7]) (Some 0) false (Some LongestChain)
       None None)); try reflexivity.
  by constructor.
Qed.

End ChainExample.

Lemma aura_chain_witness :
  (length [ChainExample.block1] ≤ 1)%nat ∧
  ∃ imported, ChainExample.run_verify (ChainExample.import ChainExample.block2) =
    Ret (Ok imported) ∧ header imported = ChainExample.h2.
Proof.
  destruct (@aura_chain dev AuraExample.item (Z * Z) Z Z Z AuraExample.digest
    AuraExample.initialize_block ChainExample.changing AuraExample.hash
    CompatibilityNone ChainExample.keys ChainExample.sign AuraExample.to_raw_vec
    ChainExample.from_raw AuraExample.verify ChainExample.genesis
    ChainExample.keystores eq_refl
    AuraExample.equivocation Z Z ChainExample.providers AuraExample.inherent_data
    AuraExample.slot AuraExample.replace AuraExample.try_handle AuraExample.can_author
    AuraExample.api ChainExample.check _ _ ChainExample.runs) as (_ & Hturns & Hver);
    [lia|vm_compute; reflexivity|].
  split.
  { apply (Hturns AuraExample.auths 12 99 1%nat);
      [by apply (bool_decide_unpack _)|by apply sublist_cons|].
    repeat constructor; [vm_compute; discriminate..|].
    exists ChainExample.h1, (AuraExample.Seal (12, 1001)). split; [reflexivity|].
    split; [reflexivity|]. split; [reflexivity|]. by exists (12, 1001). }
  destruct (Hver 0%nat ChainExample.block2 eq_refl)
    as (l & pre & seal & a & Hl & Hh & Hsealed & Hpre).
  destruct pre as [n q x lg]. injection Hh as <- <- <- Hlg.
  apply (app_inj_tail [AuraExample.PreRuntime 101]) in Hlg as [<- <-].
  injection Hl as <-. destruct Hsealed as (_ & Ha & _). injection Ha as <-.
  eexists. split; [etransitivity; [apply (Hpre EquivocationYes
    (ChainExample.import ChainExample.block2) 101 0); [vm_compute; discriminate|reflexivity..]
    |vm_compute; reflexivity]|reflexivity].
Defined.
