(* ===== verification/AuraNode.v ===== *)
(** * The Aura engine in a node: aura/src/lib.rs, aura/src/import_queue.rs, cli/src/service.rs

    How a node puts the engine of Aura.v together: the worker and what the framework calls
    of it, the verifier and the import queue, and the parameters the service starts both
    with.  The theorem composes them: what the worker of one node authors the import queue
    of another accepts.  The framework's slot worker, queue, client, keystore and clock are
    parameters. *)

From stdpp Require Import base tactics list strings.
From Stdlib Require Import ZArith Lia Floats.SpecFloat Strings.Byte.
From S2P Require Import Prelude Blocks Aura AuraSpec.
Local Open Scope Z_scope.

(** [Default] of the two settings *)
Definition CompatibilityMode_default : CompatibilityMode := CompatibilityNone.
Definition CheckForEquivocation_default : CheckForEquivocation := EquivocationYes.

Inductive SlotLenienceType := Exponential.

Section node.
Context `{!BuildProfile}.
Context {DigestItem Signature AuthorityId Extrinsic InherentData : Type}.
Context `{!AuraDigest DigestItem Signature}.

Abbreviation Header := (BlockHeader DigestItem).
Abbreviation ImportParams := (BlockImportParams DigestItem Extrinsic).

(** The framework's objects the engine only passes on. *)
Context {SelectChain BlockImport JustificationImport ProposerFactory Proposer Network
         Telemetry Spawner Registry SlotProportion : Type}.

(** What is used of the client: the best block, the last finalized number, the runtime API
    at a block (the authorities possibly after [initialize_block]), the version check of its
    executor, and the search for equivocations in its auxiliary store. *)
Record Client := mkClient {
  best_hash : H256;
  finalized_number : Z;
  api_initialize_block : H256 → Z → result unit Z;
  api_authorities : H256 → option Z → result (list AuthorityId) Z;
  api_slot_duration : H256 → result Z Z;
  api_has_block_builder_2 : H256 → result bool Z;
  api_check_inherents : H256 → BlockOrigin → Header * list Extrinsic → InherentData →
                        result (bool * list (Z * Z)) Z;
  native_version : H256 → bool;
  aux_check_equivocation : Slot → Slot → Header → AuthorityId → result bool Z;
}.

Record Keystore := mkKeystore {
  keystore_has_keys : AuthorityId → bool;
  keystore_sign_with : AuthorityId → H256 → result (option bytes) Z;
}.

(** The providers of the service: the timestamp, the slot, the dynamic fee. *)
Record Providers := mkProviders { timestamp : Z; slot : Slot; dynamic_fee : Z }.

Abbreviation BackoffStrategy := (Z → Slot → Z → Slot → bool).

(** [create_inherent_data_providers]: called at a time, on a parent. *)
Abbreviation CreateProviders := (Z → H256 → result Providers Z).

(** [slot_duration]. *)
Definition slot_duration (client : Client) : result Z Z :=
  api_slot_duration client (best_hash client).

(** ** The worker: lib.rs *)

Record AuraWorker := mkAuraWorker {
  w_client : Client;
  w_block_import : BlockImport;
  w_env : ProposerFactory;
  w_keystore : Keystore;
  w_sync_oracle : Network;
  w_justification_sync_link : Network;
  w_force_authoring : bool;
  w_backoff_authoring_blocks : option BackoffStrategy;
  w_block_proposal_slot_portion : SlotProportion;
  w_max_block_proposal_slot_portion : option SlotProportion;
  w_telemetry : option Telemetry;
  w_compatibility_mode : CompatibilityMode;
}.

Record BuildAuraWorkerParams := mkBuildAuraWorkerParams {
  b_client : Client;
  b_block_import : BlockImport;
  b_proposer_factory : ProposerFactory;
  b_sync_oracle : Network;
  b_justification_sync_link : Network;
  b_force_authoring : bool;
  b_backoff_authoring_blocks : option BackoffStrategy;
  b_keystore : Keystore;
  b_block_proposal_slot_portion : SlotProportion;
  b_max_block_proposal_slot_portion : option SlotProportion;
  b_telemetry : option Telemetry;
  b_compatibility_mode : CompatibilityMode;
}.

Definition build_aura_worker (p : BuildAuraWorkerParams) : AuraWorker := {|
  w_client := b_client p;
  w_block_import := b_block_import p;
  w_env := b_proposer_factory p;
  w_keystore := b_keystore p;
  w_sync_oracle := b_sync_oracle p;
  w_justification_sync_link := b_justification_sync_link p;
  w_force_authoring := b_force_authoring p;
  w_backoff_authoring_blocks := b_backoff_authoring_blocks p;
  w_telemetry := b_telemetry p;
  w_block_proposal_slot_portion := b_block_proposal_slot_portion p;
  w_max_block_proposal_slot_portion := b_max_block_proposal_slot_portion p;
  w_compatibility_mode := b_compatibility_mode p;
|}.

Record StartAuraParams := mkStartAuraParams {
  s_slot_duration : Z;
  s_client : Client;
  s_select_chain : SelectChain;
  s_block_import : BlockImport;
  s_proposer_factory : ProposerFactory;
  s_sync_oracle : Network;
  s_justification_sync_link : Network;
  s_create_inherent_data_providers : CreateProviders;
  s_force_authoring : bool;
  s_backoff_authoring_blocks : option BackoffStrategy;
  s_keystore : Keystore;
  s_can_author_with : H256 → bool;
  s_block_proposal_slot_portion : SlotProportion;
  s_max_block_proposal_slot_portion : option SlotProportion;
  s_telemetry : option Telemetry;
  s_compatibility_mode : CompatibilityMode;
}.

(** The arguments of the framework's [start_slot_worker]. *)
Record SlotWorkerTask := mkSlotWorkerTask {
  task_slot_duration : Z;
  task_select_chain : SelectChain;
  task_worker : AuraWorker;
  task_sync_oracle : Network;
  task_create_inherent_data_providers : CreateProviders;
  task_can_author_with : H256 → bool;
}.

(** The error type is the framework's; none is returned. *)
Definition start_aura (p : StartAuraParams) : result SlotWorkerTask ConsensusError :=
  let worker := build_aura_worker {|
    b_client := s_client p;
    b_block_import := s_block_import p;
    b_proposer_factory := s_proposer_factory p;
    b_keystore := s_keystore p;
    b_sync_oracle := s_sync_oracle p;
    b_justification_sync_link := s_justification_sync_link p;
    b_force_authoring := s_force_authoring p;
    b_backoff_authoring_blocks := s_backoff_authoring_blocks p;
    b_telemetry := s_telemetry p;
    b_block_proposal_slot_portion := s_block_proposal_slot_portion p;
    b_max_block_proposal_slot_portion := s_max_block_proposal_slot_portion p;
    b_compatibility_mode := s_compatibility_mode p;
  |} in
  Ok {|
    task_slot_duration := s_slot_duration p;
    task_select_chain := s_select_chain p;
    task_worker := worker;
    task_sync_oracle := s_sync_oracle p;
    task_create_inherent_data_providers := s_create_inherent_data_providers p;
    task_can_author_with := s_can_author_with p;
  |}.

(** The signature scheme, the hash of headers, the proposers of a factory, and the
    framework's computation of the time that is left for a proposal. *)
Context (header_hash : Header → H256).
Context (to_raw_vec : AuthorityId → bytes).
Context (signature_try_from : bytes → option Signature).
Context (verify_signature : Signature → H256 → AuthorityId → bool).
Context (proposer_init : ProposerFactory → Header → result Proposer Z).
Context {SlotInfo : Type} (chain_head : SlotInfo → Header).
Context (remaining_duration : option Slot → SlotInfo → SlotProportion → option SlotProportion →
                              SlotLenienceType → Z).

(** The hooks the framework's slot worker calls ([SimpleSlotWorker]); the error of a
    proposer is that of the factory, shown. *)
Record SimpleSlotWorker := mkSimpleSlotWorker {
  logging_target : string;
  hook_block_import : BlockImport;
  hook_epoch_data : Header → Slot → outcome (result (list AuthorityId) ConsensusError);
  hook_authorities_len : list AuthorityId → option Z;
  hook_claim_slot : Header → Slot → list AuthorityId → outcome (option AuthorityId);
  hook_pre_digest_data : Slot → AuthorityId → list DigestItem;
  hook_block_import_params : Header → H256 → list Extrinsic → Z → AuthorityId →
    list AuthorityId → result ImportParams ConsensusError;
  hook_force_authoring : bool;
  hook_should_backoff : Slot → Header → bool;
  hook_sync_oracle : Network;
  hook_justification_sync_link : Network;
  hook_proposer : Header → result Proposer Z;
  hook_telemetry : option Telemetry;
  hook_proposing_remaining_duration : SlotInfo → Z;
}.

(** The time left for a proposal; a parent without a slot counts as none. *)
Definition proposing_remaining_duration (w : AuraWorker) (slot_info : SlotInfo) : Z :=
  let parent_slot :=
    match find_pre_digest (chain_head slot_info) with Ok s => Some s | Err _ => None end in
  remaining_duration parent_slot slot_info (w_block_proposal_slot_portion w)
    (w_max_block_proposal_slot_portion w) Exponential.

(** [impl SimpleSlotWorker for AuraWorker] *)
Definition AuraWorker_hooks (w : AuraWorker) : SimpleSlotWorker := {|
  logging_target := "aura";
  hook_block_import := w_block_import w;
  hook_epoch_data h _ :=
    epoch_data (api_initialize_block (w_client w)) (api_authorities (w_client w)) header_hash
      (w_compatibility_mode w) h;
  hook_authorities_len epoch_data := Some (zlen epoch_data);
  hook_claim_slot _ slot epoch_data :=
    claim_slot (keystore_has_keys (w_keystore w)) slot epoch_data;
  hook_pre_digest_data slot _ := pre_digest_data slot;
  hook_block_import_params h hash body storage_changes public _ :=
    block_import_params (keystore_sign_with (w_keystore w)) to_raw_vec signature_try_from
      h hash body storage_changes public;
  hook_force_authoring := w_force_authoring w;
  hook_should_backoff slot chain_head :=
    should_backoff (w_backoff_authoring_blocks w) (finalized_number (w_client w)) slot chain_head;
  hook_sync_oracle := w_sync_oracle w;
  hook_justification_sync_link := w_justification_sync_link w;
  hook_proposer block := proposer_init (w_env w) block;
  hook_telemetry := w_telemetry w;
  hook_proposing_remaining_duration := proposing_remaining_duration w;
|}.

(** ** The verifier and the queue: import_queue.rs *)

Record AuraVerifier := mkAuraVerifier {
  v_client : Client;
  v_create_inherent_data_providers : CreateProviders;
  v_can_author_with : H256 → bool;
  v_check_for_equivocation : CheckForEquivocation;
  v_telemetry : option Telemetry;
  v_compatibility_mode : CompatibilityMode;
}.

Record BuildVerifierParams := mkBuildVerifierParams {
  bv_client : Client;
  bv_create_inherent_data_providers : CreateProviders;
  bv_can_author_with : H256 → bool;
  bv_check_for_equivocation : CheckForEquivocation;
  bv_telemetry : option Telemetry;
  bv_compatibility_mode : CompatibilityMode;
}.

(** [AuraVerifier::new] has the fields as its arguments. *)
Definition build_verifier (p : BuildVerifierParams) : AuraVerifier :=
  mkAuraVerifier (bv_client p) (bv_create_inherent_data_providers p) (bv_can_author_with p)
    (bv_check_for_equivocation p) (bv_telemetry p) (bv_compatibility_mode p).

Record ImportQueueParams := mkImportQueueParams {
  q_block_import : BlockImport;
  q_justification_import : option JustificationImport;
  q_client : Client;
  q_create_inherent_data_providers : CreateProviders;
  q_spawner : Spawner;
  q_registry : option Registry;
  q_can_author_with : H256 → bool;
  q_check_for_equivocation : CheckForEquivocation;
  q_telemetry : option Telemetry;
  q_compatibility_mode : CompatibilityMode;
}.

(** The arguments of the framework's [BasicQueue::new]. *)
Record BasicQueue := mkBasicQueue {
  queue_verifier : AuraVerifier;
  queue_block_import : BlockImport;
  queue_justification_import : option JustificationImport;
  queue_spawner : Spawner;
  queue_registry : option Registry;
}.

Definition import_queue (p : ImportQueueParams) : result BasicQueue ConsensusError :=
  let verifier := build_verifier {|
    bv_client := q_client p;
    bv_create_inherent_data_providers := q_create_inherent_data_providers p;
    bv_can_author_with := q_can_author_with p;
    bv_check_for_equivocation := q_check_for_equivocation p;
    bv_telemetry := q_telemetry p;
    bv_compatibility_mode := q_compatibility_mode p;
  |} in
  Ok (mkBasicQueue verifier (q_block_import p) (q_justification_import p) (q_spawner p)
        (q_registry p)).

(** The inherent data the framework's providers make, the slot put into it, and their
    handling of an error. *)
Context (create_inherent_data : Providers → result InherentData Z).
Context (aura_replace_inherent_data : InherentData → Slot → InherentData).
Context (try_handle_error : Providers → Z → Z → option (result unit Z)).

(** [verify] of a verifier, called at a time. *)
Definition AuraVerifier_verify (v : AuraVerifier) (now : Z) (block : ImportParams) :
    outcome (result ImportParams VerifyError) :=
  aura_verify (api_initialize_block (v_client v)) (api_authorities (v_client v)) header_hash
    (v_compatibility_mode v) verify_signature (aux_check_equivocation (v_client v))
    (v_create_inherent_data_providers v now) create_inherent_data slot
    aura_replace_inherent_data try_handle_error (v_can_author_with v) (api_has_block_builder_2 (v_client v))
    (api_check_inherents (v_client v)) (v_check_for_equivocation v) block.

(** ** The service: service.rs *)

(** [from_timestamp_and_slot_duration] and [SlotProportion::new] of the framework *)
Context (from_timestamp : Z → Z → Slot).
Context (SlotProportion_new : spec_float → SlotProportion).

(** What the service has when it builds the queue and starts the authoring; [network] is
    both the oracle of the synchronisation and the link for justifications. *)
Record NodeParts := mkNodeParts {
  np_client : Client;
  np_keystore : Keystore;
  np_select_chain : SelectChain;
  np_block_import : BlockImport;
  np_justification_import : JustificationImport;
  np_proposer_factory : ProposerFactory;
  np_network : Network;
  np_spawner : Spawner;
  np_registry : option Registry;
  np_telemetry : option Telemetry;
  np_force_authoring : bool;
  np_target_gas_price : Z;
}.

Inductive ServiceError := ServiceClient (e : Z) | ServiceConsensus (e : ConsensusError).

(** The closure that makes the providers, on every parent alike *)
Definition inherent_data_providers (duration target_gas_price : Z) : CreateProviders :=
  λ now _, Ok (mkProviders now (from_timestamp now duration) target_gas_price).

(** The compatibility mode, by the feature [beresheet-runtime]. *)
Definition service_compatibility_mode (beresheet : bool) : CompatibilityMode :=
  UseInitializeBlock (if beresheet then 8888 else 14555555).

(** The import queue of [new_partial]. *)
Definition service_import_queue (beresheet : bool) (n : NodeParts) :
    result BasicQueue ServiceError :=
  match slot_duration (np_client n) with
  | Err e => Err (ServiceClient e)
  | Ok duration =>
      match import_queue {|
        q_block_import := np_block_import n;
        q_justification_import := Some (np_justification_import n);
        q_client := np_client n;
        q_create_inherent_data_providers :=
          inherent_data_providers duration (np_target_gas_price n);
        q_spawner := np_spawner n;
        q_registry := np_registry n;
        q_can_author_with := native_version (np_client n);
        q_check_for_equivocation := CheckForEquivocation_default;
        q_telemetry := np_telemetry n;
        q_compatibility_mode := service_compatibility_mode beresheet;
      |} with
      | Ok queue => Ok queue
      | Err e => Err (ServiceConsensus e)
      end
  end.

(** [2f32 / 3f32] *)
Definition two_thirds : spec_float :=
  SFdiv 24 128 (binary_normalize 24 128 2 0 false) (binary_normalize 24 128 3 0 false).

(** The block of [new_full_base] that starts the authoring. *)
Definition service_start_aura (beresheet : bool) (n : NodeParts) :
    result SlotWorkerTask ServiceError :=
  match slot_duration (np_client n) with
  | Err e => Err (ServiceClient e)
  | Ok duration =>
      match start_aura {|
        s_slot_duration := duration;
        s_client := np_client n;
        s_select_chain := np_select_chain n;
        s_block_import := np_block_import n;
        s_proposer_factory := np_proposer_factory n;
        s_sync_oracle := np_network n;
        s_justification_sync_link := np_network n;
        s_create_inherent_data_providers :=
          inherent_data_providers duration (np_target_gas_price n);
        s_force_authoring := np_force_authoring n;
        s_backoff_authoring_blocks := None;
        s_keystore := np_keystore n;
        s_can_author_with := native_version (np_client n);
        s_block_proposal_slot_portion := SlotProportion_new two_thirds;
        s_max_block_proposal_slot_portion := None;
        s_telemetry := np_telemetry n;
        s_compatibility_mode := service_compatibility_mode beresheet;
      |} with
      | Ok task => Ok task
      | Err e => Err (ServiceConsensus e)
      end
  end.

(** ** What a node authors, another imports *)

(** A block made in [s] on [parent] through the hooks: the epoch's authorities, the claim,
    the pre-digest first among the logs, and the seal. *)
Definition authored (w : SimpleSlotWorker) (parent : Header) (s : Slot) (h : Header)
    (l : list AuthorityId) (a : AuthorityId) (params : ImportParams) : Prop :=
  hook_epoch_data w parent s = Ret (Ok l) ∧ hook_claim_slot w parent s l = Ret (Some a) ∧
  number h = number parent + 1 ∧ header_parent h = header_hash parent ∧
  (∃ rest, logs h = hook_pre_digest_data w s a ++ rest ∧ omap as_aura_pre_digest rest = []) ∧
  ∃ body changes, hook_block_import_params w h (header_hash h) body changes a l = Ok params.

(** Two clients that run the same blocks agree on what [initialize_block] and the runtime
    answer at a block. *)
Definition same_runtime_at (c1 c2 : Client) (hash : H256) : Prop :=
  (∀ n, api_initialize_block c1 hash n = api_initialize_block c2 hash n) ∧
  ∀ ctx, api_authorities c1 hash ctx = api_authorities c2 hash ctx.

(** A node's own checks of a block pass: the search for equivocations, and the inherents
    with the slot of the block. *)
Definition checks_pass (n : NodeParts) (now : Z) (d : Z) (block : ImportParams) (h : Header)
    (s : Slot) (a : AuthorityId) : Prop :=
  (∃ b, aux_check_equivocation (np_client n) (from_timestamp now d + 1) s h a = Ok b) ∧
  (∃ data, create_inherent_data (mkProviders now (from_timestamp now d) (np_target_gas_price n))
           = Ok data ∧
     (params_body block = None ∨
      ∃ body, params_body block = Some body ∧
        api_has_block_builder_2 (np_client n) (header_parent h) = Ok true ∧
        api_check_inherents (np_client n) (header_parent h) (origin block) (h, body)
          (aura_replace_inherent_data data s) = Ok (true, []))).

Lemma authorities_same c1 c2 mode hash n :
  same_runtime_at c1 c2 hash →
  authorities (api_initialize_block c1) (api_authorities c1) mode hash n =
  authorities (api_initialize_block c2) (api_authorities c2) mode hash n.
Proof.
  intros [Hi Ha]. unfold authorities. destruct mode; [by rewrite Ha|].
  rewrite Hi. destruct (_ <? _); [destruct (api_initialize_block c2 _ _)|]; simpl;
    rewrite ?Ha; done.
Qed.

Lemma checks_pass_body n now d block h s a data :
  (params_body block = None ∨
   ∃ body, params_body block = Some body ∧
     api_has_block_builder_2 (np_client n) (header_parent h) = Ok true ∧
     api_check_inherents (np_client n) (header_parent h) (origin block) (h, body)
       (aura_replace_inherent_data data s) = Ok (true, [])) →
  verify_body aura_replace_inherent_data try_handle_error (native_version (np_client n))
    (api_has_block_builder_2 (np_client n)) (api_check_inherents (np_client n)) block
    (header_parent h) h s data (mkProviders now d a) = Ok tt.
Proof.
  unfold verify_body, check_inherents. intros [->|(body & -> & -> & Hc)]; [done|].
  destruct (native_version _ _); [|done]. by rewrite Hc.
Qed.

(** [Slot::from_timestamp] divides. *)
Context (from_timestamp_div : ∀ t d, 0 < d → from_timestamp t d = t `div` d).

Lemma drift tA tB d : 2 ≤ d → 0 ≤ tB < 2 ^ 64 → tA ≤ tB + d →
  from_timestamp tA d ≤ from_timestamp tB d + 1 < 2 ^ 64.
Proof.
  intros Hd HtB HtA. rewrite !from_timestamp_div by lia.
  pose proof (Z.div_le_mono tA (tB + 1 * d) d ltac:(lia) ltac:(lia)) as Hm.
  rewrite Z.div_add in Hm by lia.
  pose proof (Z.div_le_mono tB (2 ^ 64 - 1) d ltac:(lia) ltac:(lia)).
  pose proof (Z.div_le_compat_l (2 ^ 64 - 1) 2 d ltac:(lia) ltac:(lia)).
  assert ((2 ^ 64 - 1) `div` 2 = 9223372036854775807) by reflexivity. lia.
Qed.

(** C16: two nodes of the same build, both of whose runtimes have the slot duration [d], start
    their worker and their import queue.  The worker never backs off.  A block that the
    worker of the first authors in its slot is verified by the queue of the second, as the
    author's header and seal, when the second node's runtime gives the same answers at the
    parent, its clock is not behind by more than a slot, and its own checks of the inherents
    and for equivocations pass; the compatibility mode of the two sides is the same on
    either network. *)
Theorem node_blocks_accepted beresheet A B d :
  slot_duration (np_client A) = Ok d → slot_duration (np_client B) = Ok d → 2 ≤ d →
  keystore_signs (keystore_sign_with (np_keystore A)) signature_try_from verify_signature →
  ∃ task queue, service_start_aura beresheet A = Ok task ∧
    service_import_queue beresheet B = Ok queue ∧
    let w := AuraWorker_hooks (task_worker task) in
    (∀ s head, hook_should_backoff w s head = false) ∧
    ∀ parent tA tB h l a params block,
      same_runtime_at (np_client A) (np_client B) (header_hash parent) →
      0 ≤ number parent → number parent + 1 < 2 ^ 32 → zlen l ≤ 2 ^ 64 →
      0 ≤ tA < 2 ^ 64 → 0 ≤ tB < 2 ^ 64 → tA ≤ tB + d →
      authored w parent (from_timestamp tA d) h l a params →
      header block = post_header params → post_digests block = [] →
      checks_pass B tB d block h (from_timestamp tA d) a →
      ∃ imported, AuraVerifier_verify (queue_verifier queue) tB block = Ret (Ok imported) ∧
        header imported = h ∧ post_header imported = header block ∧
        params_body imported = params_body block.
Proof.
  intros HdA HdB Hd Hks. unfold service_start_aura, service_import_queue. rewrite HdA, HdB.
  do 2 eexists. split; [reflexivity|]. split; [reflexivity|]. split; [done|].
  intros parent tA tB h l a params block Hsame Hn Hn32 Hlen HtA HtB Hdrift
    (Hepoch & Hclaim & Hnum & Hpar & (rest & Hlogs & Hrest) & body & changes & Hparams)
    Hblock Hpost ([b Heq] & data & Hdata & Hbody).
  cbn -[Z.pow] in Hepoch, Hclaim, Hlogs, Hparams. unfold epoch_data in Hepoch.
  rewrite add_w_ok in Hepoch by lia. injection Hepoch as Hauth.
  pose proof (drift tA tB d Hd HtB Hdrift) as Hnow.
  assert (0 ≤ from_timestamp tA d) as H0.
  { rewrite from_timestamp_div by lia. apply Z.div_pos; lia. }
  destruct (authored_sealed header_hash (keystore_has_keys (np_keystore A))
    (keystore_sign_with (np_keystore A)) to_raw_vec signature_try_from verify_signature l
    (from_timestamp tA d) a h rest body changes params)
    as (seal & Hh & Hds & Hseal & _); [done || lia..|].
  unfold post_header in Hblock. rewrite Hh, Hds in Hblock.
  unfold AuraVerifier_verify. cbn [queue_verifier].
  eexists. split; [|split; [|split]].
  - eapply (sealed_verified _ _ _ _ _ _ _ _ _ _ _ _ _ _ _ block h seal l _ a); try done.
    + rewrite Hpar, Hnum, <-Hauth. symmetry. apply (authorities_same _ _ _ _ _ Hsame).
    + intros _. by exists b.
    + by apply checks_pass_body.
  - done.
  - unfold post_header. simpl. by rewrite Hpost, Hblock.
  - done.
Qed.

End node.

(** ** Witness: a node of the test network imports a block of another, 2.9 seconds late *)

Module NodeExample.
Import AuraExample.

Abbreviation client := (@Client item Z Z Z).
Definition node_client (best : H256) : client := {|
  best_hash := best;
  finalized_number := 0;
  api_initialize_block := initialize_block;
  api_authorities := runtime_authorities;
  api_slot_duration _ := Ok 6000;
  api_has_block_builder_2 := api;
  api_check_inherents := check;
  native_version := can_author;
  aux_check_equivocation := equivocation;
|}.
Definition keystore : @Keystore Z := mkKeystore has_keys sign_with.
Definition node (best : H256) (k : @Keystore Z) :=
  mkNodeParts (node_client best) k tt tt tt tt tt tt (@None unit) (@None unit) false 1.
Definition create_data (p : Providers) : result Z Z := Ok 0.
Definition handle (p : Providers) (i e : Z) : option (result unit Z) := None.

End NodeExample.

Lemma node_blocks_accepted_witness :
  ∃ queue imported,
    service_import_queue Z.div true
      (NodeExample.node 3 (mkKeystore (λ _, false) AuraExample.sign_with)) = Ok queue ∧
    @AuraVerifier_verify dev AuraExample.item (Z * Z) Z Z Z AuraExample.digest unit
      AuraExample.hash AuraExample.verify NodeExample.create_data AuraExample.replace
      NodeExample.handle (queue_verifier queue) 597100 AuraExample.block = Ret (Ok imported) ∧
    header imported = AuraExample.h.
Proof.
  destruct (@node_blocks_accepted dev AuraExample.item (Z * Z) Z Z Z AuraExample.digest
    unit unit unit unit unit unit unit unit unit spec_float AuraExample.hash
    AuraExample.to_raw_vec AuraExample.try_from AuraExample.verify (λ _ _, Ok tt) unit
    (λ _, AuraExample.parent) (λ _ _ _ _ _, 0) NodeExample.create_data AuraExample.replace
    NodeExample.handle Z.div (λ f, f) ltac:(done) true
    (NodeExample.node 4 NodeExample.keystore)
    (NodeExample.node 3 (mkKeystore (λ _, false) AuraExample.sign_with)) 6000)
    as (task & queue & Htask & Hqueue & _ & Himport);
    [reflexivity|reflexivity|lia|apply AuraExample.signs|].
  destruct (Himport AuraExample.parent 600000 597100 AuraExample.h AuraExample.auths 12
    AuraExample.params AuraExample.block) as (imported & Hv & Hh & _);
    [by split|done..| |reflexivity|reflexivity| |].
  - injection Htask as <-. do 4 (split; [reflexivity|]).
    split; [by exists [AuraExample.Other]|].
    by exists [7], 1.
  - split; [by exists false|]. exists 0. split; [reflexivity|]. right. by exists [7].
  - by exists queue, imported.
Defined.
