(* ===== verification/ManualSeal.v ===== *)
(** * The manual seal engine: node/consensus-transition/manual-seal/src

    The commands of the engine and their answers over RPC (rpc.rs, error.rs), the
    sealing and finalizing of blocks (seal_block.rs, finalize_block.rs), the loop
    of the engine (lib.rs), and the providers of Aura digests and of mocked
    timestamps (consensus/aura.rs, consensus/timestamp.rs).

    The chain, the transaction pool and the providers are the state [W] of the
    world the engine runs in, with the calls the engine makes as parameters. *)

From stdpp Require Import base tactics list strings.
From Stdlib Require Import ZArith Lia Strings.Byte.
From S2P Require Import Prelude Blocks Aura.
Local Open Scope Z_scope.

(** ** Errors: error.rs *)

Inductive ImportResult :=
| Imported (aux : Z)
| AlreadyInChain
| KnownBad
| UnknownParent
| MissingState.

Inductive SealError :=
| BlockImportError (r : ImportResult)
| EmptyTransactionPool
| SealConsensusError (e : Z)
| SealInherentError (e : Z)
| BlockchainError (e : Z)
| BlockNotFound (h : H256)
| StringError (e : Z)
| Canceled
| SendError
| OtherError (e : Z).

(** [Error::to_code]. *)
Definition to_code (e : SealError) : Z :=
  match e with
  | BlockImportError _ => 11000
  | BlockNotFound _ => 13000
  | EmptyTransactionPool => 12000
  | SealConsensusError _ => 14000
  | SealInherentError _ => 15000
  | BlockchainError _ => 16000
  | SendError | Canceled => 10000
  | _ => 20000
  end.

(** ** Commands: rpc.rs *)

Record CreatedBlock := mkCreatedBlock { created_hash : H256; created_aux : Z }.

(** A sender is a channel, or none for instant seal. *)
Inductive EngineCommand :=
| SealNewBlock (create_empty finalize : bool) (parent_hash : option H256) (sender : option Z)
| FinalizeBlock (hash : H256) (sender : option Z) (justification : option bytes).

Definition MANUAL_SEAL_ENGINE_ID : bytes := bytes_of "manl".
Definition MAX_PROPOSAL_DURATION : Z := 10.

Section engine.
Context {DigestItem Extrinsic : Type}.

(** What the engine does to the outside. *)
Inductive SealEffect :=
| ImportBlock (params : BlockImportParams DigestItem Extrinsic)
| Finalize (hash : H256) (justification : option (bytes * bytes))
| AnswerBlock (sender : Z) (r : result CreatedBlock SealError)
| AnswerFinalize (sender : Z) (r : result unit SealError).

(** [send_result]: without a sender the result is logged. *)
Definition send_result {T} (answer : Z → result T SealError → SealEffect)
    (sender : option Z) (r : result T SealError) : list SealEffect :=
  match sender with
  | Some sender => [answer sender r]
  | None => []
  end.

Context {W Provider InherentData Proposer : Type}.
Context (header_hash : BlockHeader DigestItem → H256).
Context (pool_ready : W → Z).
Context (client_header : W → H256 → result (option (BlockHeader DigestItem)) Z).
Context (best_chain : W → result (BlockHeader DigestItem) Z).
Context (create_inherent_data_providers : W → H256 → result Provider Z).
Context (create_inherent_data : W → Provider → W * result InherentData Z).
Context (inherents_len : InherentData → Z).
Context (env_init : W → BlockHeader DigestItem → result Proposer Z).
(** A proposal: a header, its extrinsics and its storage changes. *)
Context (propose : W → Proposer → InherentData → list DigestItem → Z →
  result (BlockHeader DigestItem * list Extrinsic * Z) Z).
Context (import_block : W → BlockImportParams DigestItem Extrinsic →
  W * result ImportResult Z).
Context (finalizer : W → H256 → option (bytes * bytes) → W * result unit Z).

(** [ConsensusDataProvider]; the providers may change their own state. *)
Record ConsensusDataProvider := mkDataProvider {
  create_digest : W → BlockHeader DigestItem → InherentData →
    outcome (W * result (list DigestItem) SealError);
  append_block_import : W → BlockHeader DigestItem →
    BlockImportParams DigestItem Extrinsic → InherentData →
    outcome (W * result (BlockImportParams DigestItem Extrinsic) SealError);
}.

Context (digest_provider : option ConsensusDataProvider).

(** The header to build on. *)
Definition seal_parent (w : W) (parent_hash : option H256) :
    result (BlockHeader DigestItem) SealError :=
  match parent_hash with
  | Some hash =>
      match client_header w hash with
      | Err e => Err (BlockchainError e)
      | Ok None => Err (BlockNotFound hash)
      | Ok (Some h) => Ok h
      end
  | None =>
      match best_chain w with
      | Err e => Err (SealConsensusError e)
      | Ok h => Ok h
      end
  end.

Definition seal_digest (w : W) (parent : BlockHeader DigestItem) (d : InherentData) :
    outcome (W * result (list DigestItem) SealError) :=
  match digest_provider with
  | Some dp => create_digest dp w parent d
  | None => Ret (w, Ok [])
  end.

Definition seal_append (w : W) (parent : BlockHeader DigestItem)
    (params : BlockImportParams DigestItem Extrinsic) (d : InherentData) :
    outcome (W * result (BlockImportParams DigestItem Extrinsic) SealError) :=
  match digest_provider with
  | Some dp => append_block_import dp w parent params d
  | None => Ret (w, Ok params)
  end.

(** The import of a proposal by [seal_block]. *)
Definition seal_import (w : W) (finalize : bool) (parent : BlockHeader DigestItem)
    (d : InherentData) (h : BlockHeader DigestItem) (body : list Extrinsic) (sc : Z) :
    outcome (W * list SealEffect * result CreatedBlock SealError) :=
  let params := mkParams OriginOwn h [] (Some body) (Some sc) finalize (Some LongestChain)
                  None None in
  '(w, r) ← seal_append w parent params d;
  match r with
  | Err e => Ret (w, [], Err e)
  | Ok params =>
      let post_header := set_logs (logs h ++ post_digests params) h in
      let '(w, r) := import_block w params in
      Ret (w, [ImportBlock params],
        match r with
        | Err e => Err (SealConsensusError e)
        | Ok (Imported aux) => Ok (mkCreatedBlock (header_hash post_header) aux)
        | Ok other => Err (BlockImportError other)
        end)
  end.

(** The future of [seal_block]. *)
Definition seal_future (w : W) (create_empty finalize : bool) (parent_hash : option H256) :
    outcome (W * list SealEffect * result CreatedBlock SealError) :=
  if (pool_ready w =? 0) && negb create_empty then Ret (w, [], Err EmptyTransactionPool)
  else
  match seal_parent w parent_hash with
  | Err e => Ret (w, [], Err e)
  | Ok parent =>
  match create_inherent_data_providers w (header_hash parent) with
  | Err e => Ret (w, [], Err (OtherError e))
  | Ok providers =>
  let '(w, r) := create_inherent_data w providers in
  match r with
  | Err e => Ret (w, [], Err (SealInherentError e))
  | Ok inherent_data =>
  match env_init w parent with
  | Err e => Ret (w, [], Err (StringError e))
  | Ok proposer =>
      '(w, r) ← seal_digest w parent inherent_data;
      match r with
      | Err e => Ret (w, [], Err e)
      | Ok digest =>
      match propose w proposer inherent_data digest MAX_PROPOSAL_DURATION with
      | Err e => Ret (w, [], Err (StringError e))
      | Ok (h, body, sc) =>
          if (zlen body =? inherents_len inherent_data) && negb create_empty
          then Ret (w, [], Err EmptyTransactionPool)
          else seal_import w finalize parent inherent_data h body sc
      end end
  end end end end.

Definition seal_block (w : W) (create_empty finalize : bool) (parent_hash : option H256)
    (sender : option Z) : outcome (W * list SealEffect) :=
  '(w, effs, r) ← seal_future w create_empty finalize parent_hash;
  Ret (w, effs ++ send_result AnswerBlock sender r).

(** ** finalize_block.rs *)

Definition finalize_block (w : W) (hash : H256) (sender : option Z)
    (justification : option (bytes * bytes)) : W * list SealEffect :=
  let '(w, r) := finalizer w hash justification in
  (w, Finalize hash justification ::
      send_result AnswerFinalize sender
        match r with
        | Err e => Err (BlockchainError e)
        | Ok _ => Ok tt
        end).

(** ** The loop of the engine: lib.rs *)

Definition run_command (w : W) (c : EngineCommand) : outcome (W * list SealEffect) :=
  match c with
  | SealNewBlock create_empty finalize parent_hash sender =>
      seal_block w create_empty finalize parent_hash sender
  | FinalizeBlock hash sender justification =>
      Ret (finalize_block w hash sender ((λ j, (MANUAL_SEAL_ENGINE_ID, j)) <$> justification))
  end.

Fixpoint run_manual_seal (w : W) (commands_stream : list EngineCommand) :
    outcome (W * list SealEffect) :=
  match commands_stream with
  | [] => Ret (w, [])
  | command :: commands_stream =>
      '(w, effs) ← run_command w command;
      '(w, effs') ← run_manual_seal w commands_stream;
      Ret (w, effs ++ effs')
  end.

(** [run_instant_seal]: a block for every import into the pool. *)
Definition run_instant_seal {T} (w : W) (import_notifications : list T) :
    outcome (W * list SealEffect) :=
  run_manual_seal w ((λ _, SealNewBlock false false None None) <$> import_notifications).

(** [ManualSealVerifier::verify]. *)
Definition manual_seal_verify (block : BlockImportParams DigestItem Extrinsic) :
    BlockImportParams DigestItem Extrinsic :=
  mkParams (origin block) (header block) (post_digests block) (params_body block)
    (changes block) false (Some LongestChain) (post_hash block)
    (intermediate block).

End engine.

Arguments SealEffect : clear implicits.
Arguments ConsensusDataProvider : clear implicits.

(** ** The endpoints: rpc.rs *)

(** What an endpoint gets of its command: the engine is gone, it dropped the
    channel, or the answer. *)
Inductive EngineDelivery (T : Type) :=
| EngineGone
| EngineDropped
| EngineAnswered (r : result T SealError).
Arguments EngineGone {T}.
Arguments EngineDropped {T}.
Arguments EngineAnswered {T} r.

Definition engine_receive {T} (d : EngineDelivery T) : result T SealError :=
  match d with
  | EngineGone => Err SendError
  | EngineDropped => Err Canceled
  | EngineAnswered r => r
  end.

(** An endpoint's error is the code of the engine's. *)
Definition rpc_error {T} (r : result T SealError) : result T Z :=
  match r with Ok t => Ok t | Err e => Err (to_code e) end.

Definition rpc_create_block (d : EngineDelivery CreatedBlock) : result CreatedBlock Z :=
  rpc_error (engine_receive d).

Definition rpc_finalize_block (d : EngineDelivery unit) : result bool Z :=
  rpc_error (match engine_receive d with Ok _ => Ok true | Err e => Err e end).

(** ** Mocked timestamps: consensus/timestamp.rs *)

Record SlotTimestampProvider := mkTimestampProvider {
  unix_millis : Z;
  slot_duration : Z;
}.

Section timestamp.
Context `{!BuildProfile}.

Definition mul_w (w a b : Z) : outcome Z :=
  if a * b <? 2 ^ w then Ret (a * b)
  else if overflow_checks then Panic else Ret ((a * b) mod 2 ^ w).

(** The messages of this file, as string errors. *)
Definition best_header_not_found : SealError := StringError 0.
Definition aura_error_message (e : AuraError) : SealError := StringError 1.

(** [with_header]: the time to start from, after the slot of the best header,
    which [slot_of] reads, or now on an empty chain. *)
Definition with_header {H} (best_number : Z) (best_header : result (option H) Z)
    (now : result Z Z) (slot_duration : Z) (slot_of : H → result Z SealError) :
    outcome (result Z SealError) :=
  if best_number =? 0 then
    Ret match now with
        | Ok t => Ok (t mod 2 ^ 64)
        | Err e => Err (StringError e)
        end
  else
    match best_header with
    | Err e => Ret (Err (BlockchainError e))
    | Ok None => Ret (Err best_header_not_found)
    | Ok (Some h) =>
        match slot_of h with
        | Err e => Ret (Err e)
        | Ok slot =>
            t ← mul_w 64 slot slot_duration;
            t ← add_u64 t slot_duration;
            Ret (Ok t)
        end
    end.

(** [SlotTimestampProvider::new_aura]; an error of Aura becomes a string. *)
Definition new_aura {DigestItem Signature} `{!AuraDigest DigestItem Signature}
    (best_number : Z) (best_header : result (option (BlockHeader DigestItem)) Z)
    (now : result Z Z) (slot_duration : result Z Z) :
    outcome (result SlotTimestampProvider SealError) :=
  match slot_duration with
  | Err e => Ret (Err (BlockchainError e))
  | Ok slot_duration =>
      r ← with_header best_number best_header now slot_duration
            (λ h, match find_pre_digest h with
                  | Ok slot => Ok slot
                  | Err e => Err (aura_error_message e)
                  end);
      Ret match r with
          | Ok time => Ok (mkTimestampProvider time slot_duration)
          | Err e => Err e
          end
  end.

End timestamp.

(** [provide_inherent_data]: the time is advanced, whatever happens next, and what
    it was before is put into the inherent data; [fetch_add] wraps around.
    [put_data] is the framework's, at the identifier of timestamps. *)
Definition provide_inherent_data {InherentData}
    (put_data : InherentData → Z → result InherentData Z)
    (p : SlotTimestampProvider) (d : InherentData) :
    SlotTimestampProvider * result InherentData Z :=
  let new_time := unix_millis p in
  (mkTimestampProvider ((unix_millis p + slot_duration p) mod 2 ^ 64) (slot_duration p),
   put_data d new_time).

(** ** The Aura data provider: consensus/aura.rs *)

Section aura_provider.
Context {DigestItem Signature Extrinsic W InherentData : Type}.
Context `{!AuraDigest DigestItem Signature}.
(** [Slot::from_timestamp] of the framework, and the timestamp in the inherent
    data. *)
Context (from_timestamp : Z → Z → Slot).
Context (timestamp_inherent_data : InherentData → result (option Z) Z).
Context (aura_slot_duration : Z).

Definition aura_create_digest (w : W) (parent : BlockHeader DigestItem) (d : InherentData) :
    outcome (W * result (list DigestItem) SealError) :=
  match timestamp_inherent_data d with
  | Err e => Ret (w, Err (SealInherentError e))
  | Ok None => Panic
  | Ok (Some timestamp) =>
      Ret (w, Ok [aura_pre_digest (from_timestamp timestamp aura_slot_duration)])
  end.

Definition aura_append_block_import (w : W) (parent : BlockHeader DigestItem)
    (params : BlockImportParams DigestItem Extrinsic) (d : InherentData) :
    outcome (W * result (BlockImportParams DigestItem Extrinsic) SealError) :=
  Ret (w, Ok params).

Definition AuraConsensusDataProvider :
    ConsensusDataProvider DigestItem Extrinsic W InherentData :=
  mkDataProvider aura_create_digest aura_append_block_import.

End aura_provider.
