(* ===== verification/ManualSealSpec.v ===== *)
(** * Correctness of the manual seal engine

    The theorems on ManualSeal.v: what a seal command imports and answers, that
    every command is answered once and in order, and that the mocked timestamps
    give consecutive slots. *)

From stdpp Require Import base tactics list strings.
From Stdlib Require Import ZArith Lia Strings.Byte.
From S2P Require Import Prelude Blocks Aura AuraSpec ManualSeal.
Local Open Scope Z_scope.

Section engine.
Context {DigestItem Extrinsic W Provider InherentData Proposer : Type}.
Context (header_hash : BlockHeader DigestItem → H256).
Context (pool_ready : W → Z).
Context (client_header : W → H256 → result (option (BlockHeader DigestItem)) Z).
Context (best_chain : W → result (BlockHeader DigestItem) Z).
Context (create_inherent_data_providers : W → H256 → result Provider Z).
Context (create_inherent_data : W → Provider → W * result InherentData Z).
Context (inherents_len : InherentData → Z).
Context (env_init : W → BlockHeader DigestItem → result Proposer Z).
Context (propose : W → Proposer → InherentData → list DigestItem → Z →
  result (BlockHeader DigestItem * list Extrinsic * Z) Z).
Context (import_block : W → BlockImportParams DigestItem Extrinsic →
  W * result ImportResult Z).
Context (finalizer : W → H256 → option (bytes * bytes) → W * result unit Z).
Context (dp : option (ConsensusDataProvider DigestItem Extrinsic W InherentData)).

Abbreviation seal_future :=
  (seal_future header_hash pool_ready client_header best_chain
     create_inherent_data_providers create_inherent_data inherents_len env_init propose
     import_block dp).
Abbreviation seal_import := (seal_import header_hash import_block dp).
Abbreviation run_manual_seal :=
  (run_manual_seal header_hash pool_ready client_header best_chain
     create_inherent_data_providers create_inherent_data inherents_len env_init propose
     import_block finalizer dp).

(** A data provider may add digests after the header and an intermediate, and
    nothing else. *)
Definition only_digests : Prop :=
  ∀ p w parent params d w' params', dp = Some p →
    append_block_import p w parent params d = Ret (w', Ok params') →
    params' = mkParams (origin params) (header params) (post_digests params')
                (params_body params) (changes params) (finalized params)
                (fork_choice params) (post_hash params) (intermediate params').

(** What a seal does: it fails before the import, or it imports one block, which
    is finalized as asked for and built on the parent's proposal, and answers
    with the import's result. *)
Definition seal_outcome (w : W) (create_empty finalize : bool) (parent_hash : option H256)
    (effs : list (SealEffect DigestItem Extrinsic)) (r : result CreatedBlock SealError) :
    Prop :=
  (effs = [] ∧ ∃ e, r = Err e) ∨
  (∃ params parent d body digest w1 w2 proposer sc,
     effs = [ImportBlock params] ∧
     seal_parent client_header best_chain w parent_hash = Ok parent ∧
     propose w1 proposer d digest MAX_PROPOSAL_DURATION = Ok (header params, body, sc) ∧
     params_body params = Some body ∧ finalized params = finalize ∧
     (create_empty = false → pool_ready w ≠ 0 ∧ zlen body ≠ inherents_len d) ∧
     r = match (import_block w2 params).2 with
         | Ok (Imported aux) => Ok (mkCreatedBlock (header_hash (post_header params)) aux)
         | Ok other => Err (BlockImportError other)
         | Err e => Err (SealConsensusError e)
         end).

Lemma seal_append_digests w parent params d w' params' :
  only_digests → seal_append dp w parent params d = Ret (w', Ok params') →
  params' = mkParams (origin params) (header params) (post_digests params')
              (params_body params) (changes params) (finalized params)
              (fork_choice params) (post_hash params) (intermediate params').
Proof.
  intros Hod. unfold seal_append. destruct dp as [p|] eqn:Hdp.
  - by apply Hod.
  - intros [= <- <-]. by destruct params.
Qed.

Lemma seal_import_spec w finalize parent d h body sc w' effs r :
  only_digests →
  seal_import w finalize parent d h body sc = Ret (w', effs, r) →
  (effs = [] ∧ ∃ e, r = Err e) ∨
  ∃ params w2, effs = [ImportBlock params] ∧ header params = h ∧
    params_body params = Some body ∧ finalized params = finalize ∧
    r = match (import_block w2 params).2 with
        | Ok (Imported aux) => Ok (mkCreatedBlock (header_hash (post_header params)) aux)
        | Ok other => Err (BlockImportError other)
        | Err e => Err (SealConsensusError e)
        end.
Proof.
  intros Hod. unfold ManualSeal.seal_import. cbv zeta. intros Hrun.
  apply bind_Ret_inv in Hrun as ([w1 [params|e]] & Happ & Hrun); [|left; simplify_eq; eauto].
  apply seal_append_digests in Happ; [|done].
  destruct (import_block w1 params) as [w2 ri] eqn:Himp. injection Hrun as <- <- <-.
  right. exists params, w1. rewrite Himp. unfold post_header. rewrite Happ. simpl.
  by split_and!.
Qed.

Lemma seal_future_spec w create_empty finalize parent_hash w' effs r :
  only_digests →
  seal_future w create_empty finalize parent_hash = Ret (w', effs, r) →
  seal_outcome w create_empty finalize parent_hash effs r.
Proof.
  intros Hod. unfold ManualSeal.seal_future, seal_outcome. intros Hrun.
  destruct ((pool_ready w =? 0) && negb create_empty) eqn:Hready;
    [left; simplify_eq; eauto|].
  destruct (seal_parent _ _ w parent_hash) as [parent|] eqn:Hpar; [|left; simplify_eq; eauto].
  destruct (create_inherent_data_providers w _) as [p|]; [|left; simplify_eq; eauto].
  destruct (create_inherent_data w p) as [w1 [d|]]; [|left; simplify_eq; eauto].
  destruct (env_init w1 parent) as [pr|]; [|left; simplify_eq; eauto].
  apply bind_Ret_inv in Hrun as ([w2 [digest|]] & _ & Hrun); [|left; simplify_eq; eauto].
  destruct (propose w2 pr d digest _) as [[[h body] sc]|] eqn:Hprop;
    [|left; simplify_eq; eauto].
  destruct ((zlen body =? inherents_len d) && negb create_empty) eqn:Hempty;
    [left; simplify_eq; eauto|].
  apply seal_import_spec in Hrun as [?|(params & w3 & -> & <- & Hb & Hf & Hr)];
    [by left| |done].
  right. exists params, parent, d, body, digest, w2, w3, pr, sc. split_and!; try done.
  intros ->. revert Hready Hempty. simpl. rewrite !andb_true_r, !Z.eqb_neq. done.
Qed.

(** A seal command either fails and imports nothing, or imports one block:
    the proposal on the requested parent, finalized as requested, and not empty
    unless empty blocks were asked for.  It answers with the hash of the block as
    it is imported, its post-digests included, exactly when the import succeeds;
    and the pool being empty, without empty blocks asked for, nothing happens. *)
Theorem seal_block_outcome w create_empty finalize parent_hash w' effs r :
  only_digests →
  seal_future w create_empty finalize parent_hash = Ret (w', effs, r) →
  seal_outcome w create_empty finalize parent_hash effs r ∧
  (pool_ready w = 0 → create_empty = false →
   w' = w ∧ effs = [] ∧ r = Err EmptyTransactionPool).
Proof.
  intros Hod Hrun. split; [by eapply seal_future_spec|].
  intros H0 ->. unfold ManualSeal.seal_future in Hrun. rewrite H0 in Hrun.
  simpl in Hrun. by simplify_eq.
Qed.

(** The channels of commands and of answers. *)
Definition command_sender (c : EngineCommand) : option (bool * Z) :=
  match c with
  | SealNewBlock _ _ _ s => pair true <$> s
  | FinalizeBlock _ s _ => pair false <$> s
  end.

Definition answer_sender (e : SealEffect DigestItem Extrinsic) : option (bool * Z) :=
  match e with
  | AnswerBlock s _ => Some (true, s)
  | AnswerFinalize s _ => Some (false, s)
  | _ => None
  end.

Lemma seal_future_silent w create_empty finalize parent_hash w' effs r :
  seal_future w create_empty finalize parent_hash = Ret (w', effs, r) →
  omap answer_sender effs = [].
Proof.
  unfold ManualSeal.seal_future, ManualSeal.seal_import. intros Hrun.
  repeat match type of Hrun with
  | _ ≫= _ = _ => apply bind_Ret_inv in Hrun as ([] & _ & Hrun); cbv beta zeta in Hrun
  | Ret _ = _ => injection Hrun as <- <- <-; done
  | match ?x with _ => _ end = _ => destruct x
  end.
Qed.

Lemma run_command_answers w c w' effs :
  run_command header_hash pool_ready client_header best_chain
     create_inherent_data_providers create_inherent_data inherents_len env_init propose
     import_block finalizer dp w c = Ret (w', effs) →
  omap answer_sender effs = option_list (command_sender c).
Proof.
  destruct c as [ce fin ph s|h s j]; simpl.
  - unfold seal_block. intros Hrun.
    apply bind_Ret_inv in Hrun as ([[w1 effs1] r] & Hf & Hrun). injection Hrun as <- <-.
    rewrite omap_app, (seal_future_silent _ _ _ _ _ _ _ Hf). by destruct s.
  - unfold finalize_block. destruct (finalizer _ _ _). intros [= <- <-]. by destruct s.
Qed.

(** C30: the engine answers every command that has a sender exactly once, on the
    channel of its kind, and in the order of the commands. *)
Theorem manual_seal_answers w commands w' effs :
  run_manual_seal w commands = Ret (w', effs) →
  omap answer_sender effs = omap command_sender commands.
Proof.
  revert w effs. induction commands as [|c cs IH]; intros w effs; simpl.
  { by intros [= _ <-]. }
  intros Hrun. apply bind_Ret_inv in Hrun as ([w1 effs1] & Hc & Hrun).
  apply bind_Ret_inv in Hrun as ([w2 effs2] & Hcs & Hrun). injection Hrun as -> <-.
  apply run_command_answers in Hc. rewrite omap_app, Hc, (IH _ _ Hcs).
  by destruct (command_sender c).
Qed.

End engine.

(** ** Timestamps *)

Section times.
Context `{!BuildProfile}.
Context {DigestItem Signature W InherentData : Type}.
Context `{!AuraDigest DigestItem Signature}.
Context (from_timestamp : Z → Z → Slot).
Context (put_data : InherentData → Z → result InherentData Z).
Context (timestamp_inherent_data : InherentData → result (option Z) Z).
Context (empty : InherentData).

(** The inherent data of [n] blocks in a row, each made from an empty one. *)
Fixpoint provide_blocks (n : nat) (p : SlotTimestampProvider) :
    list (result InherentData Z) :=
  match n with
  | O => []
  | S n => let '(p, r) := provide_inherent_data put_data p empty in r :: provide_blocks n p
  end.

Lemma provide_blocks_lookup n i t d :
  0 ≤ t → 0 ≤ d → t + Z.of_nat n * d < 2 ^ 64 → (i < n)%nat →
  provide_blocks n (mkTimestampProvider t d) !! i = Some (put_data empty (t + Z.of_nat i * d)).
Proof.
  revert t i. induction n as [|n IH]; intros t i Ht Hd Hlt Hi; [lia|].
  cbn [provide_blocks provide_inherent_data]. simpl unix_millis. simpl slot_duration.
  destruct i as [|i]; simpl; [by rewrite Z.add_0_r|].
  rewrite Z.mod_small by nia. rewrite IH by nia. do 2 f_equal. lia.
Qed.

(** The timestamp put into empty inherent data can be read back. *)
Definition timestamp_readable : Prop :=
  ∀ t, 0 ≤ t < 2 ^ 64 →
    ∃ data, put_data empty t = Ok data ∧ timestamp_inherent_data data = Ok (Some t).

(** On a chain whose best header has a slot, a provider of mocked timestamps
    starts after it: the blocks sealed next, each with the inherent data the
    provider made for it, carry the consecutive slots after that slot. *)
Theorem aura_mocked_slots best_number h s d n now (w : W) parent :
  (∀ t d, from_timestamp t d = t `div` d) → timestamp_readable →
  best_number ≠ 0 → find_pre_digest h = Ok s → 0 ≤ s → 0 < d →
  (s + 1 + Z.of_nat n) * d < 2 ^ 64 →
  ∃ p, new_aura best_number (Ok (Some h)) now (Ok d) = Ret (Ok p) ∧
    ∀ i, (i < n)%nat → ∃ data, provide_blocks n p !! i = Some (Ok data) ∧
      aura_create_digest from_timestamp timestamp_inherent_data d w parent data =
      Ret (w, Ok [aura_pre_digest (s + 1 + Z.of_nat i)]).
Proof.
  intros Hft Hput Hb Hs Hs0 Hd Hlt. exists (mkTimestampProvider (s * d + d) d). split.
  - unfold new_aura, with_header. rewrite (proj2 (Z.eqb_neq _ _) Hb), Hs. unfold mul_w.
    rewrite (proj2 (Z.ltb_lt _ _)) by nia. cbn [mbind outcome_bind].
    by rewrite add_w_ok by nia.
  - intros i Hi. destruct (Hput (s * d + d + Z.of_nat i * d)) as (data & Hdata & Ht); [nia|].
    exists data. rewrite provide_blocks_lookup, Hdata by nia. split; [done|].
    unfold aura_create_digest. rewrite Ht, Hft. do 4 f_equal.
    replace (s * d + d + Z.of_nat i * d) with ((s + 1 + Z.of_nat i) * d) by lia.
    by rewrite Z.div_mul by lia.
Qed.

End times.

(** ** Witnesses *)

Module SealExample.

(** The world is the length of the chain; the inherent data is the time. *)
Definition hash (h : BlockHeader AuraExample.item) : H256 := number h * 100 + zlen (logs h).
Definition ready (w : Z) : Z := if w <? 7 then 1 else 0.
Definition client (w : Z) (h : H256) : result (option (BlockHeader AuraExample.item)) Z :=
  Ok None.
Definition best (w : Z) : result (BlockHeader AuraExample.item) Z := Ok (mkHeader w 0 0 []).
Definition providers (w : Z) (h : H256) : result unit Z := Ok tt.
Definition data (w : Z) (p : unit) : Z * result Z Z := (w, Ok (w * 6000)).
Definition len (d : Z) : Z := 1.
Definition env (w : Z) (h : BlockHeader AuraExample.item) :
  result (BlockHeader AuraExample.item) Z := Ok h.
Definition propose (w : Z) (h : BlockHeader AuraExample.item) (d : Z)
    (l : list AuraExample.item) (t : Z) :
    result (BlockHeader AuraExample.item * list Z * Z) Z :=
  Ok (mkHeader (number h + 1) (hash h) 0 l, [d; 1], 0).
Definition import (w : Z) (p : BlockImportParams AuraExample.item Z) :
  Z * result ImportResult Z := (w + 1, Ok (Imported 0)).
Definition finalizer (w : Z) (h : H256) (j : option (bytes * bytes)) : Z * result unit Z :=
  (w, Err 3).
Definition put (d t : Z) : result Z Z := Ok t.
Definition timestamp (d : Z) : result (option Z) Z := Ok (Some d).
Definition dp : option (ConsensusDataProvider AuraExample.item Z Z Z) :=
  Some (AuraConsensusDataProvider Z.div timestamp 6000).

Definition future :=
  seal_future hash ready client best providers data len env propose import dp.
Definition run :=
  run_manual_seal hash ready client best providers data len env propose import finalizer dp.

Definition sealed : BlockImportParams AuraExample.item Z :=
  mkParams OriginOwn (mkHeader 6 500 0 [AuraExample.PreRuntime 5]) [] (Some [30000; 1])
    (Some 0) true (Some LongestChain) None None.

Definition commands : list EngineCommand :=
  [SealNewBlock false true None (Some 41); SealNewBlock true false None None;
   FinalizeBlock 601 (Some 42) None; SealNewBlock false false None (Some 43)].

Lemma dp_only_digests : only_digests dp.
Proof. intros p w parent params d w' params' [= <-] [= <- <-]. by destruct params. Qed.

End SealExample.

Lemma seal_block_outcome_witness :
  seal_outcome SealExample.hash SealExample.ready SealExample.client SealExample.best
    SealExample.len SealExample.propose SealExample.import 5 false true None
    [ImportBlock SealExample.sealed] (Ok (mkCreatedBlock 601 0)).
Proof.
  apply (seal_block_outcome SealExample.hash SealExample.ready SealExample.client
    SealExample.best SealExample.providers SealExample.data SealExample.len SealExample.env
    SealExample.propose SealExample.import SealExample.dp 5 false true None 6
    [ImportBlock SealExample.sealed] (Ok (mkCreatedBlock 601 0))
    SealExample.dp_only_digests).
  vm_compute. reflexivity.
Defined.

Lemma manual_seal_answers_witness :
  omap answer_sender (outcome_or (snd <$> SealExample.run 5 SealExample.commands) []) =
  [(true, 41); (false, 42); (true, 43)].
Proof.
  apply (manual_seal_answers SealExample.hash SealExample.ready SealExample.client
    SealExample.best SealExample.providers SealExample.data SealExample.len SealExample.env
    SealExample.propose SealExample.import SealExample.finalizer SealExample.dp 5
    SealExample.commands 7). vm_compute. reflexivity.
Defined.

Lemma aura_mocked_slots_witness :
  ∃ p, @new_aura dev _ _ AuraExample.digest 1
      (Ok (Some (mkHeader 9 0 0 [AuraExample.PreRuntime 30]))) (Ok 0) (Ok 6000) = Ret (Ok p) ∧
    ∀ i, (i < 2)%nat → ∃ data,
      provide_blocks SealExample.put 0 2 p !! i = Some (Ok data) ∧
      aura_create_digest Z.div SealExample.timestamp 6000 tt
        (mkHeader 9 0 0 [AuraExample.PreRuntime 30]) data =
      Ret (tt, Ok [AuraExample.PreRuntime (30 + 1 + Z.of_nat i)]).
Proof.
  apply (@aura_mocked_slots dev _ _ unit Z AuraExample.digest Z.div SealExample.put
    SealExample.timestamp 0 1 (mkHeader 9 0 0 [AuraExample.PreRuntime 30]) 30 6000 2 (Ok 0)
    tt (mkHeader 9 0 0 [AuraExample.PreRuntime 30]));
    [reflexivity| |lia|reflexivity|lia|lia|vm_compute; reflexivity].
  intros t _. exists t. split; reflexivity.
Defined.
