(* ===== verification/ManualSealChain.v ===== *)
(** * The chain the manual seal engine builds: manual-seal/src/lib.rs

    The engine of ManualSeal.v over a client that keeps what it imports: every block the
    engine has answered with is on the chain, on the parent that was asked for, and forks
    stay beside each other. *)

From stdpp Require Import base tactics list gmap strings.
From Stdlib Require Import ZArith Lia Strings.Byte.
From S2P Require Import Prelude Blocks Aura AuraSpec ManualSeal ManualSealSpec.
Local Open Scope Z_scope.

(** [TestDigestProvider] of the tests: no digest, and an item [DigestItem::Other(vec![1])]
    after the header. *)
Definition TestDigestProvider {DigestItem Extrinsic W InherentData : Type} (other : DigestItem) :
    ConsensusDataProvider DigestItem Extrinsic W InherentData := {|
  create_digest w _ _ := Ret (w, Ok []);
  append_block_import w _ params _ :=
    Ret (w, Ok (mkParams (origin params) (header params) (post_digests params ++ [other])
                  (params_body params) (changes params) (finalized params)
                  (fork_choice params) (post_hash params) (intermediate params)));
|}.

Section chain.
Context {DigestItem Extrinsic W Provider InherentData Proposer : Type}.
Context (header_hash : BlockHeader DigestItem → H256).
Context (pool_ready : W → Z).
Context (client_header : W → H256 → result (option (BlockHeader DigestItem)) Z).
Context (best_chain : W → result (BlockHeader DigestItem) Z).
Context (create_inherent_data_providers : W → H256 → result Provider Z).
Context (create_inherent_data : W → Provider → W * result InherentData Z).
Context (inherents_len : InherentData → Z).
Context (env_init : W → BlockHeader DigestItem → result Proposer Z).
Context (propose : W → Proposer → InherentData → list DigestItem → Z →
  result (BlockHeader DigestItem * list Extrinsic * Z) Z).
Context (import_block : W → BlockImportParams DigestItem Extrinsic →
  W * result ImportResult Z).
Context (finalizer : W → H256 → option (bytes * bytes) → W * result unit Z).
Context (dp : option (ConsensusDataProvider DigestItem Extrinsic W InherentData)).

Abbreviation seal_future :=
  (seal_future header_hash pool_ready client_header best_chain
     create_inherent_data_providers create_inherent_data inherents_len env_init propose
     import_block dp).
Abbreviation run_command :=
  (run_command header_hash pool_ready client_header best_chain
     create_inherent_data_providers create_inherent_data inherents_len env_init propose
     import_block finalizer dp).
Abbreviation run_manual_seal :=
  (run_manual_seal header_hash pool_ready client_header best_chain
     create_inherent_data_providers create_inherent_data inherents_len env_init propose
     import_block finalizer dp).

(** A header the client has. *)
Definition stored (w : W) (h : BlockHeader DigestItem) : Prop :=
  client_header w (header_hash h) = Ok (Some h).

(** A step of the world that loses no header. *)
Definition keeps (w w' : W) : Prop := ∀ h, stored w h → stored w' h.

(** What the client, the proposer and the providers do: a header is found under its hash,
    the best block is one of the client's, an imported block is there from then on, a
    proposal continues its parent, and no step loses a header. *)
Record chain_laws : Prop := {
  law_hash w x h : client_header w x = Ok (Some h) → header_hash h = x;
  law_best w h : best_chain w = Ok h → stored w h;
  law_import w p : keeps w (import_block w p).1;
  law_imported w p aux :
    (import_block w p).2 = Ok (Imported aux) → stored (import_block w p).1 (post_header p);
  law_finalizer w x j : keeps w (finalizer w x j).1;
  law_data w p : keeps w (create_inherent_data w p).1;
  law_digest p w parent d w' r :
    dp = Some p → create_digest p w parent d = Ret (w', r) → keeps w w';
  law_append p w parent params d w' r :
    dp = Some p → append_block_import p w parent params d = Ret (w', r) → keeps w w';
  law_propose w0 w parent pr d digest t h body sc :
    env_init w0 parent = Ok pr → propose w pr d digest t = Ok (h, body, sc) →
    header_parent h = header_hash parent ∧ number h = number parent + 1;
}.

#[local] Instance keeps_preorder : PreOrder keeps.
Proof. split; [by intros w h|]. intros w1 w2 w3 H1 H2 h Hh. by apply H2, H1. Qed.

Context (laws : chain_laws) (digests : only_digests dp).

Lemma seal_digest_keeps w parent d w' r :
  seal_digest dp w parent d = Ret (w', r) → keeps w w'.
Proof.
  unfold seal_digest. destruct dp as [p|] eqn:Hdp; [intros ?; by eapply (law_digest laws)|]. intros [= <- _]. reflexivity.
Qed.

Lemma seal_append_keeps w parent params d w' r :
  seal_append dp w parent params d = Ret (w', r) → keeps w w'.
Proof.
  unfold seal_append. destruct dp as [p|] eqn:Hdp; [intros ?; by eapply (law_append laws)|]. intros [= <- _]. reflexivity.
Qed.

(** A created block: on the chain, one above its parent. *)
Definition on_chain (w : W) (b : CreatedBlock) (parent : BlockHeader DigestItem) : Prop :=
  ∃ h, stored w h ∧ header_hash h = created_hash b ∧ stored w parent ∧
    header_parent h = header_hash parent ∧ number h = number parent + 1.

Lemma on_chain_keeps w w' b parent : keeps w w' → on_chain w b parent → on_chain w' b parent.
Proof. intros Hk (h & Hh & Hb & Hp & Hrest). exists h. split; [by apply Hk|]. split; [done|]. by split; [apply Hk|]. Qed.

Lemma seal_import_chain w finalize parent d h body sc w' effs r :
  stored w parent → header_parent h = header_hash parent → number h = number parent + 1 →
  seal_import header_hash import_block dp w finalize parent d h body sc = Ret (w', effs, r) →
  keeps w w' ∧ ∀ b, r = Ok b → on_chain w' b parent.
Proof.
  intros Hst Hpar Hnum. unfold seal_import. cbv zeta. intros Hrun.
  apply bind_Ret_inv in Hrun as ([w1 ra] & Happ & Hrun).
  pose proof (seal_append_keeps _ _ _ _ _ _ Happ) as Hk1.
  destruct ra as [params|e]; [|by simplify_eq].
  apply seal_append_digests in Happ; [|done].
  pose proof (law_import laws w1 params) as Hk2.
  pose proof (law_imported laws w1 params) as Himp.
  destruct (import_block w1 params) as [w2 ri]. injection Hrun as <- <- <-. simpl in *.
  split; [by etrans|]. intros b Hb. destruct ri as [[aux| | | |]|]; simplify_eq.
  specialize (Himp aux eq_refl). unfold post_header in Himp. rewrite Happ in Himp. simpl in Himp.
  exists (set_logs (logs h ++ post_digests params) h).
  split_and!; try done. by apply Hk2, Hk1.
Qed.

Lemma seal_parent_stored w ph parent :
  seal_parent client_header best_chain w ph = Ok parent →
  stored w parent ∧ ∀ p, ph = Some p → header_hash parent = p.
Proof.
  unfold seal_parent. destruct ph as [x|].
  - destruct (client_header w x) as [[h|]|] eqn:Hx; intros; simplify_eq.
    pose proof (law_hash laws _ _ _ Hx) as <-. split; [done|]. by intros p [= <-].
  - destruct (best_chain w) eqn:Hb; intros; simplify_eq. split; [by apply (law_best laws)|done].
Qed.

Lemma seal_future_chain w ce fin ph w' effs r :
  seal_future w ce fin ph = Ret (w', effs, r) →
  keeps w w' ∧ ∀ b, r = Ok b → ∃ parent, on_chain w' b parent ∧
    ∀ p, ph = Some p → header_hash parent = p.
Proof.
  unfold ManualSeal.seal_future. intros Hrun.
  destruct ((pool_ready w =? 0) && negb ce); [by simplify_eq|].
  destruct (seal_parent _ _ w ph) as [parent|] eqn:Hpar; [|by simplify_eq].
  apply seal_parent_stored in Hpar as [Hst Hph].
  destruct (create_inherent_data_providers w _) as [p|]; [|by simplify_eq].
  pose proof (law_data laws w p) as Hk1.
  destruct (create_inherent_data w p) as [w1 rd]. simpl in Hk1.
  destruct rd as [d|]; [|by simplify_eq].
  destruct (env_init w1 parent) as [pr|] eqn:Hinit; [|by simplify_eq].
  apply bind_Ret_inv in Hrun as ([w2 rg] & Hd & Hrun).
  pose proof (transitivity Hk1 (seal_digest_keeps _ _ _ _ _ Hd)) as Hk2.
  destruct rg as [digest|]; [|by simplify_eq].
  destruct (propose w2 pr d digest _) as [[[h body] sc]|] eqn:Hprop; [|by simplify_eq].
  destruct (_ && _); [by simplify_eq|].
  destruct (law_propose laws _ _ _ _ _ _ _ _ _ _ Hinit Hprop) as [Hhp Hn].
  destruct (seal_import_chain _ _ _ _ _ _ _ _ _ _ (Hk2 _ Hst) Hhp Hn Hrun) as [Hk3 Hb].
  split; [by etrans|]. intros b Hr. exists parent. split; [by apply Hb|done].
Qed.

Lemma seal_future_no_answer w ce fin ph w' effs r s b :
  seal_future w ce fin ph = Ret (w', effs, r) → AnswerBlock s b ∉ effs.
Proof.
  intros Hrun Hin. apply seal_future_silent in Hrun.
  assert ((true, s) ∈ omap answer_sender effs) as Hs.
  { apply list_elem_of_omap. by exists (AnswerBlock s b). }
  rewrite Hrun in Hs. by apply not_elem_of_nil in Hs.
Qed.

Lemma run_command_chain w c w' effs :
  run_command w c = Ret (w', effs) →
  keeps w w' ∧ ∀ s b, AnswerBlock s (Ok b) ∈ effs → ∃ ce fin ph parent,
    c = SealNewBlock ce fin ph (Some s) ∧ on_chain w' b parent ∧
    ∀ p, ph = Some p → header_hash parent = p.
Proof.
  destruct c as [ce fin ph sd|x sd j]; simpl.
  - unfold seal_block. intros Hrun.
    apply bind_Ret_inv in Hrun as ([[w1 effs1] r] & Hf & Hrun). injection Hrun as <- <-.
    destruct (seal_future_chain _ _ _ _ _ _ _ Hf) as [Hk Hb]. split; [done|].
    intros s b [Hin|Hin]%elem_of_app; [by apply (seal_future_no_answer _ _ _ _ _ _ _ _ _ Hf) in Hin|].
    destruct sd as [sd|]; [|by apply not_elem_of_nil in Hin].
    apply list_elem_of_singleton in Hin. simplify_eq.
    destruct (Hb b eq_refl) as (parent & Hon & Hph). by exists ce, fin, ph, parent.
  - unfold finalize_block. pose proof (law_finalizer laws w x ((λ j, (MANUAL_SEAL_ENGINE_ID, j)) <$> j)) as Hk.
    destruct (finalizer _ _ _) as [w1 r]. intros [= <- <-]. split; [done|].
    intros s b [Hin|Hin]%elem_of_cons; [done|].
    destruct sd; [by apply list_elem_of_singleton in Hin|by apply not_elem_of_nil in Hin].
Qed.

(** C28: over a client that keeps what it imports, every block that the engine answered a
    command with is on the chain at the end of the run, under the hash of the answer and one
    above its parent, which is on the chain too and is the one the command asked for; blocks
    on the same parent stay beside each other, whatever is sealed or finalized later. *)
Theorem sealed_blocks_stored w commands w' effs :
  run_manual_seal w commands = Ret (w', effs) →
  keeps w w' ∧
  ∀ s b, AnswerBlock s (Ok b) ∈ effs → ∃ ce fin ph parent h,
    SealNewBlock ce fin ph (Some s) ∈ commands ∧
    client_header w' (created_hash b) = Ok (Some h) ∧ number h = number parent + 1 ∧
    client_header w' (header_parent h) = Ok (Some parent) ∧
    ∀ p, ph = Some p → header_parent h = p.
Proof.
  revert w effs. induction commands as [|c cs IH]; intros w effs; simpl.
  { intros [= <- <-]. split; [done|]. intros s b Hin. by apply not_elem_of_nil in Hin. }
  intros Hrun. apply bind_Ret_inv in Hrun as ([w1 effs1] & Hc & Hrun).
  apply bind_Ret_inv in Hrun as ([w2 effs2] & Hcs & Hrun). injection Hrun as -> <-.
  apply run_command_chain in Hc as [Hk Hc]. destruct (IH _ _ Hcs) as [Hk' Hcs'].
  split; [by etrans|]. intros s b [Hin|Hin]%elem_of_app.
  - destruct (Hc s b Hin) as (ce & fin & ph & parent & -> & Hon & Hph).
    apply (on_chain_keeps _ _ _ _ Hk') in Hon as (h & Hh & Hb & Hp & Hpar & Hn).
    exists ce, fin, ph, parent, h. unfold stored in *. rewrite Hpar, <-Hb.
    split_and!; try done. by left.
  - destruct (Hcs' s b Hin) as (ce & fin & ph & parent & h & Hin' & Hrest).
    exists ce, fin, ph, parent, h. split; [by right|done].
Qed.

End chain.

(** ** Witness: the fork of the tests, with their digest provider *)

Module ForkExample.
Abbreviation header := (BlockHeader Z).

(** The headers by hash, the hash of the best one, and the transactions in the pool; a
    header names the transaction it includes in its roots. *)
Record world := mkWorld { db : gmap Z header; best : Z; pool : list Z }.

Definition hash (h : header) : H256 := number h * 1000 + roots h * 10 + zlen (logs h).
Definition ready (w : world) : Z := zlen (pool w).
Definition lookup_header (w : world) (x : H256) : option header :=
  h ← db w !! x; if hash h =? x then Some h else None.
Definition client (w : world) (x : H256) : result (option header) Z := Ok (lookup_header w x).
Definition best_chain (w : world) : result header Z :=
  match lookup_header w (best w) with Some h => Ok h | None => Err 0 end.
Definition providers (w : world) (h : H256) : result unit Z := Ok tt.
Definition data (w : world) (p : unit) : world * result unit Z := (w, Ok tt).
Definition len (d : unit) : Z := 0.
Definition env (w : world) (h : header) : result header Z := Ok h.
Definition propose (w : world) (h : header) (d : unit) (l : list Z) (t : Z) :
    result (header * list Z * Z) Z :=
  match pool w with
  | x :: _ => Ok (mkHeader (number h + 1) (hash h) x l, [x], 0)
  | [] => Ok (mkHeader (number h + 1) (hash h) 0 l, [], 0)
  end.
Definition import (w : world) (p : BlockImportParams Z Z) : world * result ImportResult Z :=
  let h := post_header p in
  match db w !! hash h with
  | Some _ => (w, Ok AlreadyInChain)
  | None => (mkWorld (<[hash h := h]> (db w)) (hash h) (tail (pool w)), Ok (Imported 0))
  end.
Definition finalizer (w : world) (h : H256) (j : option (bytes * bytes)) :
    world * result unit Z := (w, Ok tt).
Definition dp : option (ConsensusDataProvider Z Z world unit) := Some (TestDigestProvider 1).

Lemma lookup_header_hash w x h : lookup_header w x = Some h → hash h = x ∧ db w !! x = Some h.
Proof.
  unfold lookup_header. destruct (db w !! x) as [h'|]; [|done]. simpl.
  destruct (Z.eqb_spec (hash h') x) as [<-|]; [|done]. by intros [= ->].
Qed.

Lemma import_keeps w p : keeps hash client w (import w p).1.
Proof.
  intros h. unfold stored, client. intros [= Hh]. f_equal.
  apply lookup_header_hash in Hh as [_ Hdb]. unfold import, lookup_header.
  destruct (db w !! hash (post_header p)) eqn:Hp; simpl;
    [by rewrite Hdb; simpl; rewrite Z.eqb_refl|].
  rewrite lookup_insert_ne by congruence. rewrite Hdb. simpl. by rewrite Z.eqb_refl.
Qed.

Lemma laws : chain_laws hash client best_chain data env propose import finalizer dp.
Proof.
  split; try done.
  - intros w x h [= Hx]. by apply lookup_header_hash in Hx as [? _].
  - intros w h. unfold best_chain, stored, client. destruct (lookup_header _ _) eqn:Hb; [|done].
    intros [= ->]. pose proof (lookup_header_hash _ _ _ Hb) as [Hhash _]. by rewrite Hhash, Hb.
  - apply import_keeps.
  - intros w p aux. unfold import, stored, client, lookup_header.
    destruct (db w !! hash (post_header p)) eqn:Hp; [done|]. intros _. simpl.
    rewrite lookup_insert_eq. simpl. by rewrite Z.eqb_refl.
  - intros w x j h. done.
  - intros w p h. done.
  - intros p w parent d w' r [= <-] [= <- _]. by intros h.
  - intros p w parent params d w' r [= <-] [= <- _]. by intros h.
  - intros w0 w parent pr d digest t h body sc [= <-]. unfold propose.
    destruct (pool w); intros Hp; by simplify_eq.
Qed.

Lemma fork_only_digests : only_digests dp.
Proof. intros p w parent params d w' params' [= <-] [= _ <-]. done. Qed.

(** The genesis, and three transactions. *)
Definition start : world := mkWorld {[ 0 := mkHeader 0 0 0 [] ]} 0 [1; 2; 3].

(** A block, and two on it. *)
Definition commands : list EngineCommand :=
  [SealNewBlock false false None (Some 41); SealNewBlock false false (Some 1011) (Some 42);
   SealNewBlock false false (Some 1011) (Some 43); FinalizeBlock 2021 None None].
Definition run :=
  run_manual_seal hash ready client best_chain providers data len env propose import finalizer
    dp start commands.
End ForkExample.

Lemma sealed_blocks_stored_witness :
  ∃ w effs, ForkExample.run = Ret (w, effs) ∧
    ∀ s x, (s, x) ∈ [(42, 2021); (43, 2031)] → ∃ h,
      AnswerBlock s (Ok (mkCreatedBlock x 0)) ∈ effs ∧
      ForkExample.client w x = Ok (Some h) ∧ header_parent h = 1011.
Proof.
  destruct ForkExample.run as [[w effs]|] eqn:Hrun; [|vm_compute in Hrun; discriminate].
  exists w, effs. split; [done|]. intros s x Hin.
  destruct (sealed_blocks_stored _ _ _ _ _ _ _ _ _ _ _ _ ForkExample.laws
    ForkExample.fork_only_digests _ _ _ _ Hrun) as [_ Hb].
  assert (AnswerBlock s (Ok (mkCreatedBlock x 0)) ∈ effs) as Heff.
  { vm_compute in Hrun. injection Hrun as _ <-.
    apply elem_of_cons in Hin as [[= -> ->]|Hin%list_elem_of_singleton];
      [|injection Hin as -> ->]; repeat (first [by left|right]). }
  destruct (Hb s _ Heff) as (ce & fin & ph & parent & h & Hc & Hh & _ & _ & Hp).
  exists h. split_and!; [done|done|]. apply Hp.
  apply elem_of_cons in Hin as [[= -> ->]|Hin%list_elem_of_singleton];
    [|injection Hin as -> ->];
    repeat (apply elem_of_cons in Hc as [Hc|Hc]; [by simplify_eq|]);
    by apply not_elem_of_nil in Hc.
Defined.
