(* ===== verification/ManualSealTests.v ===== *)
(** * The tests of the manual seal engine: manual-seal/src/lib.rs, [mod tests]

    The four tests as programs over the engine of ManualSeal.v and a test client, whose
    operations are parameters.  What the tests rely on of the client, the transaction pool
    and the proposer is stated on an abstract view of the client's state: the blocks it
    has, the best one, the transactions in its pool and the nonces of the accounts. *)

From stdpp Require Import base tactics countable list gmap strings.
From Stdlib Require Import ZArith Lia Strings.Byte.
From S2P Require Import Prelude Blocks ManualSeal ManualSealSpec ManualSealChain.
Local Open Scope Z_scope.

(** A transfer of an account, by the account and its nonce ([uxt]). *)
Abbreviation Uxt := (Z * Z)%type.

(** ** The test client *)

(** The operations of [substrate_test_runtime_client], of the pool and of the proposer. *)
Class TestClient (DigestItem W InherentData Proposer : Type) := {
  header_hash : BlockHeader DigestItem → H256;
  pool_ready : W → Z;
  client_header : W → H256 → result (option (BlockHeader DigestItem)) Z;
  client_block : W → Z → result (option (BlockHeader DigestItem * list Uxt)) Z;
  best_chain : W → result (BlockHeader DigestItem) Z;
  create_inherent_data : W → unit → W * result InherentData Z;
  inherents_len : InherentData → Z;
  env_init : W → BlockHeader DigestItem → result Proposer Z;
  propose : W → Proposer → InherentData → list DigestItem → Z →
    result (BlockHeader DigestItem * list Uxt * Z) Z;
  import_block : W → BlockImportParams DigestItem Uxt → W * result ImportResult Z;
  finalizer : W → H256 → option (bytes * bytes) → W * result unit Z;
  submit_one : W → Z → Uxt → W * result unit Z;
  increment_nonce : W → Z → W;
  add_block : W → BlockHeader DigestItem * list Uxt → W;
  maintain : W → H256 → W;
  (** the import of a block that becomes the best one, and of another *)
  new_best_aux : Z;
  side_aux : Z;
  (** [DigestItem::Other(vec![1])] *)
  other_1 : DigestItem;
}.

(** ** The tests *)

Definition Alice : Z := 0.
Definition Bob : Z := 1.

Section tests.
Context {DigestItem W InherentData Proposer : Type}.
Context `{TC : !TestClient DigestItem W InherentData Proposer}.

Abbreviation Header := (BlockHeader DigestItem).
Abbreviation Effect := (SealEffect DigestItem Uxt).

(** [|_, _| async { Ok(()) }]. *)
Definition no_inherents (w : W) (parent : H256) : result unit Z := Ok tt.

(** The engine of a test, with its consensus data provider. *)
Definition engine (dp : option (ConsensusDataProvider DigestItem Uxt W InherentData)) (w : W)
    (commands : list EngineCommand) : outcome (W * list Effect) :=
  run_manual_seal header_hash pool_ready client_header best_chain no_inherents
    create_inherent_data inherents_len env_init propose import_block finalizer dp w commands.

(** [assert!], and [unwrap] of results and options. *)
Definition assert (P : Prop) `{!Decision P} : outcome unit :=
  if decide P then Ret tt else Panic.
Definition unwrap {A E} (r : result A E) : outcome A :=
  match r with Ok a => Ret a | Err _ => Panic end.
Definition expect {A E} (r : result (option A) E) : outcome A :=
  match r with Ok (Some a) => Ret a | _ => Panic end.
Definition is_ok {A E} (r : result A E) : bool := match r with Ok _ => true | Err _ => false end.

(** [rx.await.unwrap()]: the answer on a channel; the engine that drops it panics the test. *)
Fixpoint await_block (rx : Z) (effs : list Effect) : outcome (result CreatedBlock SealError) :=
  match effs with
  | [] => Panic
  | AnswerBlock s r :: effs => if s =? rx then Ret r else await_block rx effs
  | _ :: effs => await_block rx effs
  end.
Fixpoint await_finalize (rx : Z) (effs : list Effect) : outcome (result unit SealError) :=
  match effs with
  | [] => Panic
  | AnswerFinalize s r :: effs => if s =? rx then Ret r else await_finalize rx effs
  | _ :: effs => await_finalize rx effs
  end.

(** A test sends a command with a channel and waits for the answer. *)
Definition seal (dp : option (ConsensusDataProvider DigestItem Uxt W InherentData)) (w : W)
    (create_empty finalize : bool) (parent_hash : option H256) :
    outcome (W * result CreatedBlock SealError) :=
  '(w, effs) ← engine dp w [SealNewBlock create_empty finalize parent_hash (Some 0)];
  r ← await_block 0 effs;
  Ret (w, r).

(** A block for the one notification of the pool. *)
Definition instant_seal (w : W) : outcome unit :=
  let '(w, result) := submit_one w 0 (Alice, 0) in
  _ ← assert (is_ok result = true);
  '(w, r) ← seal None w false true None;
  created_block ← unwrap r;
  _ ← assert (created_aux created_block = new_best_aux);
  _ ← expect (client_block w 1);
  Ret tt.

Definition manual_seal_and_finalization (w : W) : outcome unit :=
  let '(w, result) := submit_one w 0 (Alice, 0) in
  _ ← assert (is_ok result = true);
  '(w, r) ← seal None w false false None;
  created_block ← unwrap r;
  _ ← assert (created_aux created_block = new_best_aux);
  '(header, _) ← expect (client_block w 1);
  '(w, effs) ← engine None w [FinalizeBlock (header_hash header) (Some 0) None];
  r ← await_finalize 0 effs;
  unwrap r.

Definition manual_seal_fork_blocks (w : W) : outcome unit :=
  let '(w, result) := submit_one w 0 (Alice, 0) in
  _ ← assert (is_ok result = true);
  '(w, r) ← seal None w false false None;
  created_block ← unwrap r;
  let w := increment_nonce w Alice in
  _ ← assert (created_aux created_block = new_best_aux);
  block ← expect (client_block w 1);
  let w := add_block w block in
  let '(w, result) := submit_one w 1 (Alice, 1) in
  _ ← assert (is_ok result = true);
  '(header, _) ← expect (client_block w 1);
  let w := maintain w (header_hash header) in
  '(w, r) ← seal None w false false (Some (created_hash created_block));
  _ ← assert (is_ok r = true);
  block ← expect (client_block w 2);
  let w := increment_nonce (add_block w block) Alice in
  let '(w, result) := submit_one w 1 (Bob, 0) in
  _ ← assert (is_ok result = true);
  '(w, r) ← seal None w false false (Some (created_hash created_block));
  imported ← unwrap r;
  _ ← expect (client_header w (created_hash imported));
  Ret tt.

Definition manual_seal_post_hash (w : W) : outcome unit :=
  '(w, r) ← seal (Some (TestDigestProvider other_1)) w true false None;
  created_block ← unwrap r;
  '(header, _) ← expect (client_block w 1);
  assert (header_hash header = created_hash created_block).

End tests.

(** ** What the tests rely on *)

(** The state of the test client: its blocks, the best one, the ready transactions, the
    nonces the pool's API tells, and the nonces of the accounts after the block of a hash. *)
Record TestView (DigestItem : Type) := mkTestView {
  blocks : list (BlockHeader DigestItem * list Uxt);
  best : BlockHeader DigestItem * list Uxt;
  ready : list Uxt;
  nonce : Z → Z;
  state : H256 → Z → Z;
}.
Arguments mkTestView {_}. Arguments blocks {_}. Arguments best {_}.
Arguments ready {_}. Arguments nonce {_}. Arguments state {_}.

(** A transaction is applied when it has the nonce of its account; a block that is proposed
    has those of the ready transactions, in their order, that can be applied. *)
Definition advance (s : Z → Z) (xt : Uxt) : Z → Z := λ a, if a =? xt.1 then s a + 1 else s a.
Fixpoint applicable (s : Z → Z) (l : list Uxt) : list Uxt :=
  match l with
  | [] => []
  | xt :: l => if xt.2 =? s xt.1 then xt :: applicable (advance s xt) l else applicable s l
  end.

Definition submitted {D} (xt : Uxt) (v : TestView D) : TestView D :=
  mkTestView (blocks v) (best v) (ready v ++ [xt]) (nonce v) (state v).
Definition incremented {D} (a : Z) (v : TestView D) : TestView D :=
  mkTestView (blocks v) (best v) (ready v) (λ a', if a' =? a then nonce v a + 1 else nonce v a')
    (state v).
Definition pruned {D} (body : list Uxt) (v : TestView D) : TestView D :=
  mkTestView (blocks v) (best v) (filter (λ xt, xt ∉ body) (ready v)) (nonce v) (state v).

Section laws.
Context {DigestItem W InherentData Proposer : Type}.
Context `{TC : !TestClient DigestItem W InherentData Proposer}.

(** Longest chain: a block becomes the best one when it is higher.  Its state is that of its
    parent after its transactions. *)
Definition imported (b : BlockHeader DigestItem * list Uxt) (v : TestView DigestItem) :
    TestView DigestItem :=
  mkTestView (blocks v ++ [b]) (if number (best v).1 <? number b.1 then b else best v)
    (ready v) (nonce v)
    (λ x, if x =? header_hash b.1 then foldl advance (state v (header_parent b.1)) b.2
          else state v x).

(** The header of a block made on a parent, with its roots. *)
Definition proposal (parent : BlockHeader DigestItem) (digest : list DigestItem) (r : Z) :
    BlockHeader DigestItem :=
  mkHeader (number parent + 1) (header_hash parent) r digest.

(** The roots and transactions of a block proposed on a parent.  Of many ready transactions
    the proposer may leave some out, by the deadline or the block limits; of two at most it
    takes all that can be applied on the state of the parent. *)
Definition proposed (root : H256 → list Uxt → Z) (v : TestView DigestItem)
    (parent : BlockHeader DigestItem) (r : Z) (body : list Uxt) : Prop :=
  (length (ready v) ≤ 2)%nat →
  body = applicable (state v (header_hash parent)) (ready v) ∧ r = root (header_hash parent) body.

(** The client shows its view: hashes do not collide, nor do the roots of the blocks of one
    parent, a header is found by its hash and the best block by its number, a block can be
    proposed on a known parent, a new block on a known parent is imported, the best block
    can be finalized, a transaction with the next nonce that is not in the pool is accepted,
    and the pool drops the transactions of a block it is told of. *)
Record test_laws (view : W → TestView DigestItem) (root : H256 → list Uxt → Z) : Prop := {
  l_hash h h' : header_hash h = header_hash h' → h = h';
  l_root p x x' : root p x = root p x' → x = x';
  l_ready w : pool_ready w = zlen (ready (view w));
  l_header w h : h ∈ (blocks (view w)).*1 → client_header w (header_hash h) = Ok (Some h);
  l_block w : client_block w (number (best (view w)).1) = Ok (Some (best (view w)));
  l_best w : best_chain w = Ok (best (view w)).1;
  l_data w : ∃ w' d, create_inherent_data w tt = (w', Ok d) ∧ inherents_len d = 0 ∧
    view w' = view w;
  l_propose w parent : parent ∈ (blocks (view w)).*1 → ∃ pr, env_init w parent = Ok pr ∧
    ∀ d digest t, inherents_len d = 0 → ∃ r body sc,
      propose w pr d digest t = Ok (proposal parent digest r, body, sc) ∧
      proposed root (view w) parent r body;
  l_import w p body parent :
    parent ∈ (blocks (view w)).*1 → header_parent (header p) = header_hash parent →
    post_header p ∉ (blocks (view w)).*1 → params_body p = Some body →
    ∃ w', import_block w p =
      (w', Ok (Imported (if number (best (view w)).1 <? number (header p)
                         then new_best_aux else side_aux))) ∧
      view w' = imported (post_header p, body) (view w);
  l_finalizer w j : ∃ w', finalizer w (header_hash (best (view w)).1) j = (w', Ok tt) ∧
    view w' = view w;
  l_submit w n xt :
    0 ≤ n ≤ number (best (view w)).1 → nonce (view w) xt.1 = xt.2 → xt ∉ ready (view w) →
    ∃ w', submit_one w n xt = (w', Ok tt) ∧ view w' = submitted xt (view w);
  l_increment w a : view (increment_nonce w a) = incremented a (view w);
  l_add w b : view (add_block w b) = view w;
  l_maintain w h body :
    NoDup (blocks (view w)).*1 → (h, body) ∈ blocks (view w) →
    view (maintain w (header_hash h)) = pruned body (view w);
}.

Context (view : W → TestView DigestItem) (root : H256 → list Uxt → Z).
Context (laws : test_laws view root).

(** The data providers of the tests: none, or [TestDigestProvider]. *)
Definition test_provider (post : bool) :
    option (ConsensusDataProvider DigestItem Uxt W InherentData) :=
  if post then Some (TestDigestProvider other_1) else None.
Definition post_logs (post : bool) : list DigestItem := if post then [other_1] else [].

(** A command as the engine runs it in a test. *)
Abbreviation command dp :=
  (run_command header_hash pool_ready client_header best_chain no_inherents
     create_inherent_data inherents_len env_init propose import_block finalizer dp).

(** The engine answers a seal with a block: when empty blocks are asked for or the block
    that is proposed has a transaction, the parent is the best block or one the client has,
    and the block is a new one, the command is answered with the block proposed on that
    parent, its post-digests included, which is then one of the client's blocks, and the
    best one if it is higher than the best before. *)
Lemma seal_answered post w create_empty finalize parent_hash parent sender :
  create_empty = true ∨ (∀ r body, proposed root (view w) parent r body → body ≠ []) →
  create_empty = true ∨ ready (view w) ≠ [] →
  parent ∈ (blocks (view w)).*1 →
  (parent_hash = None ∧ parent = (best (view w)).1 ∨ parent_hash = Some (header_hash parent)) →
  (∀ r body, proposed root (view w) parent r body →
     proposal parent (post_logs post) r ∉ (blocks (view w)).*1) →
  ∃ w' params r body,
    let h := proposal parent (post_logs post) r in
    command (test_provider post) w
      (SealNewBlock create_empty finalize parent_hash (Some sender)) =
    Ret (w', [ImportBlock params; AnswerBlock sender (Ok (mkCreatedBlock (header_hash h)
      (if number (best (view w)).1 <? number h then new_best_aux else side_aux)))]) ∧
    proposed root (view w) parent r body ∧ view w' = imported (h, body) (view w).
Proof.
  intros Hbody Hready Hknown Hparent Hnew.
  assert (seal_parent client_header best_chain w parent_hash = Ok parent) as Hsp.
  { destruct Hparent as [[-> ->] | ->]; simpl.
    - by rewrite (l_best _ _ laws).
    - by rewrite (l_header _ _ laws). }
  assert ((pool_ready w =? 0) && negb create_empty = false) as Hpool.
  { destruct Hready as [-> | Hne]; [by rewrite andb_false_r|].
    rewrite (l_ready _ _ laws). by destruct (ready (view w)). }
  destruct (l_data _ _ laws w) as (w1 & d & Hd & Hlen & Hv1).
  destruct (l_propose _ _ laws w1 parent) as (pr & Hpr & Hprop); [by rewrite Hv1|].
  destruct (Hprop d [] MAX_PROPOSAL_DURATION Hlen) as (r & body & sc & Hsc & Hps).
  rewrite Hv1 in Hps. specialize (Hnew r body Hps).
  set (h := proposal parent (post_logs post) r) in *.
  set (params := @mkParams DigestItem Uxt OriginOwn (proposal parent [] r)
    (post_logs post) (Some body) (Some sc) finalize (Some LongestChain) None None).
  assert (post_header params = h) as Hpost by by destruct post.
  destruct (l_import _ _ laws w1 params body parent) as (w2 & Himp & Hv2);
    rewrite ?Hv1, ?Hpost; try done.
  rewrite Hv1, Hpost in *. exists w2, params, r, body. split; [|done].
  cbn [run_command]. unfold seal_block, seal_future.
  rewrite Hpool, Hsp. cbn [no_inherents]. rewrite Hd, Hpr.
  assert (seal_digest (test_provider post) w1 parent d = Ret (w1, Ok [])) as ->
    by by destruct post.
  cbn [mbind outcome_bind]. rewrite Hsc.
  assert ((zlen body =? inherents_len d) && negb create_empty = false) as ->.
  { rewrite Hlen. destruct Hbody as [-> | Hne]; [by rewrite andb_false_r|].
    specialize (Hne r body Hps). by destruct body. }
  unfold seal_import. cbv zeta.
  match goal with |- context [seal_append ?dp w1 parent ?p d] =>
    assert (seal_append dp w1 parent p d = Ret (w1, Ok params)) as -> by by destruct post end.
  cbn [mbind outcome_bind]. by rewrite Himp.
Qed.

(** A test seals the block of at most two ready transactions. *)
Lemma seal_progress post w create_empty finalize parent_hash parent body :
  (length (ready (view w)) ≤ 2)%nat →
  applicable (state (view w) (header_hash parent)) (ready (view w)) = body →
  create_empty = true ∨ body ≠ [] →
  parent ∈ (blocks (view w)).*1 →
  (parent_hash = None ∧ parent = (best (view w)).1 ∨ parent_hash = Some (header_hash parent)) →
  let h := proposal parent (post_logs post) (root (header_hash parent) body) in
  h ∉ (blocks (view w)).*1 →
  ∃ w', seal (test_provider post) w create_empty finalize parent_hash =
    Ret (w', Ok (mkCreatedBlock (header_hash h)
      (if number (best (view w)).1 <? number h then new_best_aux else side_aux))) ∧
    view w' = imported (h, body) (view w).
Proof.
  intros Hlen Happ Hne Hknown Hparent h Hnew.
  assert (∀ r b, proposed root (view w) parent r b →
    b = body ∧ r = root (header_hash parent) body) as Hps.
  { intros r b Hp. destruct (Hp Hlen) as [-> ->]. by rewrite Happ. }
  destruct (seal_answered post w create_empty finalize parent_hash parent 0)
    as (w' & params & r & b & Hrun & Hp & Hv).
  - destruct Hne as [->|Hne]; [by left|right]. intros r b [-> _]%Hps. done.
  - destruct Hne as [->|Hne]; [by left|right]. intros Hr. rewrite Hr in Happ. by subst body.
  - done.
  - done.
  - intros r b [_ ->]%Hps. exact Hnew.
  - exists w'. destruct (Hps r b Hp) as [-> ->]. split; [|done].
    unfold seal, engine. cbn [run_manual_seal]. by rewrite Hrun.
Qed.

(** ** The tests pass *)

(** A client with its genesis only. *)
Definition test_genesis (w : W) (genesis : BlockHeader DigestItem) : Prop :=
  number genesis = 0 ∧
  view w = mkTestView [(genesis, [])] (genesis, []) [] (λ _, 0) (λ _ _, 0).

Lemma number_new parent digest r l :
  Forall (λ h, number h ≤ number parent) l → proposal parent digest r ∉ l.
Proof.
  rewrite Forall_forall. intros Hl Hin. specialize (Hl _ Hin). simpl in Hl. lia.
Qed.

(** ** The chain grows *)

(** The best block is one of the client's, and none is higher. *)
Definition longest (v : TestView DigestItem) : Prop :=
  (best v).1 ∈ (blocks v).*1 ∧ Forall (λ h, number h ≤ number (best v).1) (blocks v).*1.

(** The answers the engine gave on the channels of seals. *)
Definition block_answer (e : SealEffect DigestItem Uxt) : option (Z * result CreatedBlock SealError) :=
  match e with AnswerBlock s r => Some (s, r) | _ => None end.

Lemma grow_step post w finalize s :
  longest (view w) →
  ∃ w' params h, command (test_provider post) w (SealNewBlock true finalize None (Some s)) =
      Ret (w', [ImportBlock params;
                AnswerBlock s (Ok (mkCreatedBlock (header_hash h) new_best_aux))]) ∧
    number h = number (best (view w)).1 + 1 ∧ header_parent h = header_hash (best (view w)).1 ∧
    (blocks (view w')).*1 = (blocks (view w)).*1 ++ [h] ∧ (best (view w')).1 = h ∧
    longest (view w').
Proof.
  intros [Hin Hall].
  destruct (seal_answered post w true finalize None (best (view w)).1 s)
    as (w' & params & r & body & Hrun & _ & Hv);
    [by left|by left|done|by left|intros r body _; by apply number_new|].
  assert ((number (best (view w)).1 <? number (best (view w)).1 + 1) = true) as Hlt
    by (apply Z.ltb_lt; lia).
  cbn [proposal number] in Hrun. rewrite Hlt in Hrun.
  exists w', params, (proposal (best (view w)).1 (post_logs post) r).
  split; [exact Hrun|]. split; [done|]. split; [done|].
  rewrite Hv. unfold longest, imported. cbn [blocks best fst proposal number]. rewrite Hlt.
  rewrite fmap_app. split; [done|]. split; [done|]. split; [apply elem_of_app; right; by left|].
  apply Forall_app. split; [|apply Forall_singleton; simpl; lia].
  eapply Forall_impl; [exact Hall|]. intros h Hh. simpl in *. lia.
Qed.

(** C29: the engine makes progress, over a client whose proposer makes a block, of
    whichever ready transactions, on every block it knows, and which imports the new blocks
    on those.  Every sequence of seals on the best block that ask for empty blocks, whatever
    is in the pool, with or without a provider of post-digests, is answered in order with
    new best blocks, each the parent of the next and one higher. *)
Theorem engine_grows post w seals :
  longest (view w) →
  ∃ w' effs hs,
    engine (test_provider post) w
      ((λ '(finalize, s), SealNewBlock true finalize None (Some s)) <$> seals) = Ret (w', effs) ∧
    length hs = length seals ∧
    omap block_answer effs =
      zip_with (λ x h, (x.2, Ok (mkCreatedBlock (header_hash h) new_best_aux))) seals hs ∧
    number <$> hs = seqZ (number (best (view w)).1 + 1) (zlen seals) ∧
    (blocks (view w')).*1 = (blocks (view w)).*1 ++ hs ∧
    (best (view w')).1 = default (best (view w)).1 (last hs) ∧
    (∀ i h1 h2, ((best (view w)).1 :: hs) !! i = Some h1 → hs !! i = Some h2 →
       header_parent h2 = header_hash h1).
Proof.
  revert w. induction seals as [|[finalize s] seals IH]; intros w Hw.
  { exists w, [], []. split_and!; try done. by rewrite app_nil_r. }
  destruct (grow_step post w finalize s Hw) as (w1 & params & h & Hrun & Hn & Hp & Hb & Hbest & Hw1).
  destruct (IH w1 Hw1) as (w' & effs & hs & Hruns & Hlen & Hans & Hnum & Hbs & Hlast & Hlink).
  exists w'. eexists. exists (h :: hs). rewrite Hbest in *. split_and!.
  - unfold engine. cbn [fmap list_fmap run_manual_seal]. rewrite Hrun, bind_Ret.
    unfold engine in Hruns. by rewrite Hruns, bind_Ret.
  - simpl. by rewrite Hlen.
  - by rewrite omap_app, Hans.
  - rewrite fmap_cons, Hnum, Hn. rewrite (seqZ_cons _ (zlen (_ :: seals))) by (simpl; lia).
    f_equal. apply (f_equal2 seqZ); cbn [length]; lia.
  - by rewrite Hbs, Hb, <-(assoc_L (++)).
  - rewrite Hlast, last_cons. by destruct (last hs).
  - intros [|i] h1 h2; simpl; [by intros [= <-] [= <-]|]. apply Hlink.
Qed.

(** The first transaction and its block. *)
Lemma first_block w genesis finalize :
  test_genesis w genesis →
  let h1 := proposal genesis [] (root (header_hash genesis) [(Alice, 0)]) in
  ∃ w1 w2 st, submit_one w 0 (Alice, 0) = (w1, Ok tt) ∧
    seal None w1 false finalize None =
      Ret (w2, Ok (mkCreatedBlock (header_hash h1) new_best_aux)) ∧
    view w2 = mkTestView [(genesis, []); (h1, [(Alice, 0)])] (h1, [(Alice, 0)]) [(Alice, 0)]
                (λ _, 0) st ∧
    st (header_hash h1) = advance (λ _, 0) (Alice, 0).
Proof.
  intros [Hn Hv] h1.
  destruct (l_submit _ _ laws w 0 (Alice, 0)) as (w1 & Hsub & Hv1);
    [rewrite Hv; simpl; lia|by rewrite Hv|rewrite Hv; apply not_elem_of_nil|].
  rewrite Hv in Hv1. unfold submitted in Hv1. simpl in Hv1.
  destruct (seal_progress false w1 false finalize None genesis [(Alice, 0)])
    as (w2 & Hseal & Hv2); rewrite ?Hv1; simpl.
  - lia.
  - done.
  - by right.
  - by left.
  - by left.
  - apply number_new. by repeat constructor.
  - rewrite Hv1 in Hseal, Hv2. simpl in Hseal. unfold imported in Hv2. simpl in Hv2.
    rewrite (proj2 (Z.ltb_lt _ _)) in Hseal, Hv2 by lia.
    exists w1, w2. eexists. split_and!; [done|exact Hseal|exact Hv2|].
    cbn beta. by rewrite Z.eqb_refl.
Qed.

Lemma assert_true (P : Prop) `{!Decision P} : P → assert P = Ret tt.
Proof. intros HP. unfold assert. by rewrite decide_True. Qed.

Lemma bind_assert {A} (P : Prop) `{!Decision P} (k : unit → outcome A) :
  P → (x ← assert P; k x) = k tt.
Proof. intros HP. by rewrite (assert_true P HP). Qed.

(** The best block is the client's block of its number. *)
Lemma best_block w v n : view w = v → number (best v).1 = n → client_block w n = Ok (Some (best v)).
Proof. intros <- <-. apply (l_block _ _ laws). Qed.

Lemma instant_seal_passes w genesis : test_genesis w genesis → instant_seal w = Ret tt.
Proof.
  intros Hg. destruct (first_block w genesis true Hg) as (w1 & w2 & st & Hsub & Hseal & Hv & _).
  unfold instant_seal. rewrite Hsub, bind_assert by done. rewrite Hseal, !bind_Ret.
  cbn [unwrap]. rewrite bind_Ret, bind_assert by done.
  rewrite (best_block _ _ 1 Hv) by (simpl; rewrite (proj1 Hg); lia). done.
Qed.

Lemma manual_seal_and_finalization_passes w genesis :
  test_genesis w genesis → manual_seal_and_finalization w = Ret tt.
Proof.
  intros Hg. destruct (first_block w genesis false Hg) as (w1 & w2 & st & Hsub & Hseal & Hv & _).
  unfold manual_seal_and_finalization. rewrite Hsub, bind_assert by done.
  rewrite Hseal, !bind_Ret. cbn [unwrap]. rewrite bind_Ret, bind_assert by done.
  rewrite (best_block _ _ 1 Hv) by (simpl; rewrite (proj1 Hg); lia).
  destruct (l_finalizer _ _ laws w2 None) as (w3 & Hfin & _). rewrite Hv in Hfin.
  cbn [expect best]. rewrite bind_Ret. unfold engine.
  cbn [run_manual_seal run_command]. unfold finalize_block. cbn [fmap option_fmap option_map].
  cbn [best fst] in Hfin. rewrite Hfin. reflexivity.
Qed.

Lemma manual_seal_post_hash_passes w genesis :
  test_genesis w genesis → manual_seal_post_hash w = Ret tt.
Proof.
  intros [Hn Hv].
  destruct (seal_progress true w true false None genesis []) as (w1 & Hseal & Hv1);
    rewrite ?Hv; simpl.
  - lia.
  - done.
  - by left.
  - by left.
  - by left.
  - apply number_new. by repeat constructor.
  - unfold manual_seal_post_hash. rewrite Hv in Hseal, Hv1. unfold imported in Hv1.
    simpl in Hv1. rewrite (proj2 (Z.ltb_lt _ _)) in Hv1 by lia.
    cbn [test_provider] in Hseal. rewrite Hseal, bind_Ret. cbn [unwrap]. rewrite bind_Ret.
    rewrite (best_block _ _ 1 Hv1) by (simpl; lia). cbn [expect best]. rewrite bind_Ret.
    by apply assert_true.
Qed.

(** After the first block of the fork test: the second transaction is submitted, the first
    one pruned, and the second block is on the first. *)
Lemma second_block w genesis h1 st :
  number genesis = 0 → number h1 = 1 →
  view w = mkTestView [(genesis, []); (h1, [(Alice, 0)])] (h1, [(Alice, 0)]) [(Alice, 0)]
             (λ _, 0) st →
  st (header_hash h1) = advance (λ _, 0) (Alice, 0) →
  let h2 := proposal h1 [] (root (header_hash h1) [(Alice, 1)]) in
  ∃ w1 w2 st', submit_one (add_block (increment_nonce w Alice) (h1, [(Alice, 0)])) 1 (Alice, 1) =
      (w1, Ok tt) ∧
    view w1 = mkTestView [(genesis, []); (h1, [(Alice, 0)])] (h1, [(Alice, 0)])
                [(Alice, 0); (Alice, 1)] (λ a, if a =? Alice then 1 else 0) st ∧
    seal None (maintain w1 (header_hash h1)) false false (Some (header_hash h1)) =
      Ret (w2, Ok (mkCreatedBlock (header_hash h2) new_best_aux)) ∧
    view w2 = mkTestView [(genesis, []); (h1, [(Alice, 0)]); (h2, [(Alice, 1)])]
                (h2, [(Alice, 1)]) [(Alice, 1)] (λ a, if a =? Alice then 1 else 0) st' ∧
    st' (header_hash h1) = advance (λ _, 0) (Alice, 0).
Proof.
  intros Hn Hn1 Hv Hst h2. set (w0 := add_block (increment_nonce w Alice) (h1, [(Alice, 0)])).
  assert (view w0 = incremented Alice (view w)) as Hv0.
  { unfold w0. by rewrite (l_add _ _ laws), (l_increment _ _ laws). }
  rewrite Hv in Hv0. unfold incremented in Hv0. simpl in Hv0.
  destruct (l_submit _ _ laws w0 1 (Alice, 1)) as (w1 & Hsub & Hv1);
    [rewrite Hv0; simpl; lia|by rewrite Hv0|rewrite Hv0; by intros Hin%list_elem_of_singleton|].
  rewrite Hv0 in Hv1. unfold submitted in Hv1. simpl in Hv1.
  assert (view (maintain w1 (header_hash h1)) = pruned [(Alice, 0)] (view w1)) as Hv2.
  { apply (l_maintain _ _ laws); rewrite Hv1; simpl; [|by right; left].
    apply NoDup_cons. split; [|apply NoDup_singleton].
    intros E%list_elem_of_singleton. by rewrite E, Hn1 in Hn. }
  rewrite Hv1 in Hv2. unfold pruned in Hv2. simpl in Hv2.
  rewrite !filter_cons, filter_nil, decide_False in Hv2 by (intros Hx; apply Hx; by left).
  rewrite decide_True in Hv2 by by intros Hx%list_elem_of_singleton.
  destruct (seal_progress false (maintain w1 (header_hash h1)) false false
    (Some (header_hash h1)) h1 [(Alice, 1)]) as (w2 & Hseal & Hv3); rewrite ?Hv2; simpl.
  - lia.
  - by rewrite Hst.
  - by right.
  - by right; left.
  - by right.
  - apply number_new. repeat constructor; lia.
  - rewrite Hv2 in Hseal, Hv3. simpl in Hseal. unfold imported in Hv3. simpl in Hv3.
    rewrite (proj2 (Z.ltb_lt _ _)) in Hseal, Hv3 by lia.
    exists w1, w2. eexists. split_and!; [done|exact Hv1|exact Hseal|exact Hv3|].
    cbn beta. case_match eqn:E; [|exact Hst].
    apply Z.eqb_eq, (l_hash _ _ laws), (f_equal number) in E. simpl in E. lia.
Qed.

(** The block beside the second one has another transaction. *)
Lemma fork_block w genesis h1 st :
  number genesis = 0 → number h1 = 1 →
  let h2 := proposal h1 [] (root (header_hash h1) [(Alice, 1)]) in
  let h3 := proposal h1 [] (root (header_hash h1) [(Alice, 1); (Bob, 0)]) in
  view w = mkTestView [(genesis, []); (h1, [(Alice, 0)]); (h2, [(Alice, 1)])]
             (h2, [(Alice, 1)]) [(Alice, 1)] (λ a, if a =? Alice then 1 else 0) st →
  st (header_hash h1) = advance (λ _, 0) (Alice, 0) →
  ∃ w1 w2, submit_one (increment_nonce (add_block w (h2, [(Alice, 1)])) Alice) 1 (Bob, 0) =
      (w1, Ok tt) ∧
    seal None w1 false false (Some (header_hash h1)) =
      Ret (w2, Ok (mkCreatedBlock (header_hash h3) side_aux)) ∧
    client_header w2 (header_hash h3) = Ok (Some h3).
Proof.
  intros Hn Hn1 h2 h3 Hv Hst.
  set (w0 := increment_nonce (add_block w (h2, [(Alice, 1)])) Alice).
  assert (view w0 = incremented Alice (view w)) as Hv0.
  { unfold w0. by rewrite (l_increment _ _ laws), (l_add _ _ laws). }
  rewrite Hv in Hv0. unfold incremented in Hv0. simpl in Hv0.
  destruct (l_submit _ _ laws w0 1 (Bob, 0)) as (w1 & Hsub & Hv1);
    [rewrite Hv0; simpl; lia|by rewrite Hv0
    |rewrite Hv0; by intros Hin%list_elem_of_singleton|].
  rewrite Hv0 in Hv1. unfold submitted in Hv1. simpl in Hv1.
  destruct (seal_progress false w1 false false (Some (header_hash h1)) h1
    [(Alice, 1); (Bob, 0)]) as (w2 & Hseal & Hv2); rewrite ?Hv1; simpl.
  - lia.
  - by rewrite Hst.
  - by right.
  - by right; left.
  - by right.
  - rewrite !elem_of_cons. intros [E|[E|[E|E]]]; [..|by apply not_elem_of_nil in E].
    + apply (f_equal number) in E. simpl in E. lia.
    + apply (f_equal number) in E. simpl in E. lia.
    + injection E as E. by apply (l_root _ _ laws) in E.
  - rewrite Hv1 in Hseal, Hv2. simpl in Hseal. rewrite Z.ltb_irrefl in Hseal.
    exists w1, w2. split_and!; [done|exact Hseal|]. apply (l_header _ _ laws).
    rewrite Hv2. simpl. by right; right; right; left.
Qed.

Lemma manual_seal_fork_blocks_passes w genesis :
  test_genesis w genesis → manual_seal_fork_blocks w = Ret tt.
Proof.
  intros Hg. destruct (first_block w genesis false Hg) as (w1 & w2 & st & Hsub & Hseal & Hv & Hst).
  destruct Hg as [Hn _].
  set (h1 := proposal genesis [] (root (header_hash genesis) [(Alice, 0)])) in *.
  assert (number h1 = 1) as Hn1 by (simpl; lia).
  destruct (second_block w2 genesis h1 st)
    as (w3 & w4 & st' & Hsub2 & Hv3 & Hseal2 & Hv4 & Hst'); [exact Hn|exact Hn1|exact Hv|exact Hst|].
  destruct (fork_block w4 genesis h1 st') as (w5 & w6 & Hsub3 & Hseal3 & Hh3);
    [exact Hn|exact Hn1|exact Hv4|exact Hst'|].
  unfold manual_seal_fork_blocks. rewrite Hsub, bind_assert by done.
  rewrite Hseal, bind_Ret. cbn [unwrap]. rewrite bind_Ret, bind_assert by done.
  assert (view (increment_nonce w2 Alice) = incremented Alice (view w2)) as Hvi
    by apply (l_increment _ _ laws). rewrite Hv in Hvi.
  rewrite (best_block _ _ 1 Hvi Hn1). cbn [expect incremented best]. rewrite bind_Ret.
  rewrite Hsub2, bind_assert by done. rewrite (best_block _ _ 1 Hv3 Hn1).
  cbn [expect best]. rewrite bind_Ret. cbn [created_hash].
  rewrite Hseal2, bind_Ret, bind_assert by done.
  rewrite (best_block _ _ 2 Hv4) by (simpl; lia). cbn [expect best]. rewrite bind_Ret.
  rewrite Hsub3, bind_assert by done. rewrite Hseal3, bind_Ret. cbn [unwrap].
  rewrite bind_Ret. cbn [created_hash]. by rewrite Hh3.
Qed.

(** The four tests pass over every client that shows the view the laws describe. *)
Theorem manual_seal_tests_pass w genesis :
  test_genesis w genesis →
  instant_seal w = Ret tt ∧ manual_seal_and_finalization w = Ret tt ∧
  manual_seal_fork_blocks w = Ret tt ∧ manual_seal_post_hash w = Ret tt.
Proof.
  intros Hg. split_and!.
  - by eapply instant_seal_passes.
  - by eapply manual_seal_and_finalization_passes.
  - by eapply manual_seal_fork_blocks_passes.
  - by eapply manual_seal_post_hash_passes.
Qed.

End laws.

(** ** Witness: a client that is its view *)

Module TestClientExample.
Abbreviation Hdr := (BlockHeader Z).
Definition hash (h : Hdr) : H256 :=
  Z.pos (encode (number h, header_parent h, roots h, logs h)).
Definition root (p : H256) (l : list Uxt) : Z := Z.pos (encode (p, l)).
Definition find (v : TestView Z) (x : H256) : option (Hdr * list Uxt) :=
  snd <$> list_find (λ b, hash b.1 = x) (blocks v).
Definition block_at (v : TestView Z) (n : Z) : option (Hdr * list Uxt) :=
  if number (best v).1 =? n then Some (best v) else None.
Definition stored (b : Hdr * list Uxt) (v : TestView Z) : TestView Z :=
  mkTestView (blocks v ++ [b]) (if number (best v).1 <? number b.1 then b else best v)
    (ready v) (nonce v)
    (λ x, if x =? hash b.1 then foldl advance (state v (header_parent b.1)) b.2 else state v x).
Definition import (v : TestView Z) (p : BlockImportParams Z Uxt) :
    TestView Z * result ImportResult Z :=
  match find v (hash (post_header p)) with
  | Some _ => (v, Ok AlreadyInChain)
  | None =>
      (stored (post_header p, default [] (params_body p)) v,
       Ok (Imported (if number (best v).1 <? number (header p) then 1 else 0)))
  end.
Definition prune (v : TestView Z) (x : H256) : TestView Z :=
  match find v x with Some b => pruned b.2 v | None => v end.

#[global] Instance client : TestClient Z (TestView Z) unit Hdr := {|
  header_hash := hash;
  pool_ready := λ v, zlen (ready v);
  client_header := λ v x, Ok (fst <$> find v x);
  client_block := λ v n, Ok (block_at v n);
  best_chain := λ v, Ok (best v).1;
  create_inherent_data := λ v _, (v, Ok tt);
  inherents_len := λ _, 0;
  env_init := λ _ h, Ok h;
  propose := λ v h _ digest _,
    let body := applicable (state v (hash h)) (ready v) in
    Ok (mkHeader (number h + 1) (hash h) (root (hash h) body) digest, body, 0);
  import_block := import;
  finalizer := λ v _ _, (v, Ok tt);
  submit_one := λ v _ xt, (submitted xt v, Ok tt);
  increment_nonce := λ v a, incremented a v;
  add_block := λ v _, v;
  maintain := prune;
  new_best_aux := 1;
  side_aux := 0;
  other_1 := 1;
|}.

Lemma hash_inj h h' : hash h = hash h' → h = h'.
Proof.
  unfold hash. intros [= E%(inj encode)]. destruct h, h'. simpl in E. congruence.
Qed.

Lemma find_Some v x b : find v x = Some b → b ∈ blocks v ∧ hash b.1 = x.
Proof.
  unfold find. intros ([i b'] & Hf & ->)%fmap_Some.
  apply list_find_Some in Hf as (Hi & Hx & _). split; [by eapply list_elem_of_lookup_2|done].
Qed.
Lemma find_known v h : h ∈ (blocks v).*1 → ∃ body, find v (hash h) = Some (h, body).
Proof.
  intros (b & -> & Hb)%list_elem_of_fmap.
  destruct (find v (hash b.1)) as [[h' body]|] eqn:Hf.
  - pose proof (find_Some _ _ _ Hf) as [_ E%hash_inj]. simpl in E. subst h'. by exists body.
  - unfold find in Hf. apply fmap_None in Hf. eapply list_find_None in Hf.
    rewrite Forall_forall in Hf. by destruct (Hf b Hb).
Qed.

Lemma client_laws : test_laws (TC := client) id root.
Proof.
  split; try done.
  - apply hash_inj.
  - intros p x x' E. injection E as E. apply (inj encode) in E. congruence.
  - intros w h Hh. destruct (find_known _ _ Hh) as [body Hf]. cbn in *. by rewrite Hf.
  - intros w. cbn. unfold block_at. by rewrite Z.eqb_refl.
  - intros w. by exists w, tt.
  - intros w parent _. exists parent. split; [done|]. intros d digest t _.
    by eexists _, _, 0.
  - intros w p body parent Hp Hpar Hnew Hbody. cbn. unfold import.
    destruct (find w (hash (post_header p))) as [b|] eqn:Hf.
    + apply find_Some in Hf as [Hb E%hash_inj]. destruct Hnew. rewrite <-E.
      by apply list_elem_of_fmap_2.
    + eexists. split; [done|]. by rewrite Hbody.
  - intros w j. by exists w.
  - intros w n xt _ _ _. by eexists.
  - intros w h body Hnd Hin. cbn. unfold prune.
    destruct (find_known w h) as [body' Hf]; [by apply (list_elem_of_fmap_2 fst _ (h, body))|].
    rewrite Hf. apply find_Some in Hf as [Hin' _].
    assert ((h, body') = (h, body)) as [= ->]; [|done].
    apply list_elem_of_lookup in Hin as [i Hi], Hin' as [j Hj].
    unfold id in *. assert (i = j) as ->; [|congruence].
    eapply NoDup_lookup; [exact Hnd|..]; rewrite list_lookup_fmap; [by rewrite Hi|by rewrite Hj].
Qed.

Definition genesis : Hdr := mkHeader 0 0 0 [].
Definition start : TestView Z := mkTestView [(genesis, [])] (genesis, []) [] (λ _, 0) (λ _ _, 0).
End TestClientExample.

Lemma engine_grows_witness :
  ∃ w' effs hs,
    engine (TC := TestClientExample.client) (test_provider true) TestClientExample.start
      [SealNewBlock true false None (Some 7); SealNewBlock true true None (Some 8)] =
      Ret (w', effs) ∧ length hs = 2%nat ∧ number <$> hs = [1; 2] ∧
    omap block_answer effs =
      zip_with (λ s h, (s, Ok (mkCreatedBlock (TestClientExample.hash h) 1))) [7; 8] hs.
Proof.
  destruct (@engine_grows Z (TestView Z) unit (BlockHeader Z) TestClientExample.client id
    TestClientExample.root TestClientExample.client_laws true TestClientExample.start
    [(false, 7); (true, 8)]) as (w' & effs & hs & Hrun & Hlen & Hans & Hnum & _).
  { split; cbn; [by left|]. constructor; [cbn; lia|constructor]. }
  exists w', effs, hs. split; [exact Hrun|]. split; [exact Hlen|]. split; [exact Hnum|].
  rewrite Hans. destruct hs as [|h1 [|h2 [|]]]; [discriminate..| |discriminate]. reflexivity.
Defined.

Lemma manual_seal_tests_pass_witness :
  instant_seal (TC := TestClientExample.client) TestClientExample.start = Ret tt ∧
  manual_seal_and_finalization (TC := TestClientExample.client) TestClientExample.start = Ret tt ∧
  manual_seal_fork_blocks (TC := TestClientExample.client) TestClientExample.start = Ret tt ∧
  manual_seal_post_hash (TC := TestClientExample.client) TestClientExample.start = Ret tt.
Proof.
  apply (@manual_seal_tests_pass Z (TestView Z) unit (BlockHeader Z) TestClientExample.client id
    TestClientExample.root TestClientExample.client_laws TestClientExample.start
    TestClientExample.genesis). by split.
Defined.
