(* ===== verification/Babe.v ===== *)
(** * The Babe data provider of the manual seal engine

    consensus/babe.rs of node/consensus-transition/manual-seal: the digests and the
    epoch descriptors that let the engine author blocks for a runtime with Babe, the
    verifier for such blocks, and the mocked timestamps for Babe of
    consensus/timestamp.rs.

    The tree of epoch changes, the claim of a slot and Babe's digest items are the
    framework's; the tree is a class with the laws of its documentation. *)

From stdpp Require Import base tactics list strings.
From Stdlib Require Import ZArith Lia Strings.Byte.
From S2P Require Import Prelude Blocks Aura ManualSeal ManualSealSpec.
Local Open Scope Z_scope.

(** ** The framework's types *)

Abbreviation AuthorityId := Z (only parsing).

(** An epoch: its authorities with their weights, its randomness, and the fields
    this code does not look at. *)
Record Epoch := mkEpoch {
  epoch_authorities : list (AuthorityId * Z);
  randomness : Z;
  epoch_rest : Z;
}.

Inductive PreDigest :=
| Primary (authority_index : Z) (slot : Slot) (vrf : Z)
| SecondaryPlain (authority_index : Z) (slot : Slot)
| SecondaryVRF (authority_index : Z) (slot : Slot) (vrf : Z).

(** [PreDigest::slot]. *)
Definition pre_digest_slot (p : PreDigest) : Slot :=
  match p with
  | Primary _ slot _ | SecondaryPlain _ slot | SecondaryVRF _ slot _ => slot
  end.

(** [NextEpochDescriptor]. *)
Record NextEpochDescriptor := mkNextEpoch {
  next_authorities : list (AuthorityId * Z);
  next_randomness : Z;
}.

(** The configuration of Babe that the runtime gives: the slot duration, and of
    the genesis configuration the length of an epoch. *)
Record BabeConfig := mkBabeConfig {
  babe_slot_duration : Z;
  epoch_length : Z;
}.

(** The digests of Babe: a pre-digest is read back from a header that holds no
    other one, and an announcement of an epoch is not a pre-digest.
    [find_pre_digest] of the framework answers for the genesis block without
    looking at its digests. *)
Class BabeDigest (DigestItem : Type) := {
  babe_pre_digest : PreDigest → DigestItem;
  next_epoch_data : NextEpochDescriptor → DigestItem;
  as_babe_pre_digest : DigestItem → option PreDigest;
  babe_find_pre_digest : BlockHeader DigestItem → result PreDigest Z;
  as_babe_pre p : as_babe_pre_digest (babe_pre_digest p) = Some p;
  as_babe_next n : as_babe_pre_digest (next_epoch_data n) = None;
  babe_find_one h p :
    number h ≠ 0 → omap as_babe_pre_digest (logs h) = [p] → babe_find_pre_digest h = Ok p;
}.

(** The tree of epoch changes [EpochChanges]: the descriptor of the epoch of a child
    of a block at a slot comes from the headers of the tree, which a change of the
    epoch itself does not touch; the epoch of a descriptor is the one stored for the
    identifier, or made from the slot before genesis is imported. *)
Class EpochChanges (E : Type) := {
  epoch_descriptor_for_child_of : E → H256 → Z → Slot → result (option ViableEpochDescriptor) Z;
  stored_epoch : E → EpochIdentifier → option Epoch;
  set_epoch : E → EpochIdentifier → Epoch → E;
  viable_epoch : E → ViableEpochDescriptor → (Slot → Epoch) → option Epoch;
  viable_signaled e id hd make : viable_epoch e (Signaled id hd) make = stored_epoch e id;
  viable_genesis e slot make : viable_epoch e (UnimportedGenesis slot) make = Some (make slot);
  stored_set e id ep : is_Some (stored_epoch e id) → stored_epoch (set_epoch e id ep) id = Some ep;
  descriptor_set e id ep h n s :
    epoch_descriptor_for_child_of (set_epoch e id ep) h n s = epoch_descriptor_for_child_of e h n s;
}.

(** The messages of this file, as string errors. *)
Definition no_babe_inherent_data : SealError := StringError 2.
Definition no_timestamp_inherent_data : SealError := StringError 3.
Definition empty_authority_set : SealError := StringError 4.
Definition epoch_descriptor_failed (e : Z) : SealError := StringError e.
(** [sp_consensus::Error::InvalidAuthoritiesSet] *)
Definition InvalidAuthoritiesSet : SealError := SealConsensusError 0.

(** [self.authorities] of a provider; [new] refuses the empty list. *)
Definition babe_provider_new (authorities : list (AuthorityId * Z)) (config : result BabeConfig Z) :
    result (BabeConfig * list (AuthorityId * Z)) SealError :=
  match authorities with
  | [] => Err empty_authority_set
  | _ =>
      match config with
      | Err e => Err (BlockchainError e)
      | Ok config => Ok (config, authorities)
      end
  end.

Section provider.
Context `{!BuildProfile}.
Context {DigestItem Extrinsic InherentData E : Type}.
Context `{!BabeDigest DigestItem} `{!EpochChanges E}.
Context (header_hash : BlockHeader DigestItem → H256).
(** [Slot::from_timestamp], the slot and the timestamp in the inherent data,
    [Epoch::genesis] for the configuration of the runtime, and
    [authorship::claim_slot] with the keystore. *)
Context (from_timestamp : Z → Z → Slot).
Context (babe_inherent_data : InherentData → result (option Slot) Z).
Context (timestamp_inherent_data : InherentData → result (option Z) Z).
Context (epoch_genesis : Slot → Epoch).
Context (babe_claim_slot : Slot → Epoch → option PreDigest).
(** The fields of the provider. *)
Context (config : BabeConfig) (authorities : list (AuthorityId * Z)).

(** [epoch_changes.epoch_descriptor_for_child_of(..)] with the errors all callers
    turn it into. *)
Definition child_descriptor (e : E) (parent : BlockHeader DigestItem) (slot : Slot) :
    result ViableEpochDescriptor SealError :=
  match epoch_descriptor_for_child_of e (header_hash parent) (number parent) slot with
  | Err err => Err (epoch_descriptor_failed err)
  | Ok None => Err InvalidAuthoritiesSet
  | Ok (Some d) => Ok d
  end.

(** [BabeConsensusDataProvider::epoch]. *)
Definition provider_epoch (e : E) (parent : BlockHeader DigestItem) (slot : Slot) :
    result Epoch SealError :=
  epoch_descriptor ←? child_descriptor e parent slot;
  match viable_epoch e epoch_descriptor epoch_genesis with
  | None => Err InvalidAuthoritiesSet
  | Some epoch => Ok epoch
  end.

(** The slot of the inherent data. *)
Definition inherent_slot (d : InherentData) : result Slot SealError :=
  match babe_inherent_data d with
  | Err e => Err (SealInherentError e)
  | Ok None => Err no_babe_inherent_data
  | Ok (Some slot) => Ok slot
  end.

Definition set_epoch_authorities (l : list (AuthorityId * Z)) (ep : Epoch) : Epoch :=
  mkEpoch l (randomness ep) (epoch_rest ep).

(** The digests of a slot that cannot be claimed: the epoch is given the provider's
    authorities, and told to the import. *)
Definition unclaimed_digest (e : E) (parent : BlockHeader DigestItem) (slot : Slot) :
    E * result (list DigestItem) SealError :=
  let predigest := SecondaryPlain 0 slot in
  match child_descriptor e parent slot with
  | Err err => (e, Err err)
  | Ok (Signaled identifier _) =>
      match stored_epoch e identifier with
      | None => (e, Err InvalidAuthoritiesSet)
      | Some epoch_mut =>
          let epoch_mut := set_epoch_authorities authorities epoch_mut in
          (set_epoch e identifier epoch_mut,
           Ok [babe_pre_digest predigest;
               next_epoch_data (mkNextEpoch authorities (randomness epoch_mut))])
      end
  | Ok (UnimportedGenesis _) => (e, Ok [babe_pre_digest predigest])
  end.

(** [ConsensusDataProvider::create_digest]. *)
Definition babe_create_digest (e : E) (parent : BlockHeader DigestItem) (d : InherentData) :
    E * result (list DigestItem) SealError :=
  match inherent_slot d with
  | Err err => (e, Err err)
  | Ok slot =>
      match provider_epoch e parent slot with
      | Err err => (e, Err err)
      | Ok epoch =>
          match babe_claim_slot slot epoch with
          | Some predigest => (e, Ok [babe_pre_digest predigest])
          | None => unclaimed_digest e parent slot
          end
      end
  end.

Definition set_intermediate (d : ViableEpochDescriptor)
    (p : BlockImportParams DigestItem Extrinsic) : BlockImportParams DigestItem Extrinsic :=
  mkParams (origin p) (header p) (post_digests p) (params_body p) (changes p) (finalized p)
    (fork_choice p) (post_hash p) (Some d).

(** The descriptor made up when the provider's authority is not of the epoch. *)
Definition hard_coded (d : InherentData) (descriptor : ViableEpochDescriptor) :
    outcome (result ViableEpochDescriptor SealError) :=
  match timestamp_inherent_data d with
  | Err e => Ret (Err (SealInherentError e))
  | Ok None => Ret (Err no_timestamp_inherent_data)
  | Ok (Some timestamp) =>
      let slot := from_timestamp timestamp (babe_slot_duration config) in
      match descriptor with
      | Signaled identifier _ =>
          end_slot ← mul_w 64 slot (epoch_length config);
          Ret (Ok (Signaled identifier (mkEpochHeader slot end_slot)))
      | UnimportedGenesis _ => Panic
      end
  end.

Definition has_authority (epoch : Epoch) (authority : AuthorityId) : bool :=
  existsb (λ x : AuthorityId * Z, x.1 =? authority) (epoch_authorities epoch).

(** [ConsensusDataProvider::append_block_import]. *)
Definition babe_append_block_import (e : E) (parent : BlockHeader DigestItem)
    (params : BlockImportParams DigestItem Extrinsic) (d : InherentData) :
    outcome (result (BlockImportParams DigestItem Extrinsic) SealError) :=
  match inherent_slot d with
  | Err err => Ret (Err err)
  | Ok slot =>
  match child_descriptor e parent slot with
  | Err err => Ret (Err err)
  | Ok epoch_descriptor =>
  match provider_epoch e parent slot with
  | Err err => Ret (Err err)
  | Ok epoch =>
  match authorities with
  | [] => Panic
  | (authority, _) :: _ =>
      epoch_descriptor ←
        (if has_authority epoch authority then Ret (Ok epoch_descriptor)
         else hard_coded d epoch_descriptor);
      Ret match epoch_descriptor with
          | Err err => Err err
          | Ok epoch_descriptor => Ok (set_intermediate epoch_descriptor params)
          end
  end end end end.

(** The provider for the engine, whose world has the shared tree as a part. *)
Definition BabeConsensusDataProvider {W} :
    ConsensusDataProvider DigestItem Extrinsic (E * W) InherentData :=
  mkDataProvider
    (λ w parent d,
       let '(e, r) := babe_create_digest w.1 parent d in Ret ((e, w.2), r))
    (λ w parent params d,
       r ← babe_append_block_import w.1 parent params d; Ret (w, r)).

(** ** The verifier *)

Inductive BabeVerifyError :=
| PreDigestError (e : Z)
| ParentNotFound (h : H256)
| DescriptorError (e : Z)
| NoAuthorities.

Context (client_header : H256 → result (option (BlockHeader DigestItem)) Z).

(** [BabeVerifier::verify]. *)
Definition babe_verify (e : E) (block : BlockImportParams DigestItem Extrinsic) :
    result (BlockImportParams DigestItem Extrinsic) BabeVerifyError :=
  let import_params :=
    mkParams (origin block) (header block) (post_digests block) (params_body block)
      (changes block) false (Some LongestChain) (post_hash block) (intermediate block) in
  match babe_find_pre_digest (header import_params) with
  | Err err => Err (PreDigestError err)
  | Ok pre_digest =>
      let parent_hash := header_parent (header import_params) in
      match client_header parent_hash with
      | Err _ | Ok None => Err (ParentNotFound parent_hash)
      | Ok (Some parent) =>
          match epoch_descriptor_for_child_of e (header_hash parent) (number parent)
                  (pre_digest_slot pre_digest) with
          | Err err => Err (DescriptorError err)
          | Ok None => Err NoAuthorities
          | Ok (Some epoch_descriptor) => Ok (set_intermediate epoch_descriptor import_params)
          end
      end
  end.

(** [SlotTimestampProvider::new_babe]. *)
Definition new_babe (best_number : Z) (best_header : result (option (BlockHeader DigestItem)) Z)
    (now : result Z Z) (babe_config : result BabeConfig Z) :
    outcome (result SlotTimestampProvider SealError) :=
  match babe_config with
  | Err e => Ret (Err (BlockchainError e))
  | Ok cfg =>
      let slot_duration := babe_slot_duration cfg in
      r ← with_header best_number best_header now slot_duration
            (λ h, match babe_find_pre_digest h with
                  | Ok pre_digest => Ok (pre_digest_slot pre_digest)
                  | Err e => Err (StringError e)
                  end);
      Ret match r with
          | Ok time => Ok (mkTimestampProvider time slot_duration)
          | Err e => Err e
          end
  end.

End provider.

(** ** Theorems *)

Section theorems.
Context `{!BuildProfile}.
Context {DigestItem Extrinsic InherentData E : Type}.
Context `{!BabeDigest DigestItem} `{!EpochChanges E}.
Context (header_hash : BlockHeader DigestItem → H256).
Context (from_timestamp : Z → Z → Slot).
Context (babe_inherent_data : InherentData → result (option Slot) Z).
Context (timestamp_inherent_data : InherentData → result (option Z) Z).
Context (epoch_genesis : Slot → Epoch).
Context (babe_claim_slot : Slot → Epoch → option PreDigest).
Context (config : BabeConfig) (authority : AuthorityId) (weight : Z)
  (others : list (AuthorityId * Z)).
Context (client_header : H256 → result (option (BlockHeader DigestItem)) Z).

Abbreviation authorities := ((authority, weight) :: others).
Abbreviation inherent_slot := (inherent_slot babe_inherent_data).
Abbreviation child_descriptor := (child_descriptor header_hash).
Abbreviation provider_epoch := (provider_epoch header_hash epoch_genesis).
Abbreviation create_digest := (babe_create_digest header_hash babe_inherent_data epoch_genesis
  babe_claim_slot authorities).
Abbreviation append := (babe_append_block_import (Extrinsic := Extrinsic) header_hash
  from_timestamp babe_inherent_data timestamp_inherent_data epoch_genesis config authorities).
Abbreviation verify := (babe_verify (Extrinsic := Extrinsic) header_hash client_header).

(** A claimed slot is the one asked for. *)
Definition claims_slot : Prop :=
  ∀ slot ep p, babe_claim_slot slot ep = Some p → pre_digest_slot p = slot.

Lemma child_descriptor_set e id ep parent slot :
  child_descriptor (set_epoch e id ep) parent slot = child_descriptor e parent slot.
Proof. unfold Babe.child_descriptor. by rewrite descriptor_set. Qed.

Lemma own_authority ep : has_authority (set_epoch_authorities authorities ep) authority = true.
Proof. unfold has_authority. simpl. by rewrite Z.eqb_refl. Qed.

(** What a successful [create_digest] leaves behind. *)
Lemma create_digest_inv e parent d slot desc e' digest :
  inherent_slot d = Ok slot → child_descriptor e parent slot = Ok desc →
  create_digest e parent d = (e', Ok digest) →
  ∃ ep, provider_epoch e parent slot = Ok ep ∧
  match babe_claim_slot slot ep, desc with
  | Some p, _ => e' = e ∧ digest = [babe_pre_digest p]
  | None, UnimportedGenesis _ => e' = e ∧ digest = [babe_pre_digest (SecondaryPlain 0 slot)]
  | None, Signaled id _ =>
      stored_epoch e id = Some ep ∧ e' = set_epoch e id (set_epoch_authorities authorities ep) ∧
      digest = [babe_pre_digest (SecondaryPlain 0 slot);
                next_epoch_data (mkNextEpoch authorities (randomness ep))]
  end.
Proof.
  intros Hslot Hdesc. unfold babe_create_digest. rewrite Hslot.
  destruct (provider_epoch e parent slot) as [ep|] eqn:Hep; [|done].
  intros Hrun. exists ep. split; [done|].
  destruct (babe_claim_slot slot ep) as [p|]; [by simplify_eq|].
  unfold unclaimed_digest in Hrun. rewrite Hdesc in Hrun.
  unfold Babe.provider_epoch in Hep. rewrite Hdesc in Hep. simpl in Hep.
  destruct desc as [s|id hd]; [by simplify_eq|]. rewrite viable_signaled in Hep.
  destruct (stored_epoch e id) as [ep'|]; [|done]. by simplify_eq.
Qed.

(** After a successful [create_digest] the descriptor is the same, and an epoch that
    could not be claimed has the provider's authority. *)
Lemma create_digest_epoch e parent d slot desc e' digest :
  inherent_slot d = Ok slot → child_descriptor e parent slot = Ok desc →
  create_digest e parent d = (e', Ok digest) →
  child_descriptor e' parent slot = Ok desc ∧
  ∃ ep, provider_epoch e parent slot = Ok ep ∧
    match babe_claim_slot slot ep, desc with
    | None, Signaled id hd =>
        provider_epoch e' parent slot = Ok (set_epoch_authorities authorities ep)
    | _, _ => e' = e
    end.
Proof.
  intros Hslot Hdesc Hrun.
  destruct (create_digest_inv _ _ _ _ _ _ _ Hslot Hdesc Hrun) as (ep & Hep & Hcase).
  assert (child_descriptor e' parent slot = Ok desc) as Hdesc'.
  { destruct (babe_claim_slot slot ep); [by destruct Hcase as [-> _]|].
    destruct desc; [by destruct Hcase as [-> _]|]. destruct Hcase as (_ & -> & _).
    by rewrite child_descriptor_set. }
  split; [done|]. exists ep. split; [done|].
  destruct (babe_claim_slot slot ep); [by destruct Hcase|].
  destruct desc as [s|id hd]; [by destruct Hcase|]. destruct Hcase as (Hst & -> & _).
  unfold Babe.provider_epoch. rewrite Hdesc'. simpl.
  rewrite viable_signaled, stored_set; [done|]. by rewrite Hst.
Qed.

(** The provider changes nothing of a block but its intermediate, as the engine's
    theorems ask of a provider. *)
Lemma babe_only_digests {W} :
  only_digests (Some (BabeConsensusDataProvider (Extrinsic := Extrinsic) (W := W) header_hash
    from_timestamp babe_inherent_data timestamp_inherent_data epoch_genesis babe_claim_slot config
    authorities)).
Proof.
  intros p w parent params d w' params' [= <-] Hrun. simpl in Hrun. run_inv.
  unfold babe_append_block_import in *. destruct (inherent_slot d); [|by simplify_eq].
  destruct (child_descriptor _ _ _); [|by simplify_eq].
  destruct (provider_epoch _ _ _); [|by simplify_eq]. run_inv.
  match goal with x : result ViableEpochDescriptor _ |- _ => by destruct x; simplify_eq end.
Qed.

(** C31: blocks authored with the Babe provider pass the Babe verifier, under a condition
    on the slot's epoch: the provider's own authority is in it, or no key of the node can
    claim the slot and the chain has announced the epoch.  Then, when [create_digest]
    succeeds for the slot, [append_block_import] succeeds too and gives the import the
    descriptor of the slot's epoch, and the verifier, for a header with the digest on the
    same parent, gives it the same descriptor.  Where the slot could not be claimed,
    [create_digest] has put the provider into the stored epoch and kept the epoch's
    randomness.  (Without the condition, for a slot claimed by another authority's key or in
    the epoch of a genesis that is not imported, [append_block_import] uses its hard-coded
    descriptor or panics.) *)
Theorem babe_author_verify e parent d slot desc ep e' digest params rest h block :
  claims_slot → inherent_slot d = Ok slot → child_descriptor e parent slot = Ok desc →
  provider_epoch e parent slot = Ok ep →
  create_digest e parent d = (e', Ok digest) →
  match babe_claim_slot slot ep, desc with
  | None, Signaled id _ => True
  | _, _ => has_authority ep authority = true
  end →
  number h ≠ 0 → header_parent h = header_hash parent → logs h = digest ++ rest →
  omap as_babe_pre_digest rest = [] → client_header (header_hash parent) = Ok (Some parent) →
  header block = h →
  append e' parent params d = Ret (Ok (set_intermediate desc params)) ∧
  (∃ block', verify e' block = Ok block' ∧ header block' = h ∧ finalized block' = false ∧
     intermediate block' = Some desc) ∧
  (babe_claim_slot slot ep = None → ∀ id hd, desc = Signaled id hd →
     stored_epoch e' id = Some (set_epoch_authorities authorities ep)).
Proof.
  intros Hcl Hslot Hdesc Hep Hrun Hauth Hn Hpar Hlogs Hrest Hclient Hblock.
  destruct (create_digest_epoch _ _ _ _ _ _ _ Hslot Hdesc Hrun) as (Hdesc' & ep1 & Hep1 & Hcase).
  destruct (create_digest_inv _ _ _ _ _ _ _ Hslot Hdesc Hrun) as (ep2 & Hep2 & Hdig).
  rewrite Hep in Hep1, Hep2. injection Hep1 as <-. injection Hep2 as <-. subst h.
  split; [|split].
  - unfold babe_append_block_import. rewrite Hslot, Hdesc'.
    assert (∃ ep', provider_epoch e' parent slot = Ok ep' ∧ has_authority ep' authority = true)
      as (ep' & -> & Hhas).
    { destruct (babe_claim_slot slot ep); [subst; by eauto|].
      destruct desc; [subst; by eauto|]. eexists. split; [exact Hcase|apply own_authority]. }
    by rewrite Hhas.
  - assert (∃ p, babe_find_pre_digest (header block) = Ok p ∧ pre_digest_slot p = slot)
      as (p & Hp & Hps).
    { destruct (babe_claim_slot slot ep) as [p|] eqn:Hclaim; [|destruct desc];
        eexists; (split; [apply babe_find_one; [done|]; rewrite Hlogs, omap_app, Hrest|]);
        destruct_and!; subst; simpl; rewrite ?as_babe_pre, ?as_babe_next; try done.
      by eapply Hcl. }
    unfold babe_verify. cbn [header]. rewrite Hp, Hpar, Hclient, Hps.
    unfold Babe.child_descriptor in Hdesc'.
    destruct (epoch_descriptor_for_child_of _ _ _ _) as [[]|]; simplify_eq. by eexists.
  - intros Hclaim id hd ->. rewrite Hclaim in Hdig. destruct Hdig as (Hst & -> & _).
    apply stored_set. by rewrite Hst.
Qed.

(** C32: [unreachable!] in [append_block_import] is reachable: on a chain whose genesis is
    not imported yet, when no key of the node can claim the slot and the provider's authority
    is not of the genesis epoch, [create_digest] makes a digest and [append_block_import]
    panics. *)
Theorem babe_genesis_panics e parent d slot s t params :
  inherent_slot d = Ok slot → child_descriptor e parent slot = Ok (UnimportedGenesis s) →
  babe_claim_slot slot (epoch_genesis s) = None →
  has_authority (epoch_genesis s) authority = false →
  timestamp_inherent_data d = Ok (Some t) →
  create_digest e parent d = (e, Ok [babe_pre_digest (SecondaryPlain 0 slot)]) ∧
  append e parent params d = Panic.
Proof.
  intros Hslot Hdesc Hclaim Hno Ht.
  assert (provider_epoch e parent slot = Ok (epoch_genesis s)) as Hep.
  { unfold Babe.provider_epoch. rewrite Hdesc. simpl. by rewrite viable_genesis. }
  split.
  - unfold babe_create_digest, unclaimed_digest. by rewrite Hslot, Hep, Hclaim, Hdesc.
  - unfold babe_append_block_import, hard_coded. by rewrite Hslot, Hdesc, Hep, Hno, Ht.
Qed.

End theorems.

(** ** Witnesses *)

Module BabeExample.

Inductive item := Pre (p : PreDigest) | Next (n : NextEpochDescriptor) | Other.

Definition as_pre (i : item) : option PreDigest :=
  match i with Pre p => Some p | _ => None end.
Definition find (h : BlockHeader item) : result PreDigest Z :=
  if number h =? 0 then Ok (SecondaryPlain 0 0)
  else match omap as_pre (logs h) with [p] => Ok p | _ => Err 0 end.

#[global] Instance digest : BabeDigest item.
Proof.
  refine {| babe_pre_digest := Pre; next_epoch_data := Next; as_babe_pre_digest := as_pre;
            babe_find_pre_digest := find |}; [done..|].
  intros h p Hn Hp. unfold find. rewrite (proj2 (Z.eqb_neq _ _) Hn), Hp. done.
Defined.

#[global] Instance identifier_eq_dec : EqDecision EpochIdentifier.
Proof. solve_decision. Defined.

(** A tree with one epoch. *)
Definition tree : Type := ViableEpochDescriptor * Epoch.
Definition holds (e : tree) (id : EpochIdentifier) : bool :=
  match e.1 with Signaled id' _ => bool_decide (id = id') | UnimportedGenesis _ => false end.

#[global] Instance changes : EpochChanges tree.
Proof.
  refine {| epoch_descriptor_for_child_of e _ _ _ := Ok (Some e.1);
            stored_epoch e id := if holds e id then Some e.2 else None;
            set_epoch e id ep := if holds e id then (e.1, ep) else e;
            viable_epoch e d make :=
              match d with
              | UnimportedGenesis slot => Some (make slot)
              | Signaled id _ => if holds e id then Some e.2 else None
              end |}; [done..| |].
  - intros e id ep [x Hx]. destruct (holds e id) eqn:Hh; [|done].
    change (holds (e.1, ep) id) with (holds e id). by rewrite Hh.
  - intros e id ep h n sl. by destruct (holds e id).
Defined.

Definition hash (h : BlockHeader item) : H256 := number h + 1000.
Definition inherent (d : Z) : result (option Slot) Z := Ok (Some (d `div` 6000)).
Definition timestamp (d : Z) : result (option Z) Z := Ok (Some d).
(** The authorities of the chain are 7 and 8, the provider's is 1, and the node has
    no keys. *)
Definition foreign : Epoch := mkEpoch [(7, 1); (8, 1)] 55 0.
Definition genesis (s : Slot) : Epoch := foreign.
Definition claim (s : Slot) (ep : Epoch) : option PreDigest := None.
Definition config : BabeConfig := mkBabeConfig 6000 600.
Definition descriptor : ViableEpochDescriptor :=
  Signaled (mkEpochIdentifier 0 3 4) (mkEpochHeader 600 1200).
Definition chain : tree := (descriptor, foreign).
Definition parent : BlockHeader item := mkHeader 4 0 0 [].
Definition own : Epoch := mkEpoch [(1, 1)] 55 0.
Definition updated : tree := (descriptor, own).
Definition logs : list item :=
  [Pre (SecondaryPlain 0 700); Next (mkNextEpoch [(1, 1)] 55); Other].
Definition h : BlockHeader item := mkHeader 5 1004 0 logs.
Definition block : BlockImportParams item Z := params_new OriginOwn h.
Definition client (x : H256) : result (option (BlockHeader item)) Z := Ok (Some parent).

Definition append (e : tree) :=
  @babe_append_block_import dev item Z Z tree changes hash Z.div inherent timestamp genesis
    config [(1, 1)] e parent block 4200000.
End BabeExample.

Lemma babe_author_verify_witness :
  BabeExample.append BabeExample.updated =
  Ret (Ok (set_intermediate BabeExample.descriptor BabeExample.block)) ∧
  ∃ block', babe_verify BabeExample.hash BabeExample.client
      BabeExample.updated BabeExample.block = Ok block' ∧
    intermediate block' = Some BabeExample.descriptor.
Proof.
  destruct (@babe_author_verify dev BabeExample.item Z Z BabeExample.tree BabeExample.digest
    BabeExample.changes BabeExample.hash Z.div BabeExample.inherent BabeExample.timestamp
    BabeExample.genesis BabeExample.claim BabeExample.config 1 1 [] BabeExample.client
    BabeExample.chain BabeExample.parent 4200000 700 BabeExample.descriptor
    BabeExample.foreign BabeExample.updated
    (take 2 BabeExample.logs) BabeExample.block [BabeExample.Other] BabeExample.h
    BabeExample.block) as (Happ & (block' & Hver & _ & _ & Hint) & _);
    try by vm_compute. split; [exact Happ|]. exists block'. done.
Defined.

Lemma babe_genesis_panics_witness :
  BabeExample.append (UnimportedGenesis 700, BabeExample.foreign) = Panic.
Proof.
  apply (@babe_genesis_panics dev BabeExample.item Z Z BabeExample.tree BabeExample.digest
    BabeExample.changes BabeExample.hash Z.div BabeExample.inherent BabeExample.timestamp
    BabeExample.genesis BabeExample.claim BabeExample.config 1 1 []
    (UnimportedGenesis 700, BabeExample.foreign) BabeExample.parent 4200000 700 700 4200000);
    by vm_compute.
Defined.
