(* ===== verification/Treasury.v ===== *)
(** * The treasury reward pallet: pallets/edge-treasury-reward/src/lib.rs

    The storage of the pallet, its genesis, its two calls and the minting at the
    end of a block, over the interface of a currency. *)

From stdpp Require Import base tactics list.
From Stdlib Require Import ZArith Lia.
From S2P Require Import Prelude.
Local Open Scope Z_scope.

(** The currency the pallet pays in: its balances [B] by account.  A deposit into
    an account adds the value to its free balance as long as no amount
    overflows and the account ends with the existential deposit. *)
Class Currency (B AccountId : Type) := {
  free_balance : B → AccountId → Z;
  total_issuance : B → Z;
  existential_deposit : Z;
  deposit_creating : B → AccountId → Z → B;
  deposit_adds b a v :
    0 ≤ v → free_balance b a + v < 2 ^ 128 → total_issuance b + v < 2 ^ 128 →
    existential_deposit ≤ free_balance b a + v →
    free_balance (deposit_creating b a v) a = free_balance b a + v ∧
    total_issuance (deposit_creating b a v) = total_issuance b + v ∧
    ∀ a', a' ≠ a → free_balance (deposit_creating b a v) a' = free_balance b a';
}.

Inductive RawOrigin := OriginRoot | OriginSigned | OriginNone.
Inductive DispatchError := BadOrigin.

Section pallet.
Context {B AccountId : Type} `{!Currency B AccountId}.
(** The account of the treasury. *)
Context (treasury : AccountId).

Inductive TreasuryEvent :=
| TreasuryMinting (balance block : Z) (account : AccountId).

(** The storage the pallet reads and writes. *)
Record TreasuryState := mkTreasury {
  minting_interval : Z;
  current_payout : Z;
  block_number : Z;
  balances : B;
  events : list TreasuryEvent;
}.

(** [GenesisConfig::default] and [GenesisConfig::build]. *)
Definition genesis_default : Z * Z := (0, 0).
Definition genesis_build (config : Z * Z) (b : B) : TreasuryState :=
  mkTreasury config.1 config.2 0 b [].

(** [Hooks::on_finalize]; a remainder by zero panics. *)
Definition on_finalize (s : TreasuryState) : outcome TreasuryState :=
  if minting_interval s =? 0 then Panic
  else if block_number s mod minting_interval s =? 0 then
    let reward := current_payout s in
    if reward =? 0 then Ret s
    else
      let b := deposit_creating (balances s) treasury reward in
      Ret (mkTreasury (minting_interval s) (current_payout s) (block_number s) b
             (events s ++ [TreasuryMinting (free_balance b treasury) (block_number s) treasury]))
  else Ret s.

Definition ensure_root (o : RawOrigin) : result unit DispatchError :=
  match o with OriginRoot => Ok tt | _ => Err BadOrigin end.

(** The calls. *)
Definition set_current_payout (o : RawOrigin) (payout : Z) (s : TreasuryState) :
    result TreasuryState DispatchError :=
  _ ←? ensure_root o;
  Ok (mkTreasury (minting_interval s) payout (block_number s) (balances s) (events s)).

Definition set_minting_interval (o : RawOrigin) (interval : Z) (s : TreasuryState) :
    result TreasuryState DispatchError :=
  _ ←? ensure_root o;
  Ok (mkTreasury interval (current_payout s) (block_number s) (balances s) (events s)).

(** The next block begins, and ends. *)
Definition next_block (s : TreasuryState) : outcome TreasuryState :=
  on_finalize (mkTreasury (minting_interval s) (current_payout s) (block_number s + 1)
                 (balances s) (events s)).

Fixpoint run_blocks (n : nat) (s : TreasuryState) : outcome TreasuryState :=
  match n with
  | O => Ret s
  | S n => s ← next_block s; run_blocks n s
  end.

(** ** Theorems *)

(** How many of the blocks up to a number mint. *)
Definition mintings (s : TreasuryState) (n : Z) : Z := n `div` minting_interval s.

Lemma next_block_mints s :
  0 < minting_interval s → 0 ≤ block_number s → 0 ≤ current_payout s →
  existential_deposit ≤ free_balance (balances s) treasury →
  let m := mintings s (block_number s + 1) - mintings s (block_number s) in
  free_balance (balances s) treasury + m * current_payout s < 2 ^ 128 →
  total_issuance (balances s) + m * current_payout s < 2 ^ 128 →
  (m = 0 ∨ m = 1) ∧
  ∃ s', next_block s = Ret s' ∧
    minting_interval s' = minting_interval s ∧ current_payout s' = current_payout s ∧
    block_number s' = block_number s + 1 ∧
    free_balance (balances s') treasury =
      free_balance (balances s) treasury + m * current_payout s ∧
    total_issuance (balances s') = total_issuance (balances s) + m * current_payout s ∧
    (∀ a, a ≠ treasury → free_balance (balances s') a = free_balance (balances s) a) ∧
    zlen (events s') = zlen (events s) + if current_payout s =? 0 then 0 else m.
Proof.
  intros Hi Hn Hp He m Hf Ht. subst m. unfold mintings, next_block, on_finalize in *. simpl.
  rewrite (proj2 (Z.eqb_neq _ _)) by lia.
  set (i := minting_interval s) in *. set (k := block_number s) in *.
  destruct (Z.eqb_spec ((k + 1) mod i) 0) as [Hm|Hm].
  - assert ((k + 1) `div` i - k `div` i = 1) as Hone.
    { clear Hf Ht. pose proof (Z.div_mod (k + 1) i). assert (k = i * ((k + 1) `div` i - 1) + (i - 1)) as Hk
        by lia. rewrite Hk at 2.
      rewrite Z.mul_comm, Z.div_add_l, (Z.div_small (i - 1)) by lia. lia. }
    rewrite Hone in *. split; [by right|].
    destruct (Z.eqb_spec (current_payout s) 0) as [H0|H0].
    + eexists. split; [done|]. simpl. rewrite H0. by split_and!; try lia.
    + destruct (deposit_adds (balances s) treasury (current_payout s)) as (H1 & H2 & H3);
        [lia..|].
      eexists. split; [done|]. simpl. rewrite length_app. simpl.
      split_and!; try done; lia.
  - assert ((k + 1) `div` i - k `div` i = 0) as ->.
    { pose proof (Z.div_mod (k + 1) i). pose proof (Z.mod_pos_bound (k + 1) i).
      assert (k = ((k + 1) `div` i) * i + ((k + 1) mod i - 1)) as Hk by lia. rewrite Hk at 2.
      rewrite Z.div_add_l, (Z.div_small ((k + 1) mod i - 1)) by lia. lia. }
    split; [by left|]. eexists. split; [done|]. simpl.
    split_and!; try done; try lia. by destruct (_ =? 0); lia.
Qed.

(** C34: after [n] blocks the treasury has received the payout once per minting
    interval that ended, nobody else anything, and each minting was announced. *)
Theorem treasury_minted n s :
  0 < minting_interval s → 0 ≤ block_number s → 0 ≤ current_payout s →
  existential_deposit ≤ free_balance (balances s) treasury →
  let m := mintings s (block_number s + Z.of_nat n) - mintings s (block_number s) in
  free_balance (balances s) treasury + m * current_payout s < 2 ^ 128 →
  total_issuance (balances s) + m * current_payout s < 2 ^ 128 →
  ∃ s', run_blocks n s = Ret s' ∧
    block_number s' = block_number s + Z.of_nat n ∧
    free_balance (balances s') treasury =
      free_balance (balances s) treasury + m * current_payout s ∧
    total_issuance (balances s') = total_issuance (balances s) + m * current_payout s ∧
    (∀ a, a ≠ treasury → free_balance (balances s') a = free_balance (balances s) a) ∧
    zlen (events s') = zlen (events s) + if current_payout s =? 0 then 0 else m.
Proof.
  revert s. induction n as [|n IH]; intros s Hi Hn Hp He m Hf Ht.
  { subst m. replace (block_number s + Z.of_nat 0) with (block_number s) in * by lia.
    rewrite Z.sub_diag in *. exists s. split; [done|]. rewrite Z.mul_0_l.
    split_and!; try done; try lia. destruct (_ =? 0); lia. }
  assert (∀ a b, a ≤ b → mintings s a ≤ mintings s b) as Hmono
    by (intros; apply Z.div_le_mono; lia).
  pose proof (Hmono (block_number s) (block_number s + 1)).
  pose proof (Hmono (block_number s + 1) (block_number s + Z.of_nat (S n))).
  destruct (next_block_mints s Hi Hn Hp He)
    as (Hm1 & s1 & Hrun & Hi1 & Hp1 & Hn1 & Hf1 & Ht1 & Ho1 & Hev1); [nia..|].
  destruct (IH s1) as (s' & Hrun' & Hn' & Hf' & Ht' & Ho' & Hev').
  1-4: rewrite ?Hi1, ?Hp1, ?Hn1, ?Hf1; nia.
  1-2: unfold mintings in *; rewrite Hi1, Hp1, Hn1, ?Hf1, ?Ht1;
    replace (block_number s + 1 + Z.of_nat n) with (block_number s + Z.of_nat (S n)) by lia;
    nia.
  exists s'. cbn [run_blocks]. rewrite Hrun. split; [exact Hrun'|].
  unfold mintings in *. rewrite Hi1, Hp1, Hn1 in *.
  replace (block_number s + 1 + Z.of_nat n) with (block_number s + Z.of_nat (S n)) in * by lia.
  split_and!; [lia|rewrite Hf', Hf1; lia|rewrite Ht', Ht1; lia| |].
  - intros a Ha. by rewrite Ho', Ho1.
  - rewrite Hev', Hev1. destruct (_ =? 0); lia.
Qed.

(** Without a minting interval every block panics at its end: with the
    default genesis, and after root sets the interval to zero, which the call
    does not refuse. *)
Theorem treasury_zero_interval n b s payout :
  run_blocks (S n) (genesis_build genesis_default b) = Panic ∧
  ∃ s', set_minting_interval OriginRoot 0 s = Ok s' ∧
    next_block s' = Panic ∧
    (s'' ←? set_current_payout OriginRoot payout s'; Ok (next_block s'')) = Ok Panic.
Proof. split; [done|]. by eexists. Qed.

(** Only root changes the pallet's configuration. *)
Lemma treasury_root_only o x s :
  o ≠ OriginRoot →
  set_current_payout o x s = Err BadOrigin ∧ set_minting_interval o x s = Err BadOrigin.
Proof. by destruct o. Qed.

End pallet.

(** ** Witness *)

Module TreasuryExample.
(** Accounts 0 and 1 with their balances. *)
#[global] Instance currency : Currency (Z * Z) bool.
Proof.
  refine {|
    free_balance := λ b (a : bool), if a then b.2 else b.1;
    total_issuance := λ b, b.1 + b.2;
    existential_deposit := 1;
    deposit_creating := λ b (a : bool) v, if a then (b.1, b.2 + v) else (b.1 + v, b.2);
  |}.
  intros [x y] [] v; simpl; intros; (split_and!; [lia..|by intros []]).
Defined.
Definition start : @TreasuryState (Z * Z) bool := mkTreasury 4 95 6 (50, 10) [].
End TreasuryExample.

Lemma treasury_minted_witness :
  ∃ s', run_blocks true 10 TreasuryExample.start = Ret s' ∧
    free_balance (balances s') true = 10 + 3 * 95.
Proof.
  destruct (treasury_minted true 10 TreasuryExample.start) as (s' & Hrun & _ & Hf & _);
    [vm_compute; congruence..|].
  exists s'. split; [exact Hrun|exact Hf].
Defined.
