(* ===== verification/TreasuryTests.v ===== *)
(** * The unit tests of the treasury reward pallet: src/mock.rs and src/tests.rs

    The mock runtime's genesis and the two tests as scripts over the pallet of Treasury.v.
    Both pass over every currency that keeps the laws of the interface, not only over the
    balances of the mock. *)

From stdpp Require Import base tactics list gmap strings.
From Stdlib Require Import ZArith Lia Strings.Byte.
From S2P Require Import Prelude Treasury.
Local Open Scope Z_scope.

(** An account is the number of its 32 bytes; [AccountId32::new([b; 32])] repeats one. *)
Definition repeated_byte (b : Z) : Z := b * ((2 ^ 256 - 1) `div` 255).
Definition ALICE : Z := repeated_byte 0.
Definition BOB : Z := repeated_byte 1.
Definition TREASURY_ACCOUNT : Z := repeated_byte 2.

(** The pallets of the mock, and their configurations: numbers, ratios in percent, and the
    handlers that are [()]. *)
Inductive MockPallet := MSystem | MBalances | MTreasury | MTreasuryReward.

Record SystemParams := mkSystemParams {
  Prefix : Z; BlockHashCount : Z; MaximumBlockWeight : Z; MaximumBlockLength : Z;
  AvailableBlockRatio : Z; MaxConsumers : Z; call_filter_everything : bool }.
Definition mock_system : SystemParams := {|
  Prefix := 100; BlockHashCount := 250; MaximumBlockWeight := 1024;
  MaximumBlockLength := 2 * 1024; AvailableBlockRatio := 100; MaxConsumers := 16;
  call_filter_everything := true |}.

Definition mock_ExistentialDeposit : Z := 0.
Record BalancesParams := mkBalancesParams {
  ExistentialDeposit : Z; MaxLocks : Z; MaxReserves : Z; MaxTreeDepth : Z;
  CacheBlockLength : Z; MinimumDepositLength : Z;
  AccountStore : MockPallet; DustRemoval : option MockPallet }.
Definition mock_balances_params : BalancesParams := {|
  ExistentialDeposit := mock_ExistentialDeposit; MaxLocks := 50; MaxReserves := 50;
  MaxTreeDepth := 32; CacheBlockLength := 5; MinimumDepositLength := 10 * 60 * 24 * 28;
  AccountStore := MSystem; DustRemoval := None |}.

Inductive MockOrigin := EnsureRootAccount.
Record TreasuryParams := mkTreasuryParams {
  ProposalBond : Z; ProposalBondMinimum : Z; ProposalBondMaximum : option Z;
  SpendPeriod : Z; Burn : Z; TreasuryPalletId : list Byte.byte; MaxApprovals : Z;
  ApproveOrigin : MockOrigin; RejectOrigin : MockOrigin;
  BurnDestination : option MockPallet; OnSlash : option MockPallet;
  treasury_currency : MockPallet }.
Definition mock_treasury_params : TreasuryParams := {|
  ProposalBond := 5; ProposalBondMinimum := 1; ProposalBondMaximum := None;
  SpendPeriod := 2; Burn := 50; TreasuryPalletId := bytes_of "py/trsry"; MaxApprovals := 100;
  ApproveOrigin := EnsureRootAccount; RejectOrigin := EnsureRootAccount;
  BurnDestination := None; OnSlash := None; treasury_currency := MBalances |}.

(** [impl Config for Test] of the pallet, and [TreasuryCurrencyAdapter]. *)
Definition mock_reward_currency : MockPallet := MBalances.
Definition TreasuryCurrencyAdapter : MockPallet := treasury_currency mock_treasury_params.

Definition mock_balances : list (Z * Z) :=
  [(ALICE, 10 ^ 18); (BOB, 10 ^ 18); (TREASURY_ACCOUNT, 10 ^ 18)].

(** [GenesisConfig] of the pallet: the interval and the payout. *)
Definition mock_treasury_genesis : Z * Z := (1, 9500000).

(** The genesis of the balances pallet: every listed account has its balance and the
    others none, and the issuance is the sum. *)
Class GenesisBalances (B : Type) `{!Currency B Z} := {
  balances_build : list (Z * Z) → B;
  build_free l a : NoDup l.*1 →
    free_balance (balances_build l) a = default 0 ((list_to_map l : gmap Z Z) !! a);
  build_issuance l : NoDup l.*1 → total_issuance (balances_build l) = foldr Z.add 0 l.*2;
}.

(** The account of a pallet, whose first four bytes are [modl], is none of the accounts of
    the genesis: the treasury starts without a balance, and [TREASURY_ACCOUNT] is not its
    account.  The reward is paid into the currency the treasury spends. *)
Lemma treasury_not_endowed account :
  Z.div account (2 ^ 224) = 0x6d6f646c →
  (account ∉ mock_balances.*1) ∧ mock_reward_currency = TreasuryCurrencyAdapter.
Proof.
  intros Ha. split; [|done]. intros Hin. cbn [mock_balances fmap list_fmap fst] in Hin.
  rewrite !elem_of_cons in Hin.
  destruct Hin as [-> | [-> | [-> | Hin]]]; [vm_compute in Ha; discriminate..|].
  by apply not_elem_of_nil in Hin.
Qed.

Section tests.
Context {B : Type} `{!Currency B Z, !GenesisBalances B}.
(** [Treasury::account_id()] *)
Context (treasury : Z).

Abbreviation State := (@TreasuryState B Z).

(** [new_test_ext]. *)
Definition new_test_ext : State :=
  genesis_build mock_treasury_genesis (balances_build mock_balances).

(** [last_event]. *)
Definition last_event (s : State) : outcome (@TreasuryEvent Z) :=
  match last (events s) with Some e => Ret e | None => Panic end.

(** [System::set_block_number(n)], and the end of the block; the argument of [on_finalize]
    is not used. *)
Definition set_block_number (n : Z) (s : State) : State :=
  mkTreasury (minting_interval s) (current_payout s) n (balances s) (events s).
Definition at_block (n : Z) (s : State) : outcome State :=
  on_finalize treasury (set_block_number n s).

(** [Result::unwrap] and [assert_eq!(b, true)] *)
Definition unwrap {A E} (r : result A E) : outcome A :=
  match r with Ok a => Ret a | Err _ => Panic end.
Definition assert (b : bool) : outcome unit := if b then Ret tt else Panic.

Definition basic_setup_works : outcome unit :=
  s ← at_block 1 new_test_ext;
  s ← at_block 2 s;
  s ← at_block 100 s;
  s ← at_block 101 s;
  s ← at_block 102 s;
  s ← at_block 103 s;
  assert (0 <? free_balance (balances s) treasury).

(** A block of the second test: its end, the balance of the treasury, the last event. *)
Definition block_with (n balance event_balance event_block : Z) (s : State) : outcome State :=
  s ← at_block n s;
  _ ← assert (free_balance (balances s) treasury =? balance);
  e ← last_event s;
  let 'TreasuryMinting b n' a := e in
  _ ← assert (bool_decide ((b, n', a) = (event_balance, event_block, treasury)));
  Ret s.

Definition setting_treasury_block_reward : outcome unit :=
  s ← block_with 1 9500000 9500000 1 new_test_ext;
  s ← block_with 2 19000000 19000000 2 s;
  s ← unwrap (set_current_payout OriginRoot 95 s);
  s ← unwrap (set_minting_interval OriginRoot 2 s);
  s ← block_with 3 19000000 19000000 2 s;
  s ← block_with 4 19000095 19000095 4 s;
  s ← unwrap (set_current_payout OriginRoot 0 s);
  s ← block_with 5 19000095 19000095 4 s;
  s ← block_with 6 19000095 19000095 4 s;
  s ← unwrap (set_current_payout OriginRoot 105 s);
  s ← block_with 7 19000095 19000095 4 s;
  s ← block_with 8 19000200 19000200 8 s;
  s ← unwrap (set_minting_interval OriginRoot 1 s);
  s ← unwrap (set_current_payout OriginRoot 10 s);
  s ← block_with 9 19000210 19000210 9 s;
  s ← block_with 10 19000220 19000220 10 s;
  Ret tt.

(** ** The tests pass *)

Context (deposit_0 : @existential_deposit B Z _ = mock_ExistentialDeposit).
Context (treasury_other : treasury ∉ mock_balances.*1).

(** What a state of the tests is known by: the interval and the payout, the balance of the
    treasury, a bound of the issuance, and the last event. *)
Record known (s : State) (interval payout balance : Z) (event : option (Z * Z)) : Prop := {
  known_interval : minting_interval s = interval;
  known_payout : current_payout s = payout;
  known_balance : free_balance (balances s) treasury = balance;
  known_issuance : total_issuance (balances s) = 3 * 10 ^ 18 + balance;
  known_event : last (events s) = (λ e, TreasuryMinting e.1 e.2 treasury) <$> event;
}.

Lemma known_start : known new_test_ext 1 9500000 0 None.
Proof.
  assert (NoDup mock_balances.*1) as Hnd
    by (apply (bool_decide_unpack _); vm_compute; exact I).
  constructor; try done; simpl.
  - rewrite build_free by done. by rewrite (not_elem_of_list_to_map_1 _ _ treasury_other).
  - by rewrite build_issuance.
Qed.

Lemma known_mint s i p f e n :
  known s i p f e → 0 < i → 0 < p → 0 ≤ f < 2 ^ 64 → p < 2 ^ 64 → n mod i = 0 →
  ∃ s', at_block n s = Ret s' ∧ known s' i p (f + p) (Some (f + p, n)).
Proof.
  intros [Hi Hp Hf Ht He] ???? Hn. unfold at_block, on_finalize. simpl.
  rewrite Hi, Hp, Hn. rewrite (proj2 (Z.eqb_neq _ _)) by lia. simpl.
  rewrite (proj2 (Z.eqb_neq p 0)) by lia.
  destruct (deposit_adds (balances s) treasury p) as (Hdep & Hiss & _);
    rewrite ?deposit_0, ?Hf, ?Ht; unfold mock_ExistentialDeposit; try lia.
  eexists. split; [done|].
  constructor; simpl; rewrite ?last_snoc, ?Hdep, ?Hf, ?Hiss, ?Ht; done || lia.
Qed.

Lemma known_skip s i p f e n :
  known s i p f e → 0 < i → n mod i ≠ 0 ∨ p = 0 →
  ∃ s', at_block n s = Ret s' ∧ known s' i p f e.
Proof.
  intros [Hi Hp Hf Ht He] ? Hn. unfold at_block, on_finalize. simpl.
  rewrite Hi, Hp. rewrite (proj2 (Z.eqb_neq _ _)) by lia.
  exists (set_block_number n s). split; [|by constructor].
  destruct Hn as [Hn| ->]; [by rewrite (proj2 (Z.eqb_neq _ _) Hn)|]. by destruct (_ =? _).
Qed.

Lemma block_mints s i p f e n f' :
  known s i p f e → 0 < i → 0 < p → 0 ≤ f < 2 ^ 64 → p < 2 ^ 64 → n mod i = 0 → f' = f + p →
  ∃ s', block_with n f' f' n s = Ret s' ∧ known s' i p f' (Some (f', n)).
Proof.
  intros Hs ????? ->. destruct (known_mint s i p f e n) as (s' & Hrun & Hs'); [done..|].
  exists s'. split; [|done]. unfold block_with, last_event. rewrite Hrun. simpl.
  rewrite (known_balance _ _ _ _ _ Hs'), (known_event _ _ _ _ _ Hs'), Z.eqb_refl. simpl.
  by rewrite bool_decide_true.
Qed.

Lemma block_skips s i p f fe n ne :
  known s i p f (Some (fe, ne)) → 0 < i → n mod i ≠ 0 ∨ p = 0 →
  ∃ s', block_with n f fe ne s = Ret s' ∧ known s' i p f (Some (fe, ne)).
Proof.
  intros Hs ??. destruct (known_skip s i p f (Some (fe, ne)) n) as (s' & Hrun & Hs'); [done..|].
  exists s'. split; [|done]. unfold block_with, last_event. rewrite Hrun. simpl.
  rewrite (known_balance _ _ _ _ _ Hs'), (known_event _ _ _ _ _ Hs'), Z.eqb_refl. simpl.
  by rewrite bool_decide_true.
Qed.

Lemma known_calls s i p f e i' p' :
  known s i p f e →
  (∃ s', unwrap (set_current_payout OriginRoot p' s) = Ret s' ∧ known s' i p' f e) ∧
  ∃ s', unwrap (set_minting_interval OriginRoot i' s) = Ret s' ∧ known s' i' p f e.
Proof. intros [????]. split; (eexists; split; [done|by constructor]). Qed.

(** Runs the first step of a test, by a lemma on the state that is known. *)
Ltac proceed H :=
  let s := fresh "s" in let Hrun := fresh "Hrun" in
  destruct H as (s & Hrun & ?); [..|rewrite Hrun; clear Hrun; cbn [mbind outcome_bind]].
Ltac advance :=
  match goal with
  | Hs : known ?s _ _ _ _ |- at_block ?n ?s ≫= _ = _ =>
      proceed (known_mint s _ _ _ _ n Hs); [lia..|reflexivity|]
  | Hs : known ?s _ _ _ _ |- block_with ?n ?f _ ?n ?s ≫= _ = _ =>
      proceed (block_mints s _ _ _ _ n f Hs); [lia..|reflexivity|reflexivity|]
  | Hs : known ?s _ _ _ _ |- block_with ?n _ _ _ ?s ≫= _ = _ =>
      proceed (block_skips s _ _ _ _ n _ Hs); [lia|by auto|]
  | Hs : known ?s _ _ _ _ |- unwrap (set_current_payout _ ?p ?s) ≫= _ = _ =>
      proceed (proj1 (known_calls s _ _ _ _ 0 p Hs))
  | Hs : known ?s _ _ _ _ |- unwrap (set_minting_interval _ ?i ?s) ≫= _ = _ =>
      proceed (proj2 (known_calls s _ _ _ _ i 0 Hs))
  end.

(** The unit tests of the pallet pass over every currency, when the existential deposit
    is the mock's and the treasury's account is none of the three that the mock endows: the
    minting of each block, the intervals and payouts that root sets, and no minting and no
    event with a payout of zero.  The issuance of the mock is three times 10^18. *)
Theorem treasury_tests_pass :
  basic_setup_works = Ret tt ∧ setting_treasury_block_reward = Ret tt ∧
  total_issuance (balances new_test_ext) = 3 * 10 ^ 18.
Proof.
  pose proof known_start as Hstart. split_and!; [| |apply Hstart].
  - unfold basic_setup_works. do 6 advance. unfold assert.
    by rewrite (known_balance _ _ _ _ _ ltac:(eassumption)).
  - unfold setting_treasury_block_reward. by do 16 advance.
Qed.

End tests.

(** ** Witness: balances in a map *)

Module MockExample.
(** The free balances and the issuance. *)
#[global] Instance currency : Currency (gmap Z Z * Z) Z.
Proof.
  refine {|
    free_balance := λ b a, default 0 (b.1 !! a);
    total_issuance := snd;
    existential_deposit := 0;
    deposit_creating := λ b a v, (<[a := default 0 (b.1 !! a) + v]> b.1, b.2 + v);
  |}.
  intros [b t] a v _ _ _ _. simpl. rewrite lookup_insert_eq. split_and!; [done..|].
  intros a' Ha. by rewrite lookup_insert_ne.
Defined.
#[global] Instance genesis : GenesisBalances (gmap Z Z * Z) :=
  {| balances_build l := (list_to_map l, foldr Z.add 0 l.*2);
     build_free l a _ := eq_refl; build_issuance l _ := eq_refl |}.
(** The bytes of modlpy/trsry and zeros *)
Definition account : Z := 0x6d6f646c70792f74727372790000000000000000000000000000000000000000.
End MockExample.

Lemma treasury_tests_pass_witness :
  setting_treasury_block_reward (B := gmap Z Z * Z) MockExample.account = Ret tt.
Proof.
  apply (@treasury_tests_pass _ MockExample.currency MockExample.genesis MockExample.account eq_refl).
  apply (bool_decide_unpack _). vm_compute. exact I.
Defined.
