(* ===== verification/Bags.v ===== *)
(** * Bag thresholds: utils/frame/generate-bags and node/runtime/src/voter_bags.rs

    The generator of the thresholds of the staking bags, with the arithmetic of
    64-bit floating-point numbers, and the table the runtime uses. *)

From stdpp Require Import base tactics list sorting.
From Stdlib Require Import ZArith Lia Floats.SpecFloat.
From S2P Require Import Prelude.
Local Open Scope Z_scope.

(** ** Floating-point numbers *)

Abbreviation f64 := spec_float.
Definition f64_mul : f64 → f64 → f64 := SFmul 53 1024.
Definition f64_add : f64 → f64 → f64 := SFadd 53 1024.

(** [n as f64], rounded to the nearest even. *)
Definition u64_as_f64 (n : Z) : f64 := binary_normalize 53 1024 n 0 false.

(** [f64::round]: halves go away from zero. *)
Definition f64_round (x : f64) : f64 :=
  match x with
  | S754_finite s m e =>
      if 0 <=? e then x
      else binary_normalize 53 1024
             (cond_Zopp s ((Zpos m + 2 ^ (- e - 1)) `div` 2 ^ (- e))) 0 s
  | _ => x
  end.

(** [f64::max]: the other number when one is none. *)
Definition f64_max (x y : f64) : f64 :=
  match x, y with
  | S754_nan, _ => y
  | _, S754_nan => x
  | _, _ => if SFltb x y then y else x
  end.

Definition VoteWeight_MAX : Z := 2 ^ 64 - 1.

(** [x as u64]: truncated, and saturated at the bounds. *)
Definition f64_as_u64 (x : f64) : Z :=
  match x with
  | S754_finite false m e =>
      Z.min VoteWeight_MAX (if 0 <=? e then Zpos m * 2 ^ e else Zpos m `div` 2 ^ (- e))
  | S754_infinity false => VoteWeight_MAX
  | _ => 0
  end.

(** ** The generator *)

Section thresholds.
Context `{!BuildProfile}.
Context (existential_weight : Z) (constant_ratio : f64).

Definition WEIGHT_LIMIT : f64 := u64_as_f64 VoteWeight_MAX.

Definition successor (last : Z) : f64 :=
  f64_max (f64_round (f64_mul (u64_as_f64 last) constant_ratio))
    (f64_add (u64_as_f64 last) (u64_as_f64 1)).

(** The loop; each round adds a threshold or ends it, so that as much fuel as
    there are bags is enough. *)
Fixpoint thresholds_loop (fuel : nat) (n_bags : Z) (thresholds : list Z) : list Z :=
  match fuel with
  | O => thresholds
  | S fuel =>
      if (0 <? n_bags) && (zlen thresholds <? n_bags - 1) then
        let last := default existential_weight (last thresholds) in
        if SFltb (successor last) WEIGHT_LIMIT then
          thresholds_loop fuel n_bags (thresholds ++ [f64_as_u64 (successor last)])
        else thresholds
      else thresholds
  end.

(** [debug_assert!]: checked in the same builds as overflows. *)
Definition debug_assert (b : bool) : outcome unit :=
  if overflow_checks && negb b then Panic else Ret tt.

Definition thresholds (n_bags : Z) : outcome (list Z) :=
  let l := if 1 <? n_bags then [existential_weight] else [] in
  let l := thresholds_loop (Z.to_nat n_bags) n_bags l ++ [VoteWeight_MAX] in
  _ ← debug_assert (zlen l =? n_bags);
  _ ← debug_assert ((n_bags =? 0) || bool_decide (head l = Some existential_weight));
  _ ← debug_assert ((n_bags =? 0) || bool_decide (last l = Some VoteWeight_MAX));
  Ret l.

(** ** Its results *)

Lemma thresholds_loop_prefix fuel n l : ∃ k, thresholds_loop fuel n l = l ++ k.
Proof.
  revert l. induction fuel as [|fuel IH]; intros l; simpl; [by exists []; rewrite app_nil_r|].
  destruct (_ && _); [|by exists []; rewrite app_nil_r].
  destruct (SFltb _ _); [|by exists []; rewrite app_nil_r].
  destruct (IH (l ++ [f64_as_u64 (successor (default existential_weight (last l)))]))
    as [k ->]. rewrite <-app_assoc. by eexists.
Qed.

Lemma thresholds_loop_length fuel n l :
  zlen l ≤ Z.max 0 (n - 1) → zlen (thresholds_loop fuel n l) ≤ Z.max 0 (n - 1).
Proof.
  revert l. induction fuel as [|fuel IH]; intros l Hl; simpl; [done|].
  destruct (Z.ltb_spec 0 n), (Z.ltb_spec (zlen l) (n - 1)); simpl; try done.
  destruct (SFltb _ _); [|done]. apply IH. rewrite length_app. simpl. lia.
Qed.

(** More fuel changes nothing: the loop has ended. *)
Lemma thresholds_loop_fuel fuel n l :
  n - 1 - zlen l ≤ Z.of_nat fuel →
  ∀ fuel', (fuel ≤ fuel')%nat → thresholds_loop fuel' n l = thresholds_loop fuel n l.
Proof.
  revert l. induction fuel as [|fuel IH]; intros l Hl fuel' Hf.
  - destruct fuel' as [|fuel']; [done|]. simpl.
    by rewrite (proj2 (Z.ltb_ge (zlen l) (n - 1))), andb_false_r by lia.
  - destruct fuel' as [|fuel']; [lia|]. simpl.
    destruct (_ && _); [|done]. destruct (SFltb _ _); [|done].
    apply IH; [|lia]. rewrite length_app. simpl. lia.
Qed.

End thresholds.

(** With two bags or more, a build without debug assertions gives at most
    [n_bags] thresholds, from the existential weight to the largest weight; with
    one bag or none it gives the largest weight alone, and a build with debug
    assertions panics, although the first threshold is documented to be the
    existential weight and their number to be [n_bags]. *)
Theorem thresholds_shape w ratio n :
  0 ≤ n →
  (2 ≤ n → ∃ k, @thresholds release w ratio n = Ret (w :: k ++ [VoteWeight_MAX]) ∧
     zlen (w :: k ++ [VoteWeight_MAX]) ≤ n) ∧
  (n ≤ 1 → @thresholds release w ratio n = Ret [VoteWeight_MAX] ∧
     (w ≠ VoteWeight_MAX → @thresholds dev w ratio n = Panic)).
Proof.
  intros Hn. split.
  - intros H2. unfold thresholds. rewrite (proj2 (Z.ltb_lt 1 n)) by lia.
    destruct (thresholds_loop_prefix w ratio (Z.to_nat n) n [w]) as [k Hk].
    pose proof (thresholds_loop_length w ratio (Z.to_nat n) n [w]) as Hlen. simpl in Hlen.
    rewrite Hk in *. exists k. split; [done|].
    simpl in *. rewrite length_app in *. simpl in *. lia.
  - intros H1. assert (n = 0 ∨ n = 1) as [-> | ->] by lia; (split; [done|]); [done|].
    intros Hw. unfold thresholds. simpl. rewrite bool_decide_eq_false_2; [done|].
    intros [= <-]. done.
Qed.

(** ** The table of the runtime *)

Definition EXISTENTIAL_WEIGHT : Z := 18446.

(** 1.1895343084878842, by the mantissa of the nearest number. *)
Definition CONSTANT_RATIO : f64 := S754_finite false 5357186268450456 (-52).

Lemma CONSTANT_RATIO_nearest :
  2 * Z.abs (5357186268450456 * 10 ^ 16 - 11895343084878842 * 2 ^ 52) < 10 ^ 16.
Proof. vm_compute. reflexivity. Qed.

Definition THRESHOLDS : list Z := [
  18446; 21942; 26101; 31048; 36933; 43933; 52260; 62165; 73947; 87962; 104634; 124466;
  148057; 176119; 209500; 249207; 296440; 352626; 419461; 498963; 593534; 706029; 839846;
  999026; 1188376; 1413614; 1681542; 2000252; 2379368; 2830340; 3366787; 4004909; 4763977;
  5666914; 6740989; 8018638; 9538445; 11346308; 13496823; 16054934; 19097895; 22717601;
  27023366; 32145221; 38237843; 45485226; 54106237; 64361225; 76559885; 91070610;
  108331615; 128864173; 153288355; 182341757; 216901776; 258012104; 306914250; 365085030;
  434281169; 516592350; 614504324; 730973976; 869518623; 1034322234; 1230361783;
  1463557553; 1740951922; 2070922041; 2463432818; 2930337854; 3485737413; 4146404243;
  4932290104; 5867128298; 6979150403; 8301938848; 9875441087; 11747175984; 13973668861;
  16622158526; 19772627848; 23520219194; 27978107674; 33280918965; 39588794927;
  47092229797; 56017823007; 66635122354; 79264764190; 94288156458; 112158996991;
  133416974926; 158704069009; 188783934983; 224564967554; 267127733390; 317757603616;
  377983571284; 449624426087; 534843680765; 636214907948; 756799460576; 900238923000;
  1070865084745; 1273830758066; 1515265389927; 1802460167782; 2144088209260; 2550466485339;
  3033867386959; 3608889344190; 4292897690450; 5106549085619; 6074415335321; 7225725445369;
  8595248320980; 10224342767779; 12162206504013; 14467361903438; 17209423337450;
  20471199489189; 24351194128290; 28966580868250; 34456741742372; 40987476461258;
  48756009469006; 57996946008343; 68989357064443; 82065207148676; 97619379436515;
  116121601013031; 138130628361542; 164311121489044; 195453716277339; 232498901233352;
  276565419702808; 328984055277841; 391337820698467; 465509763929707; 553739835130482;
  658692531864133; 783537365397135; 932044578122100; 1108699002716354; 1318835501517405;
  1568800076306778; 1866141513925323; 2219839355307693; 2640575072470128; 3141054642841099;
  3736392262494645; 4444566786206049; 5286964678557830; 6289025872908157; 7481012042792217;
  8898920487112374; 10585571227925884; 12591900150560060; 14978497238144946;
  17817436354364432; 21194451832815784; 25211527604728292; 29989977055213672;
  35674106617941108; 42435573746695632; 50478570872062200; 60045991895755160;
  71426767447186216; 84964590422813568; 101068295314557840; 120224204777051824;
  143010816292976128; 170116272465353216; 202359142529610432; 240713142675161344;
  286336541716043456; 340607140145005952; 405163878918425536; 481956334533498176;
  573303595120660160; 681964295575472384; 811219926750796672; 964973934599101056;
  1147869602002174464; 1365430273251919360; 1624226155881144576; 1932072737164011776;
  2298266807350686464; 2733867217402556416; 3252028849950646272; 3868399889208691200;
  4601594387164468224; 5473754397277415424; 6511218651797905408; 7745317976379835392;
  9213321463051765760; 10959561975427864576; 13036774975770695680; 15507691105715548160;
  18446744073709551615
].

(** The generator's thresholds for 200 bags. *)
Lemma thresholds_200 `{!BuildProfile} :
  thresholds EXISTENTIAL_WEIGHT CONSTANT_RATIO 200 = Ret THRESHOLDS.
Proof.
  unfold thresholds. change (1 <? 200) with true. cbv iota.
  assert (thresholds_loop EXISTENTIAL_WEIGHT CONSTANT_RATIO (Z.to_nat 200) 200
    [EXISTENTIAL_WEIGHT] ++ [VoteWeight_MAX] = THRESHOLDS) as ->
    by (vm_compute; reflexivity).
  unfold debug_assert. destruct overflow_checks; vm_compute; reflexivity.
Qed.

(** The table of the runtime is what the generator makes of the existential
    weight and the ratio it records, for 200 bags and in every build; its
    thresholds increase strictly, as the bags list requires. *)
Theorem THRESHOLDS_generated `{!BuildProfile} :
  thresholds EXISTENTIAL_WEIGHT CONSTANT_RATIO 200 = Ret THRESHOLDS ∧
  StronglySorted Z.lt THRESHOLDS.
Proof.
  split.
  - apply thresholds_200.
  - apply Sorted_StronglySorted; [intros x y z; lia|].
    repeat (constructor; [|constructor; vm_compute; reflexivity]). by repeat constructor.
Qed.

Lemma thresholds_shape_witness :
  ∃ k, @thresholds release EXISTENTIAL_WEIGHT CONSTANT_RATIO 10 =
    Ret (EXISTENTIAL_WEIGHT :: k ++ [VoteWeight_MAX]).
Proof.
  destruct (thresholds_shape EXISTENTIAL_WEIGHT CONSTANT_RATIO 10) as [H _]; [lia|].
  destruct H as (k & Hk & _); [lia|]. by exists k.
Defined.
