(* ===== verification/Runtime.v ===== *)
(** * The runtime: node/runtime/src

    What the runtime of the chain defines itself: its calls and the filters of
    proxies, the handling of fees, gas and weight, precompiles, the author of an
    Ethereum block, and its constants (lib.rs, impls.rs, precompiles.rs,
    constants.rs).  Pallets are parameters.  RuntimeApi.v has the replay. *)

From stdpp Require Import base tactics list gmap strings.
From Stdlib Require Import ZArith Lia Strings.Byte.
From S2P Require Import Prelude EvmEvents.
Local Open Scope Z_scope.

(** ** Constants: constants.rs and the parameter types of lib.rs *)

Definition MILLICENTS : Z := 10000000000000.
Definition CENTS : Z := 1000 * MILLICENTS.
Definition DOLLARS : Z := 100 * CENTS.
Definition deposit (items bytes : Z) : Z := items * 15 * CENTS + bytes * 6 * CENTS.

Definition MILLISECS_PER_BLOCK : Z := 6000.
Definition SECS_PER_BLOCK : Z := MILLISECS_PER_BLOCK `div` 1000.
Definition SLOT_DURATION : Z := MILLISECS_PER_BLOCK.
Definition MINUTES : Z := 60 `div` SECS_PER_BLOCK.
Definition HOURS : Z := MINUTES * 60.
Definition DAYS : Z := HOURS * 24.

(** The parameters that depend on the [fast-runtime] feature. *)
Record Durations := mkDurations {
  Period : Z;
  SessionsPerEra : Z;
  BondingDuration : Z;
  SlashDeferDuration : Z;
  UndecidingTimeout : Z;
  CouncilMotionDuration : Z;
  TermDuration : Z;
}.

Definition normal_durations : Durations := {|
  Period := 1 * HOURS; SessionsPerEra := 6; BondingDuration := 2 * 28;
  SlashDeferDuration := 28; UndecidingTimeout := 3 * MINUTES;
  CouncilMotionDuration := 14 * DAYS; TermDuration := 28 * DAYS |}.

Definition fast_durations : Durations := {|
  Period := 1 * MINUTES; SessionsPerEra := 3; BondingDuration := 1;
  SlashDeferDuration := 1; UndecidingTimeout := 28 * DAYS;
  CouncilMotionDuration := 3 * MINUTES; TermDuration := 6 * MINUTES |}.

(** A number of eras, in blocks. *)
Definition era_blocks (d : Durations) (eras : Z) : Z := eras * SessionsPerEra d * Period d.

Definition BlockHashCount : Z := 2400.

(** [checked_next_power_of_two] on 32 bits. *)
Definition checked_next_power_of_two (n : Z) : option Z :=
  let p := if n <=? 1 then 1 else 2 ^ Z.log2_up n in
  if p <? 2 ^ 32 then Some p else None.

(** The period of the era in [create_transaction]. *)
Definition transaction_period : Z :=
  default 2 ((λ c, c `div` 2) <$> checked_next_power_of_two BlockHashCount).

(** The durations are those their comments give: staking unbonds after 14 days and
    slashes are deferred for 7, and 3 minutes each with the fast runtime. *)
Lemma documented_durations :
  era_blocks normal_durations (BondingDuration normal_durations) = 14 * DAYS ∧
  era_blocks normal_durations (SlashDeferDuration normal_durations) = 7 * DAYS ∧
  era_blocks fast_durations (BondingDuration fast_durations) = 3 * MINUTES ∧
  era_blocks fast_durations (SlashDeferDuration fast_durations) = 3 * MINUTES.
Proof. by vm_compute. Qed.

(** The period of a transaction's era is the largest power of two for which the
    hashes of its blocks are still known. *)
Lemma transaction_period_known :
  transaction_period = 2 ^ 11 ∧ transaction_period ≤ BlockHashCount < 2 * transaction_period.
Proof. vm_compute. repeat split; discriminate. Qed.

(** ** Calls and proxies *)

Inductive VestingCall := vested_transfer | VestingOther.
Inductive IndicesCall := indices_transfer | IndicesOther.

(** The calls of the runtime by pallet, in the order of [construct_runtime]; the
    calls a filter looks at are told apart. *)
Inductive RuntimeCall (EthTransaction : Type) :=
| CSystem | CUtility | CTimestamp | CAuthorship
| CIndices (c : IndicesCall)
| CBalances | CStaking | CSession | CDemocracy | CCouncil | CPhragmenElection | CGrandpa
| CTreasury | CContracts | CSudo | CImOnline | CIdentity | CRecovery
| CVesting (c : VestingCall)
| CScheduler | CProxy | CMultisig | CAssets | CTreasuryReward
| CEthereum (transaction : EthTransaction)
| CEVM | CBounties | CTips | CElectionProviderMultiPhase | CDynamicFee | CBaseFee
| CBagsList | CPreimage.
Arguments CSystem {_}. Arguments CUtility {_}. Arguments CTimestamp {_}.
Arguments CAuthorship {_}. Arguments CIndices {_}. Arguments CBalances {_}.
Arguments CStaking {_}. Arguments CSession {_}. Arguments CDemocracy {_}.
Arguments CCouncil {_}. Arguments CPhragmenElection {_}. Arguments CGrandpa {_}.
Arguments CTreasury {_}. Arguments CContracts {_}. Arguments CSudo {_}.
Arguments CImOnline {_}. Arguments CIdentity {_}. Arguments CRecovery {_}.
Arguments CVesting {_}. Arguments CScheduler {_}. Arguments CProxy {_}.
Arguments CMultisig {_}. Arguments CAssets {_}. Arguments CTreasuryReward {_}.
Arguments CEthereum {_}. Arguments CEVM {_}. Arguments CBounties {_}. Arguments CTips {_}.
Arguments CElectionProviderMultiPhase {_}. Arguments CDynamicFee {_}.
Arguments CBaseFee {_}. Arguments CBagsList {_}. Arguments CPreimage {_}.

Inductive ProxyType := ProxyAny | NonTransfer | Governance | ProxyStaking.
#[global] Instance ProxyType_eq_dec : EqDecision ProxyType.
Proof. solve_decision. Defined.

Definition proxy_filter {T} (p : ProxyType) (c : RuntimeCall T) : bool :=
  match p with
  | ProxyAny => true
  | NonTransfer =>
      negb match c with
           | CBalances | CVesting vested_transfer | CIndices indices_transfer => true
           | _ => false
           end
  | Governance =>
      match c with
      | CDemocracy | CCouncil | CPhragmenElection | CTreasury => true
      | _ => false
      end
  | ProxyStaking => match c with CStaking => true | _ => false end
  end.

Definition is_superset (p o : ProxyType) : bool :=
  if decide (p = o) then true
  else match p, o with
       | ProxyAny, _ => true
       | _, ProxyAny => false
       | NonTransfer, _ => true
       | _, _ => false
       end.

(** A proxy type is declared a superset of another exactly when it allows
    every call the other allows, so an announced hierarchy never hides a right. *)
Theorem proxy_superset_sound_complete T p o :
  is_superset p o = true ↔
  ∀ c : RuntimeCall T, proxy_filter o c = true → proxy_filter p c = true.
Proof.
  split.
  - by destruct p, o; try done; intros _ []; simpl.
  - intros Hsub. destruct p, o; try reflexivity; exfalso.
    all: first [by pose proof (Hsub CBalances eq_refl)
               |by pose proof (Hsub CSystem eq_refl)
               |by pose proof (Hsub CStaking eq_refl)
               |by pose proof (Hsub CDemocracy eq_refl)].
Qed.

(** ** Fees: [DealWithFees] and impls.rs *)

(** An imbalance by its amount.  [ration a b] of the framework splits it in two
    parts that together are the imbalance. *)
Class Ration := {
  ration : Z → Z → Z → Z * Z;
  ration_conserves x a b : 0 ≤ x → (ration x a b).1 + (ration x a b).2 = x;
  ration_nonneg x a b : 0 ≤ x → 0 ≤ (ration x a b).1 ∧ 0 ≤ (ration x a b).2;
}.

Section fees.
Context `{!Ration}.

(** What goes to the treasury and to the author; [on_unbalanced] ignores an
    imbalance of zero, and a share for an unknown author panics. *)
Definition author_on_unbalanced (author : option Z) (amount : Z) : outcome (option (Z * Z)) :=
  if amount =? 0 then Ret None
  else match author with
       | Some a => Ret (Some (a, amount))
       | None => Panic
       end.

Definition on_unbalanceds (author : option Z) (fees_then_tips : list Z) :
    outcome (Z * option (Z * Z)) :=
  match fees_then_tips with
  | [] => Ret (0, None)
  | fees :: rest =>
      let split := ration fees 80 20 in
      let split :=
        match rest with
        | [] => split
        | tips :: _ =>
            let t := ration tips 80 20 in (split.1 + t.1, split.2 + t.2)
        end in
      r ← author_on_unbalanced author split.2;
      Ret (split.1, r)
  end.

(** No fee or tip is lost or created: what the treasury and the author of
    the block receive is the fee and the tip. *)
Theorem fees_conserved author fees tip treasury paid :
  0 ≤ fees → 0 ≤ tip →
  on_unbalanceds author [fees; tip] = Ret (treasury, paid) →
  0 ≤ treasury ∧ treasury + default 0 (snd <$> paid) = fees + tip ∧
  (∀ a v, paid = Some (a, v) → author = Some a ∧ 0 < v).
Proof.
  intros Hf Ht. unfold on_unbalanceds, author_on_unbalanced.
  pose proof (ration_conserves fees 80 20 Hf). pose proof (ration_conserves tip 80 20 Ht).
  pose proof (ration_nonneg fees 80 20 Hf). pose proof (ration_nonneg tip 80 20 Ht).
  cbn [fst snd]. destruct (Z.eqb_spec ((ration fees 80 20).2 + (ration tip 80 20).2) 0).
  - intros [= <- <-]. simpl. split_and!; [lia..|done].
  - destruct author as [a|]; [|done]. intros [= <- <-]. simpl. split_and!; [lia..|].
    intros a' v [= <- <-]. split; [done|lia].
Qed.

End fees.

(** ** Gas and weight *)

Definition WEIGHT_PER_SECOND : Z := 1000000000000.
Definition MAXIMUM_BLOCK_WEIGHT : Z := 2 * WEIGHT_PER_SECOND.
(** Of the main network and of the test network. *)
Definition GAS_PER_SECOND (beresheet : bool) : Z := if beresheet then 150000000 else 8000000.
Definition WEIGHT_PER_GAS (beresheet : bool) : Z := WEIGHT_PER_SECOND `div` GAS_PER_SECOND beresheet.
(** [NORMAL_DISPATCH_RATIO * MAXIMUM_BLOCK_WEIGHT / WEIGHT_PER_GAS]. *)
Definition BlockGasLimit (beresheet : bool) : Z :=
  ((75 * MAXIMUM_BLOCK_WEIGHT) `div` 100) `div` WEIGHT_PER_GAS beresheet.

Definition saturating_mul (w a b : Z) : Z := Z.min (a * b) (2 ^ w - 1).
Definition gas_to_weight (beresheet : bool) (gas : Z) : Z :=
  saturating_mul 64 gas (WEIGHT_PER_GAS beresheet).
Definition weight_to_gas (beresheet : bool) (weight : Z) : Z :=
  weight `div` WEIGHT_PER_GAS beresheet.

Lemma WEIGHT_PER_GAS_value beresheet :
  WEIGHT_PER_GAS beresheet = if beresheet then 6666 else 125000.
Proof. destruct beresheet; vm_compute; reflexivity. Qed.
Lemma BlockGasLimit_value beresheet :
  BlockGasLimit beresheet = if beresheet then 225022502 else 12000000.
Proof. destruct beresheet; vm_compute; reflexivity. Qed.

(** Converting gas to weight and back is the identity for all gas a block can
    use and far beyond, and converting weight to gas and back loses less than the
    weight of one gas and adds none. *)
Theorem gas_weight_roundtrip beresheet gas weight :
  0 ≤ gas ≤ 1000000 * BlockGasLimit beresheet → 0 ≤ weight < 2 ^ 64 →
  weight_to_gas beresheet (gas_to_weight beresheet gas) = gas ∧
  0 ≤ weight - gas_to_weight beresheet (weight_to_gas beresheet weight)
    < WEIGHT_PER_GAS beresheet.
Proof.
  rewrite BlockGasLimit_value. unfold weight_to_gas, gas_to_weight, saturating_mul.
  rewrite WEIGHT_PER_GAS_value. intros Hg Hw.
  set (k := if beresheet then 6666 else 125000).
  assert (6666 ≤ k ≤ 125000 ∧ gas * k ≤ 2 ^ 64 - 1) as [Hk Hmax]
    by (subst k; destruct beresheet; lia).
  clearbody k. rewrite (Z.min_l (gas * k)), Z.div_mul by lia. split; [done|].
  pose proof (Z.div_mod weight k ltac:(lia)). pose proof (Z.mod_pos_bound weight k ltac:(lia)).
  rewrite Z.min_l by lia. lia.
Qed.

(** ** Precompiles: precompiles.rs *)

(** The precompiles by name; [hash a] is the address with the low word [a]. *)
Inductive Precompile :=
| ECRecover | Sha256 | Ripemd160 | Identity | Modexp | Bn128Add | Bn128Mul | Bn128Pairing
| Blake2F | Sha3FIPS256 | ECRecoverPublicKey | Ed25519Verify | Curve25519Add
| Curve25519ScalarMul.

Definition precompile_at (address : H160) : option Precompile :=
  if address =? 1 then Some ECRecover
  else if address =? 2 then Some Sha256
  else if address =? 3 then Some Ripemd160
  else if address =? 4 then Some Identity
  else if address =? 5 then Some Modexp
  else if address =? 6 then Some Bn128Add
  else if address =? 7 then Some Bn128Mul
  else if address =? 8 then Some Bn128Pairing
  else if address =? 9 then Some Blake2F
  else if address =? 1024 then Some Sha3FIPS256
  else if address =? 1025 then Some ECRecoverPublicKey
  else if address =? 1026 then Some Ed25519Verify
  else if address =? 1027 then Some Curve25519Add
  else if address =? 1028 then Some Curve25519ScalarMul
  else None.

Definition used_addresses : list H160 := [1; 2; 3; 4; 5; 1024; 1025; 1026; 1027; 1028].
Definition is_precompile (address : H160) : bool := bool_decide (address ∈ used_addresses).

(** Every address the set reports as a precompile is executed as one, but the
    reverse fails exactly for the addresses 6 to 9. *)
Theorem precompiles_reported address :
  (is_precompile address = true → is_Some (precompile_at address)) ∧
  (is_Some (precompile_at address) ∧ is_precompile address = false ↔ 6 ≤ address ≤ 9).
Proof.
  unfold is_precompile. split.
  - rewrite bool_decide_eq_true. unfold used_addresses. rewrite !elem_of_cons, elem_of_nil.
    intros Ha. repeat (destruct Ha as [->|Ha]; [by eexists|]). done.
  - rewrite bool_decide_eq_false. unfold used_addresses. rewrite !elem_of_cons, elem_of_nil.
    split.
    + unfold precompile_at. intros [Hs Hn].
      repeat match type of Hs with
      | context [?a =? ?b] => destruct (Z.eqb_spec a b); [intuition lia|]
      end. by apply is_Some_None in Hs.
    + intros Ha. split; [|lia]. unfold precompile_at.
      repeat match goal with
      | |- context [?a =? ?b] => destruct (Z.eqb_spec a b); [by eexists|]
      end. lia.
Qed.

(** ** The author of an Ethereum block: [FindAuthorTruncated] *)

(** The index of the author among the authorities, by their raw keys; an index out
    of range and a key of less than 24 bytes panic. *)
Definition find_author (author_index : option Z) (authorities : list bytes) :
    outcome (option bytes) :=
  match author_index with
  | Some i =>
      match authorities !! Z.to_nat i with
      | Some id =>
          if 24 <=? zlen id then Ret (Some (take 20 (drop 4 id))) else Panic
      | None => Panic
      end
  | None => Ret None
  end.

(** With 32-byte keys and an author among the authorities, the author of the block
    is an address: 20 bytes of the key. *)
Lemma find_author_address i authorities :
  (i < length authorities)%nat → Forall (λ id, length id = 32%nat) authorities →
  ∃ a, find_author (Some (Z.of_nat i)) authorities = Ret (Some a) ∧ length a = 20%nat.
Proof.
  intros Hi Hall. unfold find_author. rewrite Nat2Z.id.
  destruct (lookup_lt_is_Some_2 _ _ Hi) as [id Hid]. rewrite Hid.
  pose proof (Forall_lookup_1 _ _ _ _ Hall Hid) as Hlen. simpl in Hlen.
  rewrite (proj2 (Z.leb_le _ _)) by lia. eexists. split; [done|].
  rewrite length_take, length_drop. lia.
Qed.

(** ** Witnesses *)

#[global] Instance ration_floor : Ration.
Proof.
  refine {| ration := λ x a b, (Z.min x (Z.max 0 ((x * a) `div` (a + b))),
                               x - Z.min x (Z.max 0 ((x * a) `div` (a + b)))) |}; simpl; lia.
Defined.

Lemma fees_conserved_witness :
  on_unbalanceds (Some 7) [100; 11] = Ret (88, Some (7, 23)) ∧ 88 + 23 = 100 + 11.
Proof.
  split; [vm_compute; reflexivity|].
  apply (@fees_conserved ration_floor (Some 7) 100 11 88 (Some (7, 23)));
    [lia|lia|vm_compute; reflexivity].
Defined.

Lemma gas_weight_roundtrip_witness :
  weight_to_gas false (gas_to_weight false 21000) = 21000.
Proof.
  apply (gas_weight_roundtrip false 21000 0); [|lia].
  rewrite BlockGasLimit_value. lia.
Defined.
