(* ===== verification/RuntimeConfig.v ===== *)
(** * The configuration of the pallets: node/runtime/src/lib.rs

    The parameter types and the [Config] implementations of the runtime, as one
    record per pallet, for the builds with and without the [fast-runtime],
    [no-reaping] and [beresheet-runtime] features; the pallets and their indices
    of [construct_runtime]; the origins that govern the chain.  The checks of an
    origin are the framework's and a class with their documented laws. *)

From stdpp Require Import base tactics list strings.
From Stdlib Require Import ZArith Lia Floats.SpecFloat.
From S2P Require Import Prelude Bags Runtime.
Local Open Scope Z_scope.

(** ** Pallets *)

Inductive Pallet :=
| System | Utility | Aura | Timestamp | Authorship | Indices | Balances
| TransactionPayment | Staking | Session | Democracy | Council | PhragmenElection
| Grandpa | Treasury | Contracts | Sudo | ImOnline | AuthorityDiscovery | Offences
| Historical | RandomnessCollectiveFlip | Identity | Recovery | Vesting | Scheduler
| Proxy | Multisig | Assets | TreasuryReward | Ethereum | EVM | Bounties | Tips
| ElectionProviderMultiPhase | DynamicFee | BaseFee | BagsList | Preimage.
#[global] Instance Pallet_eq_dec : EqDecision Pallet.
Proof. solve_decision. Defined.

Definition pallet_index (p : Pallet) : Z :=
  match p with
  | System => 0 | Utility => 1 | Aura => 2 | Timestamp => 3 | Authorship => 4
  | Indices => 5 | Balances => 6 | TransactionPayment => 7 | Staking => 8 | Session => 9
  | Democracy => 10 | Council => 11 | PhragmenElection => 12 | Grandpa => 14
  | Treasury => 15 | Contracts => 16 | Sudo => 17 | ImOnline => 18
  | AuthorityDiscovery => 19 | Offences => 20 | Historical => 21
  | RandomnessCollectiveFlip => 22 | Identity => 23 | Recovery => 24 | Vesting => 25
  | Scheduler => 26 | Proxy => 27 | Multisig => 28 | Assets => 29
  | TreasuryReward => 32 | Ethereum => 33 | EVM => 34 | Bounties => 37 | Tips => 38
  | ElectionProviderMultiPhase => 39 | DynamicFee => 40 | BaseFee => 41
  | BagsList => 42 | Preimage => 43
  end.

(** Indices are distinct bytes, so the first byte of an encoded call names its
    pallet. *)
Lemma pallet_index_inj p q : pallet_index p = pallet_index q → p = q.
Proof. by destruct p, q. Qed.
Lemma pallet_index_byte p : 0 ≤ pallet_index p < 256.
Proof. by destruct p. Qed.

(** Where an imbalance goes; the unit type drops it. *)
Inductive Sink := To (p : Pallet) | Dropped.

(** ** Origins *)

Inductive Origin :=
| Root
| Signed (who : Z)
| Unsigned
| Members (yes total : Z)
| Member (who : Z)
| EthereumTransaction (source : H160).

(** The checks of [frame_system], [frame_support] and [pallet_collective], on the
    council's instance. *)
Class EnsureOrigins := {
  EnsureRoot : Origin → bool;
  EnsureNever : Origin → bool;
  EnsureOneOf : (Origin → bool) → (Origin → bool) → Origin → bool;
  EnsureMember : Origin → bool;
  EnsureProportionAtLeast : Z → Z → Origin → bool;
  EnsureProportionMoreThan : Z → Z → Origin → bool;
  EnsureRoot_spec o : EnsureRoot o = true ↔ o = Root;
  EnsureNever_spec o : EnsureNever o = false;
  EnsureOneOf_spec l r o : EnsureOneOf l r o = l o || r o;
  EnsureMember_spec o : EnsureMember o = true ↔ ∃ who, o = Member who;
  AtLeast_spec n d o :
    EnsureProportionAtLeast n d o = true ↔
    ∃ yes total, o = Members yes total ∧ n * total ≤ d * yes;
  MoreThan_spec n d o :
    EnsureProportionMoreThan n d o = true ↔
    ∃ yes total, o = Members yes total ∧ n * total < d * yes;
}.

(** ** Blocks: weight and length *)

Definition AVERAGE_ON_INITIALIZE_RATIO : Z := 10.
Definition NORMAL_DISPATCH_RATIO : Z := 75.
(** [Perbill::from_percent(p) * x]; the products of this file are exact, so how
    the framework rounds does not matter ([ratios_exact]). *)
Definition percent_of (p x : Z) : Z := (p * x) `div` 100.

Inductive DispatchClass := Normal | Operational | Mandatory.

Record WeightsPerClass := mkWeights {
  base_extrinsic : Z;
  max_total : option Z;
  reserved : option Z;
}.

(** The limits per class, from the builder's defaults; [ExtrinsicBaseWeight] is the
    framework's. *)
Definition RuntimeBlockWeights (ExtrinsicBaseWeight : Z)
    (defaults : DispatchClass → WeightsPerClass) (c : DispatchClass) : WeightsPerClass :=
  let weights := defaults c in
  let weights := mkWeights ExtrinsicBaseWeight (max_total weights) (reserved weights) in
  match c with
  | Normal =>
      mkWeights (base_extrinsic weights)
        (Some (percent_of NORMAL_DISPATCH_RATIO MAXIMUM_BLOCK_WEIGHT)) (reserved weights)
  | Operational =>
      mkWeights (base_extrinsic weights) (Some MAXIMUM_BLOCK_WEIGHT)
        (Some (MAXIMUM_BLOCK_WEIGHT - percent_of NORMAL_DISPATCH_RATIO MAXIMUM_BLOCK_WEIGHT))
  | Mandatory => weights
  end.

(** [BlockLength::max_with_normal_ratio]: the limit of a class. *)
Definition RuntimeBlockLength (c : DispatchClass) : Z :=
  match c with
  | Normal => percent_of NORMAL_DISPATCH_RATIO (5 * 1024 * 1024)
  | _ => 5 * 1024 * 1024
  end.

(** ** Deposits and limits of the utility pallets *)

(** The prefix of the addresses of accounts. *)
Definition SS58Prefix : Z := 7.
Definition MaxConsumers : Z := 16.

Record MultisigConfig := mkMultisig {
  DepositBase : Z; DepositFactor : Z; MaxSignatories : Z }.
Definition multisig_config : MultisigConfig := {|
  DepositBase := deposit 1 88; DepositFactor := deposit 0 32; MaxSignatories := 100 |}.

Record ProxyConfig := mkProxyConfig {
  ProxyDepositBase : Z; ProxyDepositFactor : Z; MaxProxies : Z; MaxPending : Z;
  AnnouncementDepositBase : Z; AnnouncementDepositFactor : Z }.
Definition proxy_config : ProxyConfig := {|
  ProxyDepositBase := deposit 1 8; ProxyDepositFactor := deposit 0 33;
  MaxProxies := 32; MaxPending := 32;
  AnnouncementDepositBase := deposit 1 8; AnnouncementDepositFactor := deposit 0 66 |}.

Record PreimageConfig := mkPreimage {
  PreimageManagerOrigin : Origin → bool;
  PreimageMaxSize : Z; PreimageBaseDeposit : Z; PreimageByteDeposit : Z }.
Definition preimage_config `{!EnsureOrigins} : PreimageConfig := {|
  PreimageManagerOrigin := EnsureRoot;
  PreimageMaxSize := 4096 * 1024;
  PreimageBaseDeposit := 1 * DOLLARS; PreimageByteDeposit := 1 * CENTS |}.

Record SchedulerConfig := mkScheduler {
  MaximumSchedulerWeight : Z; ScheduleOrigin : Origin → bool;
  MaxScheduledPerBlock : Z; NoPreimagePostponement : option Z }.
(** [max_block] is the limit of the whole block the framework computes. *)
Definition scheduler_config `{!EnsureOrigins} (max_block : Z) : SchedulerConfig := {|
  MaximumSchedulerWeight := percent_of 80 max_block;
  ScheduleOrigin := EnsureRoot; MaxScheduledPerBlock := 50;
  NoPreimagePostponement := Some 10 |}.

Definition IndexDeposit : Z := 1 * DOLLARS.

Record IdentityConfig := mkIdentityConfig {
  BasicDeposit : Z; FieldDeposit : Z; SubAccountDeposit : Z; MaxSubAccounts : Z;
  MaxAdditionalFields : Z; MaxRegistrars : Z; Slashed : Sink;
  IdentityForceOrigin : Origin → bool; RegistrarOrigin : Origin → bool }.

Record RecoveryConfig := mkRecovery {
  ConfigDepositBase : Z; FriendDepositFactor : Z; MaxFriends : Z; RecoveryDeposit : Z }.
Definition recovery_config : RecoveryConfig := {|
  ConfigDepositBase := 5 * DOLLARS; FriendDepositFactor := 50 * CENTS;
  MaxFriends := 9; RecoveryDeposit := 5 * DOLLARS |}.

Record VestingConfig := mkVestingConfig { MinVestedTransfer : Z; MAX_VESTING_SCHEDULES : Z }.
Definition vesting_config : VestingConfig := {|
  MinVestedTransfer := 100 * DOLLARS; MAX_VESTING_SCHEDULES := 28 |}.

Record AssetsConfig := mkAssets {
  AssetsForceOrigin : Origin → bool;
  AssetDeposit : Z; AssetAccountDeposit : Z; ApprovalDeposit : Z; StringLimit : Z;
  MetadataDepositBase : Z; MetadataDepositPerByte : Z }.
Definition assets_config `{!EnsureOrigins} : AssetsConfig := {|
  AssetsForceOrigin := EnsureRoot;
  AssetDeposit := 100 * DOLLARS; AssetAccountDeposit := DOLLARS;
  ApprovalDeposit := 1 * DOLLARS; StringLimit := 50;
  MetadataDepositBase := 10 * DOLLARS; MetadataDepositPerByte := 1 * DOLLARS |}.

(** ** Balances and fees *)

Record BalancesConfig := mkBalances {
  ExistentialDeposit : Z; MaxLocks : Z; MaxReserves : Z }.
Definition balances_config (no_reaping : bool) : BalancesConfig :=
  if no_reaping then {| ExistentialDeposit := 0; MaxLocks := 50; MaxReserves := 50 |}
  else {| ExistentialDeposit := 1 * MILLICENTS; MaxLocks := 50; MaxReserves := 50 |}.

(** Ratios are a numerator and a denominator. *)
Record PaymentConfig := mkPayment {
  TransactionByteFee : Z; OperationalFeeMultiplier : Z; TargetBlockFullness : Z * Z;
  AdjustmentVariable : Z * Z; MinimumMultiplier : Z * Z }.
Definition payment_config : PaymentConfig := {|
  TransactionByteFee := 10 * MILLICENTS; OperationalFeeMultiplier := 5;
  TargetBlockFullness := (25, 100); AdjustmentVariable := (3, 100000);
  MinimumMultiplier := (1, 1000000) |}.

(** ** Time *)

Definition MinimumPeriod : Z := SLOT_DURATION `div` 2.
Definition UncleGenerations : Z := 5.

Definition EPOCH_DURATION_IN_BLOCKS (fast : bool) : Z := if fast then 1 * MINUTES else 1 * HOURS.
Definition SLOT_FILL_RATE : f64 :=
  SFdiv 53 1024 (u64_as_f64 MILLISECS_PER_BLOCK) (u64_as_f64 SLOT_DURATION).
Definition EPOCH_DURATION_IN_SLOTS (fast : bool) : Z :=
  f64_as_u64 (f64_mul (u64_as_f64 (EPOCH_DURATION_IN_BLOCKS fast)) SLOT_FILL_RATE).

Definition durations (fast : bool) : Durations :=
  if fast then fast_durations else normal_durations.
Definition ReportLongevity (fast : bool) : Z :=
  BondingDuration (durations fast) * SessionsPerEra (durations fast) *
  EPOCH_DURATION_IN_SLOTS fast.

(** ** Staking and its elections *)

Record RewardCurve := mkRewardCurve {
  min_inflation : Z; max_inflation : Z; ideal_stake : Z; falloff : Z;
  max_piece_count : Z; test_precision : Z }.
(** Parts of a million. *)
Definition REWARD_CURVE : RewardCurve := {|
  min_inflation := 25000; max_inflation := 100000; ideal_stake := 500000;
  falloff := 50000; max_piece_count := 40; test_precision := 5000 |}.

Record StakingConfig := mkStaking {
  MaxNominatorRewardedPerValidator : Z; OffendingValidatorsThreshold : Z;
  OffchainRepeat : Z; RewardRemainder : Sink; StakingSlash : Sink; Reward : Sink;
  SlashCancelOrigin : Origin → bool; MaxUnlockingChunks : Z }.
Definition staking_config `{!EnsureOrigins} : StakingConfig := {|
  MaxNominatorRewardedPerValidator := 128; OffendingValidatorsThreshold := 17;
  OffchainRepeat := 5; RewardRemainder := To Treasury; StakingSlash := To Treasury;
  Reward := Dropped;
  SlashCancelOrigin := EnsureOneOf EnsureRoot (EnsureProportionAtLeast 3 4);
  MaxUnlockingChunks := 32 |}.

Definition ImOnlineUnsignedPriority : Z := 2 ^ 64 - 1.
Definition StakingUnsignedPriority : Z := (2 ^ 64 - 1) `div` 2.
Definition MultiPhaseUnsignedPriority : Z := StakingUnsignedPriority - 1.
Definition MaxAuthorities : Z := 100.

Record ImOnlineConfig := mkImOnline {
  UnsignedPriority : Z; MaxKeys : Z; MaxPeerInHeartbeats : Z; MaxPeerDataEncodingSize : Z }.
Definition im_online_config : ImOnlineConfig := {|
  UnsignedPriority := ImOnlineUnsignedPriority; MaxKeys := 10000;
  MaxPeerInHeartbeats := 10000; MaxPeerDataEncodingSize := 1000 |}.

Definition SignedPhase (fast : bool) : Z := EPOCH_DURATION_IN_BLOCKS fast `div` 4.
Definition UnsignedPhase (fast : bool) : Z := EPOCH_DURATION_IN_BLOCKS fast `div` 4.
Definition MinerMaxLength : Z := (9 * RuntimeBlockLength Normal) `div` 10.
(** [saturating_sub] of the framework's weight of an empty block. *)
Definition MinerMaxWeight (normal_max_extrinsic : option Z) (BlockExecutionWeight : Z) :
    outcome Z :=
  match normal_max_extrinsic with
  | Some w => Ret (Z.max 0 (w - BlockExecutionWeight))
  | None => Panic
  end.

Definition MINER_MAX_ITERATIONS : Z := 10.
(** A 32-bit number from the first bytes of a seed, padded with zeroes. *)
Definition decode_u32 (seed : bytes) : Z :=
  foldr (λ b n, byte_val b + 256 * n) 0 (take 4 seed).
Definition saturating_add (w a b : Z) : Z := Z.min (a + b) (2 ^ w - 1).
Definition OffchainRandomBalancing (seed : bytes) : option (Z * Z) :=
  let iters :=
    if MINER_MAX_ITERATIONS =? 0 then 0
    else decode_u32 seed mod saturating_add 32 MINER_MAX_ITERATIONS 1 in
  Some (iters, 0).

Definition EnsureRootOrHalfCouncil `{!EnsureOrigins} : Origin → bool :=
  EnsureOneOf EnsureRoot (EnsureProportionMoreThan 1 2).

Definition identity_config `{!EnsureOrigins} : IdentityConfig := {|
  BasicDeposit := 5 * DOLLARS; FieldDeposit := 250 * CENTS;
  SubAccountDeposit := 1 * DOLLARS; MaxSubAccounts := 100; MaxAdditionalFields := 100;
  MaxRegistrars := 20; Slashed := To Treasury;
  IdentityForceOrigin := EnsureRootOrHalfCouncil;
  RegistrarOrigin := EnsureRootOrHalfCouncil |}.

Record MultiPhaseConfig := mkMultiPhase {
  SignedMaxSubmissions : Z; SignedRewardBase : Z; SignedDepositBase : Z;
  SignedDepositByte : Z; MinerTxPriority : Z; SlashHandler : Sink; RewardHandler : Sink;
  MultiPhaseForceOrigin : Origin → bool; MaxElectingVoters : Z; VotersBound : Z;
  TargetsBound : Z }.
Definition multi_phase_config `{!EnsureOrigins} : MultiPhaseConfig := {|
  SignedMaxSubmissions := 10; SignedRewardBase := 1 * DOLLARS;
  SignedDepositBase := 1 * DOLLARS; SignedDepositByte := 1 * CENTS;
  MinerTxPriority := MultiPhaseUnsignedPriority;
  SlashHandler := Dropped; RewardHandler := Dropped;
  MultiPhaseForceOrigin := EnsureRootOrHalfCouncil; MaxElectingVoters := 10000;
  VotersBound := 20000; TargetsBound := 2000 |}.

(** ** Governance *)

Definition VoteLockingPeriod (fast : bool) : Z := if fast then 1 * MINUTES else 7 * DAYS.
Definition AlarmInterval : Z := 1.
Definition SubmissionDeposit : Z := 100 * DOLLARS.

Record DemocracyConfig := mkDemocracy {
  LaunchPeriod : Z; VotingPeriod : Z; FastTrackVotingPeriod : Z; MinimumDeposit : Z;
  EnactmentPeriod : Z; CooloffPeriod : Z; MaxProposals : Z; MaxVotes : Z;
  ExternalOrigin : Origin → bool;
  ExternalMajorityOrigin : Origin → bool;
  ExternalDefaultOrigin : Origin → bool;
  FastTrackOrigin : Origin → bool;
  InstantOrigin : Origin → bool;
  InstantAllowed : bool;
  CancellationOrigin : Origin → bool;
  CancelProposalOrigin : Origin → bool;
  BlacklistOrigin : Origin → bool;
  VetoOrigin : Origin → bool;
  OperationalPreimageOrigin : Origin → bool;
  DemocracySlash : Sink;
}.
Definition democracy_config `{!EnsureOrigins} (fast : bool) : DemocracyConfig := {|
  LaunchPeriod := if fast then 1 * MINUTES else 2 * 24 * 60 * MINUTES;
  VotingPeriod := if fast then 3 * MINUTES else 7 * 24 * 60 * MINUTES;
  FastTrackVotingPeriod := if fast then 1 * MINUTES else 2 * 24 * 60 * MINUTES;
  MinimumDeposit := 100 * DOLLARS;
  EnactmentPeriod := if fast then 1 * MINUTES else 1 * 24 * 60 * MINUTES;
  CooloffPeriod := if fast then 2 * MINUTES else 7 * 24 * 60 * MINUTES;
  MaxProposals := 100; MaxVotes := 100;
  ExternalOrigin := EnsureProportionAtLeast 1 2;
  ExternalMajorityOrigin := EnsureOneOf (EnsureProportionAtLeast 3 5) EnsureRoot;
  ExternalDefaultOrigin := EnsureOneOf (EnsureProportionAtLeast 1 1) EnsureRoot;
  FastTrackOrigin := EnsureOneOf (EnsureProportionAtLeast 3 4) EnsureRoot;
  InstantOrigin := EnsureNever;
  InstantAllowed := true;
  CancellationOrigin := EnsureProportionAtLeast 2 3;
  CancelProposalOrigin := EnsureOneOf (EnsureProportionAtLeast 2 3) EnsureRoot;
  BlacklistOrigin := EnsureRoot;
  VetoOrigin := EnsureNever;
  OperationalPreimageOrigin := EnsureMember;
  DemocracySlash := To Treasury |}.

Record CouncilConfig := mkCouncil {
  MotionDuration : Z; CouncilMaxProposals : Z; CouncilMaxMembers : Z }.
Definition council_config (fast : bool) : CouncilConfig := {|
  MotionDuration := CouncilMotionDuration (durations fast);
  CouncilMaxProposals := 100; CouncilMaxMembers := 100 |}.

Record ElectionsConfig := mkElections {
  CandidacyBond : Z; VotingBondBase : Z; VotingBondFactor : Z; ElectionsTermDuration : Z;
  DesiredMembers : Z; DesiredRunnersUp : Z; ElectionsPhragmenPalletId : string;
  LoserCandidate : Sink; KickedMember : Sink }.
Definition elections_config (fast : bool) : ElectionsConfig := {|
  CandidacyBond := 1000 * DOLLARS; VotingBondBase := deposit 1 64;
  VotingBondFactor := deposit 0 32; ElectionsTermDuration := TermDuration (durations fast);
  DesiredMembers := 13; DesiredRunnersUp := 7; ElectionsPhragmenPalletId := "phrelect";
  LoserCandidate := Dropped; KickedMember := Dropped |}.

Record TreasuryConfig := mkTreasury {
  ProposalBond : Z; ProposalBondMinimum : Z; SpendPeriod : Z; Burn : Z;
  TreasuryPalletId : string; MaxApprovals : Z;
  ApproveOrigin : Origin → bool; RejectOrigin : Origin → bool; OnSlash : Sink;
  BurnDestination : Sink; SpendFunds : Pallet }.
Definition treasury_config `{!EnsureOrigins} (fast : bool) : TreasuryConfig := {|
  ProposalBond := 5; ProposalBondMinimum := 1000 * DOLLARS;
  SpendPeriod := if fast then 3 * MINUTES else 3 * DAYS; Burn := 0;
  TreasuryPalletId := "py/trsry"; MaxApprovals := 100;
  ApproveOrigin := EnsureOneOf EnsureRoot (EnsureProportionAtLeast 3 5);
  RejectOrigin := EnsureOneOf EnsureRoot (EnsureProportionMoreThan 1 2);
  OnSlash := Dropped; BurnDestination := Dropped; SpendFunds := Bounties |}.

Record TipsConfig := mkTips {
  TipCountdown : Z; TipFindersFee : Z; TipReportDepositBase : Z; DataDepositPerByte : Z;
  MaximumReasonLength : Z; Tippers : Pallet }.
Definition tips_config (fast : bool) : TipsConfig := {|
  TipCountdown := if fast then 2 * MINUTES else 1 * DAYS; TipFindersFee := 20;
  TipReportDepositBase := 1 * DOLLARS; DataDepositPerByte := 1 * CENTS;
  MaximumReasonLength := 16384; Tippers := PhragmenElection |}.

Record BountiesConfig := mkBounties {
  BountyValueMinimum : Z; BountyDepositBase : Z; CuratorDepositMultiplier : Z;
  CuratorDepositMin : Z; CuratorDepositMax : Z; BountyDepositPayoutDelay : Z;
  BountyUpdatePeriod : Z }.
Definition bounties_config (fast : bool) : BountiesConfig := {|
  BountyValueMinimum := 100 * DOLLARS; BountyDepositBase := 10 * DOLLARS;
  CuratorDepositMultiplier := 50; CuratorDepositMin := 1 * DOLLARS;
  CuratorDepositMax := 100 * DOLLARS;
  BountyDepositPayoutDelay := if fast then 2 * MINUTES else 7 * DAYS;
  BountyUpdatePeriod := if fast then 2 * MINUTES else 3 * DAYS |}.

(** ** Contracts and the EVM *)

Record ContractsConfig := mkContracts {
  DepositPerItem : Z; DepositPerByte : Z; MaxValueSize : Z; DeletionWeightLimit : Z;
  DeletionQueueDepth : outcome Z; CallStack : Z }.

(** A division of unsigned integers. *)
Definition div_w (a b : Z) : outcome Z := if b =? 0 then Panic else Ret (a `div` b).

(** [on_initialize_per_queue_item] is the pallet's weight; the quotient is cut to 32
    bits. *)
Definition contracts_config `{!BuildProfile} (max_block : Z)
    (on_initialize_per_queue_item : Z → Z) : ContractsConfig :=
  let limit := percent_of AVERAGE_ON_INITIALIZE_RATIO max_block in {|
  DepositPerItem := deposit 1 0; DepositPerByte := deposit 0 1; MaxValueSize := 16 * 1024;
  DeletionWeightLimit := limit;
  DeletionQueueDepth :=
    d ← sub_u64 (on_initialize_per_queue_item 1) (on_initialize_per_queue_item 0);
    q ← div_w limit d;
    q ← div_w q 5;
    Ret (q mod 2 ^ 32);
  CallStack := 31 |}.

Definition EthChainId (beresheet : bool) : Z := if beresheet then 2022 else 2021.
Definition BoundDivision : Z := 1024.
Definition DefaultBaseFeePerGas : Z := 1000000000.

(** Parts of a million. *)
Record BaseFeeThreshold := mkThreshold { lower : Z; ideal : Z; upper : Z }.
Definition base_fee_threshold : BaseFeeThreshold := {|
  lower := 0; ideal := 500000; upper := 1000000 |}.

Record RuntimeVersion := mkVersion {
  spec_name : string; impl_name : string; authoring_version : Z; spec_version : Z;
  impl_version : Z; transaction_version : Z; state_version : Z }.
Definition VERSION (beresheet : bool) : RuntimeVersion :=
  if beresheet then
    {| spec_name := "beresheet"; impl_name := "beresheet-node"; authoring_version := 16;
       spec_version := 10053; impl_version := 10053; transaction_version := 2;
       state_version := 53 |}
  else
    {| spec_name := "edgeware"; impl_name := "edgeware-node"; authoring_version := 16;
       spec_version := 53; impl_version := 53; transaction_version := 2;
       state_version := 53 |}.

(** ** The parameters fit together *)

(** The ratios of weights and lengths are whole numbers. *)
Lemma ratios_exact :
  100 * percent_of NORMAL_DISPATCH_RATIO MAXIMUM_BLOCK_WEIGHT =
    NORMAL_DISPATCH_RATIO * MAXIMUM_BLOCK_WEIGHT ∧
  100 * percent_of 80 MAXIMUM_BLOCK_WEIGHT = 80 * MAXIMUM_BLOCK_WEIGHT ∧
  100 * percent_of AVERAGE_ON_INITIALIZE_RATIO MAXIMUM_BLOCK_WEIGHT =
    AVERAGE_ON_INITIALIZE_RATIO * MAXIMUM_BLOCK_WEIGHT ∧
  100 * RuntimeBlockLength Normal = NORMAL_DISPATCH_RATIO * RuntimeBlockLength Operational ∧
  10 * MinerMaxLength = 9 * RuntimeBlockLength Normal.
Proof. by vm_compute. Qed.

(** A block of Ethereum transactions at the gas limit fills the weight of the
    normal class, up to the weight of one gas. *)
Lemma gas_limit_weight beresheet :
  gas_to_weight beresheet (BlockGasLimit beresheet) ≤
    percent_of NORMAL_DISPATCH_RATIO MAXIMUM_BLOCK_WEIGHT
  < gas_to_weight beresheet (BlockGasLimit beresheet + 1).
Proof. destruct beresheet; vm_compute; split; congruence. Qed.

(** What the comments beside the parameters compute. *)
Lemma documented_parameters `{!EnsureOrigins} :
  DepositBase multisig_config = deposit 1 (32 + (4 + 4 + 16 + 32)) ∧
  VotingBondBase (elections_config false) = deposit 1 (32 + (16 + 16)) ∧
  1000000 * PreimageByteDeposit preimage_config = 10000 * DOLLARS ∧
  NoPreimagePostponement (scheduler_config MAXIMUM_BLOCK_WEIGHT) = Some (1 * MINUTES) ∧
  1 + 36 * MAX_VESTING_SCHEDULES vesting_config = 1009 ∧
  1 + 36 * MAX_VESTING_SCHEDULES vesting_config < 2 ^ 10
    ≤ 1 + 36 * (MAX_VESTING_SCHEDULES vesting_config + 1).
Proof. vm_compute. intuition congruence. Qed.

(** The miner of election solutions balances at most ten times, whatever the seed. *)
Lemma balancing_bounded seed :
  ∃ iters, OffchainRandomBalancing seed = Some (iters, 0) ∧
    0 ≤ iters ≤ MINER_MAX_ITERATIONS.
Proof.
  eexists. split; [reflexivity|].
  pose proof (Z.mod_pos_bound (decode_u32 seed) 11 ltac:(lia)).
  change (saturating_add 32 MINER_MAX_ITERATIONS 1) with 11.
  cbn [Z.eqb MINER_MAX_ITERATIONS]. unfold MINER_MAX_ITERATIONS. lia.
Qed.

(** The parameters of the runtime together: normal and reserved operational extrinsics fill
    a block exactly; a block of Ethereum transactions at the gas limit fits the normal class
    and one more gas does not; an election solution fits a block; the two phases of an
    election fit its session; misbehaviour can be reported for as long as stake is bonded;
    slashes are deferred for half of that time, but for all of it in the fast build;
    heartbeats come before staking's transactions and these before mined solutions, and
    there is room for the keys and peers of all authorities; council seats, motions and
    votes last as long as what depends on them. *)
Lemma runtime_limits `{!EnsureOrigins} (fast beresheet : bool) base defaults :
  let weights := RuntimeBlockWeights base defaults in
  let d := durations fast in
  (∃ normal extra, max_total (weights Normal) = Some normal ∧
     reserved (weights Operational) = Some extra ∧
     max_total (weights Operational) = Some MAXIMUM_BLOCK_WEIGHT ∧
     normal + extra = MAXIMUM_BLOCK_WEIGHT ∧
     gas_to_weight beresheet (BlockGasLimit beresheet) ≤ normal
       < gas_to_weight beresheet (BlockGasLimit beresheet + 1)) ∧
  MinerMaxLength < RuntimeBlockLength Normal < RuntimeBlockLength Operational ∧
  (0 < SignedPhase fast ∧ 0 < UnsignedPhase fast ∧
   SignedPhase fast + UnsignedPhase fast ≤ Period d) ∧
  (EPOCH_DURATION_IN_SLOTS fast = Period d ∧
   ReportLongevity fast = era_blocks d (BondingDuration d) ∧
   (if fast then 1 else 2) * era_blocks d (SlashDeferDuration d) = ReportLongevity fast) ∧
  (MinerTxPriority multi_phase_config < StakingUnsignedPriority
     < UnsignedPriority im_online_config) ∧
  (MaxAuthorities ≤ MaxKeys im_online_config ∧
   MaxAuthorities ≤ MaxPeerInHeartbeats im_online_config) ∧
  (DesiredMembers (elections_config fast) ≤ CouncilMaxMembers (council_config fast) ∧
   MotionDuration (council_config fast) ≤ ElectionsTermDuration (elections_config fast)) ∧
  (FastTrackVotingPeriod (democracy_config fast) ≤ VotingPeriod (democracy_config fast) ∧
   EnactmentPeriod (democracy_config fast) ≤ VoteLockingPeriod fast).
Proof.
  intros weights d. split.
  { exists (percent_of NORMAL_DISPATCH_RATIO MAXIMUM_BLOCK_WEIGHT),
      (MAXIMUM_BLOCK_WEIGHT - percent_of NORMAL_DISPATCH_RATIO MAXIMUM_BLOCK_WEIGHT).
    split_and!; try reflexivity; apply gas_limit_weight. }
  destruct fast; vm_compute; intuition congruence.
Qed.

(** ** Who governs *)

Definition origin_ok (o : Origin) : Prop :=
  match o with Members yes total => 0 ≤ yes ≤ total ∧ 0 < total | _ => True end.

(** The powers that the configurations of the pallets give to origins, other than that of a
    council member to note the preimage of an operational proposal; [max_block] is the
    framework's limit of a block. *)
Definition powers `{!EnsureOrigins} (fast : bool) (max_block : Z) : list (Origin → bool) :=
  let c := democracy_config fast in
  [ ExternalOrigin c; ExternalMajorityOrigin c; ExternalDefaultOrigin c; FastTrackOrigin c;
    InstantOrigin c; CancellationOrigin c; CancelProposalOrigin c; BlacklistOrigin c;
    VetoOrigin c; ApproveOrigin (treasury_config fast); RejectOrigin (treasury_config fast);
    SlashCancelOrigin staking_config; MultiPhaseForceOrigin multi_phase_config;
    IdentityForceOrigin identity_config; RegistrarOrigin identity_config;
    PreimageManagerOrigin preimage_config; ScheduleOrigin (scheduler_config max_block);
    AssetsForceOrigin assets_config ].

Section governance.
Context `{!EnsureOrigins}.

Lemma one_of_spec l r o : EnsureOneOf l r o = true ↔ l o = true ∨ r o = true.
Proof. rewrite EnsureOneOf_spec. apply orb_true_iff. Qed.

(** A vote that reaches a proportion reaches every smaller one. *)
Lemma at_least_weaken n d n' d' o :
  origin_ok o → 0 < d → 0 ≤ d' → n' * d ≤ n * d' →
  EnsureProportionAtLeast n d o = true → EnsureProportionAtLeast n' d' o = true.
Proof.
  rewrite !AtLeast_spec. intros Hok Hd Hd' Hle (yes & total & -> & Hp).
  exists yes, total. split; [done|]. simpl in Hok. nia.
Qed.

Lemma at_least_more_than n d n' d' o :
  origin_ok o → 0 < d → 0 ≤ d' → n' * d < n * d' →
  EnsureProportionAtLeast n d o = true → EnsureProportionMoreThan n' d' o = true.
Proof.
  rewrite AtLeast_spec, MoreThan_spec. intros Hok Hd Hd' Hlt (yes & total & -> & Hp).
  exists yes, total. split; [done|]. simpl in Hok. nia.
Qed.

(** An origin that only root or at least half of the council has. *)
Definition root_or_half (p : Origin → bool) : Prop :=
  ∀ o, origin_ok o → p o = true →
  o = Root ∨ ∃ yes total, o = Members yes total ∧ total ≤ 2 * yes.

Lemma root_half : root_or_half EnsureRoot.
Proof. intros o _ ->%EnsureRoot_spec. by left. Qed.
Lemma never_half : root_or_half EnsureNever.
Proof. intros o _. by rewrite EnsureNever_spec. Qed.
Lemma at_least_half n d : 0 < d → d ≤ 2 * n → root_or_half (EnsureProportionAtLeast n d).
Proof.
  intros Hd Hn o Hok (yes & total & -> & Hp)%AtLeast_spec. right. exists yes, total.
  split; [done|]. simpl in Hok. nia.
Qed.
Lemma more_than_half n d : 0 < d → d ≤ 2 * n → root_or_half (EnsureProportionMoreThan n d).
Proof.
  intros Hd Hn o Hok (yes & total & -> & Hp)%MoreThan_spec. right. exists yes, total.
  split; [done|]. simpl in Hok. nia.
Qed.
Lemma one_of_half l r : root_or_half l → root_or_half r → root_or_half (EnsureOneOf l r).
Proof. intros Hl Hr o Hok [?|?]%one_of_spec; [by apply Hl|by apply Hr]. Qed.

Lemma powers_half fast max_block : Forall root_or_half (powers fast max_block).
Proof.
  unfold powers. simpl. unfold EnsureRootOrHalfCouncil.
  repeat (constructor; [repeat first
    [ apply one_of_half | apply root_half | apply never_half
    | apply at_least_half; lia | apply more_than_half; lia ]|]).
  constructor.
Qed.

(** C36: the powers of the council are ordered by the votes they need.  A vote or
    origin that may propose a referendum that passes by default may also fast-track
    one and cancel a slash, who may do this may cancel a proposal, who may do this may
    propose a majority vote and approve spending, and who may approve may reject.  Only
    a unanimous council or root proposes by default.  Nobody calls an instant
    referendum or vetoes.  Every power that the runtime's pallets give to an origin, other
    than that of an account over its own EVM address, needs root or the votes of at least
    half of the council, with one exception: noting the preimage of an operational
    proposal, which every single council member may do and nobody else. *)
Theorem governance_hierarchy fast max_block o :
  origin_ok o →
  let c := democracy_config fast in
  (ExternalDefaultOrigin c o = true → FastTrackOrigin c o = true) ∧
  (FastTrackOrigin c o = true ↔ SlashCancelOrigin staking_config o = true) ∧
  (FastTrackOrigin c o = true → CancelProposalOrigin c o = true) ∧
  (CancelProposalOrigin c o = true ↔ o = Root ∨ CancellationOrigin c o = true) ∧
  (CancelProposalOrigin c o = true → ExternalMajorityOrigin c o = true) ∧
  (ExternalMajorityOrigin c o = true → o = Root ∨ ExternalOrigin c o = true) ∧
  (ExternalMajorityOrigin c o = true ↔ ApproveOrigin (treasury_config fast) o = true) ∧
  (ApproveOrigin (treasury_config fast) o = true →
   RejectOrigin (treasury_config fast) o = true) ∧
  (ExternalDefaultOrigin c o = true ↔ o = Root ∨ ∃ n, o = Members n n) ∧
  InstantOrigin c o = false ∧ VetoOrigin c o = false ∧
  Forall (λ p, p o = true →
      o = Root ∨ ∃ yes total, o = Members yes total ∧ total ≤ 2 * yes)
    (powers fast max_block) ∧
  (OperationalPreimageOrigin c o = true ↔ ∃ who, o = Member who).
Proof.
  intros Hok c.
  split; [|split; [|split; [|split; [|split; [|split; [|split; [|split; [|split; [|split;
    [|split; [|split]]]]]]]]]]].
  1-9: simpl; rewrite ?one_of_spec, ?EnsureRoot_spec.
  - intros [?|?]; [left|by right]. by apply (at_least_weaken 1 1).
  - tauto.
  - intros [?|?]; [left|by right]. by apply (at_least_weaken 3 4).
  - tauto.
  - intros [?|?]; [left|by right]. by apply (at_least_weaken 2 3).
  - intros [?|?]; [right|by left]. by apply (at_least_weaken 3 5).
  - tauto.
  - intros [?|?]; [by left|right]. by apply (at_least_more_than 3 5).
  - rewrite AtLeast_spec. split.
    + intros [(yes & total & -> & Hp)|?]; [right|by left]. simpl in Hok.
      exists yes. f_equal. lia.
    + intros [->|(n & ->)]; [by right|left]. exists n, n. split; [done|lia].
  - apply EnsureNever_spec.
  - apply EnsureNever_spec.
  - eapply Forall_impl; [apply powers_half|]. intros p Hp. by apply Hp.
  - apply EnsureMember_spec.
Qed.

(** A proposal of the council needs half of its members: not, as the comment has
    it, a majority. *)
Lemma external_half fast : ExternalOrigin (democracy_config fast) (Members 6 12) = true.
Proof. simpl. rewrite AtLeast_spec. exists 6, 12. split; [done|lia]. Qed.

End governance.

(** ** Witnesses *)

Definition at_least (n d : Z) (o : Origin) : bool :=
  match o with Members yes total => n * total <=? d * yes | _ => false end.
Definition more_than (n d : Z) (o : Origin) : bool :=
  match o with Members yes total => n * total <? d * yes | _ => false end.

#[global] Instance ensure_origins : EnsureOrigins.
Proof.
  refine {|
    EnsureRoot := λ o, match o with Root => true | _ => false end;
    EnsureNever := λ _, false;
    EnsureOneOf := λ l r o, l o || r o;
    EnsureMember := λ o, match o with Member _ => true | _ => false end;
    EnsureProportionAtLeast := at_least;
    EnsureProportionMoreThan := more_than |}; try done.
  - by intros [].
  - intros []; split; try done; try (by intros (? & ?)); by eexists.
  - intros n d []; split; try done; try (by intros (? & ? & ? & ?)); simpl.
    + rewrite Z.leb_le. eauto.
    + intros (? & ? & [= <- <-] & ?). by apply Z.leb_le.
  - intros n d []; split; try done; try (by intros (? & ? & ? & ?)); simpl.
    + rewrite Z.ltb_lt. eauto.
    + intros (? & ? & [= <- <-] & ?). by apply Z.ltb_lt.
Defined.

Lemma governance_hierarchy_witness :
  ExternalDefaultOrigin (democracy_config false) (Members 13 13) = true ∧
  FastTrackOrigin (democracy_config false) (Members 13 13) = true.
Proof.
  assert (origin_ok (Members 13 13)) as Hok by (simpl; lia).
  split; [reflexivity|].
  apply (proj1 (governance_hierarchy false 0 (Members 13 13) Hok)). reflexivity.
Defined.
