(* ===== verification/RuntimeWiring.v ===== *)
(** * How the pallets of the runtime are wired: node/runtime/src/lib.rs

    The associated types of the [Config] implementations that name another pallet or a
    handler of an event: who looks accounts up, who is told of timestamps, authors,
    sessions and offences, where fees and scores come from; the session keys; the type of
    election solutions and the sizes of its benchmarks. *)

From stdpp Require Import base tactics list relations.
From Stdlib Require Import ZArith Lia.
From S2P Require Import Prelude Bags Runtime RuntimeConfig.
Local Open Scope Z_scope.

(** A handler is the pallets that are called, in order; [()] is none. *)
Abbreviation Handler := (list Pallet).

Record SystemWiring := mkSystemWiring {
  BaseCallFilter_everything : bool; Lookup : Pallet; DbWeight_rocksdb : bool;
  OnNewAccount : Handler; OnKilledAccount : Handler; OnSetCode : Handler }.
Definition system_wiring : SystemWiring := {|
  BaseCallFilter_everything := true; Lookup := Indices; DbWeight_rocksdb := true;
  OnNewAccount := []; OnKilledAccount := []; OnSetCode := [] |}.

Record AuraWiring := mkAuraWiring { DisabledValidators : Handler; aura_max_authorities : Z }.
Definition aura_wiring : AuraWiring := {|
  DisabledValidators := []; aura_max_authorities := MaxAuthorities |}.

Record IndicesWiring := mkIndicesWiring { indices_currency : Pallet; indices_deposit : Z }.
Definition indices_wiring : IndicesWiring := {|
  indices_currency := Balances; indices_deposit := IndexDeposit |}.

Record TimestampWiring := mkTimestampWiring { OnTimestampSet : Handler; minimum_period : Z }.
Definition timestamp_wiring : TimestampWiring := {|
  OnTimestampSet := [Aura]; minimum_period := MinimumPeriod |}.

(** The author of a block is the account of the validator at the index [FindAuthor] gives. *)
Record AuthorshipWiring := mkAuthorshipWiring {
  FindAuthor_index : Pallet; uncle_generations : Z; FilterUncle : Handler;
  EventHandler : Handler }.
Definition authorship_wiring : AuthorshipWiring := {|
  FindAuthor_index := Aura; uncle_generations := UncleGenerations; FilterUncle := [];
  EventHandler := [Staking; ImOnline] |}.

(** The keys of a session, in the order of the struct, by the pallet that owns each. *)
Definition SessionKeys : list Pallet := [Grandpa; Aura; ImOnline; AuthorityDiscovery].

(** [SessionHandler] is [KeyTypeIdProviders] of the keys: their pallets. *)
Record SessionWiring := mkSessionWiring {
  SessionManager : Handler; SessionHandler : Handler; session_keys_owners : list Pallet }.
Definition session_wiring : SessionWiring := {|
  SessionManager := [Historical; Staking]; SessionHandler := SessionKeys;
  session_keys_owners := SessionKeys |}.

Record ImOnlineWiring := mkImOnlineWiring {
  ValidatorSet : Pallet; ReportUnresponsiveness : Handler }.
Definition im_online_wiring : ImOnlineWiring := {|
  ValidatorSet := Historical; ReportUnresponsiveness := [Offences] |}.

Definition OnOffenceHandler : Handler := [Staking].
Definition authority_discovery_max_authorities : Z := MaxAuthorities.

Record GrandpaWiring := mkGrandpaWiring {
  KeyOwnerProofSystem : Pallet; HandleEquivocation : Handler; report_longevity : bool → Z;
  grandpa_max_authorities : Z }.
Definition grandpa_wiring : GrandpaWiring := {|
  KeyOwnerProofSystem := Historical; HandleEquivocation := [Offences];
  report_longevity := ReportLongevity; grandpa_max_authorities := MaxAuthorities |}.

Record BagsListWiring := mkBagsListWiring { ScoreProvider : Pallet; BagThresholds : list Z }.
Definition bags_list_wiring : BagsListWiring := {|
  ScoreProvider := Staking; BagThresholds := THRESHOLDS |}.

(** The fee of an Ethereum transaction, its author and its currency; [OnChargeTransaction]
    has no destination for what it takes. *)
Record EvmWiring := mkEvmWiring {
  evm_currency : Pallet; FeeCalculator : Pallet; evm_find_author : Pallet;
  OnChargeTransaction : Handler; evm_chain_id : bool → Z; evm_gas_limit : bool → Z }.
Definition evm_wiring : EvmWiring := {|
  evm_currency := Balances; FeeCalculator := BaseFee; evm_find_author := Aura;
  OnChargeTransaction := []; evm_chain_id := EthChainId; evm_gas_limit := BlockGasLimit |}.

Definition MinGasPriceBoundDivisor : Z := BoundDivision.
Record BaseFeeWiring := mkBaseFeeWiring {
  base_fee_thresholds : BaseFeeThreshold; IsActive : bool; default_base_fee : Z }.
Definition base_fee_wiring : BaseFeeWiring := {|
  base_fee_thresholds := base_fee_threshold; IsActive := true;
  default_base_fee := DefaultBaseFeePerGas |}.

Definition treasury_reward_currency : Pallet := Balances.

(** ** Elections *)

(** [NposSolution16]: indices of voters and targets, the accuracy, and the winners a voter
    can have. *)
Record SolutionType := mkSolutionType {
  VoterIndex_bits : Z; TargetIndex_bits : Z; Accuracy_bits : Z; LIMIT : Z }.
Definition NposSolution16 : SolutionType := {|
  VoterIndex_bits := 32; TargetIndex_bits := 16; Accuracy_bits := 16; LIMIT := 16 |}.
Definition MaxNominations : Z := LIMIT NposSolution16 mod 2 ^ 32.

Record ElectionBenchmarks := mkElectionBenchmarks {
  VOTERS : Z * Z; TARGETS : Z * Z; ACTIVE_VOTERS : Z * Z; DESIRED_TARGETS : Z * Z;
  SNAPSHOT_MAXIMUM_VOTERS : Z; MINER_MAXIMUM_VOTERS : Z; MAXIMUM_TARGETS : Z }.
Definition ElectionProviderBenchmarkConfig : ElectionBenchmarks := {|
  VOTERS := (1000, 2000); TARGETS := (500, 1000); ACTIVE_VOTERS := (500, 800);
  DESIRED_TARGETS := (200, 400); SNAPSHOT_MAXIMUM_VOTERS := 1000;
  MINER_MAXIMUM_VOTERS := 1000; MAXIMUM_TARGETS := 300 |}.

(** ** Reports of offences *)

(** Whom a pallet reports to. *)
Definition reports_to (p : Pallet) : Handler :=
  match p with
  | ImOnline => ReportUnresponsiveness im_online_wiring
  | Grandpa => HandleEquivocation grandpa_wiring
  | Offences => OnOffenceHandler
  | _ => []
  end.

(** Every report of an offence, handed on until a pallet keeps it, ends at staking, which
    holds the funds that can be slashed. *)
Theorem reports_reach_staking p q :
  reports_to p ≠ [] → rtc (λ p q, q ∈ reports_to p) p q → reports_to q = [] → q = Staking.
Proof.
  intros Hp Hr Hq. assert (reports_to p ≠ [] ∨ p = Staking) as Hinv by by left. clear Hp.
  induction Hr as [p|p r q Hstep _ IH]; [by destruct Hinv|].
  apply IH; [done|]. destruct Hinv as [_ | ->]; [|by apply not_elem_of_nil in Hstep].
  destruct p; try (by apply not_elem_of_nil in Hstep);
    apply list_elem_of_singleton in Hstep; subst r; by auto.
Qed.

(** What has to agree agrees: the pallet that is told the time is the one that names the
    authors, of blocks and of Ethereum blocks alike; a block's author is reported to
    staking; every owner of a session key is told of sessions, and Aura and Grandpa are
    among them; the three lists of authorities have one bound; voters have at most as many
    nominations as a solution has places for. *)
Lemma wiring_agrees :
  OnTimestampSet timestamp_wiring = [FindAuthor_index authorship_wiring] ∧
  evm_find_author evm_wiring = FindAuthor_index authorship_wiring ∧
  Staking ∈ EventHandler authorship_wiring ∧
  SessionHandler session_wiring = session_keys_owners session_wiring ∧
  Aura ∈ SessionHandler session_wiring ∧ Grandpa ∈ SessionHandler session_wiring ∧
  NoDup SessionKeys ∧ 2 * minimum_period timestamp_wiring = SLOT_DURATION ∧
  aura_max_authorities aura_wiring = grandpa_max_authorities grandpa_wiring ∧
  grandpa_max_authorities grandpa_wiring = authority_discovery_max_authorities ∧
  MaxNominations = LIMIT NposSolution16.
Proof. repeat (split; [apply (bool_decide_unpack _); vm_compute; exact I|]). done. Qed.
