(* ===== verification/BagsFile.v ===== *)
(** * The file of the bags: utils/frame/generate-bags and node/runtime/src/voter_bags.rs

    [generate_thresholds] writes a module of the runtime.  A file is its lines; the
    clock, the search for a license header and the conversion of currency to votes
    are parameters, as are the logarithm and exponential of the platform.  Errors
    of the file system, which end the program, are not modelled. *)

From stdpp Require Import base tactics list strings pretty.
From Stdlib Require Import ZArith Lia Floats.SpecFloat Ascii.
From S2P Require Import Prelude Bags Runtime RuntimeConfig.
Local Open Scope Z_scope.

(** ** Formats *)

Definition quote : string := String (ascii_of_nat 34) EmptyString.
Definition tab : string := String (ascii_of_nat 9) EmptyString.

(** The digits of a number from the last to the first, with an underscore after
    each third. *)
Fixpoint group (l : list ascii) (k : nat) : list ascii :=
  match l with
  | [] => []
  | d :: l =>
      match k with
      | O => "_"%char :: d :: group l 2
      | S k => d :: group l k
      end
  end.
(** [underscore_formatter]. *)
Definition underscore_formatter (n : Z) : string :=
  String.string_of_list_ascii (reverse (group (reverse (String.list_ascii_of_string (pretty n))) 3)).

(** [{:>w}]. *)
Definition pad_left (w : nat) (s : string) : string :=
  String.string_of_list_ascii (replicate (w - String.length s) " "%char) +:+ s.

Definition div_half_even (a b : Z) : Z :=
  let q := a `div` b in
  let r := a mod b in
  if 2 * r <? b then q else if b <? 2 * r then q + 1 else q + q mod 2.

(** [{:.p}] of a positive number, with the nearest last digit. *)
Definition format_f64 (p : Z) (x : f64) : string :=
  match x with
  | S754_finite false m e =>
      let n := if 0 <=? e then Zpos m * 2 ^ e * 10 ^ p
               else div_half_even (Zpos m * 10 ^ p) (2 ^ (- e)) in
      let frac := pretty (n mod 10 ^ p) in
      pretty (n `div` 10 ^ p) +:+ "." +:+
      String.string_of_list_ascii (replicate (Z.to_nat p - String.length frac) "0"%char) +:+ frac
  | _ => EmptyString
  end.

(** ** The generator *)

Section generator.
Context `{!BuildProfile}.
Context (ln exp : f64 → f64).
(** [CurrencyToVote::to_vote] of a balance under an issuance. *)
Context (to_vote : Z → Z → Z).
Context (now_rfc3339 : string).
(** The lines of the header file, if there is one. *)
Context (header_file : option (list string)).
Context (spec_name : string).

Definition existential_weight (total_issuance minimum_balance : Z) : Z :=
  to_vote minimum_balance total_issuance.

Definition constant_ratio (existential_weight n_bags : Z) : outcome f64 :=
  n ← sub_u64 n_bags 1;
  Ret (exp (SFdiv 53 1024
    (ln (SFdiv 53 1024 (u64_as_f64 VoteWeight_MAX) (u64_as_f64 existential_weight)))
    (u64_as_f64 n))).

(** The content of the output file, from its content before. *)
Definition generate_thresholds (n_bags : Z) (output : list string)
    (total_issuance minimum_balance : Z) : outcome (list string) :=
  let buf := default output header_file in
  let buf := buf ++ [EmptyString;
    "//! Autogenerated bag thresholds.";
    "//!";
    "//! Generated on " +:+ now_rfc3339;
    "//! for the " +:+ spec_name +:+ " runtime."] in
  let existential_weight := existential_weight total_issuance minimum_balance in
  let attributes := ["#[cfg(any(test, feature = " +:+ quote +:+ "std" +:+ quote +:+ "))]";
    "#[allow(unused)]"] in
  let buf := buf ++ [EmptyString; "/// Existential weight for this runtime."] ++ attributes ++
    ["pub const EXISTENTIAL_WEIGHT: u64 = " +:+ underscore_formatter existential_weight +:+ ";"] in
  constant_ratio ← constant_ratio existential_weight n_bags;
  let buf := buf ++ [EmptyString; "/// Constant ratio between bags for this runtime."] ++
    attributes ++
    ["pub const CONSTANT_RATIO: f64 = " +:+ format_f64 16 constant_ratio +:+ ";"] in
  thresholds ← thresholds existential_weight constant_ratio n_bags;
  let buf := buf ++ [EmptyString; "/// Upper thresholds delimiting the bag list.";
    "pub const THRESHOLDS: [u64; " +:+ pretty (zlen thresholds) +:+ "] = ["] in
  let buf := buf ++ ((λ t, tab +:+ pad_left 26 (underscore_formatter t) +:+ ",") <$> thresholds) in
  Ret (buf ++ ["];"]).

End generator.

(** [Opt] of the program that runs the generator: the number of bags unless given. *)
Definition Opt_default_n_bags : Z := 200.

(** ** The committed file *)

Definition voter_bags_rows : list string := [
    "                    18_446,"; "                    21_942,"; "                    26_101,";
    "                    31_048,"; "                    36_933,"; "                    43_933,";
    "                    52_260,"; "                    62_165,"; "                    73_947,";
    "                    87_962,"; "                   104_634,"; "                   124_466,";
    "                   148_057,"; "                   176_119,"; "                   209_500,";
    "                   249_207,"; "                   296_440,"; "                   352_626,";
    "                   419_461,"; "                   498_963,"; "                   593_534,";
    "                   706_029,"; "                   839_846,"; "                   999_026,";
    "                 1_188_376,"; "                 1_413_614,"; "                 1_681_542,";
    "                 2_000_252,"; "                 2_379_368,"; "                 2_830_340,";
    "                 3_366_787,"; "                 4_004_909,"; "                 4_763_977,";
    "                 5_666_914,"; "                 6_740_989,"; "                 8_018_638,";
    "                 9_538_445,"; "                11_346_308,"; "                13_496_823,";
    "                16_054_934,"; "                19_097_895,"; "                22_717_601,";
    "                27_023_366,"; "                32_145_221,"; "                38_237_843,";
    "                45_485_226,"; "                54_106_237,"; "                64_361_225,";
    "                76_559_885,"; "                91_070_610,"; "               108_331_615,";
    "               128_864_173,"; "               153_288_355,"; "               182_341_757,";
    "               216_901_776,"; "               258_012_104,"; "               306_914_250,";
    "               365_085_030,"; "               434_281_169,"; "               516_592_350,";
    "               614_504_324,"; "               730_973_976,"; "               869_518_623,";
    "             1_034_322_234,"; "             1_230_361_783,"; "             1_463_557_553,";
    "             1_740_951_922,"; "             2_070_922_041,"; "             2_463_432_818,";
    "             2_930_337_854,"; "             3_485_737_413,"; "             4_146_404_243,";
    "             4_932_290_104,"; "             5_867_128_298,"; "             6_979_150_403,";
    "             8_301_938_848,"; "             9_875_441_087,"; "            11_747_175_984,";
    "            13_973_668_861,"; "            16_622_158_526,"; "            19_772_627_848,";
    "            23_520_219_194,"; "            27_978_107_674,"; "            33_280_918_965,";
    "            39_588_794_927,"; "            47_092_229_797,"; "            56_017_823_007,";
    "            66_635_122_354,"; "            79_264_764_190,"; "            94_288_156_458,";
    "           112_158_996_991,"; "           133_416_974_926,"; "           158_704_069_009,";
    "           188_783_934_983,"; "           224_564_967_554,"; "           267_127_733_390,";
    "           317_757_603_616,"; "           377_983_571_284,"; "           449_624_426_087,";
    "           534_843_680_765,"; "           636_214_907_948,"; "           756_799_460_576,";
    "           900_238_923_000,"; "         1_070_865_084_745,"; "         1_273_830_758_066,";
    "         1_515_265_389_927,"; "         1_802_460_167_782,"; "         2_144_088_209_260,";
    "         2_550_466_485_339,"; "         3_033_867_386_959,"; "         3_608_889_344_190,";
    "         4_292_897_690_450,"; "         5_106_549_085_619,"; "         6_074_415_335_321,";
    "         7_225_725_445_369,"; "         8_595_248_320_980,"; "        10_224_342_767_779,";
    "        12_162_206_504_013,"; "        14_467_361_903_438,"; "        17_209_423_337_450,";
    "        20_471_199_489_189,"; "        24_351_194_128_290,"; "        28_966_580_868_250,";
    "        34_456_741_742_372,"; "        40_987_476_461_258,"; "        48_756_009_469_006,";
    "        57_996_946_008_343,"; "        68_989_357_064_443,"; "        82_065_207_148_676,";
    "        97_619_379_436_515,"; "       116_121_601_013_031,"; "       138_130_628_361_542,";
    "       164_311_121_489_044,"; "       195_453_716_277_339,"; "       232_498_901_233_352,";
    "       276_565_419_702_808,"; "       328_984_055_277_841,"; "       391_337_820_698_467,";
    "       465_509_763_929_707,"; "       553_739_835_130_482,"; "       658_692_531_864_133,";
    "       783_537_365_397_135,"; "       932_044_578_122_100,"; "     1_108_699_002_716_354,";
    "     1_318_835_501_517_405,"; "     1_568_800_076_306_778,"; "     1_866_141_513_925_323,";
    "     2_219_839_355_307_693,"; "     2_640_575_072_470_128,"; "     3_141_054_642_841_099,";
    "     3_736_392_262_494_645,"; "     4_444_566_786_206_049,"; "     5_286_964_678_557_830,";
    "     6_289_025_872_908_157,"; "     7_481_012_042_792_217,"; "     8_898_920_487_112_374,";
    "    10_585_571_227_925_884,"; "    12_591_900_150_560_060,"; "    14_978_497_238_144_946,";
    "    17_817_436_354_364_432,"; "    21_194_451_832_815_784,"; "    25_211_527_604_728_292,";
    "    29_989_977_055_213_672,"; "    35_674_106_617_941_108,"; "    42_435_573_746_695_632,";
    "    50_478_570_872_062_200,"; "    60_045_991_895_755_160,"; "    71_426_767_447_186_216,";
    "    84_964_590_422_813_568,"; "   101_068_295_314_557_840,"; "   120_224_204_777_051_824,";
    "   143_010_816_292_976_128,"; "   170_116_272_465_353_216,"; "   202_359_142_529_610_432,";
    "   240_713_142_675_161_344,"; "   286_336_541_716_043_456,"; "   340_607_140_145_005_952,";
    "   405_163_878_918_425_536,"; "   481_956_334_533_498_176,"; "   573_303_595_120_660_160,";
    "   681_964_295_575_472_384,"; "   811_219_926_750_796_672,"; "   964_973_934_599_101_056,";
    " 1_147_869_602_002_174_464,"; " 1_365_430_273_251_919_360,"; " 1_624_226_155_881_144_576,";
    " 1_932_072_737_164_011_776,"; " 2_298_266_807_350_686_464,"; " 2_733_867_217_402_556_416,";
    " 3_252_028_849_950_646_272,"; " 3_868_399_889_208_691_200,"; " 4_601_594_387_164_468_224,";
    " 5_473_754_397_277_415_424,"; " 6_511_218_651_797_905_408,"; " 7_745_317_976_379_835_392,";
    " 9_213_321_463_051_765_760,"; "10_959_561_975_427_864_576,"; "13_036_774_975_770_695_680,";
    "15_507_691_105_715_548_160,"; "18_446_744_073_709_551_615,"].

Definition voter_bags_rs : list string :=
  ["//! Autogenerated bag thresholds.";
   "//!";
   "//! Generated on 2022-09-01T12:37:56.038855112+00:00";
   "//! for the edgeware runtime.";
   EmptyString;
   "/// Existential weight for this runtime.";
   "#[cfg(any(test, feature = " +:+ quote +:+ "std" +:+ quote +:+ "))]";
   "#[allow(unused)]";
   "pub const EXISTENTIAL_WEIGHT: u64 = 18_446;";
   EmptyString;
   "/// Constant ratio between bags for this runtime.";
   "#[cfg(any(test, feature = " +:+ quote +:+ "std" +:+ quote +:+ "))]";
   "#[allow(unused)]";
   "pub const CONSTANT_RATIO: f64 = 1.1895343084878842;";
   EmptyString;
   "/// Upper thresholds delimiting the bag list.";
   "pub const THRESHOLDS: [u64; 200] = ["] ++
  ((λ row, tab +:+ row) <$> voter_bags_rows) ++ ["];"].

(** The table's rows are the formatted thresholds. *)
Lemma voter_bags_rows_formatted :
  voter_bags_rows = (λ t, pad_left 26 (underscore_formatter t) +:+ ",") <$> THRESHOLDS.
Proof. vm_compute. reflexivity. Qed.

(** C35: the committed module of the runtime is, line by line after the first and
    empty one, what the generator writes with its default number of bags in the
    main network's build, where the votes of the smallest balance are the
    recorded weight and the platform's functions give the recorded ratio. *)
Theorem voter_bags_generated `{!BuildProfile} ln exp to_vote total_issuance minimum_balance :
  to_vote minimum_balance total_issuance = EXISTENTIAL_WEIGHT →
  constant_ratio ln exp EXISTENTIAL_WEIGHT Opt_default_n_bags = Ret CONSTANT_RATIO →
  generate_thresholds ln exp to_vote "2022-09-01T12:37:56.038855112+00:00" None
    (spec_name (VERSION false)) Opt_default_n_bags [] total_issuance minimum_balance =
  Ret (EmptyString :: voter_bags_rs).
Proof.
  intros Hw Hr. unfold generate_thresholds, existential_weight. rewrite Hw, Hr.
  cbn [mbind outcome_bind]. unfold Opt_default_n_bags. rewrite thresholds_200.
  cbn [mbind outcome_bind]. unfold voter_bags_rs. rewrite voter_bags_rows_formatted.
  vm_compute. reflexivity.
Qed.

(** ** Witness *)

(** The main network's: ten billion EDG, of which a thousandth of a cent is the
    smallest balance. *)
Definition u128_to_vote (value issuance : Z) : Z :=
  value `div` Z.max 1 (issuance `div` VoteWeight_MAX).

Lemma voter_bags_generated_witness :
  @generate_thresholds release (λ x, x) (λ _, CONSTANT_RATIO) u128_to_vote
    "2022-09-01T12:37:56.038855112+00:00" None (spec_name (VERSION false)) 200 []
    (10000000000 * DOLLARS) (ExistentialDeposit (balances_config false)) =
  Ret (EmptyString :: voter_bags_rs).
Proof.
  apply (@voter_bags_generated release (λ x, x) (λ _, CONSTANT_RATIO) u128_to_vote
    (10000000000 * DOLLARS) (ExistentialDeposit (balances_config false)));
    vm_compute; reflexivity.
Defined.
