(* ===== verification/HostInterface.v ===== *)
(** * The host interface of the executor: node/runtime-interface/src/lib.rs

    The functions of the interface [Storage] that the executor offers to runtimes.  They
    are declared for child storage and do not look at any: each is a function of its
    arguments alone. *)

From stdpp Require Import base option.
From Stdlib Require Import ZArith.
Local Open Scope Z_scope.

(** Pointers and lengths are [u64] and [u32]. *)
Definition child_storage_kill (_a _b _c : Z) : unit := tt.
Definition child_root (_a : Z) : option Z := Some _a.
Definition child_get (_a _b _c _d : Z) : option Z := Some _a.
Definition child_storage_key_or_panic (_a : Z) : Z := _a.
Definition child_read (_a _b _c _d _e _f : Z) : option Z := Some _c.
Definition child_clear (_a _b _c _d : Z) : unit := tt.
Definition child_set (_a _b _c _d _e : Z) : unit := tt.

(** Reading never misses, and gives what was passed in the first argument (or, for
    [child_read], in the third) whatever key is read. *)
Lemma child_reads_ignore_keys a b c d b' c' d' e f :
  child_get a b c d = child_get a b' c' d' ∧ child_get a b c d = child_root a ∧
  child_root a = Some (child_storage_key_or_panic a) ∧
  child_read a b c d e f = Some c.
Proof. done. Qed.
