(* ===== verification/RuntimeApi.v ===== *)
(** * The runtime API for Ethereum clients: node/runtime/src/lib.rs

    The replay of transactions and blocks for tracing, the filter of Ethereum
    extrinsics, and the debug endpoints over this runtime. *)

From stdpp Require Import base tactics list gmap strings.
From Stdlib Require Import ZArith Lia Strings.Byte.
From S2P Require Import Prelude Trees EvmEvents TraceTypes CallList CallTree CallListSpec.
From S2P Require Import CallTracer Formatters RpcTypes DebugRpc DebugSpec Runtime.
Local Open Scope Z_scope.

(** The features of the runtime's manifest: those it declares, and its optional
    dependencies. *)
Definition runtime_features : list string := [
  "default"; "no-reaping"; "beresheet-runtime"; "fast-runtime"; "std"; "runtime-wasm";
  "runtime-benchmarks"; "rustc-hex"; "serde"; "rlp"; "sp-keyring"; "frame-benchmarking";
  "frame-system-benchmarking" ]%string.

(** Whether a build of the runtime can have a feature. *)
Definition cfg_feature (feature : string) : bool := bool_decide (feature ∈ runtime_features).

(** The errors of the tracing API, and the numbers that stand for them in messages. *)
Inductive TraceDispatchError := TransactionNotFound | MissingTracingFeature.
Definition dispatch_error_number (e : TraceDispatchError) : Z :=
  match e with TransactionNotFound => 0 | MissingTracingFeature => 1 end.

Section replay.
Context {W Extrinsic EthTransaction : Type} `{!EqDecision EthTransaction}.
(** The call of an extrinsic, the hash the replay computes of a transaction, the
    application of an extrinsic to the state, and its application under the
    tracer, with the events it emits. *)
Context (function : Extrinsic → RuntimeCall EthTransaction).
Context (keccak_rlp : EthTransaction → H256).
Context (apply_extrinsic : W → Extrinsic → W).
Context (trace_extrinsic : W → Extrinsic → W * list Event).
(** The event of [EvmTracer::emit_new]. *)
Context (emit_new : list Event).
(** Whether the runtime is built with the [evm-tracing] feature. *)
Context (evm_tracing : bool).

Fixpoint trace_transaction_loop (w : W) (extrinsics : list Extrinsic)
    (traced : EthTransaction) : list Event * result unit TraceDispatchError :=
  match extrinsics with
  | [] => ([], Err TransactionNotFound)
  | ext :: extrinsics =>
      match function ext with
      | CEthereum transaction =>
          if decide (transaction = traced) then ((trace_extrinsic w ext).2, Ok tt)
          else trace_transaction_loop (apply_extrinsic w ext) extrinsics traced
      | _ => trace_transaction_loop (apply_extrinsic w ext) extrinsics traced
      end
  end.

Definition runtime_trace_transaction (w : W) (extrinsics : list Extrinsic)
    (traced : EthTransaction) : list Event * result unit TraceDispatchError :=
  if evm_tracing then trace_transaction_loop w extrinsics traced
  else ([], Err MissingTracingFeature).

Fixpoint trace_block_loop (w : W) (extrinsics : list Extrinsic) (known : list H256) :
    list Event :=
  match extrinsics with
  | [] => []
  | ext :: extrinsics =>
      match function ext with
      | CEthereum transaction =>
          if decide (keccak_rlp transaction ∈ known) then
            let '(w, evs) := trace_extrinsic w ext in
            emit_new ++ evs ++ trace_block_loop w extrinsics known
          else trace_block_loop (apply_extrinsic w ext) extrinsics known
      | _ => trace_block_loop (apply_extrinsic w ext) extrinsics known
      end
  end.

Definition runtime_trace_block (w : W) (extrinsics : list Extrinsic) (known : list H256) :
    list Event * result unit TraceDispatchError :=
  if evm_tracing then (trace_block_loop w extrinsics known, Ok tt)
  else ([], Err MissingTracingFeature).

(** [extrinsic_filter] of the transaction pool and of the Ethereum API. *)
Definition extrinsic_filter (xts : list Extrinsic) : list EthTransaction :=
  omap (λ xt, match function xt with CEthereum t => Some t | _ => None end) xts.

(** ** What a replay is *)

(** The states and events of the extrinsics of a block, of which those that are
    known Ethereum transactions are traced. *)
Fixpoint traced_events (w : W) (extrinsics : list Extrinsic) (known : list H256) :
    list (EthTransaction * list Event) :=
  match extrinsics with
  | [] => []
  | ext :: extrinsics =>
      match function ext with
      | CEthereum t =>
          if decide (keccak_rlp t ∈ known) then
            (t, (trace_extrinsic w ext).2) ::
            traced_events (trace_extrinsic w ext).1 extrinsics known
          else traced_events (apply_extrinsic w ext) extrinsics known
      | _ => traced_events (apply_extrinsic w ext) extrinsics known
      end
  end.

Lemma trace_block_loop_events w exts known :
  trace_block_loop w exts known =
  mjoin ((λ e, emit_new ++ e.2) <$> traced_events w exts known).
Proof.
  revert w. induction exts as [|ext exts IH]; intros w; [done|].
  cbn [trace_block_loop traced_events].
  destruct (function ext); try apply IH.
  case_decide; [|apply IH]. destruct (trace_extrinsic w ext) as [w' evs]. simpl.
  by rewrite IH, app_assoc.
Qed.

(** The replayed transactions are the known ones among the Ethereum extrinsics of
    the block, in its order. *)
Lemma traced_events_filter w exts known :
  (traced_events w exts known).*1 = filter (λ t, keccak_rlp t ∈ known) (extrinsic_filter exts).
Proof.
  revert w. induction exts as [|ext exts IH]; intros w; [done|].
  unfold extrinsic_filter in *. simpl. destruct (function ext); try apply IH.
  rewrite filter_cons. case_decide; [|apply IH]. rewrite fmap_cons. by rewrite IH.
Qed.

Lemma trace_transaction_loop_before w pre ext post traced :
  Forall (λ x, function x ≠ CEthereum traced) pre → function ext = CEthereum traced →
  trace_transaction_loop w (pre ++ ext :: post) traced =
  ((trace_extrinsic (foldl apply_extrinsic w pre) ext).2, Ok tt).
Proof.
  intros Hpre Hext. revert w. induction Hpre as [|x pre Hx _ IH]; intros w; simpl.
  { by rewrite Hext, decide_True. }
  destruct (function x) eqn:Hf; try apply IH.
  rewrite decide_False by congruence. apply IH.
Qed.

End replay.

(** ** The debug endpoints over the runtime *)

Section endpoints.
Context `{!BuildProfile}.
Context {W Extrinsic EthTransaction : Type} `{!EqDecision EthTransaction}.
Context (function : Extrinsic → RuntimeCall EthTransaction).
Context (keccak_rlp : EthTransaction → H256).
Context (apply_extrinsic : W → Extrinsic → W).
Context (trace_extrinsic : W → Extrinsic → W * list Event).
Context (twox_128 : bytes → Z).
Context (best_number : Z).
Context (load_hash : H256 → result (option BlockId) RpcError).
Context (header : BlockId → result (option (H256 * H256)) Z).
Context (transaction_hashes : BlockId → option (option (list H256))).
Context (body : BlockId → result (option (list Extrinsic)) Z).
(** The state of the parent after the block was initialised on it. *)
Context (initial_state : H256 → W).

(** The call of the tracing API at a parent: its dispatch error is a number. *)
Definition api_trace_block (evm_tracing : bool) (parent : H256) (exts : list Extrinsic)
    (known : list H256) : list Event * result (result unit Z) Z :=
  let '(evs, r) := runtime_trace_block function keccak_rlp apply_extrinsic trace_extrinsic
                     [Event_CallListNew] evm_tracing (initial_state parent) exts known in
  (evs, Ok match r with Ok _ => Ok tt | Err e => Err (dispatch_error_number e) end).

(** Initialising a block emits nothing. *)
Definition api_initialize_block (parent hash : H256) : list Event * result unit Z :=
  ([], Ok tt).

Definition debug_trace_block (evm_tracing : bool) :=
  handle_block_request twox_128 best_number load_hash header transaction_hashes body
    api_initialize_block (api_trace_block evm_tracing).

(** The events of a replay whose transactions are well-formed executions. *)
Lemma api_trace_block_events parent exts known txs :
  (traced_events function keccak_rlp apply_extrinsic trace_extrinsic (initial_state parent)
     exts known).*2 = tx_events <$> txs →
  api_trace_block true parent exts known = (block_events txs, Ok (Ok tt)).
Proof.
  intros Hevs. unfold api_trace_block, runtime_trace_block. f_equal.
  rewrite trace_block_loop_events. unfold block_events. f_equal.
  transitivity ((λ e, Event_CallListNew :: e) <$> (tx_events <$> txs));
    [|by rewrite <-list_fmap_compose].
  by rewrite <-Hevs, <-list_fmap_compose.
Qed.

(** C4: debug_traceBlock with callTracer, over the runtime's replay, on a block with
    Ethereum transactions.  In a build with the tracing feature, when the extrinsics of
    the block that are known Ethereum transactions execute as well-formed executions, the
    answer is their nested calls, one per transaction in the order of the block.  In a
    build with the features that the runtime's manifest declares, the request is refused
    with the error of the missing feature. *)
Theorem debug_block_runtime rid params id hash parent exts known :
  handle_params twox_128 params = Ok (TracerInput_CallTracer, TraceType_CallList) →
  reference_block best_number load_hash rid = Ok id →
  header id = Ok (Some (hash, parent)) →
  transaction_hashes id = Some (Some known) → known ≠ [] → body id = Ok (Some exts) →
  (∀ txs,
     (traced_events function keccak_rlp apply_extrinsic trace_extrinsic (initial_state parent)
        exts known).*2 = tx_events <$> txs →
     txs ≠ [] → forallb tx_ok txs = true → block_size txs < 2 ^ 32 →
     debug_trace_block true rid params =
     Ret (Ok (Response_Block (nested <$> block_trees 0 0 txs)))) ∧
  debug_trace_block (cfg_feature "evm-tracing") rid params =
  Ret (Err (internal_err "Internal runtime error when replaying block {} : {:?}"
              [block_id_arg id; dispatch_error_number MissingTracingFeature])).
Proof.
  intros Hp Hr Hh Ht Hne Hb. split.
  2: { unfold debug_trace_block, handle_block_request.
       rewrite Hp, Hr, Hh, Ht. simpl. by rewrite decide_False, Hb by done. }
  intros txs Hevs Htx Hok Hlt.
  destruct (block_run txs Hok Hlt) as (s & Hrun & He & Hs & Ho).
  pose proof (api_trace_block_events _ _ _ _ Hevs) as Htb.
  unfold debug_trace_block.
  erewrite block_request_replays; [|exists id, hash, parent, known, (Some exts); done| |];
    [|exact Hp|exact Hrun].
  rewrite finish_transaction_idle by done. cbn [mbind outcome_bind].
  unfold call_tracer_format.
  rewrite He, block_maps_nonempty, (format_trees _ _ (block_maps_trees 0 0 txs)).
  by destruct txs.
Qed.

End endpoints.

(** ** Witnesses *)

Module RuntimeExample.
(** Extrinsics: Ethereum transactions by number, and others. *)
Definition function (x : Z) : RuntimeCall Z := if x <? 0 then CTimestamp else CEthereum x.
Definition rlp (t : Z) : H256 := t + 1000.
Definition apply (w : list Z) (x : Z) : list Z := x :: w.
Definition traced (w : list Z) (x : Z) : list Z * list Event :=
  (x :: w, if x =? 1 then tx_events Example.tx else tx_events Example.failed).
Definition header (id : BlockId) : result (option (H256 * H256)) Z := Ok (Some (9, 8)).
Definition hashes (id : BlockId) : option (option (list H256)) := Some (Some [1001; 1003]).
Definition body (id : BlockId) : result (option (list Z)) Z := Ok (Some [-1; 1; 2; 3]).
Definition initial (p : H256) : list Z := [].
Definition endpoint (tracing : bool) :=
  @debug_trace_block dev (list Z) Z Z function rlp apply traced DebugExample.twox 9
    DebugExample.load_hash header hashes body initial tracing.
End RuntimeExample.

Lemma debug_block_runtime_witness :
  RuntimeExample.endpoint true (RequestBlockId_Tag Latest) (DebugExample.params "callTracer") =
  Ret (Ok (Response_Block (nested <$> block_trees 0 0 [Example.tx; Example.failed]))) ∧
  ∃ e, RuntimeExample.endpoint (cfg_feature "evm-tracing") (RequestBlockId_Tag Latest)
    (DebugExample.params "callTracer") = Ret (Err e).
Proof.
  destruct (@debug_block_runtime dev (list Z) Z Z RuntimeExample.function RuntimeExample.rlp
    RuntimeExample.apply RuntimeExample.traced DebugExample.twox 9 DebugExample.load_hash
    RuntimeExample.header RuntimeExample.hashes RuntimeExample.body RuntimeExample.initial
    (RequestBlockId_Tag Latest) (DebugExample.params "callTracer") (BlockId_Number 9) 9 8
    [-1; 1; 2; 3] [1001; 1003]) as [Ht Hf]; try done.
  split; [|by eexists].
  apply (Ht [Example.tx; Example.failed]); try done; vm_compute; reflexivity.
Defined.
