(* ===== verification/TraceEndToEnd.v ===== *)
(** * trace_filter from the endpoint to the runtime

    The parts that serve a trace_filter request put together: the endpoint and its
    requester (client/rpc/trace/src/lib.rs), the tracing of a block for the cache,
    the call list listener with its formatter (client/evm-tracing), and the replay
    of the block by this runtime (node/runtime/src/lib.rs). *)

From stdpp Require Import base tactics list gmap strings.
From Stdlib Require Import ZArith Lia Strings.Byte.
From S2P Require Import Prelude Trees EvmEvents TraceTypes CallList CallTree CallListSpec.
From S2P Require Import CallTracer Formatters RpcTypes TraceCache TraceFilter CacheBlockSpec.
From S2P Require Import DebugRpc DebugSpec Runtime RuntimeApi.
Local Open Scope Z_scope.

(** A block of the chain: what the database and the storage overrides hold of it,
    and the executions of its Ethereum transactions. *)
Record ChainBlock {Extrinsic : Type} := mkChainBlock {
  cb_height : Z;
  cb_parent : H256;
  cb_eth_hash : H256;
  cb_extrinsics : list Extrinsic;
  cb_hashes : list H256;
  cb_txs : list Transaction;
}.
Arguments ChainBlock : clear implicits.
Arguments mkChainBlock {Extrinsic}.

(** The traces of a block: the calls of its transactions, in order and pre-order,
    with the data of the block and of their transaction. *)
Definition block_traces {Extrinsic} (b : ChainBlock Extrinsic) : list TransactionTrace :=
  completed_traces (cb_eth_hash b) (cb_height b)
    (imap (λ i x, ((i, x.1), x.2)) (zip (cb_hashes b) (block_trees 0 0 (cb_txs b)))).

Section end_to_end.
Context `{!BuildProfile}.
Context {W Extrinsic EthTransaction : Type} `{!EqDecision EthTransaction}.
(** The runtime, as in RuntimeApi.v. *)
Context (function : Extrinsic → RuntimeCall EthTransaction).
Context (keccak_rlp : EthTransaction → H256).
Context (apply_extrinsic : W → Extrinsic → W).
Context (trace_extrinsic : W → Extrinsic → W * list Event).
Context (initial_state : H256 → W).
(** The blocks of the chain, by hash. *)
Context (block_of : H256 → option (ChainBlock Extrinsic)).

(** The database and the overrides, which hold exactly those blocks. *)
Definition db_header (h : H256) : result (option (Z * H256)) Z :=
  Ok ((λ b, (cb_height b, cb_parent b)) <$> block_of h).
Definition db_eth_data (h : H256) : option (option (H256 * list H256)) :=
  Some ((λ b, (cb_eth_hash b, cb_hashes b)) <$> block_of h).
Definition db_body (h : H256) : result (option (list Extrinsic)) Z :=
  Ok (cb_extrinsics <$> block_of h).

(** What the tracing task of a block answers, over the runtime built with or without the
    tracing feature. *)
Definition traced_block (evm_tracing : bool) (h : H256) :
    result (list TransactionTrace) RpcError :=
  tracing_task_result db_header db_eth_data db_body api_initialize_block
    (api_trace_block function keccak_rlp apply_extrinsic trace_extrinsic initial_state
       evm_tracing) h.

(** The requester, when the cache task answers with the result of the task. *)
Definition cache_get_traces (evm_tracing : bool) (h : H256) :
    result (list TransactionTrace) RpcError :=
  requester_get_traces (Ok tt) (Some (traced_block evm_tracing h)).

(** A block whose known transactions execute as well-formed executions. *)
Definition block_executes (b : ChainBlock Extrinsic) : Prop :=
  (traced_events function keccak_rlp apply_extrinsic trace_extrinsic
     (initial_state (cb_parent b)) (cb_extrinsics b) (cb_hashes b)).*2 = tx_events <$> cb_txs b ∧
  forallb tx_ok (cb_txs b) = true ∧ block_size (cb_txs b) < 2 ^ 32 ∧
  length (cb_hashes b) = length (cb_txs b).

Lemma cache_get_traces_ok h b :
  block_of h = Some b → block_executes b → cache_get_traces true h = Ok (block_traces b).
Proof.
  intros Hb (Hevs & Hok & Hlt & Hlen).
  unfold cache_get_traces, traced_block, tracing_task_result.
  rewrite (cache_block_run _ _ _ _ _ h (cb_parent b) (cb_height b) (cb_eth_hash b)
    (cb_hashes b) (cb_txs b)); [done| |done..].
  exists (cb_extrinsics b). unfold db_header, db_eth_data, db_body. rewrite Hb.
  split_and!; try done. by apply api_trace_block_events.
Qed.

(** The error for a block that the runtime cannot trace. *)
Definition missing_feature_error (height : Z) : RpcError :=
  internal_err_from "Failed to replay block. Error : {:?}"
    (internal_err "Internal runtime error when replaying block {} : {:?}"
       [height; dispatch_error_number MissingTracingFeature]).

Lemma cache_get_traces_missing h b :
  block_of h = Some b → cache_get_traces false h = Err (missing_feature_error (cb_height b)).
Proof.
  intros Hb. unfold cache_get_traces, traced_block, tracing_task_result, cache_block.
  unfold db_header, db_eth_data, db_body. by rewrite Hb.
Qed.

(** trace_filter over the whole stack.  When the blocks of the requested range
    are on the chain and their known Ethereum transactions execute as well-formed
    executions, the endpoint, fed by the tracing tasks that replay the blocks on
    this runtime, answers with the requested slice of the calls of those
    transactions: in the order of the blocks, of the transactions and of the calls,
    each with the data of its own block and transaction.  The runtime is built with the
    tracing feature. *)
Theorem trace_filter_end_to_end start_batch best_number header_hash hash_at block_at
    batch_id max_count req from to :
  block_id best_number (from_block req) = Ok from →
  block_id best_number (to_block req) = Ok to →
  0 ≤ default max_count (count req) ≤ max_count → 0 ≤ default 0 (after req) →
  (∀ bs, start_batch bs = Ok batch_id) →
  (∀ h, from ≤ h ≤ to → h ≠ 0 →
     header_hash h = Ok (Some (hash_at h)) ∧
     block_of (hash_at h) = Some (block_at h) ∧ block_executes (block_at h)) →
  (trace_filter start_batch (cache_get_traces true) best_number header_hash max_count req).1 =
  page max_count req (default max_count (count req)) (Z.to_nat (default 0 (after req)))
    (filter (λ t, matches (default [] (from_address req)) (default [] (to_address req)) t)
       (mjoin ((λ h, block_traces (block_at h)) <$>
          filter (λ h, h ≠ 0) (range_inclusive from to)))).
Proof.
  intros Hfrom Hto Hcount Hafter Hstart Hblocks.
  set (traces_of h := match block_of h with Some b => block_traces b | None => [] end).
  rewrite (filter_slice _ _ _ _ hash_at traces_of batch_id max_count req from to); try done.
  2: { intros h Hh Hne. destruct (Hblocks h Hh Hne) as (? & Hb & Hex). split; [done|].
       unfold traces_of. rewrite Hb. by apply cache_get_traces_ok. }
  f_equal. unfold matching.
  assert (∀ h, h ∈ filter (λ h, h ≠ 0) (range_inclusive from to) → from ≤ h ≤ to ∧ h ≠ 0) as Hin.
  { intros h. unfold range_inclusive. rewrite list_elem_of_filter, elem_of_seqZ. lia. }
  induction (filter (λ h, h ≠ 0) (range_inclusive from to)) as [|h l IH]; [done|].
  rewrite !fmap_cons. cbn [mjoin list_join]. rewrite filter_app. f_equal.
  - destruct (Hin h) as [Hh Hne]; [left|]. destruct (Hblocks h Hh Hne) as (_ & Hb & _).
    unfold traces_of. by rewrite Hb.
  - apply IH. intros h' Hh'. apply Hin. by right.
Qed.

(** Without the feature the first block of the range makes the request fail. *)
Lemma trace_filter_missing start_batch best_number header_hash hash_at block_at
    batch_id max_count req from to :
  block_id best_number (from_block req) = Ok from →
  block_id best_number (to_block req) = Ok to →
  default max_count (count req) ≤ max_count →
  (∀ bs, start_batch bs = Ok batch_id) →
  (∀ h, from ≤ h ≤ to → h ≠ 0 →
     header_hash h = Ok (Some (hash_at h)) ∧ block_of (hash_at h) = Some (block_at h)) →
  (trace_filter start_batch (cache_get_traces false) best_number header_hash max_count req).1 =
  match filter (λ h, h ≠ 0) (range_inclusive from to) with
  | [] => Ok []
  | h :: _ => Err (missing_feature_error (cb_height (block_at h)))
  end.
Proof.
  intros Hfrom Hto Hcount Hstart Hblocks. unfold trace_filter. rewrite Hfrom, Hto.
  rewrite (proj2 (Z.ltb_ge _ _)) by lia.
  assert (∀ h, h ∈ range_inclusive from to → h ≠ 0 →
    header_hash h = Ok (Some (hash_at h)) ∧ block_of (hash_at h) = Some (block_at h)) as Hin.
  { intros h Hh. apply Hblocks. unfold range_inclusive in Hh. apply elem_of_seqZ in Hh. lia. }
  rewrite (collect_hashes_ok _ hash_at) by (intros h Hh Hne; by apply Hin).
  rewrite Hstart. unfold fetch_traces.
  destruct (filter _ _) as [|h l] eqn:Hf; [done|].
  assert (h ∈ filter (λ h, h ≠ 0) (range_inclusive from to)) as [Hne Hh]%list_elem_of_filter
    by (rewrite Hf; left).
  rewrite fmap_cons. cbn [fetch_loop].
  by rewrite (cache_get_traces_missing _ (block_at h)) by (by apply Hin).
Qed.

End end_to_end.

(** ** An instance *)

Module EndToEndExample.
(** A chain of two blocks with the extrinsics of RuntimeApi.v's example. *)
Definition block_at (h : Z) : ChainBlock Z :=
  mkChainBlock h (h + 99) (h * 7) [-1; 1; 2; 3] [1001; 1003] [Example.tx; Example.failed].
Definition hash_at (h : Z) : H256 := h + 100.
Definition header_hash (h : Z) : result (option H256) Z := Ok (Some (hash_at h)).
Definition block_of (h : H256) : option (ChainBlock Z) :=
  if decide (101 ≤ h ≤ 102) then Some (block_at (h - 100)) else None.
Definition endpoint (req : FilterRequest) :=
  trace_filter FilterExample.start
    (@cache_get_traces dev (list Z) Z Z RuntimeExample.function RuntimeExample.rlp
       RuntimeExample.apply RuntimeExample.traced RuntimeExample.initial block_of true)
    2 header_hash 100 req.
Definition req : FilterRequest :=
  mkFilterRequest (Some (RequestBlockId_Tag Earliest)) None None None (Some 1) (Some 3).

Lemma executes h :
  block_executes RuntimeExample.function RuntimeExample.rlp RuntimeExample.apply
    RuntimeExample.traced RuntimeExample.initial (block_at h).
Proof. split_and!; vm_compute; done. Qed.
End EndToEndExample.

Lemma trace_filter_end_to_end_witness :
  (EndToEndExample.endpoint EndToEndExample.req).1 =
  Ok (take 3 (drop 1 (block_traces (EndToEndExample.block_at 1) ++
                      block_traces (EndToEndExample.block_at 2)))).
Proof.
  unfold EndToEndExample.endpoint.
  rewrite (@trace_filter_end_to_end dev (list Z) Z Z RuntimeExample.function
    RuntimeExample.rlp RuntimeExample.apply RuntimeExample.traced RuntimeExample.initial
    EndToEndExample.block_of FilterExample.start 2 EndToEndExample.header_hash
    EndToEndExample.hash_at EndToEndExample.block_at 7 100 EndToEndExample.req 0 2);
    [by vm_compute|done|done|simpl; lia|simpl; lia|done|].
  intros h Hh Hne. split; [done|]. split; [|apply EndToEndExample.executes].
  unfold EndToEndExample.block_of, EndToEndExample.hash_at. rewrite decide_True by lia.
  by replace (h + 100 - 100) with h by lia.
Defined.
