(* ===== verification/TraceRpc.v ===== *)
(** * The tracing endpoints, from the JSON of a call to the JSON of its reply

    The [trace_filter] endpoint as the JSON-RPC server calls it (client/rpc-core/trace,
    client/rpc/trace/src/lib.rs): the parameters are read, the handler runs on a clone of
    the [Trace] struct, over the cache and this runtime's replay, and the traces are
    written.  The same for the debug endpoints (client/rpc-core/debug,
    client/rpc/debug/src/lib.rs). *)

From stdpp Require Import base tactics list gmap strings.
From Stdlib Require Import ZArith Lia Strings.Byte.
From S2P Require Import Prelude Trees EvmEvents TraceTypes Serialization CallList CallTree.
From S2P Require Import CallListSpec CallTracer TraceJson Formatters RpcTypes RpcRequests.
From S2P Require Import TraceCache TraceFilter CacheBlockSpec DebugRpc DebugSpec ResponseJson.
From S2P Require Import Runtime RuntimeApi TraceEndToEnd.
Local Open Scope Z_scope.

(** ** The server *)

Inductive RpcReply :=
| Reply (j : Json)
| ReplyError (e : RpcError)
| InvalidParams.

(** The JSON-RPC library: a method reads its parameters, runs, and writes what it
    returns.  What it does when a handler panics or a value cannot be written is left
    open. *)
Class JsonRpcServer := {
  serve {A R} : (list Json → option A) → (R → result Json SerError) →
    (A → outcome (result R RpcError)) → list Json → RpcReply;
  serve_reply {A R} (read : list Json → option A) (write : R → result Json SerError)
      handler ps a r j :
    read ps = Some a → handler a = Ret (Ok r) → write r = Ok j →
    serve read write handler ps = Reply j;
  serve_error {A R} (read : list Json → option A) (write : R → result Json SerError)
      handler ps a e :
    read ps = Some a → handler a = Ret (Err e) →
    serve read write handler ps = ReplyError e;
  serve_invalid {A R} (read : list Json → option A) (write : R → result Json SerError)
      handler ps :
    read ps = None → serve read write handler ps = InvalidParams;
}.

(** ** The struct of the endpoint *)

(** What the handler uses of the client and of the cache task. *)
Record TraceClient := mkTraceClient {
  info_best_number : Z;
  client_header_hash : Z → result (option H256) Z;
}.
Record CacheRequester := mkCacheRequester {
  cr_start_batch : list H256 → result Z RpcError;
  cr_get_traces : H256 → result (list TransactionTrace) RpcError;
}.
Record Trace := mkTrace {
  trace_client : TraceClient;
  trace_requester : CacheRequester;
  trace_max_count : Z;
}.

Definition Trace_new (client : TraceClient) (requester : CacheRequester) (max_count : Z) : Trace :=
  mkTrace client requester max_count.
Definition Trace_clone (self : Trace) : Trace :=
  mkTrace (trace_client self) (trace_requester self) (trace_max_count self).

(** [TraceT::filter]. *)
Definition TraceT_filter (self : Trace) (filter : FilterRequest) :
    outcome (result (list TransactionTrace) RpcError) :=
  let self := Trace_clone self in
  Ret (trace_filter (cr_start_batch (trace_requester self))
         (cr_get_traces (trace_requester self)) (info_best_number (trace_client self))
         (client_header_hash (trace_client self)) (trace_max_count self) filter).1.

Section methods.
Context `{!RequestSerde, !Unicode, !EthereumSerde, !JsonRpcServer}.

(** The parameters of the methods, by the signatures of the traits. *)
Definition trace_filter_params (ps : list Json) : option FilterRequest :=
  match ps with [j] => FilterRequest_deserialize j | _ => None end.

(** A value and optional tracing parameters. *)
Definition debug_params {A} (f : Json → option A) (ps : list Json) :
    option (A * option TraceParams) :=
  match ps with
  | [j] => a ← f j; Some (a, None)
  | [j; p] => a ← f j; params ← optional TraceParams_deserialize (Some p); Some (a, params)
  | _ => None
  end.

Definition vec_serialize {A} (f : A → result Json SerError) (l : list A) :
    result Json SerError :=
  js ←? map_result f l; Ok (JSeq js).

(** The method [trace_filter]. *)
Definition method_trace_filter (self : Trace) (ps : list Json) : RpcReply :=
  serve trace_filter_params (vec_serialize TransactionTrace_serialize) (TraceT_filter self) ps.

(** The methods [debug_traceTransaction] and [debug_traceBlockByNumber], over the answers
    of the debug task. *)
Definition method_trace_transaction
    (answer : RequesterInput → option TraceParams → Delivery) (ps : list Json) : RpcReply :=
  serve (debug_params h256_deserialize) SingleTrace_serialize
    (λ '(transaction_hash, params),
       rpc_trace_transaction (answer (RequesterInput_Transaction transaction_hash) params)) ps.
Definition method_trace_block
    (answer : RequesterInput → option TraceParams → Delivery) (ps : list Json) : RpcReply :=
  serve (debug_params RequestBlockId_deserialize) (vec_serialize SingleTrace_serialize)
    (λ '(id, params), rpc_trace_block (answer (RequesterInput_Block id) params)) ps.

Lemma vec_serialize_writes {A} (f : A → result Json SerError) l :
  Forall (λ a, writes (f a)) l →
  ∃ js, map_result f l = Ok js ∧ Forall json_distinct js ∧ vec_serialize f l = Ok (JSeq js).
Proof.
  intros (js & Hjs & Hd)%map_result_writes. exists js. unfold vec_serialize. by rewrite Hjs.
Qed.

(** ** trace_filter *)

Section filter.
Context `{!BuildProfile}.
Context {W Extrinsic EthTransaction : Type} `{!EqDecision EthTransaction}.
Context (function : Extrinsic → RuntimeCall EthTransaction).
Context (keccak_rlp : EthTransaction → H256).
Context (apply_extrinsic : W → Extrinsic → W).
Context (trace_extrinsic : W → Extrinsic → W * list Event).
Context (initial_state : H256 → W).
Context (block_of : H256 → option (ChainBlock Extrinsic)).
(** Exit messages and opcode names are strings, storage keys have 256 bits. *)
Context (extrinsic_writable : ∀ w x, Forall event_writable (trace_extrinsic w x).2).

Abbreviation block_executes :=
  (block_executes function keccak_rlp apply_extrinsic trace_extrinsic initial_state).
Abbreviation cache_get_traces :=
  (cache_get_traces function keccak_rlp apply_extrinsic trace_extrinsic initial_state block_of).

Lemma trace_block_loop_writable w exts known :
  Forall event_writable
    (trace_block_loop function keccak_rlp apply_extrinsic trace_extrinsic [Event_CallListNew]
       w exts known).
Proof.
  revert w. induction exts as [|ext exts IH]; intros w; simpl; [constructor|].
  destruct (function ext); try apply IH. case_decide; [|apply IH].
  pose proof (extrinsic_writable w ext) as Hw. destruct (trace_extrinsic w ext) as [w' evs].
  constructor; [done|]. by apply Forall_app.
Qed.

(** The traces of a block of the chain are written. *)
Lemma block_traces_written h b :
  block_of h = Some b → block_executes b →
  Forall (λ t, writes (TransactionTrace_serialize t)) (block_traces b).
Proof.
  intros Hb Hex. pose proof (cache_get_traces_ok _ _ _ _ _ _ h b Hb Hex) as Hok.
  unfold TraceEndToEnd.cache_get_traces, requester_get_traces, traced_block,
    tracing_task_result in Hok.
  destruct (cache_block _ _ _ _ _ h) as [[ts|e]|] eqn:Hrun; [|done..].
  injection Hok as <-. eapply cache_traces_written; [| |exact Hrun]; [by intros; constructor|].
  intros p x hs. unfold api_trace_block, runtime_trace_block. apply trace_block_loop_writable.
Qed.

Lemma page_elem (P : TransactionTrace → Prop) max_count req cnt skip all ts :
  Forall P all → page max_count req cnt skip all = Ok ts → Forall P ts.
Proof.
  intros Hall. unfold page. destruct (count req).
  - intros [= <-]. by apply Forall_take, Forall_drop.
  - destruct (_ && _); [done|]. intros [= <-]. by apply Forall_drop.
Qed.

(** C11: trace_filter from JSON to JSON.  A call has a parameter that means the filter [f],
    and the blocks of its range are on the chain.  With a runtime that has the tracing
    feature, when the known Ethereum transactions of those blocks execute as well-formed
    executions, the call is replied with the array of the requested slice of the calls of
    those transactions that match the filter: in the order of the blocks, of the
    transactions and of the calls, each with the data of its own block and transaction, and
    each written without an error and without two fields of one name.  Without a count, a
    slice of the maximum or more is refused.  With the features that the runtime's manifest
    declares, the call is replied with the error of the missing feature as soon as the
    range has a block other than the genesis block. *)
Theorem trace_filter_replies start_batch best_number header_hash hash_at block_at
    batch_id max_count fields f from to :
  let cnt := default max_count (count f) in
  let self evm_tracing := Trace_new (mkTraceClient best_number header_hash)
    (mkCacheRequester start_batch (cache_get_traces evm_tracing)) max_count in
  let heights := filter (λ h, h ≠ 0) (range_inclusive from to) in
  let calls :=
    filter (λ t, matches (default [] (from_address f)) (default [] (to_address f)) t)
      (mjoin ((λ h, block_traces (block_at h)) <$> heights)) in
  filter_json fields f →
  block_id best_number (from_block f) = Ok from →
  block_id best_number (to_block f) = Ok to →
  0 ≤ max_count → cnt ≤ max_count →
  (∀ bs, start_batch bs = Ok batch_id) →
  (∀ h, from ≤ h ≤ to → h ≠ 0 →
     header_hash h = Ok (Some (hash_at h)) ∧ block_of (hash_at h) = Some (block_at h)) →
  ((∀ h, from ≤ h ≤ to → h ≠ 0 → block_executes (block_at h)) →
   match page max_count f cnt (Z.to_nat (default 0 (after f))) calls with
   | Ok slice =>
       ∃ js, map_result TransactionTrace_serialize slice = Ok js ∧ Forall json_distinct js ∧
         method_trace_filter (self true) [JObj fields] = Reply (JSeq js)
   | Err e => method_trace_filter (self true) [JObj fields] = ReplyError e
   end) ∧
  method_trace_filter (self (cfg_feature "evm-tracing")) [JObj fields] =
  match heights with
  | [] => Reply (JSeq [])
  | h :: _ => ReplyError (missing_feature_error (cb_height (block_at h)))
  end.
Proof.
  intros cnt self heights calls Hf Hfrom Hto Hmax Hcnt Hstart Hblocks.
  destruct (filter_json_u32 _ _ Hf) as [Hafter Hcount].
  assert (trace_filter_params [JObj fields] = Some f) as Hread by by apply filter_json_read.
  split.
  2: { pose proof (trace_filter_missing function keccak_rlp apply_extrinsic trace_extrinsic
         initial_state block_of start_batch best_number header_hash hash_at block_at batch_id
         max_count f from to Hfrom Hto Hcnt Hstart Hblocks) as Hrun. fold heights in Hrun.
       destruct heights as [|h l].
       - eapply serve_reply; [exact Hread| |]; [unfold TraceT_filter; f_equal; exact Hrun|done].
       - eapply serve_error; [exact Hread|]. unfold TraceT_filter. f_equal. exact Hrun. }
  intros Hexecutes.
  assert (TraceT_filter (self true) f =
    Ret (page max_count f cnt (Z.to_nat (default 0 (after f))) calls)) as Hrun.
  { unfold TraceT_filter. f_equal. eapply trace_filter_end_to_end; try done.
    - fold cnt. split; [|done]. unfold cnt. destruct (count f) as [n|]; [|done]. by apply Hcount.
    - destruct (after f) as [n|]; [|done]. by apply Hafter.
    - intros h Hh Hne. destruct (Hblocks h Hh Hne). eauto. }
  assert (Forall (λ t, writes (TransactionTrace_serialize t)) calls) as Hcalls.
  { apply Forall_forall. intros t [_ (l & Ht & Hl)%list_elem_of_join]%list_elem_of_filter.
    apply list_elem_of_fmap in Hl as (h & -> & [Hne Hh]%list_elem_of_filter).
    unfold range_inclusive in Hh. apply elem_of_seqZ in Hh.
    destruct (Hblocks h) as (_ & Hb); [lia|done|].
    assert (block_executes (block_at h)) as Hex by (apply Hexecutes; [lia|done]).
    pose proof (block_traces_written _ _ Hb Hex) as Hw. rewrite Forall_forall in Hw. by apply Hw. }
  destruct (page _ _ _ _ calls) as [slice|e] eqn:Hpage;
    [|by eapply serve_error; [exact Hread|exact Hrun]].
  destruct (vec_serialize_writes TransactionTrace_serialize slice) as (js & Hjs & Hd & Hvec).
  { by eapply page_elem. }
  exists js. split; [done|]. split; [done|]. by eapply serve_reply; [exact Hread|exact Hrun|].
Qed.

End filter.

(** ** The debug methods *)

Section debug.
Context `{!BuildProfile}.
Context {Extrinsic EthTransaction : Type}.
Context (twox_128 : bytes → Z).
Context (best_number : Z).
Context (load_hash : H256 → result (option BlockId) RpcError).
Context (load_transactions : H256 → result (option (H256 * nat)) RpcError).
Context (header : BlockId → result (option (H256 * H256)) Z).
Context (transaction_hashes : BlockId → option (option (list H256))).
Context (eth_transactions : BlockId → option (option (list EthTransaction))).
Context (body : BlockId → result (option (list Extrinsic)) Z).
Context (api_version : H256 → result (option Z) Z).
Context (initialize_block : H256 → H256 → list Event * result unit Z).
Context (trace_block : H256 → list Extrinsic → list H256 →
  list Event * result (result unit Z) Z).
Context (trace_transaction : H256 → list Extrinsic → EthTransaction →
  list Event * result (result unit Z) Z).
Context (legacy : EthTransaction → bool).
Context (trace_transaction_before_version_4 : H256 → list Extrinsic → EthTransaction →
  list Event * result (result unit Z) Z).
Context (initialize_writable : ∀ p h, Forall event_writable (initialize_block p h).1).
Context (block_writable : ∀ p x h, Forall event_writable (trace_block p x h).1).
Context (transaction_writable : ∀ p x t, Forall event_writable (trace_transaction p x t).1).
Context (legacy_writable : ∀ p x t,
  Forall event_writable (trace_transaction_before_version_4 p x t).1).

Abbreviation task_answer :=
  (task_answer twox_128 best_number load_hash load_transactions header transaction_hashes
     eth_transactions body api_version initialize_block trace_block trace_transaction legacy
     trace_transaction_before_version_4).

(** The debug task, which answers what it is sent. *)
Definition debug_task (input : RequesterInput) (params : option TraceParams) : Delivery :=
  Answered (task_answer input params).

Let answers_written := debug_answers_written twox_128 best_number load_hash load_transactions
  header transaction_hashes eth_transactions body api_version initialize_block trace_block
  trace_transaction legacy trace_transaction_before_version_4 initialize_writable
  block_writable transaction_writable legacy_writable.

(** C17: every call of the debug methods is replied: parameters that cannot be read are
    refused, an error of the task is passed on, and traces are written as JSON without an
    error and without two fields of one name, one trace for a transaction and an array for
    a block, for every tracer and whatever the client, the databases and the runtime's
    replay do. *)
Theorem debug_methods_reply ps :
  match debug_params h256_deserialize ps with
  | None => method_trace_transaction debug_task ps = InvalidParams
  | Some (h, params) =>
      match task_answer (RequesterInput_Transaction h) params with
      | Ok (Response_Single t) =>
          ∃ j, SingleTrace_serialize t = Ok j ∧ json_distinct j ∧
            method_trace_transaction debug_task ps = Reply j
      | Ok (Response_Block _) => False
      | Err e => method_trace_transaction debug_task ps = ReplyError e
      end
  end ∧
  match debug_params RequestBlockId_deserialize ps with
  | None => method_trace_block debug_task ps = InvalidParams
  | Some (id, params) =>
      match task_answer (RequesterInput_Block id) params with
      | Ok (Response_Block ts) =>
          ∃ js, map_result SingleTrace_serialize ts = Ok js ∧ Forall json_distinct js ∧
            method_trace_block debug_task ps = Reply (JSeq js)
      | Ok (Response_Single _) => False
      | Err e => method_trace_block debug_task ps = ReplyError e
      end
  end.
Proof.
  split.
  - destruct (debug_params h256_deserialize ps) as [[h params]|] eqn:Hps;
      [|by apply serve_invalid].
    destruct (answers_written h (RequestBlockId_Number 0) params) as [(r & Hr & Hw) _]. unfold rpc_trace_transaction in Hr. cbn [receive] in Hr.
    destruct (task_answer _ params) as [[t|ts]|e] eqn:Ht; simplify_eq.
    + destruct (Hw t eq_refl) as (j & Hj & Hd). exists j. split; [done|]. split; [done|].
      eapply serve_reply; [exact Hps| |exact Hj]. unfold debug_task. by rewrite Ht.
    + eapply serve_error; [exact Hps|]. unfold debug_task. by rewrite Ht.
  - destruct (debug_params RequestBlockId_deserialize ps) as [[id params]|] eqn:Hps;
      [|by apply serve_invalid].
    destruct (answers_written 0 id params) as [_ (r & Hr & Hw)]. unfold rpc_trace_block in Hr. cbn [receive] in Hr.
    destruct (task_answer _ params) as [[t|ts]|e] eqn:Ht; simplify_eq.
    + destruct (vec_serialize_writes SingleTrace_serialize ts (Hw ts eq_refl))
        as (js & Hjs & Hd & Hvec).
      exists js. split; [done|]. split; [done|].
      eapply serve_reply; [exact Hps| |exact Hvec]. unfold debug_task. by rewrite Ht.
    + eapply serve_error; [exact Hps|]. unfold debug_task. by rewrite Ht.
Qed.

End debug.
End methods.

(** ** Witnesses *)

Module ServerExample.
(** A server that reports a panic or a value that cannot be written as an error. *)
Definition serve_ {A R} (read : list Json → option A) (write : R → result Json SerError)
    (handler : A → outcome (result R RpcError)) (ps : list Json) : RpcReply :=
  match read ps with
  | None => InvalidParams
  | Some a =>
      match handler a with
      | Ret (Ok r) =>
          match write r with
          | Ok j => Reply j
          | Err _ => ReplyError (internal_err "not written" [])
          end
      | Ret (Err e) => ReplyError e
      | Panic => ReplyError (internal_err "panicked" [])
      end
  end.
#[global] Instance server : JsonRpcServer.
Proof.
  refine {| serve := @serve_ |}; unfold serve_.
  - by intros A R read write handler ps a r j -> -> ->.
  - by intros A R read write handler ps a e -> ->.
  - by intros A R read write handler ps ->.
Defined.

Definition fields : list (string * Json) :=
  [("fromBlock", JStr (bytes_of "earliest")); ("count", JNum 3); ("after", JNum 1)]%string.
Definition self (evm_tracing : bool) : Trace :=
  Trace_new (mkTraceClient 2 EndToEndExample.header_hash)
    (mkCacheRequester FilterExample.start
       (@cache_get_traces dev (list Z) Z Z RuntimeExample.function RuntimeExample.rlp
          RuntimeExample.apply RuntimeExample.traced RuntimeExample.initial
          EndToEndExample.block_of evm_tracing)) 100.

Lemma fields_json : filter_json fields EndToEndExample.req.
Proof.
  split; simpl.
  - apply (bool_decide_unpack _). vm_compute. exact I.
  - eexists. split; [reflexivity|]. split; [discriminate|]. eexists. split; [reflexivity|].
    apply (text_tag Earliest).
  - by left.
  - by left.
  - by left.
  - eexists. split; [reflexivity|]. split; [discriminate|]. split; [reflexivity|lia].
  - eexists. split; [reflexivity|]. split; [discriminate|]. split; [reflexivity|lia].
Qed.

Lemma traced_writable w x : Forall event_writable (RuntimeExample.traced w x).2.
Proof.
  unfold RuntimeExample.traced. cbn [snd].
  destruct (x =? 1);
    [let e := eval vm_compute in (tx_events Example.tx) in change (tx_events Example.tx) with e
    |let e := eval vm_compute in (tx_events Example.failed) in
     change (tx_events Example.failed) with e];
    repeat (constructor; [first [exact I|by apply readable_ascii|by split]|]); constructor.
Qed.

Definition task : RequesterInput → option TraceParams → Delivery :=
  @debug_task dev unit Z DebugExample.twox 9 DebugExample.load_hash
    DebugExample.load_transactions DebugExample.header DebugExample.hashes
    DebugExample.eth_transactions DebugExample.body DebugExample.api_version DebugExample.init
    (DebugExample.replay WrittenExample.evs) (DebugExample.replay WrittenExample.evs)
    DebugExample.legacy (DebugExample.replay WrittenExample.evs).
Definition params : list Json :=
  [JStr (bytes_of "0x" ++ replicate 64 Byte.x31);
   JObj [("tracer", JStr (bytes_of "callTracer"))]%string].
End ServerExample.

Lemma trace_filter_replies_witness :
  (∃ js, map_result TransactionTrace_serialize
          (take 3 (drop 1 (block_traces (EndToEndExample.block_at 1) ++
                           block_traces (EndToEndExample.block_at 2)))) = Ok js ∧
    Forall json_distinct js ∧
    method_trace_filter (ServerExample.self true) [JObj ServerExample.fields] =
    Reply (JSeq js)) ∧
  method_trace_filter (ServerExample.self (cfg_feature "evm-tracing"))
    [JObj ServerExample.fields] = ReplyError (missing_feature_error 1).
Proof.
  pose proof (@trace_filter_replies RequestExample.serde JsonExample.serde
    ServerExample.server dev (list Z) Z Z RuntimeExample.function RuntimeExample.rlp
    RuntimeExample.apply RuntimeExample.traced RuntimeExample.initial EndToEndExample.block_of
    ServerExample.traced_writable FilterExample.start 2 EndToEndExample.header_hash
    EndToEndExample.hash_at EndToEndExample.block_at 7 100 ServerExample.fields
    EndToEndExample.req 0 2) as Hw. cbv zeta in Hw.
  destruct Hw as [Hw Hm]; [exact ServerExample.fields_json|reflexivity|reflexivity|lia
    |simpl; lia|reflexivity| |].
  { intros h Hh Hne. split; [reflexivity|].
    unfold EndToEndExample.block_of, EndToEndExample.hash_at. rewrite decide_True by lia.
    by replace (h + 100 - 100) with h by lia. }
  split; [|exact Hm].
  match type of Hw with _ → match ?p with _ => _ end =>
    replace p with (@Ok (list TransactionTrace) RpcError
      (take 3 (drop 1 (block_traces (EndToEndExample.block_at 1) ++
                       block_traces (EndToEndExample.block_at 2))))) in Hw
      by (vm_compute; reflexivity) end.
  apply Hw. intros h Hh Hne. apply EndToEndExample.executes.
Defined.

Lemma debug_methods_reply_witness :
  ∃ j, @method_trace_transaction RequestExample.serde JsonExample.unicode JsonExample.serde
         ServerExample.server ServerExample.task ServerExample.params = Reply j ∧
       json_distinct j.
Proof.
  pose proof (@debug_methods_reply RequestExample.serde JsonExample.unicode JsonExample.serde
    ServerExample.server dev unit Z
    DebugExample.twox 9 DebugExample.load_hash DebugExample.load_transactions
    DebugExample.header DebugExample.hashes DebugExample.eth_transactions DebugExample.body
    DebugExample.api_version DebugExample.init (DebugExample.replay WrittenExample.evs)
    (DebugExample.replay WrittenExample.evs) DebugExample.legacy
    (DebugExample.replay WrittenExample.evs) (λ _ _, List.Forall_nil _)
    (λ _ _ _, WrittenExample.evs_writable) (λ _ _ _, WrittenExample.evs_writable)
    (λ _ _ _, WrittenExample.evs_writable) ServerExample.params) as [Hw _].
  match type of Hw with match ?p with _ => _ end =>
    let e := eval vm_compute in p in replace p with e in Hw by (vm_compute; reflexivity) end.
  cbv beta iota in Hw.
  match type of Hw with match ?p with _ => _ end =>
    let e := eval vm_compute in p in replace p with e in Hw by (vm_compute; reflexivity) end.
  destruct Hw as (j & _ & Hd & Hr). exists j. split; [exact Hr|exact Hd].
Defined.
