(* ===== verification/TxPool.v ===== *)
(** * The txpool endpoints: client/rpc/txpool and client/rpc-core/txpool

    The content of the transaction pool by sender and nonce, as transactions
    (types/content.rs) or as summaries (types/inspect.rs).  The pool, the runtime
    API and the recovery of a sender are parameters. *)

From stdpp Require Import base tactics list gmap strings.
From Stdlib Require Import ZArith Lia Strings.Byte.
From S2P Require Import Prelude RpcTypes.
Local Open Scope Z_scope.

(** ** Ethereum transactions, as far as the endpoints read them *)

Inductive TransactionAction := ActionCall (to : H160) | ActionCreate.

(** The fields the three kinds share; [tx_price] is the gas price, and the maximal
    fee per gas of an EIP-1559 transaction. *)
Record TxFields := mkTxFields {
  tx_nonce : U256;
  tx_action : TransactionAction;
  tx_value : U256;
  tx_price : U256;
  tx_gas_limit : U256;
  tx_input : bytes;
}.

Inductive TransactionV2 :=
| TxLegacy (t : TxFields)
| TxEIP2930 (t : TxFields)
| TxEIP1559 (t : TxFields).

Definition tx_fields (txn : TransactionV2) : TxFields :=
  match txn with TxLegacy t | TxEIP2930 t | TxEIP1559 t => t end.

Definition action_to (a : TransactionAction) : option H160 :=
  match a with ActionCall to => Some to | ActionCreate => None end.

(** [GetT]: what an endpoint shows of a transaction. *)
Class GetT (T : Type) := { get_t : H256 → H160 → TransactionV2 → T }.

(** ** types/content.rs and types/inspect.rs *)

Record PoolTransaction := mkPoolTransaction {
  pt_hash : H256;
  pt_nonce : U256;
  pt_block_hash : option H256;
  pt_block_number : option U256;
  pt_from : H160;
  pt_to : option H160;
  pt_value : U256;
  pt_gas_price : U256;
  pt_gas : U256;
  pt_input : bytes;
  pt_transaction_index : option U256;
}.

#[global] Instance PoolTransaction_get : GetT PoolTransaction := {|
  get_t hash from_address txn :=
    let t := tx_fields txn in
    mkPoolTransaction hash (tx_nonce t) None None from_address (action_to (tx_action t))
      (tx_value t) (tx_price t) (tx_gas_limit t) (tx_input t) None
|}.

Record Summary := mkSummary {
  sm_to : option H160;
  sm_value : U256;
  sm_gas : U256;
  sm_gas_price : U256;
}.

#[global] Instance Summary_get : GetT Summary := {|
  get_t _ _ txn :=
    let t := tx_fields txn in
    mkSummary (action_to (tx_action t)) (tx_value t) (tx_gas_limit t) (tx_price t)
|}.

(** ** The endpoints *)

Abbreviation TransactionMap T := (gmap H160 (gmap U256 T)).

Record TxPoolResult (T : Type) := mkTxPoolResult { pending : T; queued : T }.
Arguments mkTxPoolResult {_}.
Arguments pending {_}.
Arguments queued {_}.

Section txpool.
Context {Extrinsic : Type}.
(** The hash of a transaction, the public key recovered from its signature and the
    hash of the key. *)
Context (txn_hash : TransactionV2 → H256).
Context (public_key : TransactionV2 → result bytes Z).
Context (keccak256 : bytes → H256).
(** The pool, and the runtime API at the best block. *)
Context (txs_ready txs_future : list Extrinsic).
Context (pool_status : Z * Z).
Context (api_version : result (option Z) Z).
Context (extrinsic_filter_before_version_2 :
  list Extrinsic → list Extrinsic → result (list TxFields * list TxFields) Z).
Context (extrinsic_filter :
  list Extrinsic → list Extrinsic → result (list TransactionV2 * list TransactionV2) Z).

(** The sender: the low 20 bytes of the hash of its key, and zero when the key
    cannot be recovered. *)
Definition from_address (txn : TransactionV2) : H160 :=
  match public_key txn with
  | Ok pk => keccak256 pk mod 2 ^ 160
  | Err _ => 0
  end.

Definition insert_txn {T} `{!GetT T} (m : TransactionMap T) (txn : TransactionV2) :
    TransactionMap T :=
  let a := from_address txn in
  <[a := <[tx_nonce (tx_fields txn) := get_t (txn_hash txn) a txn]> (default ∅ (m !! a))]> m.

(** The loops of [map_build]. *)
Definition transaction_map {T} `{!GetT T} (txns : list TransactionV2) : TransactionMap T :=
  foldl insert_txn ∅ txns.

Definition ethereum_txns (version : Z) :
    result (list TransactionV2 * list TransactionV2) RpcError :=
  if version =? 1 then
    match extrinsic_filter_before_version_2 txs_ready txs_future with
    | Err e => Err (internal_err "fetch runtime extrinsic filter failed: {:?}" [e])
    | Ok (ready, future) => Ok (TxLegacy <$> ready, TxLegacy <$> future)
    end
  else
    match extrinsic_filter txs_ready txs_future with
    | Err e => Err (internal_err "fetch runtime extrinsic filter failed: {:?}" [e])
    | Ok r => Ok r
    end.

Definition map_build (T : Type) `{!GetT T} : result (TxPoolResult (TransactionMap T)) RpcError :=
  match api_version with
  | Err _ | Ok None => Err (internal_err "failed to retrieve Runtime Api version" [])
  | Ok (Some version) =>
      txns ←? ethereum_txns version;
      Ok (mkTxPoolResult (transaction_map txns.1) (transaction_map txns.2))
  end.

Definition txpool_content := map_build PoolTransaction.
Definition txpool_inspect := map_build Summary.
Definition txpool_status : TxPoolResult U256 := mkTxPoolResult pool_status.1 pool_status.2.

(** ** Theorems *)

(** The entry of a sender and a nonce. *)
Definition map_at {T} (m : TransactionMap T) (a : H160) (n : U256) : option T :=
  m !! a ≫= lookup n.

Lemma map_at_insert {T} `{!GetT T} (m : TransactionMap T) txn a n :
  map_at (insert_txn m txn) a n =
  if decide (from_address txn = a ∧ tx_nonce (tx_fields txn) = n)
  then Some (get_t (txn_hash txn) a txn) else map_at m a n.
Proof.
  unfold map_at, insert_txn. destruct (decide (from_address txn = a)) as [<-|Ha].
  - rewrite lookup_insert_eq. simpl. destruct (decide (tx_nonce (tx_fields txn) = n)) as [<-|Hn].
    + by rewrite lookup_insert_eq, decide_True.
    + rewrite lookup_insert_ne, decide_False by (done || intros [? ?]; done).
      by destruct (m !! from_address txn).
  - by rewrite lookup_insert_ne, decide_False by (done || intros [? ?]; done).
Qed.

Lemma transaction_map_at {T} `{!GetT T} txns a n :
  map_at (transaction_map (T:=T) txns) a n =
  (λ t, get_t (txn_hash t) a t) <$>
  last (filter (λ t, from_address t = a ∧ tx_nonce (tx_fields t) = n) txns).
Proof.
  unfold transaction_map. induction txns as [|t txns IH] using rev_ind; [done|].
  rewrite foldl_snoc, map_at_insert, filter_app, filter_cons, filter_nil.
  case_decide; [by rewrite last_snoc|]. by rewrite app_nil_r.
Qed.

(** When senders and nonces are distinct, every transaction is shown. *)
Lemma transaction_map_shown {T} `{!GetT T} txns t :
  NoDup ((λ t, (from_address t, tx_nonce (tx_fields t))) <$> txns) → t ∈ txns →
  map_at (transaction_map (T:=T) txns) (from_address t) (tx_nonce (tx_fields t)) =
  Some (get_t (txn_hash t) (from_address t) t).
Proof.
  intros Hnd Ht. rewrite transaction_map_at.
  apply list_elem_of_split in Ht as (l1 & l2 & ->).
  rewrite fmap_app, fmap_cons in Hnd. apply NoDup_app in Hnd as (_ & Hl1 & Hl2).
  apply NoDup_cons in Hl2 as [Hl2 _].
  rewrite filter_app, filter_cons, decide_True by done.
  assert (filter (λ t', from_address t' = from_address t ∧
    tx_nonce (tx_fields t') = tx_nonce (tx_fields t)) l2 = []) as ->.
  { clear -Hl2. induction l2 as [|t' l2 IH]; [done|].
    rewrite fmap_cons, not_elem_of_cons in Hl2. destruct Hl2 as [Hne Hl2].
    rewrite filter_cons, decide_False by (intros [Ha Hn]; apply Hne; by rewrite Ha, Hn).
    by apply IH. }
  by rewrite last_snoc.
Qed.

(** The pool's content shows, for a sender and a nonce, the last transaction of
    the pool with that sender and nonce, and nothing for any other; when these
    pairs are distinct every transaction is shown. *)
Theorem txpool_map_build version ready future T `{!GetT T} :
  api_version = Ok (Some version) → ethereum_txns version = Ok (ready, future) →
  ∃ r, map_build T = Ok r ∧
    (∀ a n, map_at (pending r) a n =
       (λ t, get_t (txn_hash t) a t) <$>
       last (filter (λ t, from_address t = a ∧ tx_nonce (tx_fields t) = n) ready)) ∧
    (∀ a n, map_at (queued r) a n =
       (λ t, get_t (txn_hash t) a t) <$>
       last (filter (λ t, from_address t = a ∧ tx_nonce (tx_fields t) = n) future)) ∧
    (NoDup ((λ t, (from_address t, tx_nonce (tx_fields t))) <$> ready) →
     ∀ t, t ∈ ready →
       map_at (pending r) (from_address t) (tx_nonce (tx_fields t)) =
       Some (get_t (txn_hash t) (from_address t) t)).
Proof.
  intros Hv Htx. eexists. unfold map_build. rewrite Hv, Htx. split; [done|].
  split_and!; [intros; apply transaction_map_at..|].
  intros Hnd t Ht. by apply transaction_map_shown.
Qed.

End txpool.

(** ** Witness *)

Module TxPoolExample.
Definition tx (nonce value : Z) : TransactionV2 :=
  TxEIP1559 (mkTxFields nonce (ActionCall 0xB0) value 7 21000 []).
Definition hash (t : TransactionV2) : H256 := tx_value (tx_fields t).
Definition key (t : TransactionV2) : result bytes Z :=
  if tx_value (tx_fields t) =? 0 then Err 1 else Ok [Byte.x01].
Definition keccak (pk : bytes) : H256 := 2 ^ 160 + 0xA0.
Definition filter_v2 (ready future : list TransactionV2) :
  result (list TransactionV2 * list TransactionV2) Z := Ok (ready, future).
Definition filter_v1 (ready future : list TransactionV2) :
  result (list TxFields * list TxFields) Z := Err 0.
Definition ready : list TransactionV2 := [tx 4 10; tx 5 11; tx 4 0].
End TxPoolExample.

Lemma txpool_map_build_witness :
  ∃ r, map_build TxPoolExample.hash TxPoolExample.key TxPoolExample.keccak
      TxPoolExample.ready [] (Ok (Some 2)) TxPoolExample.filter_v1 TxPoolExample.filter_v2
      Summary = Ok r ∧
    map_at (pending r) 0xA0 5 = Some (mkSummary (Some 0xB0) 11 21000 7).
Proof.
  destruct (txpool_map_build TxPoolExample.hash TxPoolExample.key TxPoolExample.keccak
    TxPoolExample.ready [] (Ok (Some 2)) TxPoolExample.filter_v1 TxPoolExample.filter_v2 2
    TxPoolExample.ready [] Summary) as (r & Hr & Hp & _); [reflexivity|reflexivity|].
  exists r. split; [exact Hr|]. rewrite Hp. vm_compute. reflexivity.
Defined.
