(* ===== verification/EthereumApi.v ===== *)
(** * Extrinsics and the Ethereum API of the runtime: node/runtime/src/lib.rs

    The conversion of Ethereum transactions to extrinsics, the dispatch of
    self-contained calls, the transactions the node signs itself, the calls of the
    Ethereum API and the proofs of key ownership.  The codec, the EVM's runner,
    the Ethereum pallet and signatures are parameters. *)

From stdpp Require Import base tactics list gmap strings.
From Stdlib Require Import ZArith Lia Strings.Byte.
From S2P Require Import Prelude EvmEvents TraceTypes RpcTypes Bags Runtime RuntimeConfig.
From S2P Require Import RuntimeApi TxPool.
Local Open Scope Z_scope.

(** ** Extrinsics *)

(** The extensions of a signed extrinsic that carry data. *)
Record SignedExtra (Era : Type) := mkSignedExtra {
  CheckEra : Era;
  CheckNonce : Z;
  ChargeTransactionPayment : Z;
}.
Arguments mkSignedExtra {_}.
Arguments CheckEra {_}. Arguments CheckNonce {_}. Arguments ChargeTransactionPayment {_}.

Record UncheckedExtrinsic (Payload EthTransaction : Type) := mkUnchecked {
  signature : option Payload;
  function : RuntimeCall EthTransaction;
}.
Arguments mkUnchecked {_ _}. Arguments signature {_ _}. Arguments function {_ _}.

Definition new_unsigned {P T} (call : RuntimeCall T) : UncheckedExtrinsic P T :=
  mkUnchecked None call.

Section conversion.
Context {P T : Type}.
(** The encoding of extrinsics and of vectors of bytes. *)
Context (encode : UncheckedExtrinsic P T → bytes).
Context (decode : bytes → option (UncheckedExtrinsic P T)).
Context (encode_vec : bytes → bytes) (decode_vec : bytes → option bytes).

Definition convert_transaction (transaction : T) : UncheckedExtrinsic P T :=
  new_unsigned (CEthereum transaction).

(** An opaque extrinsic is the vector its encoding holds. *)
Definition convert_transaction_opaque (transaction : T) : outcome bytes :=
  match decode_vec (encode (convert_transaction transaction)) with
  | Some opaque => Ret opaque
  | None => Panic
  end.

(** The runtime's view of an opaque extrinsic. *)
Definition from_opaque (opaque : bytes) : option (UncheckedExtrinsic P T) :=
  decode (encode_vec opaque).

(** The call of [extrinsic_filter] across the runtime's boundary: an extrinsic
    that does not decode traps. *)
Definition api_extrinsic_filter (xts_ready xts_future : list bytes) :
    result (list T * list T) Z :=
  match mapM from_opaque xts_ready, mapM from_opaque xts_future with
  | Some ready, Some future =>
      Ok (extrinsic_filter function ready, extrinsic_filter function future)
  | _, _ => Err 0
  end.

(** Extrinsics are encoded as vectors of bytes. *)
Context (payload : UncheckedExtrinsic P T → bytes).
Context (encode_payload : ∀ xt, encode xt = encode_vec (payload xt)).
Context (decode_encode_vec : ∀ v, decode_vec (encode_vec v) = Some v).

Lemma from_opaque_payload xt :
  decode (encode xt) = Some xt → from_opaque (payload xt) = Some xt.
Proof. unfold from_opaque. by rewrite <-encode_payload. Qed.

Lemma from_opaque_payloads xts :
  Forall (λ xt, decode (encode xt) = Some xt) xts →
  mapM from_opaque (payload <$> xts) = Some xts.
Proof.
  intros Hall. apply mapM_Some, Forall2_fmap_l, Forall_Forall2_diag.
  eapply Forall_impl; [exact Hall|]. intros xt. apply from_opaque_payload.
Qed.

(** The opaque extrinsic made of a transaction is its encoding's vector. *)
Lemma convert_opaque_payload t :
  convert_transaction_opaque t = Ret (payload (convert_transaction t)).
Proof. unfold convert_transaction_opaque. by rewrite encode_payload, decode_encode_vec. Qed.

End conversion.

(** ** Self-contained calls *)

Section self_contained.
Context {T World DispatchResult ValidityError Validity : Type}.
(** The Ethereum pallet's treatment of its call, and the dispatch of a call. *)
Context (eth_is_self_contained : T → bool).
Context (eth_check : T → option (result H160 ValidityError)).
Context (eth_validate : World → T → H160 → option Validity).
Context (eth_pre_dispatch : World → T → H160 → option (result unit ValidityError)).
Context (dispatch : World → RuntimeCall T → Origin → World * DispatchResult).

Definition is_self_contained (c : RuntimeCall T) : bool :=
  match c with CEthereum call => eth_is_self_contained call | _ => false end.
Definition check_self_contained (c : RuntimeCall T) : option (result H160 ValidityError) :=
  match c with CEthereum call => eth_check call | _ => None end.
Definition validate_self_contained (w : World) (c : RuntimeCall T) (info : H160) :
    option Validity :=
  match c with CEthereum call => eth_validate w call info | _ => None end.
Definition pre_dispatch_self_contained (w : World) (c : RuntimeCall T) (info : H160) :
    option (result unit ValidityError) :=
  match c with CEthereum call => eth_pre_dispatch w call info | _ => None end.
Definition apply_self_contained (w : World) (c : RuntimeCall T) (info : H160) :
    option (World * DispatchResult) :=
  match c with
  | CEthereum _ => Some (dispatch w c (EthereumTransaction info))
  | _ => None
  end.

End self_contained.

(** ** The path of an Ethereum transaction *)

Section submitted.
Context {P World DispatchResult ValidityError : Type}.
(** The codec reads back what it writes. *)
Context (encode : UncheckedExtrinsic P TransactionV2 → bytes).
Context (decode : bytes → option (UncheckedExtrinsic P TransactionV2)).
Context (encode_vec : bytes → bytes) (decode_vec : bytes → option bytes).
Context (payload : UncheckedExtrinsic P TransactionV2 → bytes).
Context (encode_payload : ∀ xt, encode xt = encode_vec (payload xt)).
Context (decode_encode_vec : ∀ v, decode_vec (encode_vec v) = Some v).
(** The Ethereum pallet treats its call as self-contained, and checks its signature and the
    state it is applied to. *)
Context (eth_is_self_contained : TransactionV2 → bool).
Context (eth_check : TransactionV2 → option (result H160 ValidityError)).
Context (eth_pre_dispatch :
  World → TransactionV2 → H160 → option (result unit ValidityError)).
Context (dispatch :
  World → RuntimeCall TransactionV2 → Origin → World * DispatchResult).
Context (transact_self_contained : ∀ t, eth_is_self_contained t = true).
Context (transact_checked : ∀ t, is_Some (eth_check t)).
Context (transact_pre : ∀ w t who, is_Some (eth_pre_dispatch w t who)).
(** The framework's extrinsics ([fp_self_contained]): the check and the application of an
    unsigned extrinsic whose call says it is self-contained use the operations of the
    call; an error of the call's checks makes the extrinsic invalid. *)
Context (apply : World → UncheckedExtrinsic P TransactionV2 →
  World * result DispatchResult ValidityError).
Abbreviation contained := (is_self_contained eth_is_self_contained).
Context (apply_checked : ∀ w c who r,
  contained c = true → check_self_contained eth_check c = Some (Ok who) →
  pre_dispatch_self_contained eth_pre_dispatch w c who = Some (Ok tt) →
  apply_self_contained dispatch w c who = Some r →
  apply w (new_unsigned c) = (r.1, Ok r.2)).
Context (apply_refused : ∀ w c who e,
  contained c = true → check_self_contained eth_check c = Some (Ok who) →
  pre_dispatch_self_contained eth_pre_dispatch w c who = Some (Err e) →
  apply w (new_unsigned c) = (w, Err e)).
Context (apply_invalid : ∀ w c e,
  contained c = true → check_self_contained eth_check c = Some (Err e) →
  apply w (new_unsigned c) = (w, Err e)).
Context (txn_hash : TransactionV2 → H256) (public_key : TransactionV2 → result bytes Z).
Context (keccak256 : bytes → H256).
Context (filter_v1 : list bytes → list bytes → result (list TxFields * list TxFields) Z).

(** What the runtime does with the extrinsic of a transaction. *)
Lemma transact_applied w t :
  apply w (convert_transaction t) =
  match eth_check t with
  | Some (Ok who) =>
      match eth_pre_dispatch w t who with
      | Some (Err e) => (w, Err e)
      | _ => let r := dispatch w (CEthereum t) (EthereumTransaction who) in (r.1, Ok r.2)
      end
  | Some (Err e) => (w, Err e)
  | None => apply w (convert_transaction t)
  end.
Proof.
  unfold convert_transaction. destruct (eth_check t) as [[who|e]|] eqn:Hc; [| |done].
  - destruct (transact_pre w t who) as [[[]|e] Hp]; rewrite Hp.
    + by apply (apply_checked w (CEthereum t) who); [apply transact_self_contained| |..].
    + by apply (apply_refused w (CEthereum t) who); [apply transact_self_contained|..].
  - by apply (apply_invalid w (CEthereum t)); [apply transact_self_contained|..].
Qed.

(** An origin of a transaction has none of the powers of governance. *)
Lemma transaction_powerless `{!EnsureOrigins} fast max_block who :
  Forall (λ p, p (EthereumTransaction who) = false)
    (OperationalPreimageOrigin (democracy_config fast) :: powers fast max_block).
Proof.
  constructor.
  - apply not_true_is_false. intros [? [=]]%EnsureMember_spec.
  - eapply Forall_impl; [apply powers_half|]. intros p Hp. apply not_true_is_false.
    intros Ht. by destruct (Hp (EthereumTransaction who) I Ht) as [[=]|(? & ? & [=] & _)].
Qed.

(** C15: an Ethereum transaction that the node converts to an opaque extrinsic and puts in
    the pool is shown by txpool_content with its sender and nonce, if no two Ethereum
    transactions of the pool have the same sender and nonce and the codec reads back the
    extrinsics of the pool.  The runtime decodes from it the transaction's own extrinsic.
    When the signature of the transaction is checked and its signer may send it, applying
    the extrinsic dispatches the transaction with the Ethereum origin of that signer;
    otherwise it is refused and the state is unchanged.  That origin has none of the powers
    of governance, and no other kind of call is self-contained. *)
Theorem ethereum_transaction_path `{!EnsureOrigins} fast max_block
    (xts : list (UncheckedExtrinsic P TransactionV2)) t :
  Forall (λ xt, decode (encode xt) = Some xt) xts →
  convert_transaction t ∈ xts →
  NoDup ((λ t, (from_address public_key keccak256 t, tx_nonce (tx_fields t))) <$>
    extrinsic_filter function xts) →
  ∃ opaque xt r,
    convert_transaction_opaque encode decode_vec t = Ret opaque ∧ opaque ∈ payload <$> xts ∧
    from_opaque decode encode_vec opaque = Some xt ∧
    txpool_content txn_hash public_key keccak256 (payload <$> xts) [] (Ok (Some 2)) filter_v1
      (api_extrinsic_filter decode encode_vec) = Ok r ∧
    map_at (pending r) (from_address public_key keccak256 t) (tx_nonce (tx_fields t)) =
      Some (get_t (txn_hash t) (from_address public_key keccak256 t) t) ∧
    (∀ w who, eth_check t = Some (Ok who) → eth_pre_dispatch w t who = Some (Ok tt) →
       let d := dispatch w (CEthereum t) (EthereumTransaction who) in
       apply w xt = (d.1, Ok d.2) ∧
       Forall (λ p, p (EthereumTransaction who) = false)
         (OperationalPreimageOrigin (democracy_config fast) :: powers fast max_block)) ∧
    (∀ w, (∀ who, eth_check t = Some (Ok who) → eth_pre_dispatch w t who ≠ Some (Ok tt)) →
       ∃ e, apply w xt = (w, Err e)) ∧
    (∀ c, contained c = true ↔ ∃ t, c = CEthereum t).
Proof.
  intros Hcodec Ht Hnd. pose proof (proj1 (Forall_forall _ _) Hcodec _ Ht) as Hdec.
  eexists _, (convert_transaction t), _.
  split; [by apply (convert_opaque_payload encode encode_vec)|].
  split; [by apply list_elem_of_fmap_2|].
  split; [by apply (from_opaque_payload encode)|]. split.
  { unfold txpool_content, map_build, ethereum_txns. cbn [Z.eqb]. simpl.
    unfold api_extrinsic_filter.
    by rewrite (from_opaque_payloads encode decode encode_vec payload encode_payload). }
  cbn [pending fst]. split; [|split; [|split]].
  - apply transaction_map_shown; [done|]. apply list_elem_of_omap.
    by exists (convert_transaction t).
  - intros w who Hc Hp. rewrite transact_applied, Hc, Hp.
    split; [done|apply transaction_powerless].
  - intros w Hno. rewrite transact_applied.
    destruct (transact_checked t) as [[who|e] Hc]; rewrite Hc in *; [|by exists e].
    destruct (transact_pre w t who) as [[[]|e] Hp]; rewrite Hp; [|by exists e].
    by destruct (Hno who).
  - intros c. split; [|by intros [u ->]; apply transact_self_contained].
    destruct c; try done. by eexists.
Qed.

End submitted.

(** ** Transactions the node signs *)

Section create_transaction.
Context {T Era Address Public Account Signature Additional : Type}.
Context (Era_mortal : Z → Z → Era).
(** The data a signature covers beside the call and its extensions, which may be
    unavailable; the bytes that are signed; the keystore. *)
Context (additional_signed : SignedExtra Era → option Additional).
Context (encode_payload : RuntimeCall T → SignedExtra Era → Additional → bytes).
Context (sign : bytes → Public → option Signature).
Context (unlookup : Account → Address).

(** [block_number] is the number of the block being built. *)
Definition create_transaction (block_number : Z) (call : RuntimeCall T) (public : Public)
    (account : Account) (nonce : Z) :
    option (RuntimeCall T * (Address * Signature * SignedExtra Era)) :=
  let tip := 0 in
  let period := transaction_period in
  let current_block := Z.max 0 (block_number - 1) in
  let era := Era_mortal period current_block in
  let extra := mkSignedExtra era nonce tip in
  additional ← additional_signed extra;
  signature ← sign (encode_payload call extra additional) public;
  Some (call, (unlookup account, signature, extra)).

(** The block an era starts at, for a block it is valid in: a mortal era whose
    period is a power of two of at most 4096 starts at the block it is made for. *)
Context (birth : Era → Z → Z).
Context (birth_mortal : ∀ k c n, 2 ≤ k ≤ 12 → 0 ≤ c → c ≤ n < c + 2 ^ k →
  birth (Era_mortal (2 ^ k) c) n = c).

(** What is signed is the call with the account's nonce and no tip; as long as the
    transaction is valid its first block's hash, which the signature covers, is
    among those the chain remembers. *)
Theorem create_transaction_valid block_number call public account nonce c a s extra n :
  0 < block_number →
  create_transaction block_number call public account nonce = Some (c, (a, s, extra)) →
  block_number - 1 ≤ n < block_number - 1 + transaction_period →
  c = call ∧ a = unlookup account ∧ CheckNonce extra = nonce ∧
  ChargeTransactionPayment extra = 0 ∧
  (∃ additional, additional_signed extra = Some additional ∧
     sign (encode_payload call extra additional) public = Some s) ∧
  birth (CheckEra extra) n = block_number - 1 ∧
  n - birth (CheckEra extra) n < BlockHashCount.
Proof.
  intros Hpos. unfold create_transaction.
  rewrite Z.max_r by lia. destruct transaction_period_known as [Hperiod [Hle _]].
  intros Hc Hn. rewrite bind_Some in Hc. destruct Hc as (additional & Had & Hc).
  rewrite bind_Some in Hc. destruct Hc as (sig & Hsig & [= <- <- <- <-]). simpl in *.
  rewrite Hperiod in *. rewrite birth_mortal by lia. split_and!; try done; [by eexists|].
  lia.
Qed.

End create_transaction.

(** ** The Ethereum API *)

(** The configuration of the EVM, of which the API changes one flag. *)
Record EvmConfig (Other : Type) := mkEvmConfig { estimate : bool; other : Other }.
Arguments mkEvmConfig {_}. Arguments estimate {_}. Arguments other {_}.

Definition low_u64 (x : U256) : Z := x mod 2 ^ 64.
Abbreviation AccessList := (list (H160 * list H256)).

Section ethereum_api.
Context {Other CallInfo CreateInfo RunnerError DispatchError : Type}.
Context (evm_config : EvmConfig Other).
Context (runner_call : H160 → H160 → bytes → U256 → Z → option U256 → option U256 →
  option U256 → AccessList → bool → EvmConfig Other → result CallInfo RunnerError).
Context (runner_create : H160 → bytes → U256 → Z → option U256 → option U256 →
  option U256 → AccessList → bool → EvmConfig Other → result CreateInfo RunnerError).
Context (into_dispatch_error : RunnerError → DispatchError).
Context (account_storages : H160 → H256 → H256).

Definition map_err {A E F} (f : E → F) (r : result A E) : result A F :=
  match r with Ok a => Ok a | Err e => Err (f e) end.

Definition call_config (est : bool) : option (EvmConfig Other) :=
  if est then Some (mkEvmConfig true (other evm_config)) else None.

Definition eth_call (from to : H160) (data : bytes) (value gas_limit : U256)
    (max_fee_per_gas max_priority_fee_per_gas nonce : option U256) (est : bool)
    (access_list : option AccessList) : result CallInfo DispatchError :=
  let config := call_config est in
  let is_transactional := false in
  map_err into_dispatch_error
    (runner_call from to data value (low_u64 gas_limit) max_fee_per_gas
       max_priority_fee_per_gas nonce (default [] access_list) is_transactional
       (default evm_config config)).

Definition eth_create (from : H160) (data : bytes) (value gas_limit : U256)
    (max_fee_per_gas max_priority_fee_per_gas nonce : option U256) (est : bool)
    (access_list : option AccessList) : result CreateInfo DispatchError :=
  let config := call_config est in
  let is_transactional := false in
  map_err into_dispatch_error
    (runner_create from data value (low_u64 gas_limit) max_fee_per_gas
       max_priority_fee_per_gas nonce (default [] access_list) is_transactional
       (default evm_config config)).

Definition storage_at (address : H160) (index : U256) : H256 :=
  account_storages address (H256_from_slice (be_bytes 32 index)).

(** A call with a gas limit of more than 64 bits runs with the low ones: the limit
    2^64 is a limit of zero. *)
Lemma eth_call_gas_wraps from to data value k gas f p n est al :
  eth_call from to data value (gas + k * 2 ^ 64) f p n est al =
  eth_call from to data value gas f p n est al.
Proof. unfold eth_call, low_u64. by rewrite Z.mod_add. Qed.

Lemma from_slice_be_bytes n z : H256_from_slice (be_bytes n z) = z mod 256 ^ Z.of_nat n.
Proof.
  revert z. induction n as [|n IH]; intros z.
  { by rewrite Z.mod_1_r. }
  simpl be_bytes. unfold H256_from_slice. rewrite foldl_app.
  change (foldl _ 0 (be_bytes n (z / 256))) with (H256_from_slice (be_bytes n (z / 256))).
  rewrite IH. simpl.
  assert (byte_val (byte_of_Z z) = z mod 256) as ->.
  { pose proof (Z.mod_pos_bound z 256 ltac:(lia)). unfold byte_of_Z, byte_val.
    destruct (Byte.of_N (Z.to_N (z mod 256))) as [b|] eqn:Hb; simpl.
    - apply Byte.to_of_N in Hb. rewrite Hb, Z2N.id by lia. done.
    - apply Byte.of_N_None_iff in Hb. lia. }
  rewrite Nat2Z.inj_succ, Z.pow_succ_r by lia.
  rewrite Z.rem_mul_r by lia. lia.
Qed.

(** A slot of storage is read at its index. *)
Lemma storage_at_index address index :
  0 ≤ index < 2 ^ 256 → storage_at address index = account_storages address index.
Proof.
  intros Hi. unfold storage_at. rewrite from_slice_be_bytes. f_equal. by apply Z.mod_small.
Qed.

End ethereum_api.

(** ** Proofs of key ownership *)

Section key_ownership.
Context {AuthorityId KeyOwnerProof Equivocation : Type}.
(** [Historical::prove] for the keys of Grandpa, the codec, and the report. *)
Context (prove : AuthorityId → option KeyOwnerProof).
Context (encode_proof : KeyOwnerProof → bytes) (decode_proof : bytes → option KeyOwnerProof).
Context (submit_unsigned_equivocation_report : Equivocation → KeyOwnerProof → option unit).

Definition generate_key_ownership_proof (authority_id : AuthorityId) : option bytes :=
  encode_proof <$> prove authority_id.

Definition submit_report_equivocation_unsigned_extrinsic (e : Equivocation)
    (key_owner_proof : bytes) : option unit :=
  p ← decode_proof key_owner_proof;
  submit_unsigned_equivocation_report e p.

(** A report with a generated proof is submitted with the proof of the key. *)
Lemma report_generated_proof e id opaque :
  (∀ p, decode_proof (encode_proof p) = Some p) →
  generate_key_ownership_proof id = Some opaque →
  ∃ p, prove id = Some p ∧
    submit_report_equivocation_unsigned_extrinsic e opaque =
    submit_unsigned_equivocation_report e p.
Proof.
  intros Hcodec. unfold generate_key_ownership_proof.
  rewrite fmap_Some. intros (p & Hp & ->). exists p. split; [done|].
  unfold submit_report_equivocation_unsigned_extrinsic. by rewrite Hcodec.
Qed.

End key_ownership.

(** ** Witness *)

Module EthereumExample.
Abbreviation Xt := (UncheckedExtrinsic unit TransactionV2).
Definition tx : TransactionV2 := TxPoolExample.tx 4 10.
(** A pool with the transaction and a transfer. *)
Definition pool : list Xt := [convert_transaction tx; mkUnchecked (Some tt) CBalances].
Definition payload (xt : Xt) : bytes :=
  match function xt with CEthereum _ => [Byte.x21] | _ => [Byte.x06] end.
Definition encode_vec (v : bytes) : bytes := Byte.x04 :: v.
Definition decode_vec (b : bytes) : option bytes := Some (drop 1 b).
Definition encode (xt : Xt) : bytes := encode_vec (payload xt).
Definition decode (b : bytes) : option Xt :=
  if decide (b = [Byte.x04; Byte.x21]) then Some (convert_transaction tx)
  else Some (mkUnchecked (Some tt) CBalances).
Definition self_contained (t : TransactionV2) : bool := true.
Definition check (t : TransactionV2) : option (result H160 Z) := Some (Ok 0xA0).
Definition pre_dispatch (w : Z) (t : TransactionV2) (who : H160) : option (result unit Z) :=
  Some (if w <? 100 then Ok tt else Err 1).
Definition dispatch (w : Z) (c : RuntimeCall TransactionV2) (o : Origin) : Z * option Origin :=
  (w + 1, Some o).
Definition apply (w : Z) (xt : Xt) : Z * result (option Origin) Z :=
  match check_self_contained check (function xt) with
  | Some (Ok who) =>
      match pre_dispatch_self_contained pre_dispatch w (function xt) who,
            apply_self_contained dispatch w (function xt) who with
      | Some (Ok _), Some r => (r.1, Ok r.2)
      | Some (Err e), _ => (w, Err e)
      | _, _ => (w, Err 2)
      end
  | Some (Err e) => (w, Err e)
  | None => (w, Err 2)
  end.
Lemma apply_checked w c who r :
  is_self_contained self_contained c = true → check_self_contained check c = Some (Ok who) →
  pre_dispatch_self_contained pre_dispatch w c who = Some (Ok tt) →
  apply_self_contained dispatch w c who = Some r → apply w (new_unsigned c) = (r.1, Ok r.2).
Proof. intros _ Hc Hp Ha. unfold apply. simpl. by rewrite Hc, Hp, Ha. Qed.
Lemma apply_refused w c who e :
  is_self_contained self_contained c = true → check_self_contained check c = Some (Ok who) →
  pre_dispatch_self_contained pre_dispatch w c who = Some (Err e) →
  apply w (new_unsigned c) = (w, Err e).
Proof. intros _ Hc Hp. unfold apply. simpl. by rewrite Hc, Hp. Qed.
Lemma apply_invalid w c e :
  is_self_contained self_contained c = true → check_self_contained check c = Some (Err e) →
  apply w (new_unsigned c) = (w, Err e).
Proof. intros _ Hc. unfold apply. simpl. by rewrite Hc. Qed.
Definition filter_v1 (ready future : list bytes) : result (list TxFields * list TxFields) Z :=
  Err 0.
End EthereumExample.

Lemma ethereum_transaction_path_witness :
  ∃ opaque xt r,
    convert_transaction_opaque EthereumExample.encode EthereumExample.decode_vec
      EthereumExample.tx = Ret opaque ∧
    txpool_content TxPoolExample.hash TxPoolExample.key TxPoolExample.keccak
      (EthereumExample.payload <$> EthereumExample.pool) [] (Ok (Some 2))
      EthereumExample.filter_v1
      (api_extrinsic_filter EthereumExample.decode EthereumExample.encode_vec) = Ok r ∧
    is_Some (map_at (pending r) 0xA0 4) ∧
    EthereumExample.apply 7 xt = (8, Ok (Some (EthereumTransaction 0xA0))) ∧
    ∃ e, EthereumExample.apply 100 xt = (100, Err e).
Proof.
  destruct (ethereum_transaction_path EthereumExample.encode EthereumExample.decode
    EthereumExample.encode_vec EthereumExample.decode_vec EthereumExample.payload
    (λ _, eq_refl) (λ _, eq_refl) EthereumExample.self_contained EthereumExample.check
    EthereumExample.pre_dispatch EthereumExample.dispatch (λ _, eq_refl)
    (λ _, mk_is_Some _ _ eq_refl) (λ _ _ _, mk_is_Some _ _ eq_refl) EthereumExample.apply
    EthereumExample.apply_checked EthereumExample.apply_refused EthereumExample.apply_invalid
    TxPoolExample.hash TxPoolExample.key TxPoolExample.keccak EthereumExample.filter_v1
    false 0 EthereumExample.pool EthereumExample.tx)
    as (opaque & xt & r & Hc & _ & _ & Hr & Hat & Happ & Href & _).
  - repeat constructor.
  - left.
  - apply (bool_decide_unpack _). vm_compute. exact I.
  - exists opaque, xt, r. split; [exact Hc|]. split; [exact Hr|].
    split; [exact (mk_is_Some _ _ Hat)|].
    split; [exact (proj1 (Happ 7 0xA0 eq_refl eq_refl))|].
    apply (Href 100). intros who _. discriminate.
Defined.
