(* ===== verification/RuntimeApis.v ===== *)
(** * The runtime APIs that forward to the pallets: node/runtime/src/lib.rs

    The implementations of [impl_runtime_apis!] that call one function of a pallet, one
    inductive type of calls and one interpreter per API, over the state of the chain; the
    benchmarks, the versions, and the executor that answers for the runtime
    (node/executor/src/lib.rs).  The pallets are parameters. *)

From stdpp Require Import base tactics list gmap strings.
From Stdlib Require Import ZArith Lia Strings.Byte.
From S2P Require Import Prelude EvmEvents TraceTypes Aura AuraNode Bags Runtime RuntimeConfig.
From S2P Require Import RuntimeApi TxPool EthereumApi.
Local Open Scope Z_scope.

(** A call of an API runs on the state, which a read leaves as it is. *)
Abbreviation rt W R := (W → outcome (W * R)).
Definition reads {W R} (f : W → R) : rt W R := λ w, Ret (w, f w).
Definition writes_ {W R} (f : W → W * R) : rt W R := λ w, Ret (f w).

(** ** The pallets *)

Section apis.
Context {W Block Header Xt : Type}.
Context {ApplyResult Validity InherentData CheckInherentsResult : Type}.
Context (beresheet : bool).

(** [frame_executive::Executive] and the inherents of the runtime. *)
Record Executive := mkExecutive {
  ex_execute_block : W → Block → outcome W;
  ex_initialize_block : W → Header → W;
  ex_apply_extrinsic : W → Xt → W * ApplyResult;
  ex_finalize_block : W → W * Header;
  ex_validate_transaction : W → Z → Xt → H256 → Validity;
  ex_offchain_worker : W → Header → W;
  create_extrinsics : W → InherentData → list Xt;
  check_extrinsics : W → InherentData → Block → CheckInherentsResult;
}.
Context (executive : Executive).

(** ** Blocks *)

Inductive CoreApi : Type → Type :=
| Core_version : CoreApi RuntimeVersion
| Core_execute_block (block : Block) : CoreApi unit
| Core_initialize_block (header : Header) : CoreApi unit.

Definition core_api {R} (m : CoreApi R) : rt W R :=
  match m with
  | Core_version => reads (λ _, VERSION beresheet)
  | Core_execute_block block => λ w, w ← ex_execute_block executive w block; Ret (w, tt)
  | Core_initialize_block header => writes_ (λ w, (ex_initialize_block executive w header, tt))
  end.

Inductive BlockBuilderApi : Type → Type :=
| BlockBuilder_apply_extrinsic (extrinsic : Xt) : BlockBuilderApi ApplyResult
| BlockBuilder_finalize_block : BlockBuilderApi Header
| BlockBuilder_inherent_extrinsics (data : InherentData) : BlockBuilderApi (list Xt)
| BlockBuilder_check_inherents (block : Block) (data : InherentData) :
    BlockBuilderApi CheckInherentsResult.

Definition block_builder_api {R} (m : BlockBuilderApi R) : rt W R :=
  match m with
  | BlockBuilder_apply_extrinsic extrinsic =>
      writes_ (λ w, ex_apply_extrinsic executive w extrinsic)
  | BlockBuilder_finalize_block => writes_ (ex_finalize_block executive)
  | BlockBuilder_inherent_extrinsics data => reads (λ w, create_extrinsics executive w data)
  | BlockBuilder_check_inherents block data =>
      reads (λ w, check_extrinsics executive w data block)
  end.

Inductive QueueApi : Type → Type :=
| validate_transaction (source : Z) (tx : Xt) (block_hash : H256) : QueueApi Validity.
Definition tagged_transaction_queue_api {R} (m : QueueApi R) : rt W R :=
  match m with
  | validate_transaction source tx block_hash =>
      reads (λ w, ex_validate_transaction executive w source tx block_hash)
  end.

Inductive OffchainApi : Type → Type := offchain_worker (header : Header) : OffchainApi unit.
Definition offchain_api {R} (m : OffchainApi R) : rt W R :=
  match m with
  | offchain_worker header => writes_ (λ w, (ex_offchain_worker executive w header, tt))
  end.

(** [Runtime::metadata()], opaque. *)
Context (runtime_metadata : bytes).
Inductive MetadataApi : Type → Type := metadata : MetadataApi bytes.
Definition metadata_api {R} (m : MetadataApi R) : rt W R :=
  match m with metadata => reads (λ _, runtime_metadata) end.

(** ** Consensus *)

Context {AuraId GrandpaId DiscoveryId AccountId : Type}.

Record ConsensusPallets := mkConsensusPallets {
  grandpa_authority_list : W → list (GrandpaId * Z);
  grandpa_set_id : W → Z;
  aura_slot_duration : W → Z;
  aura_authorities : W → list AuraId;
  discovery_authorities : W → list DiscoveryId;
  system_account_nonce : W → AccountId → Z;
  session_generate : W → option bytes → W * bytes;
  session_decode : bytes → option (list (bytes * Z));
}.
Context (pallets : ConsensusPallets).

Inductive GrandpaApi : Type → Type :=
| grandpa_authorities : GrandpaApi (list (GrandpaId * Z))
| current_set_id : GrandpaApi Z.
Definition grandpa_api {R} (m : GrandpaApi R) : rt W R :=
  match m with
  | grandpa_authorities => reads (grandpa_authority_list pallets)
  | current_set_id => reads (grandpa_set_id pallets)
  end.

(** [SlotDuration::from_millis] keeps the milliseconds. *)
Inductive AuraApi : Type → Type :=
| Aura_slot_duration : AuraApi Z
| Aura_authorities : AuraApi (list AuraId).
Definition aura_api {R} (m : AuraApi R) : rt W R :=
  match m with
  | Aura_slot_duration => reads (aura_slot_duration pallets)
  | Aura_authorities => reads (aura_authorities pallets)
  end.

Inductive AccountsApi : Type → Type :=
| authority_discovery_authorities : AccountsApi (list DiscoveryId)
| account_nonce (account : AccountId) : AccountsApi Z.
Definition accounts_api {R} (m : AccountsApi R) : rt W R :=
  match m with
  | authority_discovery_authorities => reads (discovery_authorities pallets)
  | account_nonce account => reads (λ w, system_account_nonce pallets w account)
  end.

Inductive SessionKeysApi : Type → Type :=
| generate_session_keys (seed : option bytes) : SessionKeysApi bytes
| decode_session_keys (encoded : bytes) : SessionKeysApi (option (list (bytes * Z))).
Definition session_keys_api {R} (m : SessionKeysApi R) : rt W R :=
  match m with
  | generate_session_keys seed => writes_ (λ w, session_generate pallets w seed)
  | decode_session_keys encoded => reads (λ _, session_decode pallets encoded)
  end.

(** ** Contracts and payment *)

Context {Balance Code ExecResult InstantiateResult UploadResult StorageResult : Type}.
Context {DispatchInfo FeeDetails : Type}.

Record ContractsPallets := mkContractsPallets {
  bare_call : W → AccountId → AccountId → Balance → Z → option Balance → bytes → bool →
              W * ExecResult;
  bare_instantiate : W → AccountId → Balance → Z → option Balance → Code → bytes → bytes →
                     bool → W * InstantiateResult;
  bare_upload_code : W → AccountId → bytes → option Balance → W * UploadResult;
  contract_storage : W → AccountId → bytes → StorageResult;
  payment_query_info : W → Xt → Z → DispatchInfo;
  payment_query_fee_details : W → Xt → Z → FeeDetails;
}.
Context (contracts : ContractsPallets).

Inductive ContractsApi : Type → Type :=
| Contracts_call (origin dest : AccountId) (value : Balance) (gas_limit : Z)
    (storage_deposit_limit : option Balance) (input_data : bytes) : ContractsApi ExecResult
| Contracts_instantiate (origin : AccountId) (value : Balance) (gas_limit : Z)
    (storage_deposit_limit : option Balance) (code : Code) (data salt : bytes) :
    ContractsApi InstantiateResult
| Contracts_upload_code (origin : AccountId) (code : bytes)
    (storage_deposit_limit : option Balance) : ContractsApi UploadResult
| Contracts_get_storage (address : AccountId) (key : bytes) : ContractsApi StorageResult.

(** Calls and instantiations collect debug messages. *)
Definition contracts_api {R} (m : ContractsApi R) : rt W R :=
  match m with
  | Contracts_call origin dest value gas_limit deposit input_data =>
      writes_ (λ w, bare_call contracts w origin dest value gas_limit deposit input_data true)
  | Contracts_instantiate origin value gas_limit deposit code data salt =>
      writes_ (λ w, bare_instantiate contracts w origin value gas_limit deposit code data
                      salt true)
  | Contracts_upload_code origin code deposit =>
      writes_ (λ w, bare_upload_code contracts w origin code deposit)
  | Contracts_get_storage address key => reads (λ w, contract_storage contracts w address key)
  end.

Inductive PaymentApi : Type → Type :=
| query_info (uxt : Xt) (len : Z) : PaymentApi DispatchInfo
| query_fee_details (uxt : Xt) (len : Z) : PaymentApi FeeDetails.
Definition transaction_payment_api {R} (m : PaymentApi R) : rt W R :=
  match m with
  | query_info uxt len => reads (λ w, payment_query_info contracts w uxt len)
  | query_fee_details uxt len => reads (λ w, payment_query_fee_details contracts w uxt len)
  end.

(** ** What the APIs show of Ethereum *)

Context {T EvmAccount EthBlock Receipt Status : Type}.
Context (xt_function : Xt → RuntimeCall T) (unsigned : RuntimeCall T → Xt).

Record EthereumPallets := mkEthereumPallets {
  evm_account_basic : W → H160 → EvmAccount;
  fee_min_gas_price : W → U256;
  evm_account_codes : W → H160 → bytes;
  evm_find_author : W → H160;
  eth_current_transaction_statuses : W → option (list Status);
  eth_current_block : W → option EthBlock;
  eth_current_receipts : W → option (list Receipt);
  base_fee_elasticity : W → Z;
}.
Context (ethereum : EthereumPallets).

(** Accounts and fees. *)
Inductive EthAccountsApi : Type → Type :=
| chain_id : EthAccountsApi Z
| account_basic (address : H160) : EthAccountsApi EvmAccount
| gas_price : EthAccountsApi U256
| account_code_at (address : H160) : EthAccountsApi bytes
| author : EthAccountsApi H160.
Definition ethereum_accounts_api {R} (m : EthAccountsApi R) : rt W R :=
  match m with
  | chain_id => reads (λ _, EthChainId beresheet)
  | account_basic address => reads (λ w, evm_account_basic ethereum w address)
  | gas_price => reads (fee_min_gas_price ethereum)
  | account_code_at address => reads (λ w, evm_account_codes ethereum w address)
  | author => reads (evm_find_author ethereum)
  end.

(** The current block, and the transactions of extrinsics. *)
Inductive EthBlockApi : Type → Type :=
| current_transaction_statuses : EthBlockApi (option (list Status))
| current_block : EthBlockApi (option EthBlock)
| current_receipts : EthBlockApi (option (list Receipt))
| current_all : EthBlockApi (option EthBlock * option (list Receipt) * option (list Status))
| eth_extrinsic_filter (xts : list Xt) : EthBlockApi (list T)
| elasticity : EthBlockApi (option Z).
Definition ethereum_block_api {R} (m : EthBlockApi R) : rt W R :=
  match m with
  | current_transaction_statuses => reads (eth_current_transaction_statuses ethereum)
  | current_block => reads (eth_current_block ethereum)
  | current_receipts => reads (eth_current_receipts ethereum)
  | current_all =>
      reads (λ w, (eth_current_block ethereum w, eth_current_receipts ethereum w,
                   eth_current_transaction_statuses ethereum w))
  | eth_extrinsic_filter xts => reads (λ _, extrinsic_filter xt_function xts)
  | elasticity => reads (λ w, Some (base_fee_elasticity ethereum w))
  end.

(** [ConvertTransactionRuntimeApi] *)
Inductive ConvertApi : Type → Type := api_convert (transaction : T) : ConvertApi Xt.
Definition convert_api {R} (m : ConvertApi R) : rt W R :=
  match m with
  | api_convert transaction => reads (λ _, unsigned (CEthereum transaction))
  end.

(** ** Building and executing a block *)

(** The blocks of the runtime: a header and extrinsics. *)
Context (mk_block : Header → list Xt → Block).
Context `{!EqDecision Header}.
(** Whether an extrinsic was included. *)
Context (included : ApplyResult → bool).
(** What the initialisation takes of a header: parent, number and the digests the author
    put in before execution. *)
Context {Initial : Type} (initial : Header → Initial).

Fixpoint execute_extrinsics (w : W) (xts : list Xt) : outcome W :=
  match xts with
  | [] => Ret w
  | xt :: xts =>
      let '(w, r) := ex_apply_extrinsic executive w xt in
      if included r then execute_extrinsics w xts else Panic
  end.

(** What [frame_executive] documents: executing a block initialises it, applies its
    extrinsics, which may not fail, and finalizes it, and the header must be the one the
    block has; the initialisation takes only its part of the header, and finalizing
    gives that part back. *)
Record executive_laws : Prop := {
  execute_is w h xts :
    ex_execute_block executive w (mk_block h xts) =
    (w ← execute_extrinsics (ex_initialize_block executive w h) xts;
     let '(w, h') := ex_finalize_block executive w in
     if decide (h' = h) then Ret w else Panic);
  initialize_initial w h h' :
    initial h = initial h' → ex_initialize_block executive w h = ex_initialize_block executive w h';
  finalize_initial w h xts w' :
    execute_extrinsics (ex_initialize_block executive w h) xts = Ret w' →
    initial (ex_finalize_block executive w').2 = initial h;
}.

(** An author: initialise, apply the extrinsics that are included, finalize. *)
Fixpoint author_extrinsics (w : W) (xts : list Xt) : outcome (W * list Xt) :=
  match xts with
  | [] => Ret (w, [])
  | xt :: xts =>
      '(w', r) ← block_builder_api (BlockBuilder_apply_extrinsic xt) w;
      if included r then '(w', l) ← author_extrinsics w' xts; Ret (w', xt :: l)
      else author_extrinsics w xts
  end.
Definition author_block (w : W) (h : Header) (xts : list Xt) : outcome (W * Block) :=
  '(w, _) ← core_api (Core_initialize_block h) w;
  '(w, l) ← author_extrinsics w xts;
  '(w, h) ← block_builder_api BlockBuilder_finalize_block w;
  Ret (w, mk_block h l).

Lemma author_extrinsics_execute w xts :
  ∃ w' l, author_extrinsics w xts = Ret (w', l) ∧ execute_extrinsics w l = Ret w' ∧
    l `sublist_of` xts.
Proof.
  revert w. induction xts as [|xt xts IH]; intros w; [by eexists _, _|].
  cbn [author_extrinsics block_builder_api]. unfold writes_.
  destruct (ex_apply_extrinsic executive w xt) as [w1 r] eqn:Hx. cbn [mbind outcome_bind].
  destruct (included r) eqn:Hr.
  - destruct (IH w1) as (w' & l & -> & Hl & Hsub). exists w', (xt :: l). split; [done|].
    simpl. rewrite Hx, Hr. split; [done|]. by constructor.
  - destruct (IH w) as (w' & l & -> & Hl & Hsub). exists w', l. split; [done|].
    split; [done|]. by constructor.
Qed.

(** Through the runtime's APIs a node always builds a block, of some of the extrinsics it
    was offered in their order; another node that has the same parent state executes the
    block without a panic and ends in the same state; and the block with another header in
    place of the one it was finalized with, for the same parent, number and author's
    digests, is refused. *)
Theorem built_block_executes w h xts :
  executive_laws →
  ∃ w' h' l, author_block w h xts = Ret (w', mk_block h' l) ∧ l `sublist_of` xts ∧
    core_api (Core_execute_block (mk_block h' l)) w = Ret (w', tt) ∧
    ∀ h2, initial h2 = initial h' → h2 ≠ h' →
      core_api (Core_execute_block (mk_block h2 l)) w = Panic.
Proof.
  intros [Hexec Hinit Hfin].
  destruct (author_extrinsics_execute (ex_initialize_block executive w h) xts)
    as (w1 & l & Hrun & Hl & Hsub).
  destruct (ex_finalize_block executive w1) as [w' h'] eqn:Hf.
  pose proof (Hfin _ _ _ _ Hl) as Hi. rewrite Hf in Hi. cbn [snd] in Hi.
  exists w', h', l. split.
  { unfold author_block. cbn [core_api block_builder_api]. unfold writes_.
    cbn [mbind outcome_bind]. rewrite Hrun. cbn [mbind outcome_bind]. by rewrite Hf. }
  split; [done|]. cbn [core_api]. rewrite Hexec, (Hinit w h' h Hi), Hl.
  cbn [mbind outcome_bind]. rewrite Hf, decide_True by done. split; [done|].
  intros h2 Hh2 Hne. rewrite Hexec, (Hinit w h2 h) by congruence. rewrite Hl.
  cbn [mbind outcome_bind]. by rewrite Hf, decide_False.
Qed.

(** ** The views agree *)

(** The current block, its receipts and its statuses together are the answers of the single
    calls; converting a transaction gives an extrinsic in which the filter of the Ethereum
    API and that of the transaction pool find it; and the replay of a block for tracing
    runs the known ones of the transactions the filter finds, in their order. *)
Lemma ethereum_views_agree w known {WT : Type} (wt : WT) apply traced keccak_rlp xts t :
  (∀ c, xt_function (unsigned c) = c) →
  (∃ b r s, ethereum_block_api current_block w = Ret (w, b) ∧
     ethereum_block_api current_receipts w = Ret (w, r) ∧
     ethereum_block_api current_transaction_statuses w = Ret (w, s) ∧
     ethereum_block_api current_all w = Ret (w, (b, r, s))) ∧
  (∃ xt, convert_api (api_convert t) w = Ret (w, xt) ∧
     ethereum_block_api (eth_extrinsic_filter [xt]) w = Ret (w, [t]) ∧
     extrinsic_filter xt_function [xt] = [t]) ∧
  (∃ ts, ethereum_block_api (eth_extrinsic_filter xts) w = Ret (w, ts) ∧
     (traced_events xt_function keccak_rlp apply traced wt xts known).*1 =
     filter (λ t, keccak_rlp t ∈ known) ts).
Proof.
  intros Hun. split_and!.
  - by eexists _, _, _.
  - eexists. split; [done|]. cbn [ethereum_block_api]. unfold reads, extrinsic_filter. simpl.
    by rewrite Hun.
  - eexists. split; [done|]. apply traced_events_filter.
Qed.

(** [pallet_aura] doubles the minimum period between two timestamps, which the runtime sets to half a
    slot: the API tells the nodes the slot duration of the constants. *)
Lemma runtime_slot_duration w :
  (∀ w, aura_slot_duration pallets w = saturating_mul 64 MinimumPeriod 2) →
  aura_api Aura_slot_duration w = Ret (w, SLOT_DURATION) ∧ SLOT_DURATION = 6000.
Proof. intros Hd. cbn [aura_api]. unfold reads. by rewrite Hd. Qed.

End apis.

(** ** Benchmarks *)

Section benchmarks.
Context {Config Batch Entry StorageInfo : Type}.
(** The benchmarks of the system pallet: none when the configuration asks for another one. *)
Context (system_list : bool → list Entry) (all_storage_info : list StorageInfo).
Context (system_benchmark : Config → list Z → result (list Batch) string).

Definition benchmark_metadata (extra : bool) : list Entry * list StorageInfo :=
  let list := [] ++ system_list extra in
  let storage_info := all_storage_info in
  (list, storage_info).

(** The keys that are not counted: block number, total issuance, execution phase, number of
    events, events. *)
Definition benchmark_whitelist : list Z := [
  0x26aa394eea5630e07c48ae0c9558cef702a5c1b19ab7a04f536c519aca4983ac;
  0xc2261276cc9d1f8598ea4b6a74b15c2f57c875e4cff74148e4628f264b974c80;
  0x26aa394eea5630e07c48ae0c9558cef7ff553b5a9862a516939d82b3d3d8661a;
  0x26aa394eea5630e07c48ae0c9558cef70a98fdbe9ce6c55837576c60c7af3850;
  0x26aa394eea5630e07c48ae0c9558cef780d41e5e16056765bc8461851072c9d7 ].

Definition dispatch_benchmark (config : Config) : result (list Batch) string :=
  batches ←? system_benchmark config benchmark_whitelist;
  if decide (length batches = 0%nat) then Err "Benchmark not found for this pallet."%string
  else Ok batches.

(** A run of the benchmarks is never empty; the keys of the white list are different, and all
    but the total issuance are of one pallet. *)
Lemma dispatch_benchmark_runs config batches :
  dispatch_benchmark config = Ok batches →
  batches ≠ [] ∧ system_benchmark config benchmark_whitelist = Ok batches ∧
  NoDup benchmark_whitelist ∧
  length (filter (λ k, k `div` (2 ^ 128) = 0x26aa394eea5630e07c48ae0c9558cef7)
            benchmark_whitelist) = 4%nat.
Proof.
  unfold dispatch_benchmark. destruct (system_benchmark _ _) as [l|e]; [|done].
  case_decide; [done|]. intros [= <-]. split; [by intros ->|]. split; [done|].
  split; [|done]. apply (bool_decide_unpack _). vm_compute. exact I.
Qed.

End benchmarks.

(** ** The native runtime and its executor *)

Record NativeVersion := mkNativeVersion {
  runtime_version : RuntimeVersion;
  can_author_with : list Z;
}.
Definition native_version (beresheet : bool) : NativeVersion :=
  mkNativeVersion (VERSION beresheet) [].

(** [WASM_BINARY] is missing from a build that skips it. *)
Definition wasm_binary_unwrap (wasm_binary : option bytes) : outcome bytes :=
  match wasm_binary with Some code => Ret code | None => Panic end.

Inductive HostFunctions := Benchmarking | Storage.

(** [NativeExecutionDispatch] *)
Record NativeExecutionDispatch := mkNativeExecutionDispatch {
  ExtendHostFunctions : list HostFunctions;
  ex_dispatch : string → bytes → option bytes;
  ex_native_version : NativeVersion;
}.
Definition EdgewareExecutor (beresheet : bool) (api_dispatch : string → bytes → option bytes) :
    NativeExecutionDispatch := {|
  ExtendHostFunctions := [Benchmarking; Storage];
  ex_dispatch := λ method data, api_dispatch method data;
  ex_native_version := native_version beresheet |}.

(** ** Nodes of this runtime *)

Section node.
Context {W AuraId GrandpaId DiscoveryId AccountId : Type}.
Context {DigestItem AuthorityId Extrinsic InherentData : Type}.
Context (pallets : @ConsensusPallets W AuraId GrandpaId DiscoveryId AccountId).
Context (state_at : H256 → W).

(** A node whose client calls this runtime at its best block takes the slot duration of the
    constants, for its worker and its import queue alike. *)
Lemma node_slot_duration (c : @Client DigestItem AuthorityId Extrinsic InherentData) :
  (∀ w, aura_slot_duration pallets w = saturating_mul 64 MinimumPeriod 2) →
  (∀ h, api_slot_duration c h =
     match aura_api pallets Aura_slot_duration (state_at h) with
     | Ret (_, d) => Ok d
     | Panic => Err 0
     end) →
  slot_duration c = Ok SLOT_DURATION.
Proof.
  intros Hd Hc. unfold slot_duration. rewrite Hc.
  by rewrite (proj1 (runtime_slot_duration _ (state_at (best_hash c)) Hd)).
Qed.
End node.

(** ** Witness: a state of a number and a log, with headers of a number and a checksum *)

Module ExecutiveExample.
Abbreviation State := (Z * list Z)%type.
Definition initialize (w : State) (h : Z * Z) : State := (h.1, w.2).
Definition apply (w : State) (xt : Z) : State * bool :=
  if xt <? 0 then (w, false) else ((w.1, xt :: w.2), true).
Definition finalize (w : State) : State * (Z * Z) := (w, (w.1, foldr Z.add 0 w.2)).
Fixpoint run (w : State) (xts : list Z) : outcome State :=
  match xts with
  | [] => Ret w
  | xt :: xts => let '(w, r) := apply w xt in if r then run w xts else Panic
  end.
Definition execute (w : State) (b : (Z * Z) * list Z) : outcome State :=
  w ← run (initialize w b.1) b.2;
  let '(w, h) := finalize w in if decide (h = b.1) then Ret w else Panic.
Definition executive : @Executive State ((Z * Z) * list Z) (Z * Z) Z bool Z Z bool :=
  mkExecutive execute initialize apply finalize (λ _ _ x _, x) (λ w _, w) (λ _ d, [d])
    (λ _ _ _, true).

Lemma run_number w xts w' : run w xts = Ret w' → w'.1 = w.1.
Proof.
  revert w. induction xts as [|xt xts IH]; intros w; simpl; [by intros [= <-]|].
  unfold apply. destruct (xt <? 0); [done|]. by intros ->%IH.
Qed.
Lemma run_execute w xts : execute_extrinsics executive id w xts = run w xts.
Proof.
  revert w. induction xts as [|xt xts IH]; intros w; [done|]. cbn. unfold apply.
  destruct (xt <? 0); [done|]. apply IH.
Qed.
Lemma example_laws : executive_laws executive pair id fst.
Proof.
  split.
  - intros w h xts. rewrite run_execute. done.
  - intros w h h' Hh. cbn in *. unfold initialize. by rewrite Hh.
  - intros w h xts w'. rewrite run_execute. intros Hrun%run_number. exact Hrun.
Qed.
End ExecutiveExample.

Lemma built_block_executes_witness :
  ∃ w h l, author_block (ApplyResult := bool) false ExecutiveExample.executive pair id
      (0, [10]) (1, 0) [2; -1; 3] = Ret (w, (h, l)) ∧ l `sublist_of` [2; -1; 3] ∧
    core_api false ExecutiveExample.executive (Core_execute_block (h, l)) (0, [10]) =
      Ret (w, tt).
Proof.
  destruct (built_block_executes false ExecutiveExample.executive pair id fst
    (0, [10]) (1, 0) [2; -1; 3] ExecutiveExample.example_laws) as (w & h & l & Ha & Hl & He & _).
  exists w, h, l. split; [exact Ha|]. split; [exact Hl|exact He].
Defined.
