(* ===== verification/Fixtures.v ===== *)
(** * The constants of the networks: node/cli/src/mainnet_fixtures.rs, testnet_fixtures.rs

    The bootnodes, the founders' allocation, the first validators and the keys of the
    main network and of the test network Beresheet.  An account and a key are the number
    their 32 bytes are the big-endian form of.  The parsing of addresses and of keys in the
    form of SS58 is the framework's and fails by a panic. *)

From stdpp Require Import base tactics list strings.
From Stdlib Require Import ZArith Lia Strings.Byte.
From S2P Require Import Prelude.
Local Open Scope Z_scope.

Abbreviation AccountId := Z (only parsing).

(** The session keys of an authority: [session_keys] of chain_spec.rs. *)
Record Keys := mkKeys { k_grandpa : Z; k_aura : Z; k_im_online : Z; k_discovery : Z }.

(** An authority: its stash and controller accounts and its session keys. *)
Record Authority := mkAuthority {
  stash : AccountId;
  controller : AccountId;
  auth_keys : Keys;
}.

(** [.parse().unwrap()] on each of the strings. *)
Fixpoint parse_all {A} (parse : string → option A) (l : list string) : outcome (list A) :=
  match l with
  | [] => Ret []
  | s :: l =>
      match parse s with
      | None => Panic
      | Some a => rest ← parse_all parse l; Ret (a :: rest)
      end
  end.

(** ** The main network *)

Section bootnodes.
Context {MultiaddrWithPeerId : Type} (parse : string → option MultiaddrWithPeerId).

Definition get_mainnet_bootnodes : outcome (list MultiaddrWithPeerId) :=
  parse_all parse
  ["/ip4/144.202.61.115/tcp/30333/p2p/QmXTb6R2AvA6FrvD4w2YRD2oj9WQk2f9Dg1dTqGsdxgwuD";
   "/ip4/107.191.48.39/tcp/30333/p2p/QmdFq4WXvgokUi5MAcGvzcV4PZmo6fZN2fxcEbcPQioGcK";
   "/ip4/66.42.113.164/tcp/30333/p2p/Qmawkfqh4y4vnPWiy87pBnWpgsyy8QrQmUFprDTktgatSm";
   "/ip4/144.202.58.79/tcp/30333/p2p/QmXWhRta7P3xW43WbJ6CDH9ZsHwVxFhLJNjpBa6J3jaAqj";
   "/ip4/207.148.13.203/tcp/30333/p2p/QmRgKnmZNYVCznVd4ao5UHCHGWieT3sePB5g8v7PSGofD2";
   "/ip4/207.148.11.222/tcp/30333/p2p/QmbzrqjbDcwhhX1oiKndxTjK1ULjqVw36QvrEuRKSZjgLY";
   "/ip4/149.28.120.45/tcp/30333/p2p/QmfB4F7TeUcuZZ4AMT3nvvfPVME4eWyJUUdWkXeus3AThe";
   "/ip4/149.28.115.253/tcp/30333/p2p/QmQvAPW1bBpx5N7YJLcBhHNqANw4dxVmBTiJNeuC8FoYeR";
   "/ip4/66.42.116.197/tcp/30333/p2p/QmU1g7NFj1cd46T69ZXig9c7Xc6RLGwjZm4Ur6d4JPBDh2";
   "/ip4/104.207.139.151/tcp/30333/p2p/QmPuU4VY2nckAodyWXv3VyCwavk5FF9yqVWB4G1LtNf9v9";
   "/ip4/45.77.238.189/tcp/30333/p2p/QmUQNwBa3BTYEAggMqsM2o5owtG1szKGMcy4Yi5sxPEvmh";
   "/ip4/209.250.227.147/tcp/30333/p2p/QmTDGjGu9GiyZLgTFaqMFUkguer4svD3DLHyZbEePWGK2M";
   "/ip4/202.182.103.213/tcp/30333/p2p/QmekEvkhcEvsRYw47LVoYm7v1dAjh3qbt2wZK7HNydr3kq";
   "/ip4/207.148.77.158/tcp/30333/p2p/QmWF6T36iBiXdCAsb477vHyTEKTq33RTLRAcsyTiGwrqwB";
   "/ip4/140.82.54.194/tcp/30333/p2p/QmdCUnV8hK3oiKSkoL4r9W5foEVBvMQ49ATUNpgxWcCgXc";
   "/ip4/155.138.133.37/tcp/30333/p2p/QmYrQtJXQSJkfcpKYgVXcbYMEuHP1PLgz41uy2dutipp9s";
   "/ip4/45.32.171.175/tcp/30333/p2p/QmdC8MEhaWbngY7qHpgXvYr3bVYcXy1HFUBWVWzhQFFybV";
   "/ip4/45.77.105.248/tcp/30333/p2p/QmPqNBGgeP4553TzxNd34GshUSHapsjykHhVcwnNrqpMLT";
   "/ip4/144.202.19.214/tcp/30333/p2p/QmUr8uUsd7QJQnnbHbVh6hhdHKsZUS1xrNKJmb7YZEshae";
   "/ip4/207.246.98.108/tcp/30333/p2p/QmVFxV5Ay158YiS7bkxNkAshEECDFMbqnfkizTgEfKQC7F"]%string.

Definition get_beresheet_bootnodes : outcome (list MultiaddrWithPeerId) :=
  parse_all parse
  ["/dns/beresheet-boot0.jelliedowl.com/tcp/30833/p2p/12D3KooWCD6gCJ4ftNEuxFcKozc2vHBHTvb6JG2bYU6aByefXN5F";
   "/dns/beresheet-boot1.jelliedowl.com/tcp/30833/p2p/12D3KooWAVYNwBrueKcmjksYeXMdQaG75Nd3RUfiz6t1Liw2JQeg";
   "/dns/beresheet-boot2.jelliedowl.com/tcp/30833/p2p/12D3KooWLr5tSkZvs8QB1u36P9LGDstW9qaDV27QFYnqWWf2E4wH";
   "/dns/beresheet-boot3.jelliedowl.com/tcp/30833/p2p/12D3KooWR9Ghmp3q1WCoWTp1TWWXKyjzHvkbAmAxa45Vsi8ikTAU";
   "/dns/beresheet-boot4.jelliedowl.com/tcp/30833/p2p/12D3KooWBAq7Yim8LraTrpaPa8SdU9nHnMyBGt37sRWT6GPwct2X"]%string.

End bootnodes.

Definition COMMONWEALTH_ENDOWMENT : Z := 75000000000000000000000000.
Definition STASH_ENDOWMENT : Z := 10000000000000000000.
Definition CONTROLLER_ENDOWMENT : Z := 10000000000000000000.

Definition get_commonwealth_allocation : list (AccountId * Z) :=
  [(0x14ad3d151938d63a4e02454f034a3158c719ed9de2e233dd0843c2d81ddba53d, 5500000000000000000000000);
   (0x12d490251399a081935bf731184d2bf37d228bc38d3d68a8e3822933bcf23a09, 5500000000000000000000000);
   (0xa87d1f2e04d8e95499f8a6f18214355bcb2fd2c9370ab5c19f379dd9d3167075, 5500000000000000000000000);
   (0x4cb0922d0fb5217553da0da70bd4076812ad2a5cce860524ff7b5e6e3629f962, 3000000000000000000000000);
   (0x78040adec849fff1c66c16ab8ac1534ed27e37a8a1da8aa3239267a883369566, 1500000000000000000000000);
   (0xcc3d67fe87c81b5895ed89cfb1c44cc29c3798bac93368487dfc11364d6e3068, COMMONWEALTH_ENDOWMENT);
   (0xeeb7482b9cce124538b1aeea1a7935d313b9f01cc6192fb4cc6bdf1b0f6b4430, COMMONWEALTH_ENDOWMENT);
   (0x765e19400b3f7d44e5677d24d9914ae8cabb1bf3ef81ebc1ca72ad99d312af46, COMMONWEALTH_ENDOWMENT);
   (0xca91588bb9258ade926d0c0631798d7e3f17c4581fae56283287d54883244a55, CONTROLLER_ENDOWMENT);
   (0x1ec5e3d9a77ac81d6da0290c04d003bbcb04af8c4902bd59dbf9be4dfa47234f, STASH_ENDOWMENT);
   (0xd6fb4a2f0d5dfc62c37a09e6aac5c3ea4ce2ba021f553c940e63d59dadf0cd24, CONTROLLER_ENDOWMENT);
   (0x720967cda4c9097924d705695b62dfb6dc6dbeade65b5575abf5c4ca38e50503, STASH_ENDOWMENT);
   (0x38a58e82baf9df6ec1f9a7064a337f872778649f3dd9002e3fe48df94b475232, CONTROLLER_ENDOWMENT);
   (0xde90c8b070c0a63fbf52655af7492dc8e7d985334a4c60c02bc2f59424ff1430, STASH_ENDOWMENT);
   (0x0e33e22cd22b272f388bcd41f13942d803089106ec350b8754e1d290ee6ff52b, CONTROLLER_ENDOWMENT);
   (0x9665bd715c72b686c2557fe11e6cd54924adef62dc1f52cf43a503f363cf843c, STASH_ENDOWMENT);
   (0x6aa8f0dd6b6221788d68bf2486126fb14bb65ea710028c11f7ca131e0df10707, CONTROLLER_ENDOWMENT);
   (0x464c96a206e310511a27acc92b2e410a14bd83cb8788b522d0cee03f0d285862, STASH_ENDOWMENT);
   (0xae5bfe517affa6f7456ad6b9f7465520059e6d7b2a8928673460461abb741c18, CONTROLLER_ENDOWMENT);
   (0x34c71b1e42e910b94b8cbb2c960873bd4bf0db6e80afdf41cdc52acd91d6393f, STASH_ENDOWMENT);
   (0x6a782c02fd24ed538224f3d0bda56146bc6bacd34f9a784c1b5367e19cda456e, CONTROLLER_ENDOWMENT);
   (0xd02002915139ac3e4552c5006f92cccfbf8b02cb4d4ca1993a69d63368cc1f0c, STASH_ENDOWMENT);
   (0x4864744ab79cd62cbc1094da8e6f54aba8cba7ed6d616bdd8df10572d146c15c, CONTROLLER_ENDOWMENT);
   (0x143f9f9019fa62919ed6da39b8f147cb52501438e1e9e7a82d22d7b49df18e59, STASH_ENDOWMENT);
   (0xa01bef9c8591ae4155f9483eee09db092fb39bdd580e3715e927333e4aa89d6d, CONTROLLER_ENDOWMENT);
   (0x4e7de9c8f3564fe5cc5057de51c41b40a7da801d22c6ee5aa57f8bb2838ae857, STASH_ENDOWMENT);
   (0x00e5a14e08930f94148569274ca1e9355938fabf65fffef3b7cb3c3e3edabb23, CONTROLLER_ENDOWMENT);
   (0xce64070e4dffe61183241dca3e922b65ecd509430a3e283fab5c143532f79d3e, STASH_ENDOWMENT);
   (0xb0492fa7ac84ecb20f9f69e1c328b521fce8f472af2cc13784286d2240e4924c, CONTROLLER_ENDOWMENT);
   (0x58e8d8750021d11f5bf1106966235ed293a4288511016af7f3b2e81a84ead342, 92500000000000000000000000);
   (0x688421b084a363cb394c5e3a7c79f44482bf2f15f6d86ea37ae110a3af238f07, 10000000000000000000000000);
   (0x765169492c492ee29f2af9af46f9e1b117aa0283b73a4361ae12ace1c41a6c72, 150000000000000000000000000);
   (0x6490626e3bde470c449e90b83df92ddb8514f02067a0ddd66f1080b5033dec2d, 1474790000000000000002374);
   (0xec80b8b78a2b283f0a48712c8446241cf5f36d2f480559cdc73253981963f402, 25000000000000000000000)].

Definition STAKED_ENDOWMENT : Z := 5000000000000000000.

(** A validator's accounts, stake and keys; the source has the key of Aura before that
    of Grandpa. *)
Definition mainnet_validator (stash controller stake aura grandpa im_online discovery : Z) :
    Authority * Z :=
  (mkAuthority stash controller (mkKeys grandpa aura im_online discovery), stake).

Definition get_cw_mainnet_validators : list (Authority * Z) :=
  [mainnet_validator
     0x1ec5e3d9a77ac81d6da0290c04d003bbcb04af8c4902bd59dbf9be4dfa47234f
     0xd6fb4a2f0d5dfc62c37a09e6aac5c3ea4ce2ba021f553c940e63d59dadf0cd24
     STAKED_ENDOWMENT
     0x532cdeaeb19afd03eb4a57d4dddad09268fb720478d5386263330f5bf86f1cc4
     0xae5e4e8c3bbb47737a2b4abe79a71289f60271a94a5eaebf6b200f638fcbe332
     0x532cdeaeb19afd03eb4a57d4dddad09268fb720478d5386263330f5bf86f1cc4
     0x5e0755efa5da8b2bb83d2443635268b0be48ba020587fdc3731a5b87b51ff500;
   mainnet_validator
     0x720967cda4c9097924d705695b62dfb6dc6dbeade65b5575abf5c4ca38e50503
     0x38a58e82baf9df6ec1f9a7064a337f872778649f3dd9002e3fe48df94b475232
     STAKED_ENDOWMENT
     0x89d7a1fb903a63494696c6d10d76704da7760da7f32dc3b5aa122bfba3f85680
     0xf272b4cdec7e979dd76c7860f7e9dd8cb1da974d74366a266c4de501b2079896
     0x89d7a1fb903a63494696c6d10d76704da7760da7f32dc3b5aa122bfba3f85680
     0xfea24c3e2b57972eead003295fcfc52fb57ffd1bdfedf1dcfb1cd35df11dcc37;
   mainnet_validator
     0xde90c8b070c0a63fbf52655af7492dc8e7d985334a4c60c02bc2f59424ff1430
     0x0e33e22cd22b272f388bcd41f13942d803089106ec350b8754e1d290ee6ff52b
     STAKED_ENDOWMENT
     0x98a4f5d4b363447331f54328d83816f773e30799be5979c3d6d9be08f4941799
     0x8634c736497e74b1cedbecec7efe94bdff2ec899f60c97e003e8123f366e14e3
     0x98a4f5d4b363447331f54328d83816f773e30799be5979c3d6d9be08f4941799
     0xbce40bb0b2649d3fa924e050c603dccb5b7468f89924158e9b6d4d048c79dc23;
   mainnet_validator
     0x9665bd715c72b686c2557fe11e6cd54924adef62dc1f52cf43a503f363cf843c
     0x6aa8f0dd6b6221788d68bf2486126fb14bb65ea710028c11f7ca131e0df10707
     STAKED_ENDOWMENT
     0x095ca61a04a9bd2fc95b31c1f86b73ef85e1388e75822896b4079cf5bc1c0e14
     0x98d7399dd06f0192a2eb3096aca6df6f2600634d77b92c926bed92d60c50b75d
     0x095ca61a04a9bd2fc95b31c1f86b73ef85e1388e75822896b4079cf5bc1c0e14
     0x8e84ac19afbba97a686f1b20a3288610f76177b3c71cdc1f31df0828ba6acd1c;
   mainnet_validator
     0x464c96a206e310511a27acc92b2e410a14bd83cb8788b522d0cee03f0d285862
     0xae5bfe517affa6f7456ad6b9f7465520059e6d7b2a8928673460461abb741c18
     STAKED_ENDOWMENT
     0x76c5e8b1a4656cf7f174662674c61cb3a8fb67cee15d4f9a85f25235653c2a76
     0x08b8316bbc960b4e3d610724e4f330556356b567fac3a7cb63fe458dbafdf028
     0x76c5e8b1a4656cf7f174662674c61cb3a8fb67cee15d4f9a85f25235653c2a76
     0xa69f1ccc84e40afae38d2d2f87b5910b164a8b451a0d70ac51e117f1222ede65;
   mainnet_validator
     0x34c71b1e42e910b94b8cbb2c960873bd4bf0db6e80afdf41cdc52acd91d6393f
     0x6a782c02fd24ed538224f3d0bda56146bc6bacd34f9a784c1b5367e19cda456e
     STAKED_ENDOWMENT
     0x82b6147e4e661551609f04168599ed213c21fa194aba3327fb2fd6247a52b5d2
     0x996b0ef45bd1f90b17ebc5f038cea21ccc1725a2c1daf3a85e774e22e173bb6e
     0x82b6147e4e661551609f04168599ed213c21fa194aba3327fb2fd6247a52b5d2
     0xbef61229205f6027e92e70bcd6b01e352c21d795e38dd64cf87335fd214d994b;
   mainnet_validator
     0xd02002915139ac3e4552c5006f92cccfbf8b02cb4d4ca1993a69d63368cc1f0c
     0x4864744ab79cd62cbc1094da8e6f54aba8cba7ed6d616bdd8df10572d146c15c
     STAKED_ENDOWMENT
     0x3cf4ee0a14ea22e82a8953d60fc68f80a62d881e0b56c97445b3ea96adc4d31c
     0x2f9a90f811621556d0dd1bdf324d0154444b34a0501a9f5bd338cf41d94634f9
     0x3cf4ee0a14ea22e82a8953d60fc68f80a62d881e0b56c97445b3ea96adc4d31c
     0x4e85c095e94a47dea48c7c6824d3f4818e1c34df1e00fe658d650845c275e13e;
   mainnet_validator
     0x143f9f9019fa62919ed6da39b8f147cb52501438e1e9e7a82d22d7b49df18e59
     0xa01bef9c8591ae4155f9483eee09db092fb39bdd580e3715e927333e4aa89d6d
     STAKED_ENDOWMENT
     0x191decd2b0b7e447a2009d0c8f963b118ee7781adada0e217273ac924514b3a8
     0xa81b12f94160734c3e53ac961a73c796783be50225e4e9b028e8318654f2d876
     0x191decd2b0b7e447a2009d0c8f963b118ee7781adada0e217273ac924514b3a8
     0x38fc0932145f659c13d14d4be0215b3a811738bf713c771b980032d66d10d567;
   mainnet_validator
     0x4e7de9c8f3564fe5cc5057de51c41b40a7da801d22c6ee5aa57f8bb2838ae857
     0x00e5a14e08930f94148569274ca1e9355938fabf65fffef3b7cb3c3e3edabb23
     STAKED_ENDOWMENT
     0xd76fca327e6b6c91c220acbe0769d16ede7c96578e7743036a784fe3d528d40d
     0xda5bcd957592d12041bb9777605b3e3aeeac7712c2ba2339a80e33acfc5cf07e
     0xd76fca327e6b6c91c220acbe0769d16ede7c96578e7743036a784fe3d528d40d
     0xe04db33479ca34e1ee304db70edf95b37427c2350b14eff984bccc4d07e8876a;
   mainnet_validator
     0xce64070e4dffe61183241dca3e922b65ecd509430a3e283fab5c143532f79d3e
     0xb0492fa7ac84ecb20f9f69e1c328b521fce8f472af2cc13784286d2240e4924c
     STAKED_ENDOWMENT
     0x5342c923d5c187f4417862556555ee09475c11141cbc0103272b826e0f8cd0b9
     0xa7a35e31a1b49a5ced7f4f6ef214da56318e7ca0dfad50274dbcb88456f35621
     0x5342c923d5c187f4417862556555ee09475c11141cbc0103272b826e0f8cd0b9
     0x504e8b32ad648f3bfaf186840421b7717af828b77b2d512a30dd6cd62060401e].

Definition get_mainnet_election_members : list AccountId :=
  [0xca91588bb9258ade926d0c0631798d7e3f17c4581fae56283287d54883244a55].

Definition get_mainnet_root_key : AccountId :=
  0x0000000000000000000000000000000000000000000000000000000000000000.

(** ** Beresheet *)

Section beresheet.
(** [from_ss58check] of accounts and of the four kinds of keys. *)
Context (from_ss58check : string → option Z).

Definition unwrap_ss58 (s : string) : outcome Z :=
  match from_ss58check s with Some a => Ret a | None => Panic end.

Definition get_testnet_root_key : outcome AccountId :=
  unwrap_ss58 "5HbAMQtwKrtUwAx3B22MGxBWpyLeWmEDhBuhXfVLwjAzUPpa".

(** An authority by the strings of its accounts and keys. *)
Definition ss58_authority (stash controller grandpa aura im_online discovery : string) :
    outcome Authority :=
  stash ← unwrap_ss58 stash;
  controller ← unwrap_ss58 controller;
  grandpa ← unwrap_ss58 grandpa;
  aura ← unwrap_ss58 aura;
  im_online ← unwrap_ss58 im_online;
  discovery ← unwrap_ss58 discovery;
  Ret (mkAuthority stash controller (mkKeys grandpa aura im_online discovery)).

Definition get_beresheet_initial_authorities : outcome (list Authority) :=
  a0 ← ss58_authority
    "5CMNamTiTYPkkv68w1GLaHPVty8EJWvkg9XMwrWRfTSdHhcU"
    "5CMNamTiTYPkkv68w1GLaHPVty8EJWvkg9XMwrWRfTSdHhcU"
    "5FURkcLw91AeCj9P3ZDj5isM7RFN3byqEhvT2HcSBoirZWk8"
    "5GEpMSrNg5AH1tv7Mw5H7rRx4b2eygkevTL1dysm1ZATymTJ"
    "5FbVL6FUBrRYTrETYQuMQffdCYQ6HsDcpK5skgnL6qxKAonZ"
    "5HEg7w5eh568aR4ysw7ZdbuEVKLmRtqW7oy23e39qnjhRGsj";
  a1 ← ss58_authority
    "5CiP172csqtauU3iN4jPFr4bJQvJLpa8DSN1ggPBJaFzjqaG"
    "5CiP172csqtauU3iN4jPFr4bJQvJLpa8DSN1ggPBJaFzjqaG"
    "5GGtucZrb1ieagbtipYqWckPgSaTpUADbmPFLq1VeaX8m5ce"
    "5Fqkra6SSmvRH4vvxaaYaqhYAgekcUJUSVBFPTRz6N7Ka9h4"
    "5HQ5K2YCqedhRdxhAzBWvxSgYLjbfBWJWqfcQjcX2QyT21bi"
    "5HJyS6p1vUjYubWYjyzb4UzFYPkWiz9ST7EsXME6xE8zAGLA";
  a2 ← ss58_authority
    "5GmwvToG6Sk6wsHXkmwD2vqnSBvi1FMVpp2LBw5LowbgeZhz"
    "5FHPJFLDvaTc3Xo6Zi5Ee4XRnX5QRt5uwrk3i7QrFbM9tMrz"
    "5FcSstksh1ENseKBaPAf2s1wggESPWPcBtew4FtDyRJmxfCs"
    "5CutFvKrZpbd3SAVHKixrjGTifHgpzRQM79bGj6sPzoLdUV3"
    "5ChcbMkL64LEnkCRrTiofpdmTzkSPxuoVkCNHGeYeJyebKyv"
    "5E2Ae7Fu3z12Vxkiyh3DUtu9PprDhiFrRYhBDP9AjPbxJzmX";
  a3 ← ss58_authority
    "5EPBXa8MP8oCZsWjRBquHpaGHLfVTZpGhrcP1UjGzjK8rzTn"
    "5GeYerKSvhXDbWHFZrgmSLZ8g6mVqrZKxgVb3ePST1US1eB8"
    "5GCCwo4jZ1CC11bZQAvinp6Wzqz6k3tqNzQoj1ZWe8oLWg8y"
    "5FLqf8scff7jeRZLZXTct1RFU9gh3MdczeFwSzsEi936jxJE"
    "5EkXZTxi7651ARtDxjJJkNGrBy4asWys9KbCp2JDQLePYXGM"
    "5Cg1tL4qeMWzLQ4BS7wiy6Sxj7M4HXjHNhXJxkx9ZqPAtZy8";
  Ret [a0; a1; a2; a3].

End beresheet.

(** ** Consistency *)

(** The balance of an account in an allocation, zero without one. *)
Fixpoint balance_of (l : list (AccountId * Z)) (a : AccountId) : Z :=
  match l with
  | [] => 0
  | x :: l => if x.1 =? a then x.2 else balance_of l a
  end.

Lemma balance_of_elem l a : 0 < balance_of l a → (a, balance_of l a) ∈ l.
Proof.
  induction l as [|[a' b] l IH]; simpl; [lia|]. destruct (Z.eqb_spec a' a) as [->|].
  - left.
  - intros Hpos. right. by apply IH.
Qed.

(** The allocation covers its validators: each has a stash with more than its stake and a
    funded controller, and no account or key serves two of them. *)
Definition covers (l : list (AccountId * Z)) (xs : list (Authority * Z)) : Prop :=
  Forall (λ x, 0 < x.2 < balance_of l (stash x.1) ∧
    balance_of l (controller x.1) = CONTROLLER_ENDOWMENT) xs ∧
  NoDup ((stash ∘ fst <$> xs) ++ (controller ∘ fst <$> xs)) ∧
  NoDup (k_grandpa ∘ auth_keys ∘ fst <$> xs) ∧ NoDup (k_aura ∘ auth_keys ∘ fst <$> xs) ∧
  NoDup (k_discovery ∘ auth_keys ∘ fst <$> xs).

(** The constants of the main network fit together: the founders' allocation has one
    positive balance per account, in all 500 million EDG and 2374 units, within the width of a
    balance; its ten validators bond less than their stashes hold, as the comment on them asks,
    with funded controllers and without shared accounts or keys; and the election's members
    are funded. *)
Lemma mainnet_fixtures_consistent :
  NoDup get_commonwealth_allocation.*1 ∧
  Forall (λ x, 0 < x.2) get_commonwealth_allocation ∧
  foldr Z.add 0 get_commonwealth_allocation.*2 = 500000000 * 10 ^ 18 + 2374 ∧
  500000000 * 10 ^ 18 + 2374 < 2 ^ 128 ∧
  length get_cw_mainnet_validators = 10%nat ∧
  covers get_commonwealth_allocation get_cw_mainnet_validators ∧
  Forall (λ a, 0 < balance_of get_commonwealth_allocation a) get_mainnet_election_members.
Proof. unfold covers. apply (bool_decide_unpack _). vm_compute. exact I. Qed.
