(* ===== verification/Genesis.v ===== *)
(** * Genesis of the networks: node/cli/src/chain_spec.rs, and node/cli-opt

    The genesis configurations of the test and main networks, as far as they
    depend on the arguments, and the options of the command line that select a
    sealing and the Ethereum APIs. *)

From stdpp Require Import base tactics list gmap strings.
From Stdlib Require Import ZArith Lia Strings.Byte.
From S2P Require Import Prelude Runtime RpcTypes Fixtures.
Local Open Scope Z_scope.

(** ** Genesis *)

Record Genesis := mkGenesis {
  g_balances : list (AccountId * Z);
  g_session : list (AccountId * AccountId * Keys);
  validator_count : Z;
  minimum_validator_count : Z;
  stakers : list (AccountId * AccountId * Z);
  council_members : list AccountId;
  sudo_key : AccountId;
  g_vesting : list (AccountId * Z * Z * Z);
  evm_accounts : gmap H160 Z;
  reward_payout : Z;
  reward_interval : Z;
}.

Definition STASH : Z := 100000000 * DOLLARS.

Section testnet.
(** The account derived from a seed. *)
Context (get_account_id_from_seed : string → AccountId).

Definition default_endowed : list AccountId :=
  get_account_id_from_seed <$>
  ["Alice"; "Bob"; "Charlie"; "Dave"; "Eve"; "Ferdie"; "Alice//stash"; "Bob//stash";
   "Charlie//stash"; "Dave//stash"; "Eve//stash"; "Ferdie//stash"]%string.

(** An account is added unless it is there. *)
Definition endow (l : list AccountId) (a : AccountId) : list AccountId :=
  if decide (a ∈ l) then l else l ++ [a].

Definition endow_authority (l : list AccountId) (x : Authority) : list AccountId :=
  endow (endow l (stash x)) (controller x).

Definition testnet_evm_accounts (create_evm_alice : bool) : gmap H160 Z :=
  if create_evm_alice then
    <[0xd43593c715fdd31c61141abd04a99fd6822c8558 := 0xffffffffffffffffffffffffffffffff]>
      {[0x19e7e376e7c213b7e7e7e46cc70a5dd086daff2a := 123456123000000000000000]}
  else ∅.

Definition testnet_genesis (initial_authorities : list Authority) (root_key : AccountId)
    (endowed_accounts : option (list AccountId)) (vesting : list (AccountId * Z * Z * Z))
    (create_evm_alice : bool) : Genesis :=
  let endowed := endow (default default_endowed endowed_accounts) root_key in
  let endowed := foldl endow_authority endowed initial_authorities in
  {|
    g_balances := (λ k, (k, STASH)) <$> endowed;
    g_session := (λ x, (stash x, stash x, auth_keys x)) <$> initial_authorities;
    validator_count := 7;
    minimum_validator_count := zlen initial_authorities mod 2 ^ 32;
    stakers := (λ x, (stash x, controller x, STASH)) <$> initial_authorities;
    council_members := [];
    sudo_key := root_key;
    g_vesting := vesting;
    evm_accounts := testnet_evm_accounts create_evm_alice;
    reward_payout := 95 * DOLLARS;
    reward_interval := 1;
  |}.

Lemma endow_spec l a : NoDup l → NoDup (endow l a) ∧ l ⊆ endow l a ∧ a ∈ endow l a.
Proof.
  intros Hl. unfold endow. case_decide as Ha; [done|].
  split_and!; [|by intros x Hx; apply elem_of_app; left|apply elem_of_app; right; left].
  apply NoDup_app. split_and!; [done| |apply NoDup_singleton].
  intros x Hx Hin%list_elem_of_singleton. by subst.
Qed.

Lemma endow_authority_spec l x :
  NoDup l → NoDup (endow_authority l x) ∧ l ⊆ endow_authority l x ∧
    stash x ∈ endow_authority l x ∧ controller x ∈ endow_authority l x.
Proof.
  intros Hl. unfold endow_authority.
  destruct (endow_spec l (stash x) Hl) as (H1 & H2 & H3).
  destruct (endow_spec _ (controller x) H1) as (H4 & H5 & H6).
  split_and!; try done; set_solver.
Qed.

Lemma endow_authorities_spec l xs :
  NoDup l →
  NoDup (foldl endow_authority l xs) ∧ l ⊆ foldl endow_authority l xs ∧
  ∀ x, x ∈ xs → stash x ∈ foldl endow_authority l xs ∧
    controller x ∈ foldl endow_authority l xs.
Proof.
  revert l. induction xs as [|y xs IH]; intros l Hl; simpl.
  { split_and!; [done|done|]. by intros x ?%not_elem_of_nil. }
  destruct (endow_authority_spec l y Hl) as (H1 & H2 & H3 & H4).
  destruct (IH _ H1) as (H5 & H6 & H7). split_and!; [done|by etrans|].
  intros x [-> | Hx]%elem_of_cons; [|by apply H7]. split; by apply H6.
Qed.

(** No account has two balances: the balances pallet refuses a genesis where one has. *)
Definition one_balance (g : Genesis) : Prop := NoDup (g_balances g).*1.

(** A consistent genesis: every staker has a session key, bonds at most what its stash has,
    and has a controller with a balance; the minimum of validators is the number of stakers,
    and no more than the number of validators; and the treasury's minting interval is not
    zero. *)
Record consistent (g : Genesis) : Prop := {
  stakers_funded : ∀ s c v, (s, c, v) ∈ stakers g →
    (∃ b, (s, b) ∈ g_balances g ∧ 0 < v ≤ b) ∧ (∃ b, (c, b) ∈ g_balances g ∧ 0 < b) ∧
    (∃ k, (s, s, k) ∈ g_session g);
  enough_validators : minimum_validator_count g = zlen (stakers g) ∧
    minimum_validator_count g ≤ validator_count g;
  minting_interval_positive : 0 < reward_interval g;
}.

(** A test network starts consistently, with a balance for root. *)
Lemma testnet_genesis_consistent xs root endowed vesting evm :
  NoDup (default default_endowed endowed) → zlen xs ≤ 7 →
  let g := testnet_genesis xs root endowed vesting evm in
  one_balance g ∧ consistent g ∧ (sudo_key g, STASH) ∈ g_balances g.
Proof.
  intros Hnd Hlen. cbn zeta.
  destruct (endow_spec _ root Hnd) as (H1 & _ & Hroot).
  destruct (endow_authorities_spec _ xs H1) as (H2 & H3 & H4).
  split; [unfold one_balance; simpl; by rewrite <-list_fmap_compose, list_fmap_id|].
  split; [|apply list_elem_of_fmap; exists root; split; [done|by apply H3]].
  constructor; cbn [g_balances g_session stakers reward_interval minimum_validator_count
    validator_count testnet_genesis].
  - intros s c v (x & [= -> -> ->] & Hx)%list_elem_of_fmap. destruct (H4 x Hx).
    assert (0 < STASH) by done. split_and!; eexists; try split; try apply list_elem_of_fmap;
      eauto; lia.
  - rewrite length_fmap, Z.mod_small by lia. lia.
  - lia.
Qed.

End testnet.

(** An authority of the main network brings its stake. *)
Definition mainnet_genesis (initial_authorities : list (Authority * Z))
    (founder_allocation balances : list (AccountId * Z))
    (vesting : list (AccountId * Z * Z * Z)) : Genesis := {|
  g_balances := founder_allocation ++ balances;
  g_session := (λ x, (stash x.1, stash x.1, auth_keys x.1)) <$> initial_authorities;
  validator_count := 60;
  minimum_validator_count := zlen initial_authorities mod 2 ^ 32;
  stakers := (λ x, (stash x.1, controller x.1, x.2)) <$> initial_authorities;
  council_members := get_mainnet_election_members;
  sudo_key := get_mainnet_root_key;
  g_vesting := vesting;
  evm_accounts := ∅;
  reward_payout := 95 * DOLLARS;
  reward_interval := 1;
|}.

(** The main network starts consistently when its validators are covered by the founders'
    allocation. *)
Lemma mainnet_genesis_consistent xs founders balances vesting :
  covers founders xs → zlen xs ≤ 60 →
  consistent (mainnet_genesis xs founders balances vesting).
Proof.
  intros [Hcov _] Hlen. rewrite Forall_forall in Hcov.
  assert (∀ a, 0 < balance_of founders a → (a, balance_of founders a) ∈ founders ++ balances)
    as Hin by (intros a ?; apply elem_of_app; left; by apply balance_of_elem).
  constructor; cbn [g_balances g_session stakers reward_interval minimum_validator_count
    validator_count mainnet_genesis].
  - intros s c v (x & [= -> -> ->] & Hx)%list_elem_of_fmap.
    destruct (Hcov x Hx) as [Hstake Hctl]. assert (0 < CONTROLLER_ENDOWMENT) by done.
    split_and!; eexists.
    + split; [apply Hin|]; lia.
    + split; [apply Hin|]; lia.
    + apply list_elem_of_fmap. eauto.
  - rewrite length_fmap, Z.mod_small by lia. lia.
  - lia.
Qed.

(** ** Numbers in decimal *)

(** [from_str_radix(s, 10)] and [parse] of the unsigned integers of [w] bits, by the digits of
    the string. *)
Fixpoint parse_uint (w acc : Z) (l : bytes) : option Z :=
  match l with
  | [] => Some acc
  | b :: l =>
      match to_digit 10 b with
      | None => None
      | Some d => if acc * 10 + d <? 2 ^ w then parse_uint w (acc * 10 + d) l else None
      end
  end.

Definition uint_from_str (w : Z) (s : bytes) : option Z :=
  match s with
  | [] => None
  | [Byte.x2b] | [Byte.x2d] => None
  | Byte.x2b :: s => parse_uint w 0 s
  | s => parse_uint w 0 s
  end.

(** ** The lockdrop's allocation

    The file holds accounts and amounts as strings; entries with a zero amount are left out.
    [from_hex] is that of a library and, like the parsing of an amount, fails by a panic. *)

Record Allocation := mkAllocation {
  alloc_balances : list (string * string);
  alloc_vesting : list (string * Z * Z * string);
}.

Section allocation.
Context (from_hex : string → option AccountId).

Abbreviation parse_balance s := (uint_from_str 128 (bytes_of s)).

Fixpoint lockdrop_balances (l : list (string * string)) : outcome (list (AccountId * Z)) :=
  match l with
  | [] => Ret []
  | b :: l =>
      match parse_balance b.2, from_hex b.1 with
      | Some balance, Some account =>
          rest ← lockdrop_balances l;
          Ret (if 0 <? balance then (account, balance) :: rest else rest)
      | _, _ => Panic
      end
  end.

(** An entry with a positive balance is paid. *)
Lemma lockdrop_balances_elem l bs s n balance account :
  lockdrop_balances l = Ret bs → (s, n) ∈ l →
  parse_balance n = Some balance → 0 < balance → from_hex s = Some account →
  (account, balance) ∈ bs.
Proof.
  intros Hrun Hin Hn Hpos Hs. revert bs Hrun. induction l as [|[s' n'] l IH]; intros bs; simpl.
  { by apply not_elem_of_nil in Hin. }
  destruct (uint_from_str 128 (bytes_of n')) as [balance'|] eqn:Hn'; [|done].
  destruct (from_hex s') as [account'|] eqn:Hs'; [|done].
  destruct (lockdrop_balances l) as [rest|] eqn:Hl; [|done]. intros [= <-].
  apply elem_of_cons in Hin as [[= <- <-]|Hin].
  - simplify_eq. rewrite (proj2 (Z.ltb_lt _ _)) by done. left.
  - specialize (IH Hin rest eq_refl). destruct (0 <? balance'); [by right|done].
Qed.

Fixpoint lockdrop_vesting (l : list (string * Z * Z * string)) :
    outcome (list (AccountId * Z * Z * Z)) :=
  match l with
  | [] => Ret []
  | b :: l =>
      match parse_balance b.2, from_hex b.1.1.1 with
      | Some vesting_balance, Some account =>
          rest ← lockdrop_vesting l;
          Ret (if 0 <? vesting_balance
               then (account, b.1.1.2, b.1.2, vesting_balance) :: rest else rest)
      | _, _ => Panic
      end
  end.

(** [edgeware_mainnet_config_genesis], over the content of the file ([None] when it cannot be
    read). *)
Definition edgeware_mainnet_config_genesis (allocation : option Allocation) : outcome Genesis :=
  match allocation with
  | None => Panic
  | Some allocation =>
      balances ← lockdrop_balances (alloc_balances allocation);
      vesting ← lockdrop_vesting (alloc_vesting allocation);
      Ret (mainnet_genesis get_cw_mainnet_validators get_commonwealth_allocation balances
             vesting)
  end.

End allocation.

(** ** Options of the command line: node/cli-opt/src/lib.rs *)

Inductive Sealing := SealInstant | SealManual | SealInterval (millis : Z).
Inductive EthApi := ApiTxpool | ApiDebug | ApiTrace.
#[global] Instance EthApi_eq_dec : EqDecision EthApi.
Proof. solve_decision. Defined.

Definition Sealing_from_str (s : string) : result Sealing string :=
  if decide (s = "instant"%string) then Ok SealInstant
  else if decide (s = "manual"%string) then Ok SealManual
  else match uint_from_str 64 (bytes_of s) with
       | Some millis => Ok (SealInterval millis)
       | None => Err "couldn't decode sealing param"%string
       end.

Definition EthApi_from_str (s : string) : result EthApi string :=
  if decide (s = "txpool"%string) then Ok ApiTxpool
  else if decide (s = "debug"%string) then Ok ApiDebug
  else if decide (s = "trace"%string) then Ok ApiTrace
  else Err ("`" +:+ s +:+ "` is not recognized as a supported Ethereum Api")%string.

Definition EthApi_fmt (a : EthApi) : string :=
  match a with
  | ApiTxpool => "txpool"
  | ApiDebug => "debug"
  | ApiTrace => "trace"
  end.

(** An API is read back from its display, and nothing else is read. *)
Lemma EthApi_roundtrip s a : EthApi_from_str s = Ok a ↔ s = EthApi_fmt a.
Proof.
  split; [|intros ->; by destruct a].
  unfold EthApi_from_str. repeat case_decide; intros [= <-]; done.
Qed.
