(* ===== verification/Specs.v ===== *)
(** * Chain specifications: node/cli/src/chain_spec.rs, command.rs, service.rs

    The specifications the node can build or load by name ([load_spec]), with the genesis of
    each, and the network a specification is of ([IdentifyVariant]).  The derivation of keys
    from seeds, the parsing of addresses and of JSON are the framework's. *)

From stdpp Require Import base tactics list gmap strings.
From Stdlib Require Import ZArith Lia Strings.Byte.
From S2P Require Import Prelude Runtime RuntimeConfig RpcTypes Fixtures Genesis.
Local Open Scope Z_scope.

Inductive ChainType := Development | Live.

(** The JSON of the properties. *)
Record Properties := mkProperties {
  ss58Format : Z;
  tokenDecimals : Z;
  tokenSymbol : string;
}.

Definition STAGING_TELEMETRY_URL : string := "wss://telemetry.polkadot.io/submit/".
Definition DEFAULT_PROTOCOL_ID : string := "edg".

(** A specification made by [from_genesis]; the genesis is computed when it is asked for. *)
Record ChainSpec {Multiaddr : Type} := mkChainSpec {
  spec_name : string;
  spec_id : string;
  spec_type : ChainType;
  spec_genesis : outcome Genesis;
  spec_boot_nodes : list Multiaddr;
  spec_telemetry : option (list (string * Z));
  spec_protocol_id : option string;
  spec_properties : option Properties;
}.
Arguments ChainSpec : clear implicits.
Arguments mkChainSpec {Multiaddr}.
Arguments spec_id {Multiaddr}.
Arguments spec_genesis {Multiaddr}.

(** What [load_spec] answers with: a specification built here, or one read from JSON, of
    which only its identity is known. *)
Inductive LoadedSpec {Multiaddr Json : Type} :=
| Built (spec : ChainSpec Multiaddr)
| Read (json : Json).
Arguments LoadedSpec : clear implicits.
Arguments Built {Multiaddr Json}.
Arguments Read {Multiaddr Json}.

Section specs.
Context {Multiaddr Json : Type}.
(** The account and the keys derived from a seed, a key of each kind. *)
Context (account_from_seed : string → AccountId).
Context (grandpa_from_seed aura_from_seed im_online_from_seed discovery_from_seed : string → Z).
Context (parse_multiaddr : string → option Multiaddr).
Context (from_ss58check : string → option Z).
Context (from_hex : string → option AccountId).
(** The file of the lockdrop's allocation. *)
Context (lockdrop : option Allocation).
(** Whether the telemetry endpoint is valid, the specifications compiled into the node by
    the name of their file, and those read from a path. *)
Context (telemetry_valid : bool).
Context (from_json_bytes : string → result Json string).
Context (from_json_file : string → result Json string).

Definition get_authority_keys_from_seed (seed : string) : Authority :=
  mkAuthority (account_from_seed (seed +:+ "//stash")) (account_from_seed seed)
    (mkKeys (grandpa_from_seed seed) (aura_from_seed seed) (im_online_from_seed seed)
       (discovery_from_seed seed)).

Definition test_properties : Properties := mkProperties 42 18 "tEDG".
Definition main_properties : Properties := mkProperties 7 18 "EDG".

(** [TelemetryEndpoints::new(..).expect(..)] *)
Definition staging_telemetry : outcome (option (list (string * Z))) :=
  if telemetry_valid then Ret (Some [(STAGING_TELEMETRY_URL, 0)]) else Panic.

(** ** The genesis of each network *)

Definition edgeware_testnet_config_genesis : outcome Genesis :=
  match lockdrop with
  | None => Panic
  | Some allocation =>
      _ ← lockdrop_balances from_hex (alloc_balances allocation);
      initial_authorities ← get_beresheet_initial_authorities from_ss58check;
      root_key ← get_testnet_root_key from_ss58check;
      Ret (testnet_genesis account_from_seed initial_authorities root_key (Some []) [] false)
  end.

Definition multi_development_config_genesis : Genesis :=
  testnet_genesis account_from_seed
    (get_authority_keys_from_seed <$>
       ["Alice"; "Bob"; "Charlie"; "Dave"; "Eve"; "Ferdie"]%string)
    (account_from_seed "Alice") None [] true.

Definition development_config_genesis : Genesis :=
  testnet_genesis account_from_seed [get_authority_keys_from_seed "Alice"]
    (account_from_seed "Alice") None [] true.

Definition local_testnet_genesis : Genesis :=
  testnet_genesis account_from_seed
    (get_authority_keys_from_seed <$> ["Alice"; "Bob"]%string)
    (account_from_seed "Alice") None [] true.

(** ** The specifications *)

Definition edgeware_testnet_config (testnet_name testnet_node_name : string) :
    outcome (ChainSpec Multiaddr) :=
  boot_nodes ← get_beresheet_bootnodes parse_multiaddr;
  telemetry ← staging_telemetry;
  Ret (mkChainSpec testnet_name testnet_node_name Development edgeware_testnet_config_genesis
         boot_nodes telemetry (Some DEFAULT_PROTOCOL_ID) (Some test_properties)).

Definition development_config : ChainSpec Multiaddr :=
  mkChainSpec "Development" "dev" Development (Ret development_config_genesis) [] None None
    (Some test_properties).

Definition multi_development_config : ChainSpec Multiaddr :=
  mkChainSpec "Multi Development" "multi-dev" Development (Ret multi_development_config_genesis)
    [] None None (Some test_properties).

Definition local_testnet_config : ChainSpec Multiaddr :=
  mkChainSpec "Local Testnet" "local_testnet" Development (Ret local_testnet_genesis) [] None
    None None.

Definition edgeware_mainnet_config : outcome (ChainSpec Multiaddr) :=
  boot_nodes ← get_mainnet_bootnodes parse_multiaddr;
  telemetry ← staging_telemetry;
  Ret (mkChainSpec "Edgeware" "edgeware" Live
         (edgeware_mainnet_config_genesis from_hex lockdrop) boot_nodes telemetry
         (Some DEFAULT_PROTOCOL_ID) (Some main_properties)).

(** The specifications compiled into the node panic when they cannot be read. *)
Definition compiled_spec (file : string) : outcome (LoadedSpec Multiaddr Json) :=
  match from_json_bytes file with
  | Ok spec => Ret (Read spec)
  | Err _ => Panic
  end.
Definition edgeware_mainnet_official := compiled_spec "../res/mainnet.chainspec.raw.json".
Definition edgeware_beresheet_v46_fast := compiled_spec "../res/beresheet_v46_fast.raw.json".
Definition edgeware_beresheet_v46 := compiled_spec "../res/beresheet_v46.raw.json".
Definition edgeware_beresheet_official := compiled_spec "../res/beresheet.chainspec.json".

(** [SubstrateCli::load_spec]. *)
Definition load_spec (id : string) : outcome (result (LoadedSpec Multiaddr Json) string) :=
  if decide (id = "dev") then Ret (Ok (Built development_config))
  else if decide (id = "multi-dev" ∨ id = "multi") then Ret (Ok (Built multi_development_config))
  else if decide (id = "local") then Ret (Ok (Built local_testnet_config))
  else if decide (id = "testnet-conf") then
    spec ← edgeware_testnet_config "Beresheet" "beresheet_edgeware_testnet";
    Ret (Ok (Built spec))
  else if decide (id = "mainnet-conf") then
    spec ← edgeware_mainnet_config; Ret (Ok (Built spec))
  else if decide (id = "beresheet-v46-fast") then
    spec ← edgeware_beresheet_v46_fast; Ret (Ok spec)
  else if decide (id = "beresheet-v46") then spec ← edgeware_beresheet_v46; Ret (Ok spec)
  else if decide (id = "beresheet") then spec ← edgeware_beresheet_official; Ret (Ok spec)
  else if decide (id = "edgeware") then spec ← edgeware_mainnet_official; Ret (Ok spec)
  else Ret match from_json_file id with
           | Ok spec => Ok (Read spec)
           | Err e => Err e
           end.

End specs.

(** ** [IdentifyVariant] of service.rs *)

Definition starts_with (s pre : string) : bool := String.prefix pre s.

Definition is_mainnet (id : string) : bool :=
  starts_with id "edgeware" || starts_with id "edg".

Definition is_beresheet (id : string) : bool :=
  starts_with id "beresheet" || starts_with id "tedg".

Lemma starts_with_head s c pre :
  starts_with s (String c pre) = true → ∃ s', s = String c s'.
Proof.
  unfold starts_with. destruct s as [|a s]; [done|]. cbn [String.prefix].
  destruct (Ascii.ascii_dec c a) as [<-|]; [by eauto|done].
Qed.

(** No specification is of both networks: the prefixes begin with different letters. *)
Lemma variants_exclusive id : is_mainnet id = true → is_beresheet id = false.
Proof.
  unfold is_mainnet, is_beresheet.
  intros [[s ->]%starts_with_head|[s ->]%starts_with_head]%orb_true_iff; done.
Qed.

(** Addresses and amounts are shown as the runtime counts them on the main network; on
    test networks only amounts are. *)
Lemma properties_match :
  ss58Format main_properties = SS58Prefix ∧ 10 ^ tokenDecimals main_properties = DOLLARS ∧
  10 ^ tokenDecimals test_properties = DOLLARS ∧ ss58Format test_properties ≠ SS58Prefix.
Proof. by vm_compute. Qed.

(** An entry of the lockdrop's file, with the account of one of the founders. *)
Definition founder_entry : string * string :=
  ("765169492c492ee29f2af9af46f9e1b117aa0283b73a4361ae12ace1c41a6c72",
   "354063408254192269317334954").
Definition founder : AccountId :=
  0x765169492c492ee29f2af9af46f9e1b117aa0283b73a4361ae12ace1c41a6c72.

Section theorems.
Context {Multiaddr Json : Type}.
Context (account_from_seed : string → AccountId).
Context (grandpa_from_seed aura_from_seed im_online_from_seed discovery_from_seed : string → Z).
Context (parse_multiaddr : string → option Multiaddr).
Context (from_ss58check : string → option Z).
Context (from_hex : string → option AccountId).
Context (lockdrop : option Allocation).
Context (telemetry_valid : bool).
Context (from_json_bytes from_json_file : string → result Json string).

Abbreviation load_spec := (load_spec account_from_seed grandpa_from_seed aura_from_seed
  im_online_from_seed discovery_from_seed parse_multiaddr from_ss58check from_hex lockdrop
  telemetry_valid from_json_bytes from_json_file).

Lemma beresheet_authorities_length xs :
  get_beresheet_initial_authorities from_ss58check = Ret xs → length xs = 4%nat.
Proof. unfold get_beresheet_initial_authorities. intros Hrun. by run_inv. Qed.

Lemma testnet_config_consistent g :
  edgeware_testnet_config_genesis account_from_seed from_ss58check from_hex lockdrop = Ret g →
  one_balance g ∧ consistent g.
Proof.
  unfold edgeware_testnet_config_genesis. destruct lockdrop as [allocation|]; [|done].
  intros Hrun. run_inv.
  match goal with Ha : get_beresheet_initial_authorities _ = Ret ?xs |- _ =>
    apply beresheet_authorities_length in Ha end.
  edestruct (testnet_genesis_consistent account_from_seed) as (Hone & Hcon & _);
    [| |split; [exact Hone|exact Hcon]]; [constructor|lia].
Qed.

Lemma mainnet_config_consistent g :
  edgeware_mainnet_config_genesis from_hex lockdrop = Ret g → consistent g.
Proof.
  unfold edgeware_mainnet_config_genesis. destruct lockdrop as [allocation|]; [|done].
  intros Hrun. run_inv.
  destruct mainnet_fixtures_consistent as (_ & _ & _ & _ & _ & Hcov & _).
  by apply mainnet_genesis_consistent.
Qed.

(** The founder of the entry is paid twice. *)
Lemma mainnet_config_twice g allocation :
  lockdrop = Some allocation → founder_entry ∈ alloc_balances allocation →
  from_hex founder_entry.1 = Some founder →
  edgeware_mainnet_config_genesis from_hex lockdrop = Ret g → ¬ one_balance g.
Proof.
  intros Hlock Hin Hhex. unfold edgeware_mainnet_config_genesis. rewrite Hlock. intros Hrun.
  run_inv. unfold one_balance. cbn [mainnet_genesis g_balances].
  rewrite fmap_app. intros (_ & Hdis & _)%NoDup_app. apply (Hdis founder).
  - apply (bool_decide_unpack _). vm_compute. exact I.
  - change founder with (founder, 354063408254192269317334954).1. apply list_elem_of_fmap_2.
    by eapply lockdrop_balances_elem.
Qed.

Lemma compiled_not_built file spec :
  (s ← compiled_spec from_json_bytes file; Ret (Ok (E := string) s)) ≠
  Ret (Ok (Built (Multiaddr := Multiaddr) spec)).
Proof. unfold compiled_spec. by destruct (from_json_bytes file). Qed.

(** C38: every specification the node builds by name starts with working consensus and
    staking, and is classified as what it is.  When the seeds of the development accounts
    derive distinct accounts, the genesis of a built specification has stakers that bond what
    they have with a session key each and a funded controller, as many of them as the minimum
    of validators asks for, and a nonzero minting interval.  It has one balance per account,
    unless it is the main network's configuration: this has two balances for one founder, of
    whom the lockdrop's file has an entry too.  The identifier of a specification is one of
    the main network exactly for the main network's configuration, and one of Beresheet
    exactly for the test network's. *)
Theorem load_spec_consistent id spec :
  NoDup (default_endowed account_from_seed) →
  load_spec id = Ret (Ok (Built spec)) →
  (∀ g, spec_genesis spec = Ret g → consistent g ∧ (id ≠ "mainnet-conf"%string → one_balance g)) ∧
  (∀ g allocation, id = "mainnet-conf"%string → spec_genesis spec = Ret g →
     lockdrop = Some allocation → founder_entry ∈ alloc_balances allocation →
     from_hex founder_entry.1 = Some founder → ¬ one_balance g) ∧
  is_mainnet (spec_id spec) = bool_decide (id = "mainnet-conf"%string) ∧
  is_beresheet (spec_id spec) = bool_decide (id = "testnet-conf"%string).
Proof.
  intros Hnd. unfold Specs.load_spec.
  assert (∀ xs root g, zlen xs ≤ 7 →
    Ret (testnet_genesis account_from_seed xs root None [] true) = Ret g →
    consistent g ∧ (id ≠ "mainnet-conf"%string → one_balance g)) as Hdev.
  { intros xs root g Hlen [= <-].
    by destruct (testnet_genesis_consistent account_from_seed xs root None [] true) as (? & ? & _). }
  destruct (decide (id = "dev")) as [->|]; [|destruct (decide (_ ∨ _)) as [Hmulti|];
    [|destruct (decide (id = "local")) as [->|]; [|destruct (decide (id = "testnet-conf")) as [->|];
      [|destruct (decide (id = "mainnet-conf")) as [->|]]]]].
  - intros [= <-]. split; [|done]. intros g. by apply Hdev.
  - intros [= <-]. split; [intros g; by apply Hdev|]. by destruct Hmulti as [-> | ->].
  - intros [= <-]. split; [|done]. intros g. by apply Hdev.
  - unfold edgeware_testnet_config. intros Hrun. run_inv. split; [|done].
    intros g Hg. by destruct (testnet_config_consistent g Hg).
  - unfold edgeware_mainnet_config. intros Hrun. run_inv. split.
    + intros g Hg. split; [by apply mainnet_config_consistent|done].
    + split; [|done]. intros g allocation _ Hg Ha Hin Hhex. by eapply mainnet_config_twice.
  - intros Hrun. exfalso. revert Hrun.
    repeat (case_decide; [by intros ?%compiled_not_built|]).
    by destruct (from_json_file id).
Qed.

End theorems.

(** ** Witness *)

Module SpecExample.
(** Accounts and keys as the numbers of their strings. *)
Definition number_of (s : string) : Z := foldl (λ n b, 256 * n + Z.of_N (Byte.to_N b)) 1 (bytes_of s).
Definition some_number (s : string) : option Z := Some (number_of s).
Definition lockdrop : option Allocation :=
  Some (mkAllocation [("aa", "5"); founder_entry; ("cc", "0")]%string
          [("aa", 10, 1, "3")]%string).
Definition hex (s : string) : option Z :=
  if decide (s = founder_entry.1) then Some founder else some_number s.
Definition no_json (s : string) : result unit string := Err s.
Definition load := load_spec number_of number_of number_of number_of number_of (Some (A := string))
  some_number hex lockdrop true no_json no_json.
Definition spec : ChainSpec string :=
  match load "mainnet-conf" with
  | Ret (Ok (Built spec)) => spec
  | _ => local_testnet_config number_of number_of number_of number_of number_of
  end.

Lemma seeds_distinct : NoDup (default_endowed number_of).
Proof. apply (bool_decide_unpack _). vm_compute. exact I. Qed.
End SpecExample.

Lemma load_spec_consistent_witness :
  ∃ g, spec_genesis SpecExample.spec = Ret g ∧ length (g_balances g) = 36%nat ∧
    consistent g ∧ ¬ one_balance g ∧
    is_mainnet (spec_id SpecExample.spec) = true ∧ is_beresheet (spec_id SpecExample.spec) = false.
Proof.
  destruct (load_spec_consistent SpecExample.number_of SpecExample.number_of
    SpecExample.number_of SpecExample.number_of SpecExample.number_of (Some (A := string))
    SpecExample.some_number SpecExample.hex SpecExample.lockdrop true SpecExample.no_json
    SpecExample.no_json "mainnet-conf" SpecExample.spec SpecExample.seeds_distinct)
    as (Hg & Htwice & Hm & Hb); [vm_compute; reflexivity|].
  destruct (spec_genesis SpecExample.spec) as [g|] eqn:E; [|vm_compute in E; discriminate E].
  exists g. split; [reflexivity|]. split; [vm_compute in E; injection E as <-; reflexivity|].
  split; [exact (proj1 (Hg g eq_refl))|]. split; [|split; [exact Hm|exact Hb]].
  eapply Htwice; [reflexivity|reflexivity|reflexivity|right; left|reflexivity].
Defined.
