(* ===== verification/Service.v ===== *)
(** * The node's service and its RPC: node/cli/src, node/rpc/src

    The options of the command line (cli.rs), the commands (command.rs), the construction of a
    full node (service.rs) and of its RPC handlers (node/rpc/src/lib.rs, tracing.rs): which
    tasks are spawned and which APIs are served, in the order of the code, and what happens
    when a step of the framework fails.  The steps of the framework are parameters that
    succeed or fail. *)

From stdpp Require Import base tactics list gmap strings.
From Stdlib Require Import ZArith Lia Strings.Byte.
From S2P Require Import Prelude Runtime RpcTypes Fixtures Genesis Specs.
Local Open Scope Z_scope.

(** ** Options: cli.rs *)

Record RunCmd := mkRunCmd {
  validator : bool;
  enable_dev_signer : bool;
  target_gas_price : Z;
  ethapi : list EthApi;
  ethapi_max_permits : Z;
  ethapi_trace_max_count : Z;
  ethapi_trace_cache_duration : Z;
  eth_log_block_cache : Z;
  eth_statuses_cache : Z;
  max_past_logs : Z;
  fee_history_limit : Z;
}.

(** The values of the options that are not given. *)
Definition RunCmd_default : RunCmd := {|
  validator := false;
  enable_dev_signer := false;
  target_gas_price := 1;
  ethapi := [];
  ethapi_max_permits := 10;
  ethapi_trace_max_count := 500;
  ethapi_trace_cache_duration := 300;
  eth_log_block_cache := 300000000;
  eth_statuses_cache := 300000000;
  max_past_logs := 10000;
  fee_history_limit := 2048;
|}.

(** [conflicts_with = "validator"]: the parser refuses [--ethapi] with [--validator]. *)
Definition cli_accepts (cmd : RunCmd) : bool :=
  negb (validator cmd && negb (bool_decide (ethapi cmd = []))).

Inductive Subcommand :=
| Key | Benchmark | Verify | Vanity | Sign | BuildSpec | CheckBlock | ExportBlocks | ExportState
| ImportBlocks | PurgeChain | Revert.

Record Cli := mkCli { subcommand : option Subcommand; cli_run : RunCmd }.

(** ** Commands: command.rs *)

Record RpcConfig := mkRpcConfig {
  rc_ethapi : list EthApi;
  rc_ethapi_max_permits : Z;
  rc_ethapi_trace_max_count : Z;
  rc_ethapi_trace_cache_duration : Z;
  rc_eth_log_block_cache : Z;
  rc_eth_statuses_cache : Z;
  rc_fee_history_limit : Z;
  rc_max_past_logs : Z;
  rc_relay_chain_rpc_url : option string;
}.

Definition rpc_config_of (cmd : RunCmd) : RpcConfig := {|
  rc_ethapi := ethapi cmd;
  rc_ethapi_max_permits := ethapi_max_permits cmd;
  rc_ethapi_trace_max_count := ethapi_trace_max_count cmd;
  rc_ethapi_trace_cache_duration := ethapi_trace_cache_duration cmd;
  rc_eth_log_block_cache := eth_log_block_cache cmd;
  rc_eth_statuses_cache := eth_statuses_cache cmd;
  rc_fee_history_limit := fee_history_limit cmd;
  rc_max_past_logs := max_past_logs cmd;
  rc_relay_chain_rpc_url := None;
|}.

(** The components of [new_partial] a command works on. *)
Inductive Component := Client | Backend | ImportQueue | ChainSpecOf | Database.

(** What [run] does: it refuses, runs a command of the framework on its own, on a runner with
    or without components of the node, or starts the node. *)
Inductive Run :=
| RefuseBenchmark
| RunAlone (cmd : Subcommand)
| SyncRun (cmd : Subcommand) (on : list Component)
| AsyncRun (cmd : Subcommand) (on : list Component)
| RunNode (config : RpcConfig).

Definition run (cli : Cli) : Run :=
  match subcommand cli with
  | Some Benchmark => RefuseBenchmark
  | Some Key => RunAlone Key
  | Some Sign => RunAlone Sign
  | Some Verify => RunAlone Verify
  | Some Vanity => RunAlone Vanity
  | Some BuildSpec => SyncRun BuildSpec [ChainSpecOf]
  | Some CheckBlock => AsyncRun CheckBlock [Client; ImportQueue]
  | Some ExportBlocks => AsyncRun ExportBlocks [Client; Database]
  | Some ExportState => AsyncRun ExportState [Client; ChainSpecOf]
  | Some ImportBlocks => AsyncRun ImportBlocks [Client; ImportQueue]
  | Some PurgeChain => SyncRun PurgeChain [Database]
  | Some Revert => AsyncRun Revert [Client; Backend]
  | None => RunNode (rpc_config_of (cli_run cli))
  end.

(** ** The database of the Ethereum mapping: service.rs *)

Inductive DatabaseSource :=
| RocksDb (path : list string) (cache_size : Z)
| ParityDb (path : list string)
| AutoDb (rocksdb_path paritydb_path : list string) (cache_size : Z)
| CustomDb.

Inductive Role := Full | AuthorityRole.

(** The fields of a [Configuration] the service looks at. *)
Record Configuration := mkConfiguration {
  chain_id : string;
  base_path : option (list string);
  database : DatabaseSource;
  role : Role;
  disable_grandpa : bool;
  offchain_worker_enabled : bool;
  telemetry_endpoints : option (list (string * Z));
}.

Section database.
(** [BasePath::config_dir], and [BasePath::from_project]. *)
Context (config_dir : list string → string → list string).
Context (from_project : string → list string).

Definition frontier_database_dir (config : Configuration) (path : string) : list string :=
  let config_dir :=
    match base_path config with
    | Some base_path => config_dir base_path (chain_id config)
    | None => config_dir (from_project "moonbeam") (chain_id config)
    end in
  config_dir ++ ["frontier"] ++ [path].

(** The source [open_frontier_backend] opens. *)
Definition frontier_source (config : Configuration) : result DatabaseSource string :=
  match database config with
  | RocksDb _ _ => Ok (RocksDb (frontier_database_dir config "db") 0)
  | ParityDb _ => Ok (ParityDb (frontier_database_dir config "paritydb"))
  | AutoDb _ _ _ =>
      Ok (AutoDb (frontier_database_dir config "db") (frontier_database_dir config "paritydb") 0)
  | CustomDb => Err "Supported db sources: `rocksdb` | `paritydb` | `auto`"%string
  end.

End database.

(** ** Spawning tasks *)

(** [sc_finality_grandpa::Config], without its names and telemetry: a voter without a
    keystore follows the votes of others and casts none. *)
Record GrandpaConfig := mkGrandpaConfig {
  gossip_duration : Z;
  justification_period : Z;
  observer_enabled : bool;
  grandpa_keystore : bool;
  local_role : Role;
}.

(** What a task runs, where its start matters here: the cache task of trace_filter with the
    permits there are, the voter with its configuration. *)
Inductive TaskBody :=
| CacheTask (permits : Z)
| GrandpaVoter (config : GrandpaConfig)
| OtherTask.

Record Task := mkTask {
  task_name : string;
  task_group : option string;
  essential : bool;
  blocking : bool;
  task_body : TaskBody;
}.

(** tokio's [mpsc::channel], which panics for an empty buffer. *)
Definition mpsc_channel (buffer : Z) : outcome unit := if buffer =? 0 then Panic else Ret tt.

(** What a task does first when it runs: the cache task makes the channel of its tracing
    tasks. *)
Definition first_poll (body : TaskBody) : outcome unit :=
  match body with
  | CacheTask permits => mpsc_channel (permits * 2)
  | _ => Ret tt
  end.

(** What the construction starts: tasks of its own, and services of the framework. *)
Inductive Started :=
| StartTask (t : Task)
| StartOffchainWorkers
| StartNetwork.

(** The construction of the node: what was started so far, and an early return with an
    error, or a panic. *)
Definition Build (A : Type) : Type := list Started → outcome (list Started * result A string).

Definition pure {A} (a : A) : Build A := λ tasks, Ret (tasks, Ok a).
Definition attempt {A} (r : result A string) : Build A := λ tasks, Ret (tasks, r).
Definition expect {A} (r : option A) : Build A :=
  λ tasks, match r with Some a => Ret (tasks, Ok a) | None => Panic end.
Definition start (x : Started) : Build unit := λ tasks, Ret (tasks ++ [x], Ok tt).
Definition spawn (t : Task) : Build unit := start (StartTask t).
#[global] Instance Build_bind : MBind Build := λ A B k m tasks,
  '(tasks, r) ← (m tasks : outcome (list Started * result A string));
  match r with
  | Ok a => k a tasks
  | Err e => Ret (tasks, Err e)
  end.

Definition when (b : bool) (m : Build unit) : Build unit := if b then m else pure tt.

(** ** The RPC handlers: node/rpc/src/lib.rs *)

Inductive RpcApi :=
| SystemApi | ContractsApi | TransactionPaymentApi | GrandpaApi | DevApi
| EthRpcApi (dev_signer : bool) | EthFilterApi (max_past_logs : Z) | NetApi | Web3Api
| EthPubSubApi | TxPoolApi | ManualSealApi | TraceApi (max_count : Z) | DebugApi.

(** The Ethereum storage schemas and the override for each. *)
Inductive EthereumStorageSchema := SchemaUndefined | V1 | V2 | V3.
Inductive StorageOverride := SchemaV1Override | SchemaV2Override | SchemaV3Override.
#[global] Instance EthereumStorageSchema_eq_dec : EqDecision EthereumStorageSchema.
Proof. solve_decision. Defined.

(** [overrides_handle]: the schemas of the map, as its lookup. *)
Definition overrides_handle (schema : EthereumStorageSchema) : option StorageOverride :=
  match schema with
  | V1 => Some SchemaV1Override
  | V2 => Some SchemaV2Override
  | V3 => Some SchemaV3Override
  | SchemaUndefined => None
  end.

(** The fields of [FullDeps] that decide which handlers there are. *)
Record FullDeps := mkFullDeps {
  deps_enable_dev_signer : bool;
  deps_filter_pool : bool;
  deps_ethapi_cmd : list EthApi;
  deps_max_past_logs : Z;
  deps_command_sink : bool;
}.

Definition create_full (deps : FullDeps) : list RpcApi :=
  [SystemApi; ContractsApi; TransactionPaymentApi; GrandpaApi; DevApi;
   EthRpcApi (deps_enable_dev_signer deps)]
  ++ (if deps_filter_pool deps then [EthFilterApi (deps_max_past_logs deps)] else [])
  ++ [NetApi; Web3Api; EthPubSubApi]
  ++ (if decide (ApiTxpool ∈ deps_ethapi_cmd deps) then [TxPoolApi] else [])
  ++ (if deps_command_sink deps then [ManualSealApi] else []).

Definition essential_task (name group : string) : Task :=
  mkTask name (Some group) true false OtherTask.

(** [spawn_essential_tasks]. *)
Definition spawn_essential_tasks (filter_pool : bool) : Build unit :=
  (spawn (essential_task "frontier-mapping-sync-worker" "frontier");;
   when filter_pool (spawn (essential_task "frontier-filter-pool" "frontier"));;
   spawn (essential_task "frontier-schema-cache-task" "frontier");;
   spawn (essential_task "frontier-fee-history" "frontier")).

(** ** Tracing: node/rpc/src/tracing.rs *)

(** Which requesters there are. *)
Record RpcRequesters := mkRequesters { req_debug : bool; req_trace : bool }.

(** The task of [CacheTask::create], with the permits of the pool. *)
Definition trace_filter_task (permits : Z) : Task :=
  mkTask "trace-filter-cache" (Some "frontier-tracing"%string) true false (CacheTask permits).

Definition spawn_tracing_tasks (rpc_config : RpcConfig) : Build RpcRequesters :=
  let permit_pool := rc_ethapi_max_permits rpc_config in
  let trace := bool_decide (ApiTrace ∈ rc_ethapi rpc_config) in
  let debug := bool_decide (ApiDebug ∈ rc_ethapi rpc_config) in
  (when trace (spawn (trace_filter_task permit_pool));;
   when debug (spawn (essential_task "ethapi-debug" "frontier-tracing"));;
   pure (mkRequesters debug trace)).

Definition extend_with_tracing (requesters : RpcRequesters) (trace_filter_max_count : Z)
    (io : list RpcApi) : list RpcApi :=
  let io := if req_trace requesters then io ++ [TraceApi trace_filter_max_count] else io in
  if req_debug requesters then io ++ [DebugApi] else io.

(** ** The construction of the node: service.rs *)

(** The steps of the framework that can fail, in the order of the code. *)
Record Framework := mkFramework {
  telemetry_worker_new : result unit string;
  new_full_parts : result unit string;
  frontier_backend_new : DatabaseSource → result unit string;
  grandpa_block_import : result unit string;
  aura_slot_duration : result Z string;
  aura_import_queue : result unit string;
  genesis_hash : option H256;
  build_network : result unit string;
  service_spawn_tasks : result unit string;
  start_aura : result unit string;
  run_grandpa_voter : GrandpaConfig → result unit string;
}.

Section service.
Context (config_dir : list string → string → list string).
Context (from_project : string → list string).
Context (fw : Framework).

(** [open_frontier_backend]. *)
Definition open_frontier_backend (config : Configuration) : result unit string :=
  source ←? frontier_source config_dir from_project config;
  frontier_backend_new fw source.

(** The endpoints of the telemetry, when there are any. *)
Definition telemetry_of (config : Configuration) : bool :=
  match telemetry_endpoints config with Some (_ :: _) => true | _ => false end.

(** [new_partial]. *)
Definition new_partial (config : Configuration) : Build unit :=
  ((if telemetry_of config then attempt (telemetry_worker_new fw) else pure tt);;
   attempt (new_full_parts fw);;
   when (telemetry_of config) (spawn (mkTask "telemetry" None false false OtherTask));;
   attempt (open_frontier_backend config);;
   attempt (grandpa_block_import fw);;
   slot_duration ← attempt (aura_slot_duration fw);
   attempt (aura_import_queue fw)).

Definition is_authority (r : Role) : bool :=
  match r with AuthorityRole => true | Full => false end.

(** [cli.run.ethapi.iter().map(|v| EthApiCmd::from_str(&v.to_string())).flatten()] *)
Definition ethapi_cmd_of (cmd : RunCmd) : list EthApi :=
  omap (λ v, match EthApi_from_str (EthApi_fmt v) with Ok a => Some a | Err _ => None end)
    (ethapi cmd).

Definition wants_tracing (ethapi_cmd : list EthApi) : bool :=
  bool_decide (ApiDebug ∈ ethapi_cmd) || bool_decide (ApiTrace ∈ ethapi_cmd).

(** The block that starts the authoring of an authority. *)
Definition spawn_aura : Build unit :=
  (slot_duration ← attempt (aura_slot_duration fw);
   attempt (start_aura fw);;
   spawn (mkTask "aura-proposer" None true true OtherTask)).

(** [rpc_extensions_builder]. *)
Definition rpc_extensions (cmd : RunCmd) (rpc_config : RpcConfig) (ethapi_cmd : list EthApi)
    (tracing_requesters : RpcRequesters) : list RpcApi :=
  let deps := mkFullDeps (enable_dev_signer cmd) true ethapi_cmd (rc_max_past_logs rpc_config)
                false in
  let io := create_full deps in
  if wants_tracing ethapi_cmd
  then extend_with_tracing tracing_requesters (rc_ethapi_trace_max_count rpc_config) io
  else io.

(** The blocks that start the discovery of authorities and the voter. *)
Definition spawn_authority_discovery : Build unit :=
  spawn (mkTask "authority-discovery-worker" (Some "networking"%string) false false OtherTask).
Definition grandpa_config (config : Configuration) : GrandpaConfig :=
  let keystore := is_authority (role config) in
  mkGrandpaConfig 333 512 false keystore (role config).
Definition grandpa_task (config : Configuration) : Task :=
  mkTask "grandpa-voter" None true true (GrandpaVoter (grandpa_config config)).
Definition spawn_grandpa (config : Configuration) : Build unit :=
  (attempt (run_grandpa_voter fw (grandpa_config config));; spawn (grandpa_task config)).

(** [new_full_base]: the APIs the node serves, with what was started. *)
Definition new_full_base (config : Configuration) (cmd : RunCmd) (rpc_config : RpcConfig) :
    Build (list RpcApi) :=
  (new_partial config;;
   hash ← expect (genesis_hash fw);
   attempt (build_network fw);;
   when (offchain_worker_enabled config) (start StartOffchainWorkers);;
   spawn_essential_tasks true;;
   let ethapi_cmd := ethapi_cmd_of cmd in
   tracing_requesters ←
     (if wants_tracing ethapi_cmd then spawn_tracing_tasks rpc_config
      else pure (mkRequesters false false));
   let io := rpc_extensions cmd rpc_config ethapi_cmd tracing_requesters in
   attempt (service_spawn_tasks fw);;
   when (is_authority (role config)) spawn_aura;;
   when (is_authority (role config)) spawn_authority_discovery;;
   when (negb (disable_grandpa config)) (spawn_grandpa config);;
   start StartNetwork;;
   pure io).

(** [new_full] with the configuration that [run] makes of the options. *)
Definition new_full (config : Configuration) (cmd : RunCmd) :
    outcome (list Started * result (list RpcApi) string) :=
  new_full_base config cmd (rpc_config_of cmd) [].

End service.

(** ** Theorems *)

Section theorems.
Context (config_dir : list string → string → list string).
Context (from_project : string → list string).
Context (fw : Framework).

Abbreviation new_full := (new_full config_dir from_project fw).

(** The options are read back from their display. *)
Lemma ethapi_cmd_same cmd : ethapi_cmd_of cmd = ethapi cmd.
Proof.
  unfold ethapi_cmd_of. induction (ethapi cmd) as [|a l IH]; [done|]. simpl.
  rewrite (proj2 (EthApi_roundtrip _ a) eq_refl). by f_equal.
Qed.

Definition started_if (b : bool) (x : Started) : list Started := if b then [x] else [].

(** Everything a node that is up has started, in order. *)
Definition started (config : Configuration) (cmd : RunCmd) : list Started :=
  started_if (telemetry_of config) (StartTask (mkTask "telemetry" None false false OtherTask)) ++
  started_if (offchain_worker_enabled config) StartOffchainWorkers ++
  (StartTask <$> [essential_task "frontier-mapping-sync-worker" "frontier";
                  essential_task "frontier-filter-pool" "frontier";
                  essential_task "frontier-schema-cache-task" "frontier";
                  essential_task "frontier-fee-history" "frontier"]) ++
  started_if (bool_decide (ApiTrace ∈ ethapi cmd))
    (StartTask (trace_filter_task (ethapi_max_permits cmd))) ++
  started_if (bool_decide (ApiDebug ∈ ethapi cmd))
    (StartTask (essential_task "ethapi-debug" "frontier-tracing")) ++
  started_if (is_authority (role config)) (StartTask (mkTask "aura-proposer" None true true OtherTask)) ++
  started_if (is_authority (role config))
    (StartTask (mkTask "authority-discovery-worker" (Some "networking"%string) false false OtherTask)) ++
  started_if (negb (disable_grandpa config))
    (StartTask (grandpa_task config)) ++
  [StartNetwork].

Lemma bind_Ok {A B} (m : Build A) (k : A → Build B) t t' b :
  (m ≫= k) t = Ret (t', Ok b) → ∃ t1 a, m t = Ret (t1, Ok a) ∧ k a t1 = Ret (t', Ok b).
Proof.
  intros Hrun. unfold mbind, Build_bind in Hrun. run_inv. destruct x as [t1 [a|e]]; [eauto|by run_inv].
Qed.

Lemma when_spawn b x t t' u :
  when b (start x) t = Ret (t', Ok u) → t' = t ++ started_if b x.
Proof.
  unfold when, start, pure, started_if. destruct b; intros; simplify_eq; [done|].
  by rewrite app_nil_r.
Qed.


Lemma attempt_Ok {A} (r : result A string) t t' a :
  attempt r t = Ret (t', Ok a) → t' = t ∧ r = Ok a.
Proof. unfold attempt. by intros [= -> ->]. Qed.

Lemma expect_Ok {A} (r : option A) t t' a : expect r t = Ret (t', Ok a) → t' = t ∧ r = Some a.
Proof. unfold expect. destruct r; [by intros [= -> ->]|done]. Qed.

(** Inverts the steps of a construction that succeeded. *)
Ltac build_inv :=
  repeat match goal with
  | H : (_ ≫= _) _ = Ret (_, Ok _) |- _ => apply bind_Ok in H as (? & ? & ? & H)
  | H : attempt _ _ = Ret (_, Ok _) |- _ => apply attempt_Ok in H as [-> ?]
  | H : expect _ _ = Ret (_, Ok _) |- _ => apply expect_Ok in H as [-> ?]
  | H : when _ (spawn _) _ = Ret (_, Ok _) |- _ => apply when_spawn in H as ->
  | H : when _ (start _) _ = Ret (_, Ok _) |- _ => apply when_spawn in H as ->
  | H : spawn _ _ = Ret (_, Ok _) |- _ => injection H as <- <-
  | H : start _ _ = Ret (_, Ok _) |- _ => injection H as <- <-
  | H : pure _ _ = Ret (_, Ok _) |- _ => injection H as <- <-
  end.

Lemma new_partial_started config t t' u :
  new_partial config_dir from_project fw config t = Ret (t', Ok u) →
  t' = t ++ started_if (telemetry_of config) (StartTask (mkTask "telemetry" None false false OtherTask)).
Proof.
  unfold new_partial. intros Hrun. build_inv.
  destruct (telemetry_of config) in *; build_inv; done.
Qed.

Lemma essential_started t t' u :
  spawn_essential_tasks true t = Ret (t', Ok u) →
  t' = t ++ (StartTask <$> [essential_task "frontier-mapping-sync-worker" "frontier";
                  essential_task "frontier-filter-pool" "frontier";
                  essential_task "frontier-schema-cache-task" "frontier";
                  essential_task "frontier-fee-history" "frontier"]).
Proof.
  unfold spawn_essential_tasks. intros Hrun. build_inv. by rewrite <-!app_assoc.
Qed.

(** The APIs of a node that is up. *)
Definition served (cmd : RunCmd) : list RpcApi :=
  create_full (mkFullDeps (enable_dev_signer cmd) true (ethapi cmd) (max_past_logs cmd) false)
  ++ (if decide (ApiTrace ∈ ethapi cmd) then [TraceApi (ethapi_trace_max_count cmd)] else [])
  ++ (if decide (ApiDebug ∈ ethapi cmd) then [DebugApi] else []).

Lemma tracing_started cmd t t' reqs :
  (if wants_tracing (ethapi cmd) then spawn_tracing_tasks (rpc_config_of cmd)
   else pure (mkRequesters false false)) t = Ret (t', Ok reqs) →
  t' = t ++ started_if (bool_decide (ApiTrace ∈ ethapi cmd))
              (StartTask (trace_filter_task (ethapi_max_permits cmd))) ++
            started_if (bool_decide (ApiDebug ∈ ethapi cmd))
              (StartTask (essential_task "ethapi-debug" "frontier-tracing")) ∧
  ∀ io, (if wants_tracing (ethapi cmd)
         then extend_with_tracing reqs (ethapi_trace_max_count cmd) io else io) =
    io ++ (if decide (ApiTrace ∈ ethapi cmd) then [TraceApi (ethapi_trace_max_count cmd)] else [])
       ++ (if decide (ApiDebug ∈ ethapi cmd) then [DebugApi] else []).
Proof.
  unfold wants_tracing, spawn_tracing_tasks, extend_with_tracing. simpl rc_ethapi. simpl rc_ethapi_max_permits.
  destruct (decide (ApiTrace ∈ ethapi cmd)), (decide (ApiDebug ∈ ethapi cmd));
    rewrite ?(bool_decide_true (ApiTrace ∈ _)), ?(bool_decide_false (ApiTrace ∈ _)),
      ?(bool_decide_true (ApiDebug ∈ _)), ?(bool_decide_false (ApiDebug ∈ _)) by done;
    simpl; intros Hrun; build_inv; simpl; rewrite ?app_nil_r, <-?app_assoc;
    split; try done; intros io; by rewrite ?app_nil_r, <-?app_assoc.
Qed.

Lemma when_last {A} b (m : Build A) x t t' u :
  when b (m;; spawn x) t = Ret (t', Ok u) → (∀ t1 a, m t = Ret (t1, Ok a) → t1 = t) →
  t' = t ++ started_if b (StartTask x).
Proof.
  unfold when. destruct b; simpl; intros Hrun Hm; build_inv.
  - match goal with H : m t = _ |- _ => by apply Hm in H as -> end.
  - by rewrite app_nil_r.
Qed.

Lemma aura_started b t t' u :
  when b (spawn_aura fw) t = Ret (t', Ok u) →
  t' = t ++ started_if b (StartTask (mkTask "aura-proposer" None true true OtherTask)).
Proof.
  unfold when, spawn_aura. destruct b; intros Hrun; build_inv; simpl; by rewrite ?app_nil_r.
Qed.

Lemma new_full_started config cmd t io :
  new_full config cmd = Ret (t, Ok io) → t = started config cmd ∧ io = served cmd.
Proof.
  unfold Service.new_full, new_full_base, rpc_extensions, spawn_authority_discovery,
    spawn_grandpa. intros Hrun. rewrite ethapi_cmd_same in Hrun.
  build_inv.
  match goal with H : new_partial _ _ _ _ _ = _ |- _ => apply new_partial_started in H as -> end.
  match goal with H : spawn_essential_tasks _ _ = _ |- _ => apply essential_started in H as -> end.
  match goal with H : (if wants_tracing _ then _ else _) _ = _ |- _ =>
    apply tracing_started in H as [-> Hio] end.
  match goal with H : when _ (spawn_aura _) _ = _ |- _ => apply aura_started in H as -> end.
  match goal with H : when _ (_;; _) _ = _ |- _ => apply when_last in H as -> end;
    [|by intros ?? [? ?]%attempt_Ok].
  split; [unfold started; by rewrite <-!app_assoc|apply Hio].
Qed.

Lemma elem_of_started_if x b y : x ∈ started_if b y ↔ b = true ∧ x = y.
Proof.
  unfold started_if. destruct b; rewrite ?list_elem_of_singleton, ?elem_of_nil; intuition congruence.
Qed.

Lemma elem_of_if {A} (P : Prop) `{!Decision P} (x y : A) :
  x ∈ (if decide P then [y] else []) ↔ P ∧ x = y.
Proof. case_decide; rewrite ?list_elem_of_singleton, ?elem_of_nil; intuition congruence. Qed.

Lemma is_authority_true r : is_authority r = true ↔ r = AuthorityRole.
Proof. by destruct r. Qed.

(** A node stays up when no essential task panics as it starts. *)
Definition survives (x : Started) : bool :=
  match x with
  | StartTask t => negb (essential t) || bool_decide (first_poll (task_body t) = Ret tt)
  | _ => true
  end.

(** The tasks that vote. *)
Definition votes (x : Started) : bool :=
  match x with
  | StartTask (mkTask _ _ _ _ (GrandpaVoter c)) => grandpa_keystore c
  | _ => false
  end.

Lemma forallb_started_if f b x : forallb f (started_if b x) = negb b || f x.
Proof. destruct b; [apply andb_true_r|done]. Qed.
Lemma existsb_started_if f b x : existsb f (started_if b x) = b && f x.
Proof. destruct b; [apply orb_false_r|done]. Qed.

Lemma started_survives config cmd :
  forallb survives (started config cmd) =
  negb (bool_decide (ApiTrace ∈ ethapi cmd)) || negb (ethapi_max_permits cmd =? 0).
Proof.
  unfold started. rewrite !forallb_app, !forallb_started_if. cbn -[Z.eqb Z.mul].
  rewrite !orb_true_r, !andb_true_r. cbn [andb]. f_equal. unfold mpsc_channel.
  destruct (Z.eqb_spec (ethapi_max_permits cmd) 0) as [->|]; [done|].
  by rewrite (proj2 (Z.eqb_neq _ _)) by lia.
Qed.

Lemma started_votes config cmd :
  existsb votes (started config cmd) =
  negb (disable_grandpa config) && is_authority (role config).
Proof.
  unfold started. rewrite !existsb_app, !existsb_started_if. cbn -[negb].
  by rewrite !andb_false_r, orb_false_r.
Qed.

(** Membership in the lists of the node, by cases. *)
Ltac node_elem :=
  unfold started, served, create_full, essential_task, trace_filter_task, grandpa_task;
  cbn [fmap list_fmap deps_enable_dev_signer
    deps_filter_pool deps_ethapi_cmd deps_max_past_logs deps_command_sink];
  rewrite ?elem_of_app, ?elem_of_started_if, ?elem_of_if, ?elem_of_cons, ?elem_of_nil,
    ?bool_decide_eq_true, ?is_authority_true, ?negb_true_iff; intuition congruence.

(** C39: a node whose construction succeeds serves exactly what was asked for, and starts
    what it serves.  It has the trace API, with the limit of the options, if and only if
    [trace] was asked for, and then it starts the cache task of trace_filter with the permits
    of the options; the same for the debug API and its task, and for the pool's API.  It
    starts the authoring of blocks exactly as an authority, and the Grandpa voter exactly
    unless Grandpa is disabled; it casts votes, having a keystore, only as an authority.  It
    stays up unless the trace API was asked for with no permits: then the cache task, an
    essential one, panics as it makes its channel.  With [--validator] the options the parser
    accepts give none of the Ethereum extensions. *)
Theorem node_serves config cmd t io :
  new_full config cmd = Ret (t, Ok io) →
  (∀ n, TraceApi n ∈ io ↔ ApiTrace ∈ ethapi cmd ∧ n = ethapi_trace_max_count cmd) ∧
  (DebugApi ∈ io ↔ ApiDebug ∈ ethapi cmd) ∧
  (TxPoolApi ∈ io ↔ ApiTxpool ∈ ethapi cmd) ∧
  (∀ permits, StartTask (trace_filter_task permits) ∈ t ↔
     ApiTrace ∈ ethapi cmd ∧ permits = ethapi_max_permits cmd) ∧
  (StartTask (essential_task "ethapi-debug" "frontier-tracing") ∈ t ↔ ApiDebug ∈ ethapi cmd) ∧
  (StartTask (mkTask "aura-proposer" None true true OtherTask) ∈ t ↔
     role config = AuthorityRole) ∧
  (StartTask (grandpa_task config) ∈ t ↔ disable_grandpa config = false) ∧
  (existsb votes t = true ↔ disable_grandpa config = false ∧ role config = AuthorityRole) ∧
  (forallb survives t = false ↔ ApiTrace ∈ ethapi cmd ∧ ethapi_max_permits cmd = 0) ∧
  (cli_accepts cmd = true → validator cmd = true →
     (∀ n, ¬ TraceApi n ∈ io) ∧ (¬ DebugApi ∈ io) ∧ (¬ TxPoolApi ∈ io)).
Proof.
  intros [-> ->]%new_full_started. split_and!.
  - intros n. node_elem.
  - node_elem.
  - node_elem.
  - intros permits. node_elem.
  - node_elem.
  - node_elem.
  - node_elem.
  - by rewrite started_votes, andb_true_iff, negb_true_iff, is_authority_true.
  - by rewrite started_survives, orb_false_iff, !negb_false_iff, bool_decide_eq_true, Z.eqb_eq.
  - unfold cli_accepts. intros Hok Hv. rewrite Hv in Hok.
    destruct (bool_decide_reflect (ethapi cmd = [])) as [He|]; [|done].
    assert (∀ a, ¬ a ∈ ethapi cmd) as Hnone by (intros a; rewrite He; apply not_elem_of_nil).
    pose proof (Hnone ApiTrace). pose proof (Hnone ApiDebug). pose proof (Hnone ApiTxpool).
    split_and!; [intros n| |]; node_elem.
Qed.

End theorems.

(** ** Witness *)

Module ServiceExample.
Definition framework : Framework :=
  mkFramework (Ok tt) (Ok tt) (λ _, Ok tt) (Ok tt) (Ok 6000) (Ok tt) (Some 1) (Ok tt) (Ok tt)
    (Ok tt) (λ _, Ok tt).
Definition dir (base : list string) (id : string) : list string := base ++ ["chains"%string; id].
Definition project (name : string) : list string := ["home"%string; name].
Definition config : Configuration :=
  mkConfiguration "edgeware" None (RocksDb [] 0) Full false true None.
Definition cmd : RunCmd :=
  mkRunCmd false false 1 [ApiTrace; ApiTxpool] 10 500 300 0 0 10000 2048.
Definition node := new_full dir project framework config cmd.
End ServiceExample.

Lemma node_serves_witness :
  ∃ t io, ServiceExample.node = Ret (t, Ok io) ∧ TraceApi 500 ∈ io ∧ ¬ DebugApi ∈ io ∧
    ¬ StartTask (mkTask "aura-proposer" None true true OtherTask) ∈ t ∧
    existsb votes t ≠ true ∧ forallb survives t = true.
Proof.
  unfold ServiceExample.node. eexists _, _. split; [vm_compute; reflexivity|].
  match goal with |- TraceApi 500 ∈ ?io ∧ _ ∧ ¬ _ ∈ ?t ∧ _ =>
    destruct (node_serves ServiceExample.dir ServiceExample.project ServiceExample.framework
      ServiceExample.config ServiceExample.cmd t io)
      as (Htr & Hd & _ & _ & _ & Ha & _ & Hv & Hs & _)
  end; [vm_compute; reflexivity|].
  split; [apply Htr; split; [left|done]|]. split; [|split; [|split]].
  - rewrite Hd. apply (bool_decide_unpack _). vm_compute. exact I.
  - rewrite Ha. done.
  - rewrite Hv. intros [_ [=]].
  - apply not_false_is_true. rewrite Hs. intros [_ [=]].
Defined.
