(* ===== verification/Migrations.v ===== *)
(** * Storage migrations: node/runtime/src/migrations.rs

    What runs when the runtime is upgraded: the migrations of the framework's
    pallets, which are parameters, in the order of [AllEdgewareMigrations], and
    the two the repository writes itself, the preferences of validators and the
    credit of the Web3 foundation, which overrides an account's raw record. *)

From stdpp Require Import base tactics list gmap strings.
From Stdlib Require Import ZArith Lia Strings.Byte.
From S2P Require Import Prelude TraceTypes Serialization Runtime.
Local Open Scope Z_scope.

(** The record of an account as the system pallet encodes it, little-endian: the
    nonce and three reference counts of 32 bits, and four balances of 128. *)
Record AccountInfo := mkAccount {
  nonce : Z;
  consumers : Z;
  providers : Z;
  sufficients : Z;
  free : Z;
  reserved : Z;
  misc_frozen : Z;
  fee_frozen : Z;
}.

Definition account_words (a : AccountInfo) : list Z :=
  [nonce a + consumers a * 2 ^ 32 + providers a * 2 ^ 64 + sufficients a * 2 ^ 96;
   free a; reserved a; misc_frozen a; fee_frozen a].

Definition credited (a : AccountInfo) (amount : Z) : AccountInfo :=
  mkAccount (nonce a) (consumers a) (providers a) (sufficients a) (free a + amount)
    (reserved a) (misc_frozen a) (fee_frozen a).

(** The fields of a record that the chain can hold. *)
Definition account_ok (a : AccountInfo) : Prop :=
  Forall (λ x, 0 ≤ x < 2 ^ 32) [nonce a; consumers a; providers a; sufficients a] ∧
  Forall (λ x, 0 ≤ x < 2 ^ 128) [free a; reserved a; misc_frozen a; fee_frozen a].

(** Raw storage by key, the bytes of a key as numbers. *)
Abbreviation Storage := (gmap (list Z) bytes).

(** The codec of [[u128; 5]]: words of 16 bytes, little-endian; bytes that follow are left. *)
Definition encode_words (l : list Z) : bytes := l ≫= λ z, reverse (be_bytes 16 z).
Definition word_at (b : bytes) (i : nat) : Z :=
  H256_from_slice (reverse (take 16 (drop (16 * i) b))).
Definition decode_words (b : bytes) : option (list Z) :=
  if decide (80 ≤ length b)%nat then Some (word_at b <$> seq 0 5) else None.

Lemma length_word z : length (reverse (be_bytes 16 z)) = 16%nat.
Proof. by rewrite length_reverse. Qed.

Lemma word_at_head z b : 0 ≤ z < 2 ^ 128 → word_at (reverse (be_bytes 16 z) ++ b) 0 = z.
Proof.
  intros Hz. unfold word_at. rewrite Nat.mul_0_r, drop_0.
  rewrite take_app_length' by (by rewrite length_word). rewrite reverse_involutive.
  by apply be_bytes_value.
Qed.
Lemma word_at_tail z b i : word_at (reverse (be_bytes 16 z) ++ b) (S i) = word_at b i.
Proof.
  unfold word_at. replace (16 * S i)%nat with (16 + 16 * i)%nat by lia.
  by rewrite <-drop_drop, drop_app_length' by (by rewrite length_word).
Qed.

Lemma decode_encode_words a0 a1 a2 a3 a4 :
  Forall (λ z, 0 ≤ z < 2 ^ 128) [a0; a1; a2; a3; a4] →
  decode_words (encode_words [a0; a1; a2; a3; a4]) = Some [a0; a1; a2; a3; a4].
Proof.
  rewrite !Forall_cons. intros (H0 & H1 & H2 & H3 & H4 & _). unfold decode_words.
  assert (length (encode_words [a0; a1; a2; a3; a4]) = 80%nat) as Hlen.
  { unfold encode_words. cbn [mbind list_bind]. by rewrite !length_app, !length_word. }
  rewrite decide_True by lia. unfold encode_words. cbn [mbind list_bind seq fmap list_fmap].
  by rewrite !word_at_tail, !word_at_head.
Qed.

(** The bytes of an account's record. *)
Definition account_bytes (a : AccountInfo) : bytes := encode_words (account_words a).

Lemma decode_account a :
  account_ok a → decode_words (account_bytes a) = Some (account_words a).
Proof.
  intros [Hc Hb]. apply decode_encode_words. rewrite !Forall_cons in *.
  destruct_and!. split_and!; try done; lia.
Qed.

Definition to_credit : Z := 150000000 * DOLLARS.

Definition web3_id : list Z :=
  [0xd9; 0x6f; 0xd7; 0x61; 0x3d; 0x51; 0x50; 0x8e; 0xed; 0xc4; 0x0c; 0xc8; 0x48; 0x10; 0x82;
   0x90; 0x17; 0x9f; 0xea; 0x6f; 0xfe; 0x8c; 0xc1; 0xd1; 0xf8; 0x66; 0x31; 0xa1; 0x8e; 0x0a;
   0xc5; 0x5f].
Definition pfx : list Z :=
  [38; 170; 57; 78; 234; 86; 48; 224; 124; 72; 174; 12; 149; 88; 206; 247;
   185; 157; 136; 14; 198; 129; 121; 156; 12; 243; 14; 136; 134; 55; 29; 169].

Section credit.
Context `{!BuildProfile}.
(** The digest of 16 bytes. *)
Context (blake2_128 : list Z → list Z).

Definition sk : list Z := pfx ++ blake2_128 web3_id ++ web3_id.

(** [Web3AccountCreditMigration::on_runtime_upgrade]: a record that is too short is taken as
    none. *)
Definition web3_credit (s : Storage) : outcome Storage :=
  match (s !! sk) ≫= decode_words with
  | Some [a0; a1; a2; a3; a4] =>
      a1 ← add_w 128 a1 to_credit;
      Ret (<[sk := encode_words [a0; a1; a2; a3; a4]]> s)
  | _ => Ret (<[sk := encode_words [18446744073709551616; to_credit; 0; 0; 0]]> s)
  end.

(** The words of a record with the credit: 128 bits of the second word, or a new record. *)
Definition credited_words (r : option bytes) : list Z :=
  match r ≫= decode_words with
  | Some (a0 :: a1 :: l) => a0 :: (a1 + to_credit) mod 2 ^ 128 :: l
  | _ => account_words (mkAccount 0 0 1 0 to_credit 0 0 0)
  end.

(** Whether the balance of a record takes the credit. *)
Definition credit_fits (r : option bytes) : bool :=
  match r ≫= decode_words with
  | Some (a0 :: a1 :: l) => a1 + to_credit <? 2 ^ 128
  | _ => true
  end.

Lemma decode_words_length b l : decode_words b = Some l → length l = 5%nat.
Proof. unfold decode_words. case_decide; [by intros [= <-]|done]. Qed.

(** No byte reads as a negative number. *)
Lemma word_at_nonneg b i : 0 ≤ word_at b i.
Proof.
  unfold word_at, H256_from_slice. generalize (reverse (take 16 (drop (16 * i) b))) as l.
  intros l. assert (∀ n, 0 ≤ n → 0 ≤ foldl (λ acc x, acc * 256 + byte_val x) n l) as Hl;
    [|apply Hl; lia].
  induction l as [|x l IH]; intros n Hn; simpl; [done|]. apply IH.
  unfold byte_val. lia.
Qed.

(** The migration writes one key; it panics where overflow is checked and the balance does
    not take the credit. *)
Lemma web3_credit_eq s :
  web3_credit s =
  if overflow_checks && negb (credit_fits (s !! sk)) then Panic
  else Ret (<[sk := encode_words (credited_words (s !! sk))]> s).
Proof.
  unfold web3_credit, credit_fits, credited_words.
  destruct ((s !! sk) ≫= decode_words) as [l|] eqn:Hr; [|by rewrite andb_false_r].
  assert (length l = 5%nat) as Hlen.
  { apply bind_Some in Hr as (b & _ & Hb). by eapply decode_words_length. }
  destruct l as [|a0 [|a1 [|a2 [|a3 [|a4 [|]]]]]]; try discriminate Hlen.
  assert (0 ≤ a1) as Ha1.
  { apply bind_Some in Hr as (b & _ & Hb). unfold decode_words in Hb.
    case_decide; [|done]. injection Hb as _ <- _ _ _. apply word_at_nonneg. }
  assert (0 < to_credit) by done. unfold add_w.
  destruct (Z.ltb_spec (a1 + to_credit) (2 ^ 128)).
  - rewrite andb_false_r. by rewrite Z.mod_small by lia.
  - by destruct overflow_checks.
Qed.

(** A record that takes the credit is the account with the credit. *)
Lemma credited_account a :
  account_ok a → free a + to_credit < 2 ^ 128 →
  encode_words (credited_words (Some (account_bytes a))) = account_bytes (credited a to_credit).
Proof.
  intros Hok Hlt. unfold credited_words. cbn [mbind option_bind]. rewrite decode_account by done.
  unfold account_words at 1, account_bytes, credited. do 3 f_equal. simpl.
  assert (0 < to_credit) by done. rewrite Z.mod_small; [done|].
  destruct Hok as [_ Hf]. apply Forall_cons in Hf as [Hf _]. lia.
Qed.

End credit.

(** ** The preferences of validators: [staking_migration_v5] *)

Record OldValidatorPrefs := mkOldPrefs { old_commission : Z }.
Record ValidatorPrefs := mkPrefs { commission : Z; blocked : bool }.

(** [Default] for the other field. *)
Definition upgraded (p : OldValidatorPrefs) : ValidatorPrefs := mkPrefs (old_commission p) false.

(** A chain's storage: what the migrations of the repository touch, and the rest. *)
Record Chain (Other : Type) := mkChain {
  raw : Storage;
  versions : gmap string Z;
  Validators : gmap Z bytes;
  ErasValidatorPrefs : gmap Z bytes;
  others : Other;
}.
Arguments mkChain {_}. Arguments raw {_}. Arguments versions {_}. Arguments Validators {_}.
Arguments ErasValidatorPrefs {_}. Arguments others {_}.

(** The codec of a compact number, and [translate] of a storage map, which replaces
    each value that decodes by the function's result. *)
Class StakingStorage := {
  compact_encode : Z → bytes;
  compact_decode : bytes → option (Z * bytes);
  translate : (bytes → option OldValidatorPrefs) → (OldValidatorPrefs → option bytes) →
    gmap Z bytes → gmap Z bytes;
  compact_decode_encode c rest :
    0 ≤ c → compact_decode (compact_encode c ++ rest) = Some (c, rest);
  translate_decoded dec f m k v p :
    m !! k = Some v → dec v = Some p → translate dec f m !! k = f p;
  translate_absent dec f m k : m !! k = None → translate dec f m !! k = None;
}.

Section staking.
Context `{!StakingStorage} {Other : Type}.

(** The derived codecs: a decoder reads the fields and leaves what follows. *)
Definition decode_old (b : bytes) : option OldValidatorPrefs :=
  '(c, _) ← compact_decode b; Some (mkOldPrefs c).
Definition encode_old (p : OldValidatorPrefs) : bytes := compact_encode (old_commission p).
Definition encode_prefs (p : ValidatorPrefs) : bytes :=
  compact_encode (commission p) ++ [if blocked p then Byte.x01 else Byte.x00].

Definition put_version (pallet : string) (v : Z) (ch : Chain Other) : Chain Other :=
  mkChain (raw ch) (<[pallet := v]> (versions ch)) (Validators ch) (ErasValidatorPrefs ch)
    (others ch).

Definition staking_migrate_v5 (ch : Chain Other) : Chain Other * Z :=
  let up m := translate decode_old (λ p, Some (encode_prefs (upgraded p))) m in
  (put_version "Staking" 5
     (mkChain (raw ch) (versions ch) (up (Validators ch)) (up (ErasValidatorPrefs ch))
        (others ch)), 0).

Lemma decode_old_encode p : 0 ≤ old_commission p → decode_old (encode_old p) = Some p.
Proof.
  intros Hp. unfold decode_old, encode_old. rewrite <-(app_nil_r (compact_encode _)).
  rewrite compact_decode_encode by done. by destruct p.
Qed.
Lemma decode_old_prefs p :
  0 ≤ commission p → decode_old (encode_prefs p) = Some (mkOldPrefs (commission p)).
Proof. intros Hp. unfold decode_old, encode_prefs. by rewrite compact_decode_encode. Qed.

(** Preferences of the old format keep their commission and do not block; those of
    the new format are read as old ones, so a validator that blocks nominations
    is unblocked when the migration runs again. *)
Lemma staking_v5_prefs ch k :
  (∀ p, 0 ≤ old_commission p → Validators ch !! k = Some (encode_old p) →
     Validators (staking_migrate_v5 ch).1 !! k =
     Some (encode_prefs (mkPrefs (old_commission p) false))) ∧
  (∀ p, 0 ≤ commission p → Validators ch !! k = Some (encode_prefs p) →
     Validators (staking_migrate_v5 ch).1 !! k =
     Some (encode_prefs (mkPrefs (commission p) false))) ∧
  (Validators ch !! k = None → Validators (staking_migrate_v5 ch).1 !! k = None).
Proof.
  split_and!.
  - intros p Hp Hk. simpl.
    by erewrite translate_decoded by (exact Hk || by apply decode_old_encode).
  - intros p Hp Hk. simpl.
    by erewrite translate_decoded by (exact Hk || by apply decode_old_prefs).
  - intros Hk. simpl. by apply translate_absent.
Qed.

End staking.

(** ** All migrations *)

Definition OLD_CANDIDACY_BOND : Z := 1000 * DOLLARS.
Definition OLD_VOTING_BOND : Z := 10 * DOLLARS.
Definition COUNCIL_OLD_PREFIX : string := "Instance1Collective".
Definition BOUNTIES_OLD_PREFIX : string := "Treasury".
Definition TIPS_OLD_PREFIX : string := "Treasury".

(** The migrations of the framework: each changes the storage and returns its
    weight. *)
Record PalletMigrations (Other : Type) := mkPalletMigrations {
  migrate_from_pallet_version_to_storage_version : Chain Other → Chain Other * Z;
  phragmen_v3_apply : Z → Z → Chain Other → Chain Other * Z;
  staking_v6 : Chain Other → Chain Other * Z;
  staking_v7 : Chain Other → Chain Other * Z;
  staking_v8 : Chain Other → Chain Other * Z;
  inject_validators_into_voter_list : Chain Other → Chain Other * Z;
  migrate_from_single_to_triple_ref_count : Chain Other → Chain Other * Z;
  remove_deferred_storage : Chain Other → Chain Other * Z;
  collective_v4 : string → Chain Other → Chain Other * Z;
  bounties_v4 : string → string → Chain Other → Chain Other * Z;
  tips_v4 : string → Chain Other → Chain Other * Z;
  scheduler_migrate_v1_to_v3 : Chain Other → Chain Other * Z;
  contracts_migrate : Chain Other → Chain Other * Z;
}.
Arguments mkPalletMigrations {_}.

(** The checks of the framework for try-runtime, which panic when they fail, or report. *)
Record PalletChecks (Other : Type) := mkPalletChecks {
  collective_pre_migrate : string → Chain Other → outcome unit;
  collective_post_migrate : string → Chain Other → outcome unit;
  bounties_pre_migration : string → string → Chain Other → outcome unit;
  bounties_post_migration : string → string → Chain Other → outcome unit;
  tips_pre_migrate : string → Chain Other → outcome unit;
  tips_post_migrate : string → Chain Other → outcome unit;
  pre_migrate_to_v3 : Chain Other → result unit string;
  post_migrate_to_v3 : Chain Other → result unit string;
}.
Arguments mkPalletChecks {_}.

(** [OnRuntimeUpgrade]; the checks are those of try-runtime. *)
Record OnRuntimeUpgrade (Other : Type) := mkOnRuntimeUpgrade {
  on_runtime_upgrade : Chain Other → outcome (Chain Other * Z);
  pre_upgrade : Chain Other → outcome (result unit string);
  post_upgrade : Chain Other → outcome (result unit string);
}.
Arguments mkOnRuntimeUpgrade {_}. Arguments on_runtime_upgrade {_}.
Arguments pre_upgrade {_}. Arguments post_upgrade {_}.

(** A migration that does not define checks has those of the trait, which pass. *)
Definition unchecked {Other} (m : Chain Other → outcome (Chain Other * Z)) :
    OnRuntimeUpgrade Other :=
  mkOnRuntimeUpgrade m (λ _, Ret (Ok tt)) (λ _, Ret (Ok tt)).

(** The name of [Bounties] in [construct_runtime!]. *)
Definition bounties_name : option string := Some "Bounties"%string.

Section upgrade.
Context `{!BuildProfile, !StakingStorage} {Other : Type} (M : PalletMigrations Other).
Context (checks : PalletChecks Other).
Context (blake2_128 : list Z → list Z).
Implicit Type (acc : Chain Other * Z).

(** [weight += migration]. *)
Definition step (m : Chain Other → outcome (Chain Other * Z)) (acc : Chain Other * Z) :
    outcome (Chain Other * Z) :=
  '(ch, w) ← m acc.1;
  weight ← add_u64 acc.2 w;
  Ret (ch, weight).

Definition MigratePalletVersionToStorageVersion : OnRuntimeUpgrade Other :=
  unchecked (λ ch, Ret (migrate_from_pallet_version_to_storage_version _ M ch)).

Definition PhragmenElectionDepositRuntimeUpgrade : OnRuntimeUpgrade Other :=
  unchecked (λ ch, Ret (phragmen_v3_apply _ M OLD_VOTING_BOND OLD_CANDIDACY_BOND ch)).

Definition AllStakingMigrations : OnRuntimeUpgrade Other :=
  unchecked (λ ch,
    acc ← step (λ ch, Ret (staking_migrate_v5 ch)) (ch, 0);
    acc ← step (λ ch, Ret (staking_v6 _ M ch)) acc;
    acc ← step (λ ch, Ret (staking_v7 _ M ch)) acc;
    acc ← step (λ ch, Ret (staking_v8 _ M ch)) acc;
    step (λ ch, Ret (inject_validators_into_voter_list _ M ch)) acc).

Definition SystemToTripleRefCount : OnRuntimeUpgrade Other :=
  unchecked (λ ch, Ret (migrate_from_single_to_triple_ref_count _ M ch)).

Definition OffencesDelayCleaningMigration : OnRuntimeUpgrade Other :=
  unchecked (λ ch, Ret (remove_deferred_storage _ M ch)).

Definition CouncilStoragePrefixMigration : OnRuntimeUpgrade Other := {|
  on_runtime_upgrade ch := Ret (collective_v4 _ M COUNCIL_OLD_PREFIX ch);
  pre_upgrade ch := _ ← collective_pre_migrate _ checks COUNCIL_OLD_PREFIX ch; Ret (Ok tt);
  post_upgrade ch := _ ← collective_post_migrate _ checks COUNCIL_OLD_PREFIX ch; Ret (Ok tt) |}.

(** [PalletInfo::name::<Bounties>().expect(..)]. *)
Definition name_of_bounties : outcome string :=
  match bounties_name with Some name => Ret name | None => Panic end.

Definition BountiesPrefixMigration : OnRuntimeUpgrade Other := {|
  on_runtime_upgrade ch :=
    name ← name_of_bounties; Ret (bounties_v4 _ M BOUNTIES_OLD_PREFIX name ch);
  pre_upgrade ch :=
    name ← name_of_bounties;
    _ ← bounties_pre_migration _ checks BOUNTIES_OLD_PREFIX name ch;
    Ret (Ok tt);
  post_upgrade ch :=
    name ← name_of_bounties;
    _ ← bounties_post_migration _ checks BOUNTIES_OLD_PREFIX name ch;
    Ret (Ok tt) |}.

Definition TipsPalletPrefixMigration : OnRuntimeUpgrade Other := {|
  on_runtime_upgrade ch := Ret (tips_v4 _ M TIPS_OLD_PREFIX ch);
  pre_upgrade ch := _ ← tips_pre_migrate _ checks TIPS_OLD_PREFIX ch; Ret (Ok tt);
  post_upgrade ch := _ ← tips_post_migrate _ checks TIPS_OLD_PREFIX ch; Ret (Ok tt) |}.

Definition SchedulerMigrationV3 : OnRuntimeUpgrade Other := {|
  on_runtime_upgrade ch := Ret (scheduler_migrate_v1_to_v3 _ M ch);
  pre_upgrade ch := Ret (pre_migrate_to_v3 _ checks ch);
  post_upgrade ch := Ret (post_migrate_to_v3 _ checks ch) |}.

Definition AllContractsMigrations : OnRuntimeUpgrade Other :=
  unchecked (λ ch, Ret ((contracts_migrate _ M ch).1, 0)).

Definition set_raw (s : Storage) (ch : Chain Other) : Chain Other :=
  mkChain s (versions ch) (Validators ch) (ErasValidatorPrefs ch) (others ch).

Definition Web3AccountCreditMigration : OnRuntimeUpgrade Other :=
  unchecked (λ ch, s ← web3_credit blake2_128 (raw ch); Ret (set_raw s ch, 0)).

(** [StorageVersion::new(0).put()] before a migration. *)
Definition reset (pallet : string) (acc : Chain Other * Z) : Chain Other * Z :=
  (put_version pallet 0 acc.1, acc.2).

Definition AllEdgewareMigrations : OnRuntimeUpgrade Other :=
  unchecked (λ ch,
    acc ← step (on_runtime_upgrade MigratePalletVersionToStorageVersion) (ch, 0);
    acc ← step (on_runtime_upgrade PhragmenElectionDepositRuntimeUpgrade)
            (reset "PhragmenElection" acc);
    acc ← step (on_runtime_upgrade AllStakingMigrations) acc;
    acc ← step (on_runtime_upgrade SystemToTripleRefCount) acc;
    acc ← step (on_runtime_upgrade OffencesDelayCleaningMigration) acc;
    acc ← step (on_runtime_upgrade CouncilStoragePrefixMigration) (reset "Council" acc);
    acc ← step (on_runtime_upgrade BountiesPrefixMigration) (reset "Bounties" acc);
    acc ← step (on_runtime_upgrade TipsPalletPrefixMigration) (reset "Tips" acc);
    acc ← step (on_runtime_upgrade SchedulerMigrationV3) acc;
    acc ← step (on_runtime_upgrade AllContractsMigrations) acc;
    step (on_runtime_upgrade Web3AccountCreditMigration) acc).

(** A chain that is upgraded [n] times by runtimes with these migrations. *)
Fixpoint upgrades (n : nat) (ch : Chain Other) : outcome (Chain Other) :=
  match n with
  | O => Ret ch
  | S n => acc ← on_runtime_upgrade AllEdgewareMigrations ch; upgrades n acc.1
  end.

(** *** Theorems *)

(** The migrations before the credit, in their order, each with its weight. *)
Definition migrations : list (Chain Other → Chain Other * Z) :=
  [migrate_from_pallet_version_to_storage_version _ M;
   λ ch, phragmen_v3_apply _ M OLD_VOTING_BOND OLD_CANDIDACY_BOND
           (put_version "PhragmenElection" 0 ch);
   staking_migrate_v5; staking_v6 _ M; staking_v7 _ M; staking_v8 _ M;
   inject_validators_into_voter_list _ M;
   migrate_from_single_to_triple_ref_count _ M; remove_deferred_storage _ M;
   λ ch, collective_v4 _ M COUNCIL_OLD_PREFIX (put_version "Council" 0 ch);
   λ ch, bounties_v4 _ M BOUNTIES_OLD_PREFIX "Bounties" (put_version "Bounties" 0 ch);
   λ ch, tips_v4 _ M TIPS_OLD_PREFIX (put_version "Tips" 0 ch);
   scheduler_migrate_v1_to_v3 _ M;
   λ ch, ((contracts_migrate _ M ch).1, 0)].

(** The chain after migrations, and the sum of their weights. *)
Fixpoint run_all (ms : list (Chain Other → Chain Other * Z)) (ch : Chain Other) :
    Chain Other * Z :=
  match ms with
  | [] => (ch, 0)
  | m :: ms => let r := run_all ms (m ch).1 in (r.1, (m ch).2 + r.2)
  end.

(** The chain after an upgrade. *)
Definition upgraded_chain (ch : Chain Other) : Chain Other :=
  let mid := (run_all migrations ch).1 in
  set_raw (<[sk blake2_128 := encode_words (credited_words (raw mid !! sk blake2_128))]> (raw mid))
    mid.

(** The sums of an upgrade fit their width. *)
Definition upgrade_fits (ch : Chain Other) : bool :=
  ((run_all migrations ch).2 <? 2 ^ 64) &&
  credit_fits (raw (run_all migrations ch).1 !! sk blake2_128).

(** A sum of weights in 64 bits. *)
Definition weighed (x : Chain Other * Z) : outcome (Chain Other * Z) :=
  if x.2 <? 2 ^ 64 then Ret x
  else if overflow_checks then Panic else Ret (x.1, x.2 mod 2 ^ 64).

Lemma step_weighed m ch x w {B} (K : Chain Other * Z → outcome B) :
  m ch = weighed x → 0 ≤ x.2 → 0 ≤ w →
  weighed (ch, w) ≫= (λ acc, step m acc ≫= K) = weighed (x.1, w + x.2) ≫= K.
Proof.
  intros Hm Hx Hw. unfold weighed at 1 2, step. cbn [fst snd].
  destruct (Z.ltb_spec w (2 ^ 64)), (Z.ltb_spec (w + x.2) (2 ^ 64)); try lia;
    cbn [mbind outcome_bind fst]; rewrite ?Hm; unfold weighed, add_w; cbn [fst snd].
  - rewrite (proj2 (Z.ltb_lt x.2 _)) by lia. destruct x as [c v]; cbn [mbind outcome_bind fst snd] in *.
    by rewrite (proj2 (Z.ltb_lt (w + v) _)) by lia.
  - destruct x as [c v]; cbn [fst snd] in *. destruct (Z.ltb_spec v (2 ^ 64)).
    + cbn [mbind outcome_bind]. rewrite (proj2 (Z.ltb_ge (w + v) _)) by lia.
      by destruct overflow_checks.
    + destruct overflow_checks; [done|]. cbn [mbind outcome_bind].
      rewrite <-(Z.add_mod_idemp_r w v) by done.
      case_match eqn:E; [|done]. cbn [mbind outcome_bind]. apply Z.ltb_lt in E.
      pose proof (Z.mod_pos_bound v (2 ^ 64) ltac:(done)). by rewrite (Z.mod_small (w + _)) by lia.
  - destruct overflow_checks eqn:Hoc; [done|]. cbn [mbind outcome_bind fst]. rewrite Hm.
    unfold weighed. rewrite Hoc.
    assert (∀ b, b = x.2 ∨ b = x.2 mod 2 ^ 64 → 0 ≤ b →
      (weight ← add_u64 (w mod 2 ^ 64) b; Ret (x.1, weight)) ≫= K =
      K (x.1, (w + x.2) mod 2 ^ 64)) as Hadd.
    { intros b Hb Hpos. unfold add_w. rewrite Hoc.
      assert ((w mod 2 ^ 64 + b) mod 2 ^ 64 = (w + x.2) mod 2 ^ 64) as E.
      { rewrite Z.add_mod_idemp_l by done. destruct Hb as [-> | ->]; [done|].
        by rewrite Z.add_mod_idemp_r by done. }
      pose proof (Z.mod_pos_bound w (2 ^ 64) ltac:(done)).
      destruct (Z.ltb_spec (w mod 2 ^ 64 + b) (2 ^ 64)); cbn [mbind outcome_bind].
      - rewrite <-E. by rewrite (Z.mod_small (_ + b)) by lia.
      - by rewrite E. }
    unfold add_w in Hadd. rewrite Hoc in Hadd.
    destruct (Z.ltb_spec x.2 (2 ^ 64)); cbn [mbind outcome_bind fst snd].
    + destruct x as [c v]. apply Hadd; [by left|done].
    + apply Hadd; [by right|]. by apply Z.mod_pos_bound.
Qed.

(** The migrations of a list, in [weight +=], and what follows them. *)
Fixpoint steps {B} (ms : list (Chain Other → Chain Other * Z)) (acc : Chain Other * Z)
    (K : Chain Other * Z → outcome B) : outcome B :=
  match ms with
  | [] => K acc
  | m :: ms => acc ← step (λ ch, Ret (m ch)) acc; steps ms acc K
  end.

(** Weights have 64 bits. *)
Definition weights_ok (ms : list (Chain Other → Chain Other * Z)) : Prop :=
  Forall (λ m, ∀ ch, 0 ≤ (m ch).2 < 2 ^ 64) ms.

Lemma run_all_nonneg ms ch : weights_ok ms → 0 ≤ (run_all ms ch).2.
Proof.
  intros Hms. revert ch. induction Hms as [|m ms Hm Hms IH]; intros ch; simpl; [done|].
  specialize (Hm ch). specialize (IH (m ch).1). lia.
Qed.

Lemma run_all_app ms1 ms2 ch :
  run_all (ms1 ++ ms2) ch =
  ((run_all ms2 (run_all ms1 ch).1).1,
   (run_all ms1 ch).2 + (run_all ms2 (run_all ms1 ch).1).2).
Proof.
  revert ch. induction ms1 as [|m ms1 IH]; intros ch; simpl.
  - by destruct (run_all ms2 ch).
  - rewrite IH. simpl. f_equal. lia.
Qed.

Lemma steps_weighed ms ch w {B} (K : Chain Other * Z → outcome B) :
  weights_ok ms → 0 ≤ w →
  weighed (ch, w) ≫= (λ acc, steps ms acc K) =
  weighed ((run_all ms ch).1, w + (run_all ms ch).2) ≫= K.
Proof.
  intros Hms. revert ch w. induction Hms as [|m ms Hm Hms IH]; intros ch w Hw.
  { cbn [run_all fst snd]. by rewrite Z.add_0_r. }
  cbn [steps run_all fst snd]. rewrite Z.add_assoc. specialize (Hm ch).
  rewrite <-IH by lia. apply step_weighed; [|lia|done].
  unfold weighed. by rewrite (proj2 (Z.ltb_lt _ _)) by lia.
Qed.

Definition staking_migrations : list (Chain Other → Chain Other * Z) :=
  [staking_migrate_v5; staking_v6 _ M; staking_v7 _ M; staking_v8 _ M;
   inject_validators_into_voter_list _ M].

Lemma bind_Ret_r {A} (m : outcome A) : m ≫= Ret = m.
Proof. by destruct m. Qed.

Lemma staking_weighed ch :
  weights_ok staking_migrations →
  on_runtime_upgrade AllStakingMigrations ch = weighed (run_all staking_migrations ch).
Proof.
  intros Hw. pose proof (steps_weighed staking_migrations ch 0 Ret Hw) as Hs.
  rewrite bind_Ret_r, <-surjective_pairing in Hs. rewrite <-Hs by lia.
  change (weighed (ch, 0)) with (Ret (ch, 0)). rewrite bind_Ret.
  cbn [on_runtime_upgrade AllStakingMigrations unchecked steps staking_migrations].
  do 4 (destruct (step _ _); [rewrite !bind_Ret|done]). by rewrite bind_Ret_r.
Qed.

(** An upgrade is the migrations in their order, with the sum of their weights, and the
    credit. *)
Lemma upgrade_weighed ch :
  weights_ok migrations →
  on_runtime_upgrade AllEdgewareMigrations ch =
  weighed (run_all migrations ch) ≫= step (on_runtime_upgrade Web3AccountCreditMigration).
Proof.
  intros Hw.
  change migrations with (take 2 migrations ++ staking_migrations ++ drop 7 migrations) in *.
  apply Forall_app in Hw as [H1 [H2 H3]%Forall_app].
  rewrite !run_all_app. cbn [fst snd]. set (ch1 := (run_all (take 2 _) ch).1).
  set (ch2 := (run_all staking_migrations ch1).1).
  rewrite (Z.add_assoc _ (run_all staking_migrations ch1).2).
  rewrite <-(steps_weighed (drop 7 migrations) ch2) by
    (try done; pose proof (run_all_nonneg _ ch H1); pose proof (run_all_nonneg _ ch1 H2); lia).
  unfold ch2. rewrite <-(step_weighed (on_runtime_upgrade AllStakingMigrations) ch1)
    by (try (by apply staking_weighed); by apply run_all_nonneg).
  unfold ch1. rewrite <-(Z.add_0_l (run_all (take 2 migrations) ch).2).
  rewrite <-steps_weighed by done. reflexivity.
Qed.

Lemma upgrade_eq ch :
  weights_ok migrations →
  on_runtime_upgrade AllEdgewareMigrations ch =
  if overflow_checks && negb (upgrade_fits ch) then Panic
  else Ret (upgraded_chain ch, (run_all migrations ch).2 mod 2 ^ 64).
Proof.
  intros Hw. rewrite upgrade_weighed by done. pose proof (run_all_nonneg _ ch Hw) as Hpos.
  unfold upgrade_fits, upgraded_chain, weighed.
  destruct (run_all migrations ch) as [mid w]. cbn [fst snd] in *.
  assert (∀ v, 0 ≤ v < 2 ^ 64 →
    step (on_runtime_upgrade Web3AccountCreditMigration) (mid, v) =
    if overflow_checks && negb (credit_fits (raw mid !! sk blake2_128)) then Panic
    else Ret (set_raw (<[sk blake2_128 := encode_words (credited_words (raw mid !! sk blake2_128))]>
                (raw mid)) mid, v)) as Hcredit.
  { intros v Hv. unfold step.
    cbn [on_runtime_upgrade Web3AccountCreditMigration unchecked fst snd].
    rewrite web3_credit_eq. destruct (_ && _); [done|]. rewrite !bind_Ret.
    by rewrite add_w_ok, bind_Ret, Z.add_0_r by lia. }
  destruct (Z.ltb_spec w (2 ^ 64)).
  - rewrite bind_Ret, Hcredit, andb_true_l, Z.mod_small by lia. done.
  - rewrite andb_false_l. destruct overflow_checks eqn:Hoc; [done|]. rewrite bind_Ret.
    rewrite Hcredit by by apply Z.mod_pos_bound. done.
Qed.

(** The checks of the single migrations are not among those of the migration the runtime
    executes, which pass whatever they say. *)
Lemma checks_not_run ch :
  pre_upgrade AllEdgewareMigrations ch = Ret (Ok tt) ∧
  post_upgrade AllEdgewareMigrations ch = Ret (Ok tt).
Proof. done. Qed.

(** C40: nothing records that the credit was given.  Every upgrade of a runtime with these
    migrations runs the framework's migrations in their order, whatever these do to the
    storage, and then adds the credit to the record of the account that they leave: [n]
    upgrades do so [n] times, and always complete where overflow is not checked.  The credit
    adds 150 million EDG to the free balance and changes nothing else of the account, an
    account that does not exist gets that balance and one provider, and no other key is
    written, so that the total issuance is not raised.  The weight of an upgrade is the sum of
    the weights in 64 bits; where overflow is checked, an upgrade panics exactly if that sum
    or the balance does not fit. *)
Theorem upgrades_credit n ch :
  weights_ok migrations →
  (overflow_checks = false ∨
   ∀ i, (i < n)%nat → upgrade_fits (Nat.iter i upgraded_chain ch) = true) →
  upgrades n ch = Ret (Nat.iter n upgraded_chain ch) ∧
  (∀ c, let mid := (run_all migrations c).1 in let c' := upgraded_chain c in
     (∀ a, raw mid !! sk blake2_128 = Some (account_bytes a) → account_ok a →
        free a + to_credit < 2 ^ 128 →
        raw c' !! sk blake2_128 = Some (account_bytes (credited a to_credit))) ∧
     (raw mid !! sk blake2_128 = None →
        raw c' !! sk blake2_128 = Some (account_bytes (mkAccount 0 0 1 0 to_credit 0 0 0))) ∧
     (∀ k, k ≠ sk blake2_128 → raw c' !! k = raw mid !! k)) ∧
  (∀ c, on_runtime_upgrade AllEdgewareMigrations c =
     if overflow_checks && negb (upgrade_fits c) then Panic
     else Ret (upgraded_chain c, (run_all migrations c).2 mod 2 ^ 64)).
Proof.
  intros Hw Hfits. split; [|split; [|intros c; by apply upgrade_eq]].
  - revert ch Hfits. induction n as [|n IH]; intros ch Hfits; [done|].
    cbn [upgrades]. rewrite upgrade_eq by done. rewrite Nat.iter_succ_r.
    assert (overflow_checks && negb (upgrade_fits ch) = false) as ->.
    { destruct Hfits as [->|Hfits]; [done|]. pose proof (Hfits 0%nat ltac:(lia)) as H0'.
      cbn [Nat.iter nat_rect] in H0'. by rewrite H0', andb_false_r. }
    rewrite bind_Ret. cbn [fst]. apply IH. destruct Hfits as [?|Hfits]; [by left|right].
    intros i Hi. rewrite <-Nat.iter_succ_r. apply Hfits. lia.
  - intros c mid c'. unfold c', upgraded_chain. fold mid. cbn [set_raw raw]. split_and!.
    + intros a Ha Hok Hlt. rewrite lookup_insert_eq, Ha. f_equal. by apply credited_account.
    + intros Ha. by rewrite lookup_insert_eq, Ha.
    + intros k Hk. by rewrite lookup_insert_ne.
Qed.

End upgrade.

(** ** Witness *)

Module MigrationsExample.
Definition id_migration (ch : Chain unit) : Chain unit * Z := (ch, 1000).
(** A migration of the largest weight. *)
Definition heavy (ch : Chain unit) : Chain unit * Z := (ch, 2 ^ 64 - 1).
Definition M : PalletMigrations unit :=
  mkPalletMigrations id_migration (λ _ _, id_migration) id_migration id_migration id_migration
    id_migration heavy id_migration (λ _, id_migration) (λ _ _, id_migration)
    (λ _, id_migration) id_migration id_migration.
(** Checks that fail. *)
Definition failing : PalletChecks unit :=
  mkPalletChecks (λ _ _, Panic) (λ _ _, Panic) (λ _ _ _, Panic) (λ _ _ _, Panic)
    (λ _ _, Panic) (λ _ _, Panic) (λ _, Err "no"%string) (λ _, Err "no"%string).
Definition blake2_128 (b : list Z) : list Z := replicate 16 7.
Definition account : AccountInfo := mkAccount 3 0 1 0 50 0 0 0.
Definition chain : Chain unit :=
  mkChain {[sk blake2_128 := account_bytes account]} ∅
    {[5 := [Byte.x2a; Byte.x01]]} ∅ tt.
End MigrationsExample.

(** A codec of numbers in unary. *)
Fixpoint unary_decode (b : bytes) : option (Z * bytes) :=
  match b with
  | Byte.x00 :: rest => Some (0, rest)
  | Byte.x01 :: b => '(c, rest) ← unary_decode b; Some (c + 1, rest)
  | _ => None
  end.

Lemma unary_decode_encode n rest :
  unary_decode (replicate n Byte.x01 ++ Byte.x00 :: rest) = Some (Z.of_nat n, rest).
Proof.
  induction n as [|n IH]; [done|]. simpl. rewrite IH. simpl. do 2 f_equal. lia.
Qed.

#[global] Instance unary_storage : StakingStorage.
Proof.
  refine {|
    compact_encode c := replicate (Z.to_nat c) Byte.x01 ++ [Byte.x00];
    compact_decode := unary_decode;
    translate dec f m := omap (λ v, match dec v with Some p => f p | None => Some v end) m |}.
  - intros c rest Hc. rewrite <-app_assoc. simpl. rewrite unary_decode_encode.
    by rewrite Z2Nat.id.
  - intros dec f m k v p Hk Hp. by rewrite lookup_omap, Hk; simpl; rewrite Hp.
  - intros dec f m k Hk. by rewrite lookup_omap, Hk.
Defined.

Lemma weights_example : weights_ok (migrations (H0 := unary_storage) MigrationsExample.M).
Proof. repeat constructor; simpl; lia. Qed.

Lemma upgrades_credit_witness :
  ∃ ch', @upgrades release unary_storage unit MigrationsExample.M MigrationsExample.failing
      MigrationsExample.blake2_128 2 MigrationsExample.chain = Ret ch' ∧
    raw ch' !! sk MigrationsExample.blake2_128 =
      Some (account_bytes (credited MigrationsExample.account (2 * to_credit))) ∧
    @on_runtime_upgrade unit (@AllEdgewareMigrations dev unary_storage unit MigrationsExample.M
      MigrationsExample.failing MigrationsExample.blake2_128) MigrationsExample.chain = Panic.
Proof.
  destruct (@upgrades_credit release unary_storage unit MigrationsExample.M
    MigrationsExample.failing MigrationsExample.blake2_128 2 MigrationsExample.chain
    weights_example (or_introl eq_refl)) as (Hrun & _ & _).
  destruct (@upgrades_credit dev unary_storage unit MigrationsExample.M
    MigrationsExample.failing MigrationsExample.blake2_128 0 MigrationsExample.chain
    weights_example (or_intror (λ i Hi, False_ind _ (Nat.nlt_0_r i Hi)))) as (_ & _ & Hdev).
  eexists. split; [exact Hrun|]. split; [vm_compute; reflexivity|].
  rewrite (Hdev MigrationsExample.chain). vm_compute. reflexivity.
Defined.
