(* ===== verification/BuildScripts.v ===== *)
(** * Build scripts: build.rs, node/runtime/build.rs and node/cli/build.rs

    What the scripts tell cargo, and the steps of the builder of the wasm blob. *)

From stdpp Require Import base tactics list strings.
From S2P Require Import Prelude.

(** ** build.rs *)

(** What a script prints for cargo. *)
Inductive CargoLine :=
| RerunIfChanged (path : list string)
| CargoWarning (message : string).

(** An absolute path is the list of its components, the last one first; the root has none,
    and no parent. *)
Abbreviation PathBuf := (list string).
Definition git_head (p : PathBuf) : list string := rev p ++ [".git"; "HEAD"]%string.

Section build.
(** Whether a file exists. *)
Context (exists_file : list string → bool).

(** The loop, while the directory has a parent. *)
Fixpoint find_git_head (manifest_dir : PathBuf) : CargoLine :=
  match manifest_dir with
  | [] => CargoWarning "Could not find `.git/HEAD` from manifest dir!"
  | _ :: up =>
      if exists_file (git_head manifest_dir) then RerunIfChanged (git_head manifest_dir)
      else find_git_head up
  end.

(** [main]: without the keys or the directory of the manifest the build fails. *)
Definition build_main (keys_generated : bool) (manifest_dir : option PathBuf) :
    outcome CargoLine :=
  if keys_generated then
    match manifest_dir with
    | Some dir => Ret (find_git_head dir)
    | None => Panic
    end
  else Panic.

(** The script watches the head of the nearest directory above the manifest, itself included
    and the root excluded, that has one, and warns when there is none. *)
Theorem build_main_nearest dir :
  (∃ sub d, dir = sub ++ d ∧ d ≠ [] ∧ exists_file (git_head d) = true ∧
     (∀ sub1 sub2, sub = sub1 ++ sub2 → sub2 ≠ [] → exists_file (git_head (sub2 ++ d)) = false) ∧
     build_main true (Some dir) = Ret (RerunIfChanged (git_head d))) ∨
  ((∀ sub d, dir = sub ++ d → d ≠ [] → exists_file (git_head d) = false) ∧
   ∃ m, build_main true (Some dir) = Ret (CargoWarning m)).
Proof.
  induction dir as [|c up IH].
  { right. split; [|by eexists]. intros sub d Hd Hne. by destruct sub; simplify_eq/=. }
  simpl. destruct (exists_file (git_head (c :: up))) eqn:He.
  - left. exists [], (c :: up). split_and!; try done. intros sub1 sub2 Hs Hne.
    symmetry in Hs. by apply app_nil in Hs as [_ ->].
  - destruct IH as [(sub & d & -> & Hd & Hex & Hnear & Hrun)|[Hnone Hrun]].
    + left. exists (c :: sub), d. split_and!; try done.
      intros [|c1 sub1] sub2 Hs Hne; simplify_eq/=; [done|]. by eapply Hnear.
    + right. split; [|done]. intros [|c1 sub] d Hs Hne; simplify_eq/=; [done|]. by eapply Hnone.
Qed.

End build.

(** ** node/runtime/build.rs and node/cli/build.rs *)

Inductive WasmBuilderStep := with_current_project | export_heap_base | import_memory | build.
Definition runtime_build_main : list WasmBuilderStep :=
  [with_current_project; export_heap_base; import_memory; build].

(** With the feature [cli], the script asks for a rebuild when the head changes. *)
Definition cli_build_main (feature_cli : bool) (rerun_if_git_head_changed : list CargoLine) :
    list CargoLine :=
  if feature_cli then rerun_if_git_head_changed else [].
